(** * Metasyncer of the AIStore gateway: a shallow embedding

    The development follows the metasyncer of package [ais] ([metasync.go]:
    [sync], [notify], [becomeNonPrimary], [doSync], [syncDone],
    [handleRefused], [pending], [handlePending], [checkPrimary],
    [lversion], [countNewMembers] and the [Run] loop), the broadcaster of
    its http runner ([broadcastTo], [broadcast]) and the network-plane
    selection of [cmn/config.go] ([LoadConfig]).

    Go maps are [gmap]s; a [range] over a map visits [map_to_list] of it.
    The metasyncer is a single goroutine, so its code is a state-passing
    computation over a [World]: the metasyncer's own fields, the trace of
    what it did to the outside (sleeps, broadcasts), the log, and two
    counters that index what the outside answers (the cluster map that
    [smapowner.get()] returns, the outcome of each peer call). A failed
    [cmn.Assert] (a panic) is the result [Fatal]; the world it leaves
    behind is kept, so that one can tell what happened before the abort.
    A send on the full work channel from the goroutine of [Run] itself,
    the only receiver, never completes: that is the result [Blocked].

    Further parts follow the receive side of the http runner
    ([extractSmap], [extractbucketmd]), the registration with the primary
    ([join], [registerToURL], [getPrimaryURLAndSI]) and the configuration
    of package [cmn] ([validateConfig], [ipv4ListsOverlap], [setConfig],
    [SetConfigMany], [LoadConfig]). *)

From Stdlib Require Import ZArith Lia.
From stdpp Require Import gmap strings list fin_maps relations.

Local Open Scope string_scope.
Local Open Scope Z_scope.

(** ** Data model *)

(** REVS tags ([metasync.go], constants). *)
Definition smaptag : string := "smaptag".
Definition bucketmdtag : string := "bucketmdtag".
Definition tokentag : string := "tokentag".
Definition actiontag : string := "-action".

(** The [revs] interface, as the results of its three methods on the object
    it is called on; [marshal] is [None] when it returns an error. An
    in-place update of a published object shows as a different record
    behind the same entry of [last]. *)
Record revs := Revs {
  tag : string;
  version : Z;
  marshal : option string;
}.

(** [actionMsgInternal] with the embedded [cmn.ActionMsg]. *)
Record actionMsgInternal := ActionMsgInternal {
  Action : string;
  Name : string;
  Value : string;
  BMDVersion : Z;
  SmapVersion : Z;
  NewDaemonID : string;
}.

(** [revspair]; the [msgInt] pointer may be nil. *)
Record revspair := Revspair {
  p_revs : revs;
  p_msgInt : option actionMsgInternal;
}.

(** [revsReq]: [wg] and [failedCnt] are pointers, kept as "is it set". *)
Record revsReq := RevsReq {
  pairs : list revspair;
  wg : bool;
  msgInt : option actionMsgInternal;
  failedCnt : bool;
}.

(** [cluster.Snode], with the fields the metasyncer reads. *)
Record Snode := MkSnode {
  DaemonID : string;
  IntraControlURL : string;
}.

(** The cluster map. *)
Record smapX := SmapX {
  Tmap : gmap string Snode;
  Pmap : gmap string Snode;
  ProxySI : option Snode;
  Version : Z;
}.

(** The error of a [callResult], by the three classes the metasyncer tells
    apart: [err == nil], [cmn.IsErrConnectionRefused(err)], anything else. *)
Inductive callErr := NoErr | ErrRefused | ErrOther.

Global Instance callErr_eq_dec : EqDecision callErr.
Proof. solve_decision. Defined.

Record callResult := CallResult {
  si : Snode;
  err : callErr;
}.

Inductive httpMethod := MethodPut | MethodPost.

(** What goes on the wire. [jsoniter.Marshal] of the payload map and of an
    action message is kept abstract: the value itself stands for its JSON. *)
Inductive wireVal :=
| WRevs (js : string)
| WAction (m : actionMsgInternal).

Inductive wireBody :=
| BodyPayload (payload : gmap string wireVal)
| BodyMsg (m : option actionMsgInternal).

Inductive network := NetworkPublic | NetworkIntraControl | NetworkIntraData.

(** [reqArgs] and [bcastCallArgs], with the fields the metasyncer sets. *)
Record reqArgs := ReqArgs {
  method : httpMethod;
  path : string;
  body : wireBody;
}.

Record bcastCallArgs := BcastCallArgs {
  req : reqArgs;
  net : network;
  timeout : Z;
  nodes : list (gmap string Snode);
}.

(** The part of [cmn.Config] the metasyncer reads (durations in
    nanoseconds, [time.Duration] being an int64). *)
Record Config := MkConfig {
  CplaneOperation : Z;
  MaxKeepalive : Z;
  RetrySyncTime : Z;
}.

(** The metasyncer's fields. The timer is the duration it is armed for,
    [None] when it is stopped or has fired. The work channel is the
    requests in its buffer, oldest first, followed by those of the senders
    that wait for room in it (the buffer holds [workChCap] requests; a
    receive moves the request of the longest waiting sender into it). *)
Record metasyncer := Metasyncer {
  revsmap : gmap string (gmap string Z);
  last : gmap string revs;
  lastclone : gmap string string;
  workCh : list revsReq;
  retryTimer : option Z;
  timerStopped : bool;
}.

(** What the metasyncer does to the outside. [EvBcast args called] is one
    invocation of [broadcast]: one call went to each peer of [called]. *)
Inductive Event :=
| EvSleep (d : Z)
| EvBcast (args : bcastCallArgs) (called : list string)
| EvStoreFailedCnt (cnt : nat)
| EvWgDone.

Record World := MkWorld {
  y : metasyncer;
  trace : list Event;
  glog : list string;
  gets : nat;
  bcasts : nat;
}.

(** The surroundings of the metasyncer: its parent's node descriptor
    ([y.p.si]), the configuration ([cmn.GCO.Get()]), the constants of
    package [cmn] it uses, and what the outside answers: the cluster map
    returned by the [k]-th [smapowner.get()], the bucket-metadata version,
    and the error class of the call to a peer in the [k]-th broadcast. *)
Record Env := MkEnv {
  self : Snode;
  config : Config;
  ActRegTarget : string;
  metasyncPath : string;
  smapAt : nat → smapX;
  bmdVersion : Z;
  netCall : nat → string → callErr;
}.

(** ** The computation monad: state and fatal assertions *)

Inductive result (A : Type) :=
| Ok (a : A)
| Fatal (msg : string)
| Blocked.
Arguments Ok {A} a.
Arguments Fatal {A} msg.
Arguments Blocked {A}.

Definition M (A : Type) : Type := World → result A * World.

Definition ret {A} (a : A) : M A := λ w, (Ok a, w).

Definition bind {A B} (c : M A) (k : A → M B) : M B :=
  λ w, match c w with
       | (Ok a, w') => k a w'
       | (Fatal msg, w') => (Fatal msg, w')
       | (Blocked, w') => (Blocked, w')
       end.

Definition fatal {A} (msg : string) : M A := λ w, (Fatal msg, w).

(** The goroutine waits for something that cannot happen. *)
Definition block {A} : M A := λ w, (Blocked, w).

Notation "'let*' x ':=' c 'in' k" := (bind c (λ x, k))
  (at level 10, x pattern, c at level 100, k at level 200).
Notation "'run' c 'in' k" := (bind c (λ _, k))
  (at level 10, c at level 100, k at level 200).

(** [cmn.Assert] / [cmn.AssertMsg]. *)
Definition Assert (b : bool) (msg : string) : M unit :=
  if b then ret tt else fatal msg.

Definition getY : M metasyncer := λ w, (Ok (y w), w).

Definition setY (y' : metasyncer) : M unit :=
  λ w, (Ok tt, MkWorld y' (trace w) (glog w) (gets w) (bcasts w)).

Definition emit (e : Event) : M unit :=
  λ w, (Ok tt, MkWorld (y w) (trace w ++ [e]) (glog w) (gets w) (bcasts w)).

Definition logLine (s : string) : M unit :=
  λ w, (Ok tt, MkWorld (y w) (trace w) (glog w ++ [s]) (gets w) (bcasts w)).

Fixpoint forM_ {A} (f : A → M unit) (l : list A) : M unit :=
  match l with
  | [] => ret tt
  | a :: l' => run f a in forM_ f l'
  end.

(** [time.Duration] arithmetic is int64 arithmetic. *)
Definition wrap64 (z : Z) : Z := (z + 2 ^ 63) mod 2 ^ 64 - 2 ^ 63.

(** Field updates of the metasyncer. *)
Definition set_revsmap (m : gmap string (gmap string Z)) (s : metasyncer) : metasyncer :=
  Metasyncer m (last s) (lastclone s) (workCh s) (retryTimer s) (timerStopped s).
Definition set_last (m : gmap string revs) (s : metasyncer) : metasyncer :=
  Metasyncer (revsmap s) m (lastclone s) (workCh s) (retryTimer s) (timerStopped s).
Definition set_lastclone (m : gmap string string) (s : metasyncer) : metasyncer :=
  Metasyncer (revsmap s) (last s) m (workCh s) (retryTimer s) (timerStopped s).
Definition set_workCh (q : list revsReq) (s : metasyncer) : metasyncer :=
  Metasyncer (revsmap s) (last s) (lastclone s) q (retryTimer s) (timerStopped s).
Definition set_timer (t : option Z) (stopped : bool) (s : metasyncer) : metasyncer :=
  Metasyncer (revsmap s) (last s) (lastclone s) (workCh s) t stopped.

(** The capacity of the work channel, [make(chan revsReq, 8)]. *)
Definition workChCap : nat := 8.

(** [newmetasyncer]. *)
Definition newmetasyncer : metasyncer :=
  Metasyncer ∅ ∅ ∅ [] None true.

(** ** The cluster map and the broadcaster *)

(** Modelled from the spec: [smapX.isPrimary] (the methods of [smapX] are
    not part of the sources at hand). The primary is the node whose
    identifier is that of [ProxySI]; identity is by NodeID. *)
Definition isPrimary (smap : smapX) (self : Snode) : bool :=
  match ProxySI smap with
  | Some p => bool_decide (DaemonID p = DaemonID self)
  | None => false
  end.

(** Modelled from the spec: [smapX.containsID], membership of a NodeID in
    the targets or in the gateways of the cluster map. *)
Definition containsID (smap : smapX) (id : string) : bool :=
  bool_decide (is_Some (Tmap smap !! id)) || bool_decide (is_Some (Pmap smap !! id)).

(** [smapowner.get()]: the next cluster map the outside has in store. *)
Definition smapowner_get (env : Env) : M smapX :=
  λ w, (Ok (smapAt env (gets w)),
        MkWorld (y w) (trace w) (glog w) (S (gets w)) (bcasts w)).

(** The peers one [broadcast] calls: every entry of every node map whose
    key is not the caller's own identifier. *)
Definition bcastPeers (env : Env) (nds : list (gmap string Snode)) : list Snode :=
  mbind (M := list)
    (λ nodeMap : gmap string Snode,
       snd <$> filter (λ kv : string * Snode, kv.1 ≠ DaemonID (self env))
                      (map_to_list nodeMap))
    nds.

(** The results of the calls of the [k]-th broadcast. *)
Definition callsOf (env : Env) (k : nat) (peers : list Snode) : list callResult :=
  (λ di, CallResult di (netCall env k (DaemonID di))) <$> peers.

Definition nodeCount (nds : list (gmap string Snode)) : nat :=
  foldr (λ nodeMap n, (size nodeMap + n)%nat) 0%nat nds.

(** [httprunner.broadcast]: with no node at all the channel is closed at
    once; otherwise one call per peer, self excepted, and the results are
    read off the channel. The outcome of each call is the outside's. *)
Definition broadcast (env : Env) (args : bcastCallArgs) : M (list callResult) :=
  λ w,
    if bool_decide (nodeCount (nodes args) = 0%nat) then
      (Ok [], MkWorld (y w) (trace w) (glog w ++ ["node count zero in bcast"])
                      (gets w) (bcasts w))
    else
      let peers := bcastPeers env (nodes args) in
      (Ok (callsOf env (bcasts w) peers),
       MkWorld (y w) (trace w ++ [EvBcast args (DaemonID <$> peers)]) (glog w)
               (gets w) (S (bcasts w))).

(** Which node maps [broadcastTo] selects. *)
Inductive bcastScope := Targets | Proxies | AllNodes.

(** [httprunner.broadcastTo]; the network is one of the known ones by its
    type, so its assertion cannot fail. *)
Definition broadcastTo (env : Env) (pth : string) (mth : httpMethod) (bdy : wireBody)
    (smap : smapX) (tmo : Z) (nw : network) (to : bcastScope) : M (list callResult) :=
  let nds := match to with
             | Targets => [Tmap smap]
             | Proxies => [Pmap smap]
             | AllNodes => [Pmap smap; Tmap smap]
             end in
  broadcast env (BcastCallArgs (ReqArgs mth pth bdy) nw tmo nds).

(** ** The metasyncer *)

(** [revsReq.isNil]. *)
Definition isNil (rq : revsReq) : bool :=
  bool_decide (length (pairs rq) = 0%nat) &&
  match msgInt rq with None => true | Some _ => false end.

(** [becomeNonPrimary]: the empty request goes to the work channel. It is
    called from [doSync] and from [pending], that is by the goroutine of
    [Run], which is the one that receives from the channel: when the
    buffer is full the send waits for a receive that cannot come. *)
Definition becomeNonPrimary : M unit :=
  let* s := getY in
  if bool_decide (length (workCh s) < workChCap)%nat then
    run setY (set_workCh (workCh s ++ [RevsReq [] false None false]) s) in
    logLine "becoming non-primary"
  else block.

(** [checkPrimary]; the cluster map is never nil here ([smapAt] is total),
    which is what its assertion asks. *)
Definition checkPrimary (env : Env) : M bool :=
  let* smap := smapowner_get env in
  if isPrimary smap (self env) then ret true
  else
    run logLine "self is not the primary - failing the 'sync' request" in
    ret false.

(** [notify]. It is called by other goroutines: a send that finds the
    buffer full waits for [Run] to receive, and its request is then behind
    those in the buffer. That wait and the one on the wait group are not
    part of the model. *)
Definition notify (env : Env) (wait : bool) (failed : bool)
    (msg : option actionMsgInternal) : M unit :=
  let* primary := checkPrimary env in
  if negb primary then ret tt
  else
    let* s := getY in
    setY (set_workCh (workCh s ++ [RevsReq [] wait msg failed]) s).

(** [sync]. *)
Definition sync (env : Env) (wait : bool) (prs : list revspair) : M unit :=
  let* primary := checkPrimary env in
  if negb primary then ret tt
  else
    run Assert (bool_decide (0 < length prs)%nat) "assertion failed: len(pairs) > 0" in
    let* s := getY in
    setY (set_workCh (workCh s ++ [RevsReq prs wait None false]) s).

(** [lversion]. *)
Definition lversion (s : metasyncer) (t : string) : Z :=
  match last s !! t with
  | Some r => version r
  | None => 0
  end.

(** [countNewMembers]: the entries of [Tmap] and of [Pmap] whose key has
    no entry in [revsmap]. *)
Definition countNew (rm : gmap string (gmap string Z)) (serverMap : gmap string Snode) : nat :=
  length (filter (λ kv : string * Snode, rm !! kv.1 = None) (map_to_list serverMap)).

Definition countNewMembers (s : metasyncer) (smap : smapX) : nat :=
  (countNew (revsmap s) (Tmap smap) + countNew (revsmap s) (Pmap smap))%nat.

(** [syncDone]: the peer's version map (made on first use) takes the
    version of every pair, in the order of the pairs. *)
Definition recordPairs (prs : list revspair) (vermap : gmap string Z) : gmap string Z :=
  foldl (λ vm p, <[tag (p_revs p) := version (p_revs p)]> vm) vermap prs.

Definition syncDone (sid : string) (prs : list revspair)
    (rm : gmap string (gmap string Z)) : gmap string (gmap string Z) :=
  <[sid := recordPairs prs (default ∅ (rm !! sid))]> rm.

(** [doSync], step 1, first loop: the copy-on-write audit of what was
    published. *)
Definition cowCheck (s : metasyncer) (kv : string * revs) : M unit :=
  match marshal kv.2 with
  | None => fatal "marshal failed"
  | Some jsbytes =>
      match lastclone s !! kv.1 with
      | Some cowcopy =>
          Assert (bool_decide (cowcopy = jsbytes))
                 "CoW violation: previously sync-ed revs has been updated in-place"
      | None => ret tt
      end
  end.

Definition cowAudit (s : metasyncer) : M unit :=
  forM_ (cowCheck s) (map_to_list (last s)).

(** [doSync], step 1, the loop labelled [outer]: which pairs are to be
    sent. Against the current cluster map a newer [smaptag] artifact is
    fatal and an older one is only warned about; against the last
    synchronized version an equal one passes when there are new members
    and a smaller one is skipped. [smap.version()] is the field [Version]. *)
Fixpoint filterPairs (s : metasyncer) (smap : smapX) (newCnt : nat)
    (prs : list revspair) : M (list revspair) :=
  match prs with
  | [] => ret []
  | rp :: rest =>
      match p_msgInt rp with
      | None => fatal "nil pointer dereference"
      | Some _ =>
          let r := p_revs rp in
          run Assert (negb (bool_decide (tag r = smaptag) &&
                            bool_decide (version r > Version smap)))
                     "FATAL: revs is newer than the current Smap" in
          let lv := lversion s (tag r) in
          if bool_decide (lv = version r) then
            if bool_decide (newCnt = 0%nat) then filterPairs s smap newCnt rest
            else let* more := filterPairs s smap newCnt rest in ret (rp :: more)
          else if bool_decide (lv > version r) then filterPairs s smap newCnt rest
          else let* more := filterPairs s smap newCnt rest in ret (rp :: more)
      end
  end.

(** [doSync], step 2: the registry takes each pair, and the payload its
    serialization and its action message. *)
Definition publishOne (env : Env) (rp : revspair)
    (acc : gmap string wireVal * string) : M (gmap string wireVal * string) :=
  match p_msgInt rp with
  | None => fatal "nil pointer dereference"
  | Some m =>
      let r := p_revs rp in
      let* s := getY in
      run setY (set_last (<[tag r := r]> (last s)) s) in
      match marshal r with
      | None => fatal "marshal failed"
      | Some jsbytes =>
          let* s := getY in
          run setY (set_lastclone (<[tag r := jsbytes]> (lastclone s)) s) in
          let newTargetID :=
            if bool_decide (Action m = ActRegTarget env) then NewDaemonID m else acc.2 in
          ret (<[tag r ++ actiontag := WAction m]> (<[tag r := WRevs jsbytes]> acc.1),
               newTargetID)
      end
  end.

Fixpoint publish (env : Env) (prs : list revspair)
    (acc : gmap string wireVal * string) : M (gmap string wireVal * string) :=
  match prs with
  | [] => ret acc
  | rp :: rest => let* acc' := publishOne env rp acc in publish env rest acc'
  end.

(** [cmn.IsErrConnectionRefused]. *)
Definition IsErrConnectionRefused (e : callErr) : bool :=
  match e with ErrRefused => true | _ => false end.

(** [doSync], step 4, one result: a success is recorded, a refusal (or any
    failure of the joining target) goes to [refused], any other failure is
    counted. *)
Definition classifyOne (newTargetID : string) (pairsToSend : list revspair)
    (acc : gmap string (gmap string Z) * gmap string Snode * nat) (r : callResult)
    : gmap string (gmap string Z) * gmap string Snode * nat :=
  let '(rm, refused, cnt) := acc in
  match err r with
  | NoErr =>
      (if bool_decide (0 < length pairsToSend)%nat
       then syncDone (DaemonID (si r)) pairsToSend rm else rm, refused, cnt)
  | e =>
      if IsErrConnectionRefused e || bool_decide (DaemonID (si r) = newTargetID)
      then (rm, <[DaemonID (si r) := si r]> refused, cnt)
      else (rm, refused, S cnt)
  end.

(** [handleRefused], one result. *)
Definition refusedOne (prs : list revspair)
    (acc : gmap string (gmap string Z) * gmap string Snode) (r : callResult)
    : gmap string (gmap string Z) * gmap string Snode :=
  match err r with
  | NoErr => (syncDone (DaemonID (si r)) prs acc.1, delete (DaemonID (si r)) acc.2)
  | _ => acc
  end.

(** [handleRefused], its [bcastArgs]. *)
Definition refusedArgs (env : Env) (mth : httpMethod) (urlPath : string)
    (bdy : wireBody) (refused : gmap string Snode) : bcastCallArgs :=
  BcastCallArgs (ReqArgs mth urlPath bdy) NetworkIntraControl
                (MaxKeepalive (config env)) [refused].

(** [handleRefused]; returns what is left of [refused]. *)
Definition handleRefused (env : Env) (mth : httpMethod) (urlPath : string)
    (bdy : wireBody) (refused : gmap string Snode) (prs : list revspair)
    : M (gmap string Snode) :=
  let* res := broadcast env (refusedArgs env mth urlPath bdy refused) in
  let* s := getY in
  let acc := foldl (refusedOne prs) (revsmap s, refused) res in
  run setY (set_revsmap acc.1 s) in
  ret acc.2.

(** [doSync], step 5: the loop [for i := 0; i < 10; i++], by the number of
    iterations still to run. [None] is the early return after [becomeNonPrimary]. *)
Fixpoint refusedLoop (env : Env) (rounds : nat) (mth : httpMethod) (urlPath : string)
    (bdy : wireBody) (refused : gmap string Snode) (prs : list revspair)
    : M (option (gmap string Snode)) :=
  match rounds with
  | O => ret (Some refused)
  | S rounds' =>
      if bool_decide (size refused = 0%nat) then ret (Some refused)
      else
        run emit (EvSleep (CplaneOperation (config env))) in
        let* smap := smapowner_get env in
        if negb (isPrimary smap (self env)) then
          run becomeNonPrimary in ret None
        else
          let* refused' := handleRefused env mth urlPath bdy refused prs in
          refusedLoop env rounds' mth urlPath bdy refused' prs
  end.

Definition retryRounds : nat := 10.

(** [doSync], steps 3 and 4: the broadcast to all nodes and the reading of
    its results; returns [refused] and the count of the other failures. *)
Definition firstBcast (env : Env) (mth : httpMethod) (bdy : wireBody)
    (pairsToSend : list revspair) (newTargetID : string) (smap : smapX)
    : M (gmap string Snode * nat) :=
  let* res := broadcastTo env (metasyncPath env) mth bdy smap
                (wrap64 (CplaneOperation (config env) * 2))
                NetworkIntraControl AllNodes in
  let* s := getY in
  let acc := foldl (classifyOne newTargetID pairsToSend) (revsmap s, ∅, 0%nat) res in
  run setY (set_revsmap acc.1.1 s) in
  ret (acc.1.2, acc.2).

(** [doSync], step 6, the housekeeping: the entries of [revsmap] whose node
    left the cluster map go. *)
Definition housekeep (env : Env) : M unit :=
  let* smap := smapowner_get env in
  let* s := getY in
  setY (set_revsmap
          (filter (λ kv : string * gmap string Z, containsID smap kv.1 = true)
                  (revsmap s)) s).

(** [doSync], steps 3 to 6, from the label [bcast] on. *)
Definition bcastSteps (env : Env) (mth : httpMethod) (bdy : wireBody)
    (pairsToSend : list revspair) (newTargetID : string) (smap : smapX) : M nat :=
  let* acc := firstBcast env mth bdy pairsToSend newTargetID smap in
  let* rest := refusedLoop env retryRounds mth (metasyncPath env) bdy acc.1 pairsToSend in
  match rest with
  | None => ret acc.2
  | Some refused =>
      run housekeep env in
      ret (acc.2 + size refused)%nat
  end.

(** [doSync]: returns the number of failures. *)
Definition doSync (env : Env) (prs : list revspair)
    (msg : option actionMsgInternal) : M nat :=
  let* smap := smapowner_get env in
  let* s := getY in
  let newCnt := countNewMembers s smap in
  run cowAudit s in
  match prs with
  | [] => bcastSteps env MethodPost (BodyMsg msg) [] "" smap
  | _ :: _ =>
      run Assert (match msg with None => true | Some _ => false end)
                 "assertion failed: msgInt == nil" in
      let* pairsToSend := filterPairs s smap newCnt prs in
      match pairsToSend with
      | [] => ret 0%nat
      | _ :: _ =>
          let* built := publish env pairsToSend (∅, "") in
          bcastSteps env MethodPut (BodyPayload built.1) pairsToSend built.2 smap
      end
  end.

(** [pending], the inner loop over [y.last]: is the peer in sync? The
    assertion is met at the first tag that is not. *)
Fixpoint inSyncCheck (lst : list (string * revs)) (vermap : gmap string Z) : M bool :=
  match lst with
  | [] => ret true
  | (t, r) :: rest =>
      match vermap !! t with
      | Some v =>
          if bool_decide (v = version r) then inSyncCheck rest vermap
          else
            run Assert (bool_decide (v < version r)) "assertion failed: v < revs.version()" in
            ret false
      | None => ret false
      end
  end.

(** [pending], one entry of a node map. *)
Definition pendingOne (needMap : bool) (acc : nat * gmap string Snode)
    (kv : string * Snode) : M (nat * gmap string Snode) :=
  let* s := getY in
  match revsmap s !! kv.1 with
  | None =>
      run setY (set_revsmap (<[kv.1 := ∅]> (revsmap s)) s) in
      ret (S acc.1, if needMap then <[kv.1 := kv.2]> acc.2 else acc.2)
  | Some rvd =>
      let* inSync := inSyncCheck (map_to_list (last s)) rvd in
      ret (if inSync then acc.1 else S acc.1,
           if negb needMap || inSync then acc.2 else <[kv.1 := kv.2]> acc.2)
  end.

Fixpoint foldM {A B} (f : B → A → M B) (l : list A) (acc : B) : M B :=
  match l with
  | [] => ret acc
  | a :: l' => let* acc' := f acc a in foldM f l' acc'
  end.

(** [pending]: how many nodes of the cluster map miss one of the last
    synchronized versions, and (if asked) which. *)
Definition pending (env : Env) (needMap : bool) : M (nat * gmap string Snode * smapX) :=
  let* smap := smapowner_get env in
  if negb (isPrimary smap (self env)) then
    run becomeNonPrimary in ret (0%nat, ∅, smap)
  else
    let* acc := foldM (pendingOne needMap)
                  (map_to_list (Tmap smap) ++ map_to_list (Pmap smap)) (0%nat, ∅) in
    ret (acc.1, acc.2, smap).

(** [newActionMsgInternalStr] with a cluster map and no bucket metadata. *)
Definition newActionMsgInternalStr (env : Env) (msgStr : string) (smap : smapX)
    : actionMsgInternal :=
  ActionMsgInternal "" "" msgStr (bmdVersion env) (Version smap) "".

(** [handlePending], the loop over [y.last] that builds payload and pairs. *)
Fixpoint pendingPayload (m : actionMsgInternal) (lst : list (string * revs))
    (acc : gmap string wireVal * list revspair) : M (gmap string wireVal * list revspair) :=
  match lst with
  | [] => ret acc
  | (t, r) :: rest =>
      match marshal r with
      | None => fatal "marshal failed"
      | Some bdy =>
          pendingPayload m rest
            (<[t ++ actiontag := WAction m]> (<[t := WRevs bdy]> acc.1),
             (acc.2 ++ [Revspair r (Some m)])%list)
      end
  end.

(** [handlePending], one result. *)
Definition pendingResult (prs : list revspair)
    (acc : gmap string (gmap string Z) * nat) (r : callResult)
    : gmap string (gmap string Z) * nat :=
  match err r with
  | NoErr => (syncDone (DaemonID (si r)) prs acc.1, acc.2)
  | _ => (acc.1, S acc.2)
  end.

(** [handlePending]: returns the number of peers still failing. *)
Definition handlePending (env : Env) : M nat :=
  let* found := pending env true in
  let '(count, pend, smap) := found in
  if bool_decide (count = 0%nat) then ret 0%nat
  else
    let m := newActionMsgInternalStr env "metasync: handle-pending" smap in
    let* s := getY in
    let* built := pendingPayload m (map_to_list (last s)) (∅, []) in
    let* res := broadcast env
                  (BcastCallArgs (ReqArgs MethodPut (metasyncPath env) (BodyPayload built.1))
                                 NetworkIntraControl (CplaneOperation (config env)) [pend]) in
    let* s := getY in
    let acc := foldl (pendingResult built.2) (revsmap s, 0%nat) res in
    run setY (set_revsmap acc.1 s) in
    ret acc.2.

(** ** The [Run] loop, one [select] at a time *)

Inductive selected := SelWork | SelTimer | SelStop.

(** One iteration of the loop of [Run] for the case the [select] took; a
    case that is not ready (empty work channel, timer not armed) does
    nothing. The result tells whether the loop goes on. *)
Definition Run_iter (env : Env) (sel : selected) : M bool :=
  match sel with
  | SelWork =>
      let* s := getY in
      match workCh s with
      | [] => ret true
      | rq :: queue =>
          run setY (set_workCh queue s) in
          if isNil rq then
            run setY (Metasyncer ∅ ∅ ∅ queue None true) in ret true
          else
            let* cnt := doSync env (pairs rq) (msgInt rq) in
            run (if wg rq then
                   run (if failedCnt rq then emit (EvStoreFailedCnt cnt) else ret tt) in
                   emit EvWgDone
                 else ret tt) in
            let* s := getY in
            run (if bool_decide (0 < cnt)%nat && timerStopped s &&
                    bool_decide (0 < length (pairs rq))%nat
                 then setY (set_timer (Some (RetrySyncTime (config env))) false s)
                 else ret tt) in
            ret true
      end
  | SelTimer =>
      let* s := getY in
      match retryTimer s with
      | None => ret true
      | Some _ =>
          run setY (set_timer None (timerStopped s) s) in
          let* cnt := handlePending env in
          let* s := getY in
          run (if bool_decide (0 < cnt)%nat
               then setY (set_timer (Some (RetrySyncTime (config env))) false s)
               else setY (set_timer (retryTimer s) true s)) in
          ret true
      end
  | SelStop =>
      let* s := getY in
      run setY (set_timer None (timerStopped s) s) in
      ret false
  end.

(** ** [cmn.LoadConfig]: which network planes are in use *)

(** [NetConf] with the parsed ports of its [L4Conf]. *)
Record NetConf := MkNetConf {
  IPv4 : string;
  IPv4IntraControl : string;
  IPv4IntraData : string;
  UseIntraControl : bool;
  UseIntraData : bool;
  Port : Z;
  PortIntraControl : Z;
  PortIntraData : Z;
}.

(** The two assignments of [LoadConfig] to [UseIntraControl] and
    [UseIntraData]. *)
Definition LoadConfig_net (n : NetConf) : NetConf :=
  let differentIPs := negb (String.eqb (IPv4 n) (IPv4IntraControl n)) in
  let differentPorts := negb (Z.eqb (Port n) (PortIntraControl n)) in
  let useControl :=
    if negb (String.eqb (IPv4IntraControl n) "") && negb (Z.eqb (PortIntraControl n) 0) &&
       (differentIPs || differentPorts)
    then true else false in
  let differentIPs := negb (String.eqb (IPv4 n) (IPv4IntraData n)) in
  let differentPorts := negb (Z.eqb (Port n) (PortIntraData n)) in
  let useData :=
    if negb (String.eqb (IPv4IntraData n) "") && negb (Z.eqb (PortIntraData n) 0) &&
       (differentIPs || differentPorts)
    then true else false in
  MkNetConf (IPv4 n) (IPv4IntraControl n) (IPv4IntraData n) useControl useData
            (Port n) (PortIntraControl n) (PortIntraData n).

(** ** Observations *)

(** The delivered version of a tag at a peer, [revsmap[id].vermap[t]]. *)
Definition delivered (w : World) (id t : string) : option Z :=
  revsmap (y w) !! id ≫= (.!! t).

(** The broadcasts of a trace. *)
Definition bcastsOf (tr : list Event) : list (bcastCallArgs * list string) :=
  omap (λ e, match e with EvBcast a called => Some (a, called) | _ => None end) tr.

(** The payloads that went on the wire. *)
Definition payloadsOf (tr : list Event) : list (gmap string wireVal) :=
  omap (λ ac : bcastCallArgs * list string,
          match body (req ac.1) with BodyPayload p => Some p | BodyMsg _ => None end)
       (bcastsOf tr).

(** What one round of the refused-retry loop leaves in the trace: the
    sleep, and the broadcast to the refused set of that round unless the
    round ended in [becomeNonPrimary] ([None]). *)
Definition roundEvents (env : Env) (mth : httpMethod) (urlPath : string)
    (bdy : wireBody) (round : option (gmap string Snode)) : list Event :=
  EvSleep (CplaneOperation (config env)) ::
  match round with
  | Some rf => [EvBcast (refusedArgs env mth urlPath bdy rf)
                        (DaemonID <$> bcastPeers env [rf])]
  | None => []
  end.

(** What the [k]-th broadcast, made to the set [refused], leaves of it:
    [handleRefused] removes the nodes whose call succeeded; the caller
    itself is not called. *)
Definition stillRefused (env : Env) (k : nat) (refused : gmap string Snode)
    : gmap string Snode :=
  filter (λ kv : string * Snode,
            kv.1 = DaemonID (self env) ∨ netCall env k kv.1 ≠ NoErr) refused.

(** The refused set after [j] rounds, the first of them with broadcast [k]. *)
Fixpoint refusedAfter (env : Env) (k : nat) (refused : gmap string Snode) (j : nat)
    : gmap string Snode :=
  match j with
  | O => refused
  | S j' => refusedAfter env (S k) (stillRefused env k refused) j'
  end.

(** The nodes of a map sit under their own identifiers, as in the map
    [refused] that [doSync] fills. *)
Definition keyed (m : gmap string Snode) : Prop :=
  ∀ id node, m !! id = Some node → DaemonID node = id.

(** The pairs a [doSync] with the list [prs] goes on to send: what the
    filter step leaves of it. *)
Definition pairsToSend (env : Env) (prs : list revspair) (w : World) : list revspair :=
  let smap := smapAt env (gets w) in
  match filterPairs (y w) smap (countNewMembers (y w) smap) prs w with
  | (Ok l, _) => l
  | (Fatal _, _) => []
  | (Blocked, _) => []
  end.

(** The registry entries a list of pairs amounts to: each pair under its
    tag, a later pair of the same tag replacing an earlier one. *)
Definition asMap (prs : list revspair) : gmap string revs :=
  foldl (λ m p, <[tag (p_revs p) := p_revs p]> m) ∅ prs.

(** The peer [id] is recorded with (at least) the versions of the pairs. *)
Definition hasAll (prs : list revspair) (rm : gmap string (gmap string Z))
    (id : string) : Prop :=
  ∃ vermap, rm !! id = Some vermap ∧ version <$> asMap prs ⊆ vermap.

(** What "zero failures means delivered" asks of one [doSync]: whenever it
    returns 0, every peer of the cluster map at completion (the one read
    last) is recorded with at least the version of every pair sent. *)
Definition delivers_on_zero (env : Env) (prs : list revspair) (w : World) : Prop :=
  ∀ w', doSync env prs None w = (Ok 0%nat, w') →
    ∀ id p, containsID (smapAt env (pred (gets w'))) id = true →
            id ≠ DaemonID (self env) →
            p ∈ pairsToSend env prs w →
            ∃ v, delivered w' id (tag (p_revs p)) = Some v ∧ version (p_revs p) ≤ v.

(** A node is not in sync when it has no entry in [revsmap] or its entry
    misses the last synchronized version of some tag. *)
Definition notInSync (s : metasyncer) (id : string) : Prop :=
  revsmap s !! id = None ∨
  ∃ vermap t r, revsmap s !! id = Some vermap ∧ last s !! t = Some r ∧
                vermap !! t ≠ Some (version r).

(** What "peers not in sync arm the timer" asks of one iteration of [Run]
    that takes a request off the work channel and runs [doSync] for it:
    if a peer of the cluster map at completion is then not in sync, the
    retry timer is armed for [RetrySyncTime]. *)
Definition arms_when_not_in_sync (env : Env) (w : World) : Prop :=
  ∀ rq queue w',
    workCh (y w) = rq :: queue → isNil rq = false →
    Run_iter env SelWork w = (Ok true, w') →
    (∃ id, id ≠ DaemonID (self env) ∧
           containsID (smapAt env (pred (gets w'))) id = true ∧
           notInSync (y w') id) →
    retryTimer (y w') = Some (RetrySyncTime (config env)).

(** The assignments [rvd.vermap[tag] = version] that one [syncDone] makes,
    in the order of its loop: the peer, the tag and the version. *)
Definition syncDoneWrites (sid : string) (prs : list revspair)
    : list (string * string * Z) :=
  (λ p, (sid, tag (p_revs p), version (p_revs p))) <$> prs.

(** The assignments of a loop over the results of a broadcast, which calls
    [syncDone] with the pairs [prs] for every call that succeeded: step 4
    of [doSync], [handleRefused] and [handlePending]. *)
Definition loopWrites (prs : list revspair) (res : list callResult)
    : list (string * string * Z) :=
  res ≫= λ r, match err r with
              | NoErr => syncDoneWrites (DaemonID (si r)) prs
              | _ => []
              end.

(** The delivery state after one such assignment. *)
Definition writeVer (rm : gmap string (gmap string Z)) (wr : string * string * Z)
    : gmap string (gmap string Z) :=
  <[wr.1.1 := <[wr.1.2 := wr.2]> (default ∅ (rm !! wr.1.1))]> rm.

(** Two delivery states record the same versions (an entry without any
    version is as good as none). *)
Definition sameRecords (rm rm' : gmap string (gmap string Z)) : Prop :=
  ∀ id t, rm !! id ≫= (.!! t) = rm' !! id ≫= (.!! t).

(** The values written for the peer [id] under the tag [t], in order. *)
Definition writtenTo (id t : string) (ws : list (string * string * Z)) : list Z :=
  omap (λ wr : string * string * Z,
          if bool_decide (wr.1 = (id, t)) then Some wr.2 else None) ws.

Definition nondecreasing (l : list Z) : Prop :=
  ∀ i j v v', (i ≤ j)%nat → l !! i = Some v → l !! j = Some v' → v ≤ v'.

(** The results [doSync] reads in its step 4, called in the world [w]. *)
Definition firstResults (env : Env) (w : World) : list callResult :=
  callsOf env (bcasts w)
          (bcastPeers env [Pmap (smapAt env (gets w)); Tmap (smapAt env (gets w))]).

(** What "the values written never decrease" asks of one [doSync] given
    the pairs [prs] in the world [w]: for every peer and tag, the version
    recorded before, if any, and then the versions that step 4 writes,
    one after the other, never go down. *)
Definition writes_never_decrease (env : Env) (prs : list revspair) (w : World) : Prop :=
  ∀ id t,
    nondecreasing (option_list (delivered w id t) ++
                   writtenTo id t (loopWrites (pairsToSend env prs w) (firstResults env w))).

(** ** Invariants *)

(** Every entry of [last] sits under its own tag. *)
Definition last_keyed (s : metasyncer) : Prop :=
  ∀ t r, last s !! t = Some r → tag r = t.

(** No peer is recorded beyond what was last synchronized. *)
Definition within_last (s : metasyncer) : Prop :=
  ∀ id vermap t v, revsmap s !! id = Some vermap → vermap !! t = Some v →
                   (v ≤ lversion s t)%Z.

Definition consistent (s : metasyncer) : Prop := last_keyed s ∧ within_last s.

(** The same bound, for a registry and a delivery state on their own. *)
Definition versionIn (lst : gmap string revs) (t : string) : Z :=
  match lst !! t with
  | Some r => version r
  | None => 0
  end.

Definition within (lst : gmap string revs) (rm : gmap string (gmap string Z)) : Prop :=
  ∀ id vermap t v, rm !! id = Some vermap → vermap !! t = Some v → v ≤ versionIn lst t.

(** The delivery state with, possibly, empty entries for new nodes. *)
Definition padded (rm rm' : gmap string (gmap string Z)) : Prop :=
  ∀ id, rm' !! id = rm !! id ∨ (rm !! id = None ∧ rm' !! id = Some ∅).

(** The pairs [handlePending] makes of the registry. *)
Definition pairsOfLast (m : actionMsgInternal) (lst : list (string * revs)) : list revspair :=
  (λ kv, Revspair kv.2 (Some m)) <$> lst.

(** What [rm] records was recorded in [rm0] already, or is the version
    the registry has of the tag. *)
Definition tops (lst : gmap string revs) (rm0 rm : gmap string (gmap string Z)) : Prop :=
  ∀ id vermap t v, rm !! id = Some vermap → vermap !! t = Some v →
    rm0 !! id ≫= (.!! t) = Some v ∨ v = versionIn lst t.

(** From [w] to [w'] no version of the registry went down, and what is
    recorded in [w'] was recorded in [w] or is the registry's version. *)
Definition advances (w w' : World) : Prop :=
  (∀ t, lversion (y w) t ≤ lversion (y w') t) ∧
  tops (last (y w')) (revsmap (y w)) (revsmap (y w')).

(** One call, returning, of one of the three functions that write the
    delivery state; [handleRefused] with pairs that are in the registry,
    as [doSync] calls it. *)
Definition metasync_op (env : Env) (w w' : World) : Prop :=
  (∃ prs msg cnt, doSync env prs msg w = (Ok cnt, w')) ∨
  (∃ cnt, handlePending env w = (Ok cnt, w')) ∨
  (∃ mth urlPath bdy refused prs rest,
     asMap prs ⊆ last (y w) ∧
     handleRefused env mth urlPath bdy refused prs w = (Ok rest, w')).

(** What is recorded after is not less than what was recorded before. *)
Definition never_lower (w w' : World) : Prop :=
  ∀ id t v v', delivered w id t = Some v → delivered w' id t = Some v' → v ≤ v'.

(** The worlds the metasyncer can be in: it starts with nothing
    synchronized, and then any of its entry points and any iteration of
    [Run] may follow, as well as [doSync] and [handlePending] on their own
    with any request. Only what returns counts: after a fatal assertion
    there is no metasyncer. *)
Inductive reachable (env : Env) : World → Prop :=
| reach_new w :
    revsmap (y w) = ∅ → last (y w) = ∅ → reachable env w
| reach_sync w wait prs w' :
    reachable env w → sync env wait prs w = (Ok tt, w') → reachable env w'
| reach_notify w wait failed msg w' :
    reachable env w → notify env wait failed msg w = (Ok tt, w') → reachable env w'
| reach_Run w sel go w' :
    reachable env w → Run_iter env sel w = (Ok go, w') → reachable env w'
| reach_doSync w prs msg cnt w' :
    reachable env w → doSync env prs msg w = (Ok cnt, w') → reachable env w'
| reach_handlePending w cnt w' :
    reachable env w → handlePending env w = (Ok cnt, w') → reachable env w'.

(** ** Further observations and invariants *)

(** What the first broadcast of [doSync] leaves in the trace. *)
Definition firstArgs (env : Env) (mth : httpMethod) (bdy : wireBody) (smap : smapX)
    : bcastCallArgs :=
  BcastCallArgs (ReqArgs mth (metasyncPath env) bdy) NetworkIntraControl
                (wrap64 (CplaneOperation (config env) * 2)) [Pmap smap; Tmap smap].

(** Nothing is recorded in [rm] that [rm0] had not. *)
Definition records_nothing_new (rm0 rm : gmap string (gmap string Z)) : Prop :=
  ∀ id t v, rm !! id ≫= (.!! t) = Some v → rm0 !! id ≫= (.!! t) = Some v.

(** Every published object still serializes to the clone taken of it. *)
Definition cow_clean (s : metasyncer) : Prop :=
  ∀ t r, last s !! t = Some r →
         ∃ js, marshal r = Some js ∧ lastclone s !! t = Some js.

(** The flag [timerStopped] tells whether the timer is off. *)
Definition timer_flag_ok (s : metasyncer) : Prop :=
  timerStopped s = true ↔ retryTimer s = None.

(** What "only [becomeNonPrimary] produces the empty request" asks of the
    two entry points that callers have, in the world [w]: whatever request
    [sync] or [notify] puts on the work channel is not the empty one. *)
Definition callers_never_send_nil (env : Env) (w : World) : Prop :=
  ∀ wait failed msg prs rq,
    workCh (y (notify env wait failed msg w).2) = (workCh (y w) ++ [rq])%list ∨
    workCh (y (sync env wait prs w).2) = (workCh (y w) ++ [rq])%list →
    isNil rq = false.

(** ** The receive side: the metasync Rx handlers of the http runner *)

(** [bucketMD], by its version. *)
Record bucketMD := BucketMD {
  BMD_Version : Z;
}.

(** The [errstr] of the Rx handlers, by the format it is made with and the
    values put in; the empty string is [None]. *)
Inductive rxError :=
| RxUnmarshalSmap (value : string)
| RxUnmarshalBMD (value : string)
| RxUnmarshalMsg (value : string)
| RxInvalidSmap (v : Z)
| RxDowngradeSmap (who : option Snode) (myver v : Z)
| RxDowngradeBMD (myver v : Z).

(** [&actionMsgInternal{}]. *)
Definition emptyMsgInt : actionMsgInternal := ActionMsgInternal "" "" "" 0 0 "".

Section Rx.
(** [jsoniter.Unmarshal] into a fresh object: what the object holds
    afterwards, and whether the error is nil. *)
Variable unmarshalSmap : string → smapX * bool.
Variable unmarshalBMD : string → bucketMD * bool.
Variable unmarshalMsg : string → actionMsgInternal * bool.
(** [smapX.isValid] and [Smap.GetTarget], which are not part of the
    sources at hand. *)
Variable isValid : smapX → bool.
Variable GetTarget : smapX → string → option Snode.

(** [extractSmap], after both values are decoded. [hsi] is [h.si],
    [localsmap] what [h.smapowner.get()] returns. Logging is left out. *)
Definition checkSmap (hsi : option Snode) (localsmap newsmap : smapX)
    (msgInt : actionMsgInternal)
    : option smapX * option actionMsgInternal * option rxError :=
  let myver := Version localsmap in
  if Z.eqb (Version newsmap) myver then (None, Some msgInt, None)
  else if negb (isValid newsmap) then
    (None, Some msgInt, Some (RxInvalidSmap (Version newsmap)))
  else if Z.ltb (Version newsmap) myver then
    match hsi with
    | Some s =>
        match GetTarget localsmap (DaemonID s) with
        | None => (None, Some msgInt,
                   Some (RxDowngradeSmap (Some s) myver (Version newsmap)))
        | Some _ => (Some newsmap, Some msgInt, None)
        end
    | None => (Some newsmap, Some msgInt,
               Some (RxDowngradeSmap None myver (Version newsmap)))
    end
  else (Some newsmap, Some msgInt, None).

(** [extractSmap]: the new cluster map, the action message, the error. *)
Definition extractSmap (hsi : option Snode) (localsmap : smapX)
    (payload : gmap string string)
    : option smapX * option actionMsgInternal * option rxError :=
  match payload !! smaptag with
  | None => (None, None, None)
  | Some smapvalue =>
      let '(newsmap, ok) := unmarshalSmap smapvalue in
      if negb ok then
        (Some newsmap, Some emptyMsgInt, Some (RxUnmarshalSmap smapvalue))
      else
        match payload !! (smaptag ++ actiontag) with
        | Some msgvalue =>
            let '(msgInt, okm) := unmarshalMsg msgvalue in
            if negb okm then
              (Some newsmap, Some msgInt, Some (RxUnmarshalMsg msgvalue))
            else checkSmap hsi localsmap newsmap msgInt
        | None => checkSmap hsi localsmap newsmap emptyMsgInt
        end
  end.

(** [extractbucketmd], after both values are decoded. *)
Definition checkBMD (localbmd newbucketmd : bucketMD) (msgInt : actionMsgInternal)
    : option bucketMD * option actionMsgInternal * option rxError :=
  let myver := BMD_Version localbmd in
  if Z.leb (BMD_Version newbucketmd) myver then
    (None, Some msgInt,
     if Z.ltb (BMD_Version newbucketmd) myver
     then Some (RxDowngradeBMD myver (BMD_Version newbucketmd)) else None)
  else (Some newbucketmd, Some msgInt, None).

(** [extractbucketmd]; [localbmd] is what [h.bmdowner.get()] returns. *)
Definition extractbucketmd (localbmd : bucketMD) (payload : gmap string string)
    : option bucketMD * option actionMsgInternal * option rxError :=
  match payload !! bucketmdtag with
  | None => (None, None, None)
  | Some bmdvalue =>
      let '(newbucketmd, ok) := unmarshalBMD bmdvalue in
      if negb ok then
        (Some newbucketmd, Some emptyMsgInt, Some (RxUnmarshalBMD bmdvalue))
      else
        match payload !! (bucketmdtag ++ actiontag) with
        | Some msgvalue =>
            let '(msgInt, okm) := unmarshalMsg msgvalue in
            if negb okm then
              (Some newbucketmd, Some msgInt, Some (RxUnmarshalMsg msgvalue))
            else checkBMD localbmd newbucketmd msgInt
        | None => checkBMD localbmd newbucketmd emptyMsgInt
        end
  end.
End Rx.

(** The action message of a tag decodes, if the payload has one. *)
Definition actionDecodes (unmarshalMsg : string → actionMsgInternal * bool)
    (payload : gmap string string) (t : string) : Prop :=
  ∀ msgvalue, payload !! (t ++ actiontag) = Some msgvalue →
              (unmarshalMsg msgvalue).2 = true.

(** ** Package [cmn]: the configuration, its validation and its updates

    [cmn/config.go]: [validateConfig], [ValidateVersion],
    [validKeepaliveType], [ipv4ListsOverlap], [SetLogLevel],
    [SetGLogVModule], [setConfig], [SetConfigMany] and [LoadConfig], with
    the global config owner as the configuration it holds. A pointer to a
    [Config] that a function updates in place is a [Config] taken and a
    [Config] returned; an [error] or an [errstr] is an option, by the format
    the message is made with. *)

Module cmn.

(** Constants of [config.go]. *)
Definition RevProxyCloud : string := "cloud".
Definition RevProxyTarget : string := "target".
Definition KeepaliveHeartbeatType : string := "heartbeat".
Definition KeepaliveAverageType : string := "average".

(** [MirrorConf]. *)
Record MirrorConf := MkMirrorConf {
  Copies : Z;
  Burst : Z;
  UtilThresh : Z;
  OptimizePUT : bool;
  Mirror_Enabled : bool;
}.

(** [LogConf]. *)
Record LogConf := MkLogConf {
  Dir : string;
  Level : string;
  MaxSize : Z;
  MaxTotal : Z;
}.

(** [PeriodConf]; a [time.Duration] is its int64. *)
Record PeriodConf := MkPeriodConf {
  StatsTimeStr : string;
  IostatTimeStr : string;
  RetrySyncTimeStr : string;
  StatsTime : Z;
  IostatTime : Z;
  RetrySyncTime : Z;
}.

(** [TimeoutConf]. *)
Record TimeoutConf := MkTimeoutConf {
  DefaultStr : string;
  Default : Z;
  DefaultLongStr : string;
  DefaultLong : Z;
  MaxKeepaliveStr : string;
  MaxKeepalive : Z;
  ProxyPingStr : string;
  ProxyPing : Z;
  CplaneOperationStr : string;
  CplaneOperation : Z;
  SendFileStr : string;
  SendFile : Z;
  StartupStr : string;
  Startup : Z;
}.

(** [ProxyConf]. *)
Record ProxyConf := MkProxyConf {
  NonElectable : bool;
  PrimaryURL : string;
  OriginalURL : string;
  DiscoveryURL : string;
}.

(** [LRUConf]. *)
Record LRUConf := MkLRUConf {
  LowWM : Z;
  HighWM : Z;
  OOS : Z;
  AtimeCacheMax : Z;
  DontEvictTimeStr : string;
  DontEvictTime : Z;
  CapacityUpdTimeStr : string;
  CapacityUpdTime : Z;
  LocalBuckets : bool;
  LRU_Enabled : bool;
}.

(** [XactionConf]. *)
Record XactionConf := MkXactionConf {
  DiskUtilLowWM : Z;
  DiskUtilHighWM : Z;
}.

(** [RebalanceConf]. *)
Record RebalanceConf := MkRebalanceConf {
  DestRetryTimeStr : string;
  DestRetryTime : Z;
  Rebalance_Enabled : bool;
}.

(** [CksumConf]. *)
Record CksumConf := MkCksumConf {
  Cksum_Type : string;
  ValidateColdGet : bool;
  Cksum_ValidateWarmGet : bool;
  ValidateClusterMigration : bool;
  EnableReadRange : bool;
}.

(** [VersionConf]. *)
Record VersionConf := MkVersionConf {
  Versioning : string;
  Ver_ValidateWarmGet : bool;
}.

(** [L4Conf]. *)
Record L4Conf := MkL4Conf {
  L4_Proto : string;
  PortStr : string;
  Port : Z;
  PortIntraControlStr : string;
  PortIntraControl : Z;
  PortIntraDataStr : string;
  PortIntraData : Z;
}.

(** [HTTPConf]. *)
Record HTTPConf := MkHTTPConf {
  HTTP_Proto : string;
  RevProxy : string;
  RevProxyCache : bool;
  Certificate : string;
  Key : string;
  MaxNumTargets : Z;
  UseHTTPS : bool;
}.

(** [NetConf]. *)
Record NetConf := MkNetConf {
  IPv4 : string;
  IPv4IntraControl : string;
  IPv4IntraData : string;
  UseIntraControl : bool;
  UseIntraData : bool;
  L4 : L4Conf;
  HTTP : HTTPConf;
}.

(** [FSHCConf]. *)
Record FSHCConf := MkFSHCConf {
  FSHC_Enabled : bool;
  TestFileCount : Z;
  ErrorLimit : Z;
}.

(** [KeepaliveTrackerConf]; [Factor] is a uint8. *)
Record KeepaliveTrackerConf := MkKeepaliveTrackerConf {
  IntervalStr : string;
  Interval : Z;
  Name : string;
  Factor : Z;
}.

(** [KeepaliveConf]; its fields [Proxy] and [Target] are [KProxy] and [KTarget] here. *)
Record KeepaliveConf := MkKeepaliveConf {
  KProxy : KeepaliveTrackerConf;
  KTarget : KeepaliveTrackerConf;
  RetryFactor : Z;
  TimeoutFactor : Z;
}.

(** [Config], without the parts that no function below reads or writes
    ([Readahead], [Replication], [FSpaths], [TestFSP], [Auth]). *)
Record Config := MkConfig {
  Confdir : string;
  CloudProvider : string;
  Mirror : MirrorConf;
  Log : LogConf;
  Periodic : PeriodConf;
  Timeout : TimeoutConf;
  Proxy : ProxyConf;
  LRU : LRUConf;
  Xaction : XactionConf;
  Rebalance : RebalanceConf;
  Cksum : CksumConf;
  Ver : VersionConf;
  Net : NetConf;
  FSHC : FSHCConf;
  KeepaliveTracker : KeepaliveConf;
}.

(** Assignments to single fields. *)
Definition set_Burst (v : Z) (r : MirrorConf) : MirrorConf :=
  MkMirrorConf (Copies r) v (UtilThresh r) (OptimizePUT r) (Mirror_Enabled r).
Definition set_UtilThresh (v : Z) (r : MirrorConf) : MirrorConf :=
  MkMirrorConf (Copies r) (Burst r) v (OptimizePUT r) (Mirror_Enabled r).
Definition set_Mirror_Enabled (v : bool) (r : MirrorConf) : MirrorConf :=
  MkMirrorConf (Copies r) (Burst r) (UtilThresh r) (OptimizePUT r) v.
Definition set_Level (v : string) (r : LogConf) : LogConf :=
  MkLogConf (Dir r) v (MaxSize r) (MaxTotal r).
Definition set_StatsTimeStr (v : string) (r : PeriodConf) : PeriodConf :=
  MkPeriodConf v (IostatTimeStr r) (RetrySyncTimeStr r) (StatsTime r) (IostatTime r)
    (RetrySyncTime r).
Definition set_IostatTimeStr (v : string) (r : PeriodConf) : PeriodConf :=
  MkPeriodConf (StatsTimeStr r) v (RetrySyncTimeStr r) (StatsTime r) (IostatTime r)
    (RetrySyncTime r).
Definition set_StatsTime (v : Z) (r : PeriodConf) : PeriodConf :=
  MkPeriodConf (StatsTimeStr r) (IostatTimeStr r) (RetrySyncTimeStr r) v (IostatTime r)
    (RetrySyncTime r).
Definition set_IostatTime (v : Z) (r : PeriodConf) : PeriodConf :=
  MkPeriodConf (StatsTimeStr r) (IostatTimeStr r) (RetrySyncTimeStr r) (StatsTime r) v
    (RetrySyncTime r).
Definition set_RetrySyncTime (v : Z) (r : PeriodConf) : PeriodConf :=
  MkPeriodConf (StatsTimeStr r) (IostatTimeStr r) (RetrySyncTimeStr r) (StatsTime r)
    (IostatTime r) v.
Definition set_DefaultStr (v : string) (r : TimeoutConf) : TimeoutConf :=
  MkTimeoutConf v (Default r) (DefaultLongStr r) (DefaultLong r) (MaxKeepaliveStr r)
    (MaxKeepalive r) (ProxyPingStr r) (ProxyPing r) (CplaneOperationStr r)
    (CplaneOperation r) (SendFileStr r) (SendFile r) (StartupStr r) (Startup r).
Definition set_Default (v : Z) (r : TimeoutConf) : TimeoutConf :=
  MkTimeoutConf (DefaultStr r) v (DefaultLongStr r) (DefaultLong r) (MaxKeepaliveStr r)
    (MaxKeepalive r) (ProxyPingStr r) (ProxyPing r) (CplaneOperationStr r)
    (CplaneOperation r) (SendFileStr r) (SendFile r) (StartupStr r) (Startup r).
Definition set_DefaultLongStr (v : string) (r : TimeoutConf) : TimeoutConf :=
  MkTimeoutConf (DefaultStr r) (Default r) v (DefaultLong r) (MaxKeepaliveStr r)
    (MaxKeepalive r) (ProxyPingStr r) (ProxyPing r) (CplaneOperationStr r)
    (CplaneOperation r) (SendFileStr r) (SendFile r) (StartupStr r) (Startup r).
Definition set_DefaultLong (v : Z) (r : TimeoutConf) : TimeoutConf :=
  MkTimeoutConf (DefaultStr r) (Default r) (DefaultLongStr r) v (MaxKeepaliveStr r)
    (MaxKeepalive r) (ProxyPingStr r) (ProxyPing r) (CplaneOperationStr r)
    (CplaneOperation r) (SendFileStr r) (SendFile r) (StartupStr r) (Startup r).
Definition set_MaxKeepaliveStr (v : string) (r : TimeoutConf) : TimeoutConf :=
  MkTimeoutConf (DefaultStr r) (Default r) (DefaultLongStr r) (DefaultLong r) v
    (MaxKeepalive r) (ProxyPingStr r) (ProxyPing r) (CplaneOperationStr r)
    (CplaneOperation r) (SendFileStr r) (SendFile r) (StartupStr r) (Startup r).
Definition set_MaxKeepalive (v : Z) (r : TimeoutConf) : TimeoutConf :=
  MkTimeoutConf (DefaultStr r) (Default r) (DefaultLongStr r) (DefaultLong r)
    (MaxKeepaliveStr r) v (ProxyPingStr r) (ProxyPing r) (CplaneOperationStr r)
    (CplaneOperation r) (SendFileStr r) (SendFile r) (StartupStr r) (Startup r).
Definition set_ProxyPingStr (v : string) (r : TimeoutConf) : TimeoutConf :=
  MkTimeoutConf (DefaultStr r) (Default r) (DefaultLongStr r) (DefaultLong r)
    (MaxKeepaliveStr r) (MaxKeepalive r) v (ProxyPing r) (CplaneOperationStr r)
    (CplaneOperation r) (SendFileStr r) (SendFile r) (StartupStr r) (Startup r).
Definition set_ProxyPing (v : Z) (r : TimeoutConf) : TimeoutConf :=
  MkTimeoutConf (DefaultStr r) (Default r) (DefaultLongStr r) (DefaultLong r)
    (MaxKeepaliveStr r) (MaxKeepalive r) (ProxyPingStr r) v (CplaneOperationStr r)
    (CplaneOperation r) (SendFileStr r) (SendFile r) (StartupStr r) (Startup r).
Definition set_CplaneOperationStr (v : string) (r : TimeoutConf) : TimeoutConf :=
  MkTimeoutConf (DefaultStr r) (Default r) (DefaultLongStr r) (DefaultLong r)
    (MaxKeepaliveStr r) (MaxKeepalive r) (ProxyPingStr r) (ProxyPing r) v
    (CplaneOperation r) (SendFileStr r) (SendFile r) (StartupStr r) (Startup r).
Definition set_CplaneOperation (v : Z) (r : TimeoutConf) : TimeoutConf :=
  MkTimeoutConf (DefaultStr r) (Default r) (DefaultLongStr r) (DefaultLong r)
    (MaxKeepaliveStr r) (MaxKeepalive r) (ProxyPingStr r) (ProxyPing r)
    (CplaneOperationStr r) v (SendFileStr r) (SendFile r) (StartupStr r) (Startup r).
Definition set_SendFileStr (v : string) (r : TimeoutConf) : TimeoutConf :=
  MkTimeoutConf (DefaultStr r) (Default r) (DefaultLongStr r) (DefaultLong r)
    (MaxKeepaliveStr r) (MaxKeepalive r) (ProxyPingStr r) (ProxyPing r)
    (CplaneOperationStr r) (CplaneOperation r) v (SendFile r) (StartupStr r) (Startup r).
Definition set_SendFile (v : Z) (r : TimeoutConf) : TimeoutConf :=
  MkTimeoutConf (DefaultStr r) (Default r) (DefaultLongStr r) (DefaultLong r)
    (MaxKeepaliveStr r) (MaxKeepalive r) (ProxyPingStr r) (ProxyPing r)
    (CplaneOperationStr r) (CplaneOperation r) (SendFileStr r) v (StartupStr r) (Startup r).
Definition set_Startup (v : Z) (r : TimeoutConf) : TimeoutConf :=
  MkTimeoutConf (DefaultStr r) (Default r) (DefaultLongStr r) (DefaultLong r)
    (MaxKeepaliveStr r) (MaxKeepalive r) (ProxyPingStr r) (ProxyPing r)
    (CplaneOperationStr r) (CplaneOperation r) (SendFileStr r) (SendFile r) (StartupStr r)
    v.
Definition set_PrimaryURL (v : string) (r : ProxyConf) : ProxyConf :=
  MkProxyConf (NonElectable r) v (OriginalURL r) (DiscoveryURL r).
Definition set_LowWM (v : Z) (r : LRUConf) : LRUConf :=
  MkLRUConf v (HighWM r) (OOS r) (AtimeCacheMax r) (DontEvictTimeStr r) (DontEvictTime r)
    (CapacityUpdTimeStr r) (CapacityUpdTime r) (LocalBuckets r) (LRU_Enabled r).
Definition set_HighWM (v : Z) (r : LRUConf) : LRUConf :=
  MkLRUConf (LowWM r) v (OOS r) (AtimeCacheMax r) (DontEvictTimeStr r) (DontEvictTime r)
    (CapacityUpdTimeStr r) (CapacityUpdTime r) (LocalBuckets r) (LRU_Enabled r).
Definition set_DontEvictTimeStr (v : string) (r : LRUConf) : LRUConf :=
  MkLRUConf (LowWM r) (HighWM r) (OOS r) (AtimeCacheMax r) v (DontEvictTime r)
    (CapacityUpdTimeStr r) (CapacityUpdTime r) (LocalBuckets r) (LRU_Enabled r).
Definition set_DontEvictTime (v : Z) (r : LRUConf) : LRUConf :=
  MkLRUConf (LowWM r) (HighWM r) (OOS r) (AtimeCacheMax r) (DontEvictTimeStr r) v
    (CapacityUpdTimeStr r) (CapacityUpdTime r) (LocalBuckets r) (LRU_Enabled r).
Definition set_CapacityUpdTimeStr (v : string) (r : LRUConf) : LRUConf :=
  MkLRUConf (LowWM r) (HighWM r) (OOS r) (AtimeCacheMax r) (DontEvictTimeStr r)
    (DontEvictTime r) v (CapacityUpdTime r) (LocalBuckets r) (LRU_Enabled r).
Definition set_CapacityUpdTime (v : Z) (r : LRUConf) : LRUConf :=
  MkLRUConf (LowWM r) (HighWM r) (OOS r) (AtimeCacheMax r) (DontEvictTimeStr r)
    (DontEvictTime r) (CapacityUpdTimeStr r) v (LocalBuckets r) (LRU_Enabled r).
Definition set_LocalBuckets (v : bool) (r : LRUConf) : LRUConf :=
  MkLRUConf (LowWM r) (HighWM r) (OOS r) (AtimeCacheMax r) (DontEvictTimeStr r)
    (DontEvictTime r) (CapacityUpdTimeStr r) (CapacityUpdTime r) v (LRU_Enabled r).
Definition set_LRU_Enabled (v : bool) (r : LRUConf) : LRUConf :=
  MkLRUConf (LowWM r) (HighWM r) (OOS r) (AtimeCacheMax r) (DontEvictTimeStr r)
    (DontEvictTime r) (CapacityUpdTimeStr r) (CapacityUpdTime r) (LocalBuckets r) v.
Definition set_DiskUtilLowWM (v : Z) (r : XactionConf) : XactionConf :=
  MkXactionConf v (DiskUtilHighWM r).
Definition set_DiskUtilHighWM (v : Z) (r : XactionConf) : XactionConf :=
  MkXactionConf (DiskUtilLowWM r) v.
Definition set_DestRetryTimeStr (v : string) (r : RebalanceConf) : RebalanceConf :=
  MkRebalanceConf v (DestRetryTime r) (Rebalance_Enabled r).
Definition set_DestRetryTime (v : Z) (r : RebalanceConf) : RebalanceConf :=
  MkRebalanceConf (DestRetryTimeStr r) v (Rebalance_Enabled r).
Definition set_Rebalance_Enabled (v : bool) (r : RebalanceConf) : RebalanceConf :=
  MkRebalanceConf (DestRetryTimeStr r) (DestRetryTime r) v.
Definition set_Cksum_Type (v : string) (r : CksumConf) : CksumConf :=
  MkCksumConf v (ValidateColdGet r) (Cksum_ValidateWarmGet r) (ValidateClusterMigration r)
    (EnableReadRange r).
Definition set_ValidateColdGet (v : bool) (r : CksumConf) : CksumConf :=
  MkCksumConf (Cksum_Type r) v (Cksum_ValidateWarmGet r) (ValidateClusterMigration r)
    (EnableReadRange r).
Definition set_Cksum_ValidateWarmGet (v : bool) (r : CksumConf) : CksumConf :=
  MkCksumConf (Cksum_Type r) (ValidateColdGet r) v (ValidateClusterMigration r)
    (EnableReadRange r).
Definition set_EnableReadRange (v : bool) (r : CksumConf) : CksumConf :=
  MkCksumConf (Cksum_Type r) (ValidateColdGet r) (Cksum_ValidateWarmGet r)
    (ValidateClusterMigration r) v.
Definition set_Versioning (v : string) (r : VersionConf) : VersionConf :=
  MkVersionConf v (Ver_ValidateWarmGet r).
Definition set_Ver_ValidateWarmGet (v : bool) (r : VersionConf) : VersionConf :=
  MkVersionConf (Versioning r) v.
Definition set_Port (v : Z) (r : L4Conf) : L4Conf :=
  MkL4Conf (L4_Proto r) (PortStr r) v (PortIntraControlStr r) (PortIntraControl r)
    (PortIntraDataStr r) (PortIntraData r).
Definition set_PortIntraControl (v : Z) (r : L4Conf) : L4Conf :=
  MkL4Conf (L4_Proto r) (PortStr r) (Port r) (PortIntraControlStr r) v (PortIntraDataStr r)
    (PortIntraData r).
Definition set_PortIntraData (v : Z) (r : L4Conf) : L4Conf :=
  MkL4Conf (L4_Proto r) (PortStr r) (Port r) (PortIntraControlStr r) (PortIntraControl r)
    (PortIntraDataStr r) v.
Definition set_HTTP_Proto (v : string) (r : HTTPConf) : HTTPConf :=
  MkHTTPConf v (RevProxy r) (RevProxyCache r) (Certificate r) (Key r) (MaxNumTargets r)
    (UseHTTPS r).
Definition set_IPv4 (v : string) (r : NetConf) : NetConf :=
  MkNetConf v (IPv4IntraControl r) (IPv4IntraData r) (UseIntraControl r) (UseIntraData r)
    (L4 r) (HTTP r).
Definition set_IPv4IntraControl (v : string) (r : NetConf) : NetConf :=
  MkNetConf (IPv4 r) v (IPv4IntraData r) (UseIntraControl r) (UseIntraData r) (L4 r)
    (HTTP r).
Definition set_IPv4IntraData (v : string) (r : NetConf) : NetConf :=
  MkNetConf (IPv4 r) (IPv4IntraControl r) v (UseIntraControl r) (UseIntraData r) (L4 r)
    (HTTP r).
Definition set_UseIntraControl (v : bool) (r : NetConf) : NetConf :=
  MkNetConf (IPv4 r) (IPv4IntraControl r) (IPv4IntraData r) v (UseIntraData r) (L4 r)
    (HTTP r).
Definition set_UseIntraData (v : bool) (r : NetConf) : NetConf :=
  MkNetConf (IPv4 r) (IPv4IntraControl r) (IPv4IntraData r) (UseIntraControl r) v (L4 r)
    (HTTP r).
Definition set_L4 (v : L4Conf) (r : NetConf) : NetConf :=
  MkNetConf (IPv4 r) (IPv4IntraControl r) (IPv4IntraData r) (UseIntraControl r)
    (UseIntraData r) v (HTTP r).
Definition set_HTTP (v : HTTPConf) (r : NetConf) : NetConf :=
  MkNetConf (IPv4 r) (IPv4IntraControl r) (IPv4IntraData r) (UseIntraControl r)
    (UseIntraData r) (L4 r) v.
Definition set_FSHC_Enabled (v : bool) (r : FSHCConf) : FSHCConf :=
  MkFSHCConf v (TestFileCount r) (ErrorLimit r).
Definition set_IntervalStr (v : string) (r : KeepaliveTrackerConf) : KeepaliveTrackerConf :=
  MkKeepaliveTrackerConf v (Interval r) (Name r) (Factor r).
Definition set_Interval (v : Z) (r : KeepaliveTrackerConf) : KeepaliveTrackerConf :=
  MkKeepaliveTrackerConf (IntervalStr r) v (Name r) (Factor r).
Definition set_Factor (v : Z) (r : KeepaliveTrackerConf) : KeepaliveTrackerConf :=
  MkKeepaliveTrackerConf (IntervalStr r) (Interval r) (Name r) v.
Definition set_KProxy (v : KeepaliveTrackerConf) (r : KeepaliveConf) : KeepaliveConf :=
  MkKeepaliveConf v (KTarget r) (RetryFactor r) (TimeoutFactor r).
Definition set_KTarget (v : KeepaliveTrackerConf) (r : KeepaliveConf) : KeepaliveConf :=
  MkKeepaliveConf (KProxy r) v (RetryFactor r) (TimeoutFactor r).
Definition set_Mirror (v : MirrorConf) (r : Config) : Config :=
  MkConfig (Confdir r) (CloudProvider r) v (Log r) (Periodic r) (Timeout r) (Proxy r)
    (LRU r) (Xaction r) (Rebalance r) (Cksum r) (Ver r) (Net r) (FSHC r)
    (KeepaliveTracker r).
Definition set_Log (v : LogConf) (r : Config) : Config :=
  MkConfig (Confdir r) (CloudProvider r) (Mirror r) v (Periodic r) (Timeout r) (Proxy r)
    (LRU r) (Xaction r) (Rebalance r) (Cksum r) (Ver r) (Net r) (FSHC r)
    (KeepaliveTracker r).
Definition set_Periodic (v : PeriodConf) (r : Config) : Config :=
  MkConfig (Confdir r) (CloudProvider r) (Mirror r) (Log r) v (Timeout r) (Proxy r) (LRU r)
    (Xaction r) (Rebalance r) (Cksum r) (Ver r) (Net r) (FSHC r) (KeepaliveTracker r).
Definition set_Timeout (v : TimeoutConf) (r : Config) : Config :=
  MkConfig (Confdir r) (CloudProvider r) (Mirror r) (Log r) (Periodic r) v (Proxy r) (LRU r)
    (Xaction r) (Rebalance r) (Cksum r) (Ver r) (Net r) (FSHC r) (KeepaliveTracker r).
Definition set_Proxy (v : ProxyConf) (r : Config) : Config :=
  MkConfig (Confdir r) (CloudProvider r) (Mirror r) (Log r) (Periodic r) (Timeout r) v
    (LRU r) (Xaction r) (Rebalance r) (Cksum r) (Ver r) (Net r) (FSHC r)
    (KeepaliveTracker r).
Definition set_LRU (v : LRUConf) (r : Config) : Config :=
  MkConfig (Confdir r) (CloudProvider r) (Mirror r) (Log r) (Periodic r) (Timeout r)
    (Proxy r) v (Xaction r) (Rebalance r) (Cksum r) (Ver r) (Net r) (FSHC r)
    (KeepaliveTracker r).
Definition set_Xaction (v : XactionConf) (r : Config) : Config :=
  MkConfig (Confdir r) (CloudProvider r) (Mirror r) (Log r) (Periodic r) (Timeout r)
    (Proxy r) (LRU r) v (Rebalance r) (Cksum r) (Ver r) (Net r) (FSHC r)
    (KeepaliveTracker r).
Definition set_Rebalance (v : RebalanceConf) (r : Config) : Config :=
  MkConfig (Confdir r) (CloudProvider r) (Mirror r) (Log r) (Periodic r) (Timeout r)
    (Proxy r) (LRU r) (Xaction r) v (Cksum r) (Ver r) (Net r) (FSHC r) (KeepaliveTracker r).
Definition set_Cksum (v : CksumConf) (r : Config) : Config :=
  MkConfig (Confdir r) (CloudProvider r) (Mirror r) (Log r) (Periodic r) (Timeout r)
    (Proxy r) (LRU r) (Xaction r) (Rebalance r) v (Ver r) (Net r) (FSHC r)
    (KeepaliveTracker r).
Definition set_Ver (v : VersionConf) (r : Config) : Config :=
  MkConfig (Confdir r) (CloudProvider r) (Mirror r) (Log r) (Periodic r) (Timeout r)
    (Proxy r) (LRU r) (Xaction r) (Rebalance r) (Cksum r) v (Net r) (FSHC r)
    (KeepaliveTracker r).
Definition set_Net (v : NetConf) (r : Config) : Config :=
  MkConfig (Confdir r) (CloudProvider r) (Mirror r) (Log r) (Periodic r) (Timeout r)
    (Proxy r) (LRU r) (Xaction r) (Rebalance r) (Cksum r) (Ver r) v (FSHC r)
    (KeepaliveTracker r).
Definition set_FSHC (v : FSHCConf) (r : Config) : Config :=
  MkConfig (Confdir r) (CloudProvider r) (Mirror r) (Log r) (Periodic r) (Timeout r)
    (Proxy r) (LRU r) (Xaction r) (Rebalance r) (Cksum r) (Ver r) (Net r) v
    (KeepaliveTracker r).
Definition set_KeepaliveTracker (v : KeepaliveConf) (r : Config) : Config :=
  MkConfig (Confdir r) (CloudProvider r) (Mirror r) (Log r) (Periodic r) (Timeout r)
    (Proxy r) (LRU r) (Xaction r) (Rebalance r) (Cksum r) (Ver r) (Net r) (FSHC r) v.

(** [ConfigCLI]; its field [StatsTime] is [CLI_StatsTime] here. *)
Record ConfigCLI := MkConfigCLI {
  ConfFile : string;
  LogLevel : string;
  CLI_StatsTime : Z;
  ProxyURL : string;
}.

(** What the package takes from outside: the parsers of the Go library
    ([time.ParseDuration], which returns 0 with an error; [strconv.Atoi];
    [strconv.ParseBool]; [strings.TrimSpace]), the [flag] values of the
    logger (does [Set] succeed; the flag [vmodule] may not be there),
    [cmn.CreateDir] (does it succeed), [cmn.ParsePort] (the port and
    whether the error is nil), and the constants of package [cmn] that
    are not part of the sources at hand. *)
Record Lib := MkLib {
  ParseDuration : string → option Z;
  Atoi : string → option Z;
  ParseBool : string → option bool;
  TrimSpace : string → string;
  flagSetV : string → bool;
  flagSetVmodule : option (string → bool);
  flagSetLogDir : string → bool;
  CreateDir : string → bool;
  ParsePort : string → Z * bool;
  VersionAll : string;
  VersionCloud : string;
  VersionLocal : string;
  VersionNone : string;
  ChecksumXXHash : string;
  ChecksumNone : string;
  ActPersist : string;
  GiB : Z;
  MiB : Z;
}.

(** The errors, by their format and the values put in. *)
Inductive cfgError :=
| ErrBadFormat (s : string)
| ErrInvalidLRU
| ErrInvalidMirror
| ErrInvalidXaction
| ErrInvalidChecksum (t : string)
| ErrInvalidVersion (v : string)
| ErrBadTimeout (knob s : string)
| ErrBadKeepaliveInterval (who s : string)
| ErrBadKeepaliveType (who t : string)
| ErrBadPort (which : string)
| ErrOverlap (which addr : string)
| ErrInvalidRProxy (s : string)
| ErrFailedParse (name value : string)
| ErrFailedApply (name value : string)
| ErrInvalidType (name value : string)
| ErrInvalidValue (name : string) (v : Z)
| ErrReadonly (name : string)
| ErrInvalidLRUWM (hwm lwm : Z)
| ErrInvalidXactionWM (hwm lwm : Z)
| ErrEmptyNvmap
| ErrInvalidPersist (value : string).

(** *** Strings *)

(** The bytes [','] and [' ']. *)
Definition comma : Ascii.ascii := Ascii.ascii_of_nat 44.
Definition space : Ascii.ascii := Ascii.ascii_of_nat 32.

(** [strings.Contains]. *)
Fixpoint Contains (s substr : string) : bool :=
  String.prefix substr s ||
  match s with
  | EmptyString => false
  | String _ s' => Contains s' substr
  end.

(** [strings.Split(s, ",")]. *)
Fixpoint SplitComma (s : string) : list string :=
  match s with
  | EmptyString => [EmptyString]
  | String a s' =>
      if Ascii.eqb a comma then EmptyString :: SplitComma s'
      else match SplitComma s' with
           | [] => [String a EmptyString]
           | x :: xs => String a x :: xs
           end
  end.

(** [strings.Replace(s, " ", "", -1)]. *)
Fixpoint RemoveSpaces (s : string) : string :=
  match s with
  | EmptyString => EmptyString
  | String a s' => if Ascii.eqb a space then RemoveSpaces s' else String a (RemoveSpaces s')
  end.

(** *** Validation *)

(** [ValidateVersion]. *)
Definition ValidateVersion (L : Lib) (version : string) : option cfgError :=
  if existsb (String.eqb version)
             [VersionAll L; VersionCloud L; VersionLocal L; VersionNone L]
  then None else Some (ErrInvalidVersion version).

(** [validKeepaliveType]. *)
Definition validKeepaliveType (t : string) : bool :=
  String.eqb t KeepaliveHeartbeatType || String.eqb t KeepaliveAverageType.

(** [ipv4ListsOverlap], its loop over the addresses of [alist]. *)
Fixpoint firstOverlap (L : Lib) (alistAddrs : list string) (blist : string) : bool * string :=
  match alistAddrs with
  | [] => (false, EmptyString)
  | a :: rest =>
      let a := TrimSpace L a in
      if String.eqb a "" then firstOverlap L rest blist
      else if Contains blist a then (true, a)
      else firstOverlap L rest blist
  end.

(** [ipv4ListsOverlap]. *)
Definition ipv4ListsOverlap (L : Lib) (alist blist : string) : bool * string :=
  if String.eqb alist "" || String.eqb blist "" then (false, EmptyString)
  else firstOverlap L (SplitComma alist) blist.

(** One step of [validateConfig]: a duration is parsed and assigned, and
    an error ends the validation. *)
Definition parseDur (L : Lib) (str : Config → string) (set : Z → Config → Config)
    (mkerr : string → cfgError) (k : Config → option cfgError * Config)
    (config : Config) : option cfgError * Config :=
  let d := ParseDuration L (str config) in
  let config' := set (default 0 d) config in
  match d with
  | None => (Some (mkerr (str config)), config')
  | Some _ => k config'
  end.

(** One step of [validateConfig]: a check that ends the validation. *)
Definition check (bad : Config → bool) (e : Config → cfgError)
    (k : Config → option cfgError * Config) (config : Config) : option cfgError * Config :=
  if bad config then (Some (e config), config) else k config.

(** One step of [validateConfig]: a port is parsed and assigned; the two
    intra-cluster ports are 0 when their string is empty. *)
Definition parsePort (L : Lib) (str : Config → string) (set : Z → Config → Config)
    (optional : bool) (e : cfgError) (k : Config → option cfgError * Config)
    (config : Config) : option cfgError * Config :=
  let config0 := if optional then set 0 config else config in
  if optional && String.eqb (str config) "" then k config0
  else
    let '(p, ok) := ParsePort L (str config) in
    let config' := set p config0 in
    if ok then k config' else (Some e, config').

(** One step of [validateConfig]: two address lists must not overlap. *)
Definition noOverlap (L : Lib) (alist blist : Config → string) (which : string)
    (k : Config → option cfgError * Config) (config : Config) : option cfgError * Config :=
  let '(overlap, addr) := ipv4ListsOverlap L (alist config) (blist config) in
  if overlap then (Some (ErrOverlap which addr), config) else k config.

(** [validateConfig]: the error, and the configuration with what was
    assigned up to there. *)
Definition validateConfig (L : Lib) (config : Config) : option cfgError * Config :=
  (parseDur L (λ c, StatsTimeStr (Periodic c))
            (λ v c, set_Periodic (set_StatsTime v (Periodic c)) c) ErrBadFormat $
   parseDur L (λ c, IostatTimeStr (Periodic c))
            (λ v c, set_Periodic (set_IostatTime v (Periodic c)) c) ErrBadFormat $
   parseDur L (λ c, RetrySyncTimeStr (Periodic c))
            (λ v c, set_Periodic (set_RetrySyncTime v (Periodic c)) c) ErrBadFormat $
   parseDur L (λ c, DontEvictTimeStr (LRU c))
            (λ v c, set_LRU (set_DontEvictTime v (LRU c)) c) ErrBadFormat $
   parseDur L (λ c, CapacityUpdTimeStr (LRU c))
            (λ v c, set_LRU (set_CapacityUpdTime v (LRU c)) c) ErrBadFormat $
   parseDur L (λ c, DestRetryTimeStr (Rebalance c))
            (λ v c, set_Rebalance (set_DestRetryTime v (Rebalance c)) c) ErrBadFormat $
   check (λ c, let hwm := HighWM (LRU c) in
               let lwm := LowWM (LRU c) in
               let oos := OOS (LRU c) in
               (hwm <=? 0) || (lwm <=? 0) || (oos <=? 0) || (hwm <? lwm) || (oos <? hwm) ||
               (lwm >? 100) || (hwm >? 100) || (oos >? 100))
         (λ _, ErrInvalidLRU) $
   check (λ c, (UtilThresh (Mirror c) <? 0) || (UtilThresh (Mirror c) >? 100) ||
               (Burst (Mirror c) <? 0))
         (λ _, ErrInvalidMirror) $
   check (λ c, Mirror_Enabled (Mirror c) && negb (Copies (Mirror c) =? 2))
         (λ _, ErrInvalidMirror) $
   check (λ c, let diskUtilHWM := DiskUtilHighWM (Xaction c) in
               let diskUtilLWM := DiskUtilLowWM (Xaction c) in
               (diskUtilHWM <=? 0) || (diskUtilLWM <=? 0) || (diskUtilHWM <=? diskUtilLWM) ||
               (diskUtilLWM >? 100) || (diskUtilHWM >? 100))
         (λ _, ErrInvalidXaction) $
   check (λ c, negb (String.eqb (Cksum_Type (Cksum c)) (ChecksumXXHash L)) &&
               negb (String.eqb (Cksum_Type (Cksum c)) (ChecksumNone L)))
         (λ c, ErrInvalidChecksum (Cksum_Type (Cksum c))) $
   check (λ c, match ValidateVersion L (Versioning (Ver c)) with
               | Some _ => true
               | None => false
               end)
         (λ c, ErrInvalidVersion (Versioning (Ver c))) $
   parseDur L (λ c, DefaultStr (Timeout c))
            (λ v c, set_Timeout (set_Default v (Timeout c)) c) ErrBadFormat $
   parseDur L (λ c, DefaultLongStr (Timeout c))
            (λ v c, set_Timeout (set_DefaultLong v (Timeout c)) c) ErrBadFormat $
   parseDur L (λ c, MaxKeepaliveStr (Timeout c))
            (λ v c, set_Timeout (set_MaxKeepalive v (Timeout c)) c)
            (ErrBadTimeout "max_keepalive") $
   parseDur L (λ c, ProxyPingStr (Timeout c))
            (λ v c, set_Timeout (set_ProxyPing v (Timeout c)) c)
            (ErrBadTimeout "proxy_ping") $
   parseDur L (λ c, CplaneOperationStr (Timeout c))
            (λ v c, set_Timeout (set_CplaneOperation v (Timeout c)) c)
            (ErrBadTimeout "vote_request") $
   parseDur L (λ c, SendFileStr (Timeout c))
            (λ v c, set_Timeout (set_SendFile v (Timeout c)) c)
            (ErrBadTimeout "send_file_time") $
   parseDur L (λ c, StartupStr (Timeout c))
            (λ v c, set_Timeout (set_Startup v (Timeout c)) c)
            (ErrBadTimeout "startup_time") $
   parseDur L (λ c, IntervalStr (KProxy (KeepaliveTracker c)))
            (λ v c, set_KeepaliveTracker
                      (set_KProxy (set_Interval v (KProxy (KeepaliveTracker c)))
                                  (KeepaliveTracker c)) c)
            (ErrBadKeepaliveInterval "proxy") $
   parseDur L (λ c, IntervalStr (KTarget (KeepaliveTracker c)))
            (λ v c, set_KeepaliveTracker
                      (set_KTarget (set_Interval v (KTarget (KeepaliveTracker c)))
                                   (KeepaliveTracker c)) c)
            (ErrBadKeepaliveInterval "target") $
   check (λ c, negb (validKeepaliveType (Name (KProxy (KeepaliveTracker c)))))
         (λ c, ErrBadKeepaliveType "proxy" (Name (KProxy (KeepaliveTracker c)))) $
   check (λ c, negb (validKeepaliveType (Name (KTarget (KeepaliveTracker c)))))
         (λ c, ErrBadKeepaliveType "target" (Name (KTarget (KeepaliveTracker c)))) $
   parsePort L (λ c, PortStr (L4 (Net c)))
             (λ v c, set_Net (set_L4 (set_Port v (L4 (Net c))) (Net c)) c)
             false (ErrBadPort "public") $
   parsePort L (λ c, PortIntraControlStr (L4 (Net c)))
             (λ v c, set_Net (set_L4 (set_PortIntraControl v (L4 (Net c))) (Net c)) c)
             true (ErrBadPort "internal") $
   parsePort L (λ c, PortIntraDataStr (L4 (Net c)))
             (λ v c, set_Net (set_L4 (set_PortIntraData v (L4 (Net c))) (Net c)) c)
             true (ErrBadPort "replication") $
   (λ k c, k (set_Net (set_IPv4IntraData (RemoveSpaces (IPv4IntraData (Net c)))
                (set_IPv4IntraControl (RemoveSpaces (IPv4IntraControl (Net c)))
                   (set_IPv4 (RemoveSpaces (IPv4 (Net c))) (Net c)))) c)) $
   noOverlap L (λ c, IPv4 (Net c)) (λ c, IPv4IntraControl (Net c)) "public and internal" $
   noOverlap L (λ c, IPv4 (Net c)) (λ c, IPv4IntraData (Net c)) "public and replication" $
   noOverlap L (λ c, IPv4IntraControl (Net c)) (λ c, IPv4IntraData (Net c))
             "internal and replication" $
   check (λ c, negb (String.eqb (RevProxy (HTTP (Net c))) "") &&
               negb (String.eqb (RevProxy (HTTP (Net c))) RevProxyCloud) &&
               negb (String.eqb (RevProxy (HTTP (Net c))) RevProxyTarget))
         (λ c, ErrInvalidRProxy (RevProxy (HTTP (Net c)))) $
   (λ c, (None, c))) config.

(** *** Updates *)

(** [SetLogLevel]; the flag [v] of the logger is there. *)
Definition SetLogLevel (L : Lib) (config : Config) (loglevel : string) : bool * Config :=
  if flagSetV L loglevel then (true, set_Log (set_Level loglevel (Log config)) config)
  else (false, config).

(** [SetGLogVModule]: is the error nil. *)
Definition SetGLogVModule (L : Lib) (v : string) : bool :=
  match flagSetVmodule L with
  | None => true
  | Some set => set v
  end.

(** The cases of the [switch] of [setConfig], by the kind of the value. *)
Definition setDur (L : Lib) (name value : string) (set : Z → string → Config → Config)
    (config : Config) : option cfgError * Config :=
  match ParseDuration L value with
  | None => (Some (ErrFailedParse name value), config)
  | Some v => (None, set v value config)
  end.

Definition setInt (L : Lib) (name value : string) (set : Z → Config → Config)
    (config : Config) : option cfgError * Config :=
  match Atoi L value with
  | None => (Some (ErrFailedParse name value), config)
  | Some v => (None, set v config)
  end.

Definition setBool (L : Lib) (name value : string) (set : bool → Config → Config)
    (config : Config) : option cfgError * Config :=
  match ParseBool L value with
  | None => (Some (ErrFailedParse name value), config)
  | Some v => (None, set v config)
  end.

(** [case a, b:] of a [switch] on [name]. *)
Definition isOneOf (name : string) (labels : list string) : bool :=
  existsb (String.eqb name) labels.

(** [setConfig], its [switch]. *)
Definition setKnob (L : Lib) (config : Config) (name value : string)
    : option cfgError * Config :=
  if isOneOf name ["vmodule"] then
    (if SetGLogVModule L value then None else Some (ErrFailedApply name value), config)
  else if isOneOf name ["log_level"; "log.level"] then
    let '(ok, config') := SetLogLevel L config value in
    (if ok then None else Some (ErrFailedApply name value), config')
  else if isOneOf name ["stats_time"; "periodic.stats_time"] then
    setDur L name value
      (λ v s c, set_Periodic (set_StatsTimeStr s (set_StatsTime v (Periodic c))) c) config
  else if isOneOf name ["iostat_time"; "periodic.iostat_time"] then
    setDur L name value
      (λ v s c, set_Periodic (set_IostatTimeStr s (set_IostatTime v (Periodic c))) c) config
  else if isOneOf name ["send_file_time"; "timeout.send_file_time"] then
    setDur L name value
      (λ v s c, set_Timeout (set_SendFileStr s (set_SendFile v (Timeout c))) c) config
  else if isOneOf name ["default_timeout"; "timeout.default_timeout"] then
    setDur L name value
      (λ v s c, set_Timeout (set_DefaultStr s (set_Default v (Timeout c))) c) config
  else if isOneOf name ["default_long_timeout"; "timeout.default_long_timeout"] then
    setDur L name value
      (λ v s c, set_Timeout (set_DefaultLongStr s (set_DefaultLong v (Timeout c))) c) config
  else if isOneOf name ["proxy_ping"; "timeout.proxy_ping"] then
    setDur L name value
      (λ v s c, set_Timeout (set_ProxyPingStr s (set_ProxyPing v (Timeout c))) c) config
  else if isOneOf name ["cplane_operation"; "timeout.cplane_operation"] then
    setDur L name value
      (λ v s c, set_Timeout (set_CplaneOperationStr s (set_CplaneOperation v (Timeout c))) c)
      config
  else if isOneOf name ["max_keepalive"; "timeout.max_keepalive"] then
    setDur L name value
      (λ v s c, set_Timeout (set_MaxKeepaliveStr s (set_MaxKeepalive v (Timeout c))) c) config
  else if isOneOf name ["dont_evict_time"; "lru.dont_evict_time"] then
    setDur L name value
      (λ v s c, set_LRU (set_DontEvictTimeStr s (set_DontEvictTime v (LRU c))) c) config
  else if isOneOf name ["capacity_upd_time"; "lru.capacity_upd_time"] then
    setDur L name value
      (λ v s c, set_LRU (set_CapacityUpdTimeStr s (set_CapacityUpdTime v (LRU c))) c) config
  else if isOneOf name ["lowwm"; "lru.lowwm"] then
    setInt L name value (λ v c, set_LRU (set_LowWM v (LRU c)) c) config
  else if isOneOf name ["highwm"; "lru.highwm"] then
    setInt L name value (λ v c, set_LRU (set_HighWM v (LRU c)) c) config
  else if isOneOf name ["lru_enabled"; "lru.enabled"] then
    setBool L name value (λ v c, set_LRU (set_LRU_Enabled v (LRU c)) c) config
  else if isOneOf name ["lru_local_buckets"; "lru.local_buckets"] then
    setBool L name value (λ v c, set_LRU (set_LocalBuckets v (LRU c)) c) config
  else if isOneOf name ["disk_util_low_wm"; "xaction.disk_util_low_wm"] then
    setInt L name value (λ v c, set_Xaction (set_DiskUtilLowWM v (Xaction c)) c) config
  else if isOneOf name ["disk_util_high_wm"; "xaction.disk_util_high_wm"] then
    setInt L name value (λ v c, set_Xaction (set_DiskUtilHighWM v (Xaction c)) c) config
  else if isOneOf name ["dest_retry_time"; "rebalance.dest_retry_time"] then
    setDur L name value
      (λ v s c, set_Rebalance (set_DestRetryTimeStr s (set_DestRetryTime v (Rebalance c))) c)
      config
  else if isOneOf name ["rebalance_enabled"; "rebalance.enabled"] then
    setBool L name value (λ v c, set_Rebalance (set_Rebalance_Enabled v (Rebalance c)) c)
            config
  else if isOneOf name ["validate_checksum_cold_get"; "cksum.validate_cold_get"] then
    setBool L name value (λ v c, set_Cksum (set_ValidateColdGet v (Cksum c)) c) config
  else if isOneOf name ["validate_checksum_warm_get"; "cksum.validate_warm_get"] then
    setBool L name value (λ v c, set_Cksum (set_Cksum_ValidateWarmGet v (Cksum c)) c) config
  else if isOneOf name ["enable_read_range_checksum"; "cksum.enable_read_range"] then
    setBool L name value (λ v c, set_Cksum (set_EnableReadRange v (Cksum c)) c) config
  else if isOneOf name ["checksum"; "cksum.type"] then
    if String.eqb value (ChecksumXXHash L) || String.eqb value (ChecksumNone L)
    then (None, set_Cksum (set_Cksum_Type value (Cksum config)) config)
    else (Some (ErrInvalidType name value), config)
  else if isOneOf name ["validate_version_warm_get"; "version.validate_warm_get"] then
    setBool L name value (λ v c, set_Ver (set_Ver_ValidateWarmGet v (Ver c)) c) config
  else if isOneOf name ["versioning"; "version.versioning"] then
    match ValidateVersion L value with
    | Some e => (Some e, config)
    | None => (None, set_Ver (set_Versioning value (Ver config)) config)
    end
  else if isOneOf name ["fshc_enabled"; "fshc.enabled"] then
    setBool L name value (λ v c, set_FSHC (set_FSHC_Enabled v (FSHC c)) c) config
  else if isOneOf name ["mirror_enabled"; "mirror.enabled"] then
    setBool L name value (λ v c, set_Mirror (set_Mirror_Enabled v (Mirror c)) c) config
  else if isOneOf name ["mirror_burst_buffer"; "mirror.burst_buffer"] then
    setInt L name value (λ v c, set_Mirror (set_Burst v (Mirror c)) c) config
  else if isOneOf name ["mirror_util_thresh"; "mirror.util_thresh"] then
    match Atoi L value with
    | None => (Some (ErrFailedParse name value), config)
    | Some v =>
        if (v <=? 0) || (v >? 100) then (Some (ErrInvalidValue name v), config)
        else (None, set_Mirror (set_UtilThresh v (Mirror config)) config)
    end
  else if isOneOf name ["keepalivetracker.proxy.interval"] then
    setDur L name value
      (λ v s c, set_KeepaliveTracker
                  (set_KProxy (set_IntervalStr s (set_Interval v (KProxy (KeepaliveTracker c))))
                              (KeepaliveTracker c)) c) config
  else if isOneOf name ["keepalivetracker.proxy.factor"] then
    setInt L name value
      (λ v c, set_KeepaliveTracker
                (set_KProxy (set_Factor (v mod 256) (KProxy (KeepaliveTracker c)))
                            (KeepaliveTracker c)) c) config
  else if isOneOf name ["keepalivetracker.target.interval"] then
    setDur L name value
      (λ v s c, set_KeepaliveTracker
                  (set_KTarget (set_IntervalStr s (set_Interval v (KTarget (KeepaliveTracker c))))
                               (KeepaliveTracker c)) c) config
  else if isOneOf name ["keepalivetracker.target.factor"] then
    setInt L name value
      (λ v c, set_KeepaliveTracker
                (set_KTarget (set_Factor (v mod 256) (KTarget (KeepaliveTracker c)))
                             (KeepaliveTracker c)) c) config
  else (Some (ErrReadonly name), config).

(** [setConfig]: after a case that went well the watermarks are looked
    at, the second check replacing the error of the first. *)
Definition setConfig (L : Lib) (config : Config) (name value : string)
    : option cfgError * Config :=
  let '(errstr, config') := setKnob L config name value in
  match errstr with
  | Some e => (Some e, config')
  | None =>
      let lwm := LowWM (LRU config') in
      let hwm := HighWM (LRU config') in
      let errstr :=
        if (hwm <=? 0) || (lwm <=? 0) || (hwm <? lwm) || (lwm >? 100) || (hwm >? 100)
        then Some (ErrInvalidLRUWM hwm lwm) else None in
      let lwm := DiskUtilLowWM (Xaction config') in
      let hwm := DiskUtilHighWM (Xaction config') in
      let errstr :=
        if (hwm <=? 0) || (lwm <=? 0) || (hwm <? lwm) || (lwm >? 100) || (hwm >? 100)
        then Some (ErrInvalidXactionWM hwm lwm) else errstr in
      (errstr, config')
  end.



(** [LoadConfig] from [LocalLoad] on, with what it loaded; [None] is
    [os.Exit(1)]. Returns [changed], the configuration committed to the
    global config owner, and [glog.MaxSize]. *)
Definition LoadConfig (L : Lib) (clivars : ConfigCLI) (loaded : option Config)
    : option (bool * Config * Z) :=
  match loaded with
  | None => None
  | Some config =>
      if negb (flagSetLogDir L (Dir (Log config))) then None
      else if negb (CreateDir L (Dir (Log config))) then None
      else
        match validateConfig L config with
        | (Some _, _) => None
        | (None, config) =>
            let maxSize := if MaxSize (Log config) >? GiB L then MiB L
                           else MaxSize (Log config) in
            let proto := if UseHTTPS (HTTP (Net config)) then "https" else "http" in
            let config :=
              set_Net (set_HTTP (set_HTTP_Proto proto (HTTP (Net config))) (Net config))
                      config in
            let differentIPs :=
              negb (String.eqb (IPv4 (Net config)) (IPv4IntraControl (Net config))) in
            let differentPorts :=
              negb (Port (L4 (Net config)) =? PortIntraControl (L4 (Net config))) in
            let config :=
              set_Net (set_UseIntraControl
                         (negb (String.eqb (IPv4IntraControl (Net config)) "") &&
                          negb (PortIntraControl (L4 (Net config)) =? 0) &&
                          (differentIPs || differentPorts)) (Net config)) config in
            let differentIPs :=
              negb (String.eqb (IPv4 (Net config)) (IPv4IntraData (Net config))) in
            let differentPorts :=
              negb (Port (L4 (Net config)) =? PortIntraData (L4 (Net config))) in
            let config :=
              set_Net (set_UseIntraData
                         (negb (String.eqb (IPv4IntraData (Net config)) "") &&
                          negb (PortIntraData (L4 (Net config)) =? 0) &&
                          (differentIPs || differentPorts)) (Net config)) config in
            let '(changed, config) :=
              if negb (CLI_StatsTime clivars =? 0)
              then (true, set_Periodic (set_StatsTime (CLI_StatsTime clivars)
                                                      (Periodic config)) config)
              else (false, config) in
            let '(changed, config) :=
              if negb (String.eqb (ProxyURL clivars) "")
              then (true, set_Proxy (set_PrimaryURL (ProxyURL clivars) (Proxy config))
                                    config)
              else (changed, config) in
            if negb (String.eqb (LogLevel clivars) "") then
              let '(ok, config) := SetLogLevel L config (LogLevel clivars) in
              if ok then
                Some (true, set_Log (set_Level (LogLevel clivars) (Log config)) config,
                      maxSize)
              else None
            else
              let '(ok, config) := SetLogLevel L config (Level (Log config)) in
              if ok then Some (changed, config, maxSize) else None
        end
  end.

(** *** What a validated configuration is *)

(** What [validateConfig] asks of the numbers and the names. *)
Definition validNumbers (L : Lib) (c : Config) : Prop :=
  (0 < LowWM (LRU c) ∧ LowWM (LRU c) ≤ HighWM (LRU c) ∧
   HighWM (LRU c) ≤ OOS (LRU c) ∧ OOS (LRU c) ≤ 100) ∧
  (0 ≤ UtilThresh (Mirror c) ≤ 100 ∧ 0 ≤ Burst (Mirror c)) ∧
  (Mirror_Enabled (Mirror c) = true → Copies (Mirror c) = 2) ∧
  (0 < DiskUtilLowWM (Xaction c) ∧ DiskUtilLowWM (Xaction c) < DiskUtilHighWM (Xaction c) ∧
   DiskUtilHighWM (Xaction c) ≤ 100) ∧
  (Cksum_Type (Cksum c) = ChecksumXXHash L ∨ Cksum_Type (Cksum c) = ChecksumNone L) ∧
  Versioning (Ver c) ∈ [VersionAll L; VersionCloud L; VersionLocal L; VersionNone L] ∧
  Name (KProxy (KeepaliveTracker c)) ∈ ["heartbeat"; "average"] ∧
  Name (KTarget (KeepaliveTracker c)) ∈ ["heartbeat"; "average"] ∧
  RevProxy (HTTP (Net c)) ∈ [""; "cloud"; "target"].

(** Every duration is what its string parses to. *)
Definition durationsParsed (L : Lib) (c : Config) : Prop :=
  ParseDuration L (StatsTimeStr (Periodic c)) = Some (StatsTime (Periodic c)) ∧
  ParseDuration L (IostatTimeStr (Periodic c)) = Some (IostatTime (Periodic c)) ∧
  ParseDuration L (RetrySyncTimeStr (Periodic c)) = Some (RetrySyncTime (Periodic c)) ∧
  ParseDuration L (DontEvictTimeStr (LRU c)) = Some (DontEvictTime (LRU c)) ∧
  ParseDuration L (CapacityUpdTimeStr (LRU c)) = Some (CapacityUpdTime (LRU c)) ∧
  ParseDuration L (DestRetryTimeStr (Rebalance c)) = Some (DestRetryTime (Rebalance c)) ∧
  ParseDuration L (DefaultStr (Timeout c)) = Some (Default (Timeout c)) ∧
  ParseDuration L (DefaultLongStr (Timeout c)) = Some (DefaultLong (Timeout c)) ∧
  ParseDuration L (MaxKeepaliveStr (Timeout c)) = Some (MaxKeepalive (Timeout c)) ∧
  ParseDuration L (ProxyPingStr (Timeout c)) = Some (ProxyPing (Timeout c)) ∧
  ParseDuration L (CplaneOperationStr (Timeout c)) = Some (CplaneOperation (Timeout c)) ∧
  ParseDuration L (SendFileStr (Timeout c)) = Some (SendFile (Timeout c)) ∧
  ParseDuration L (StartupStr (Timeout c)) = Some (Startup (Timeout c)) ∧
  ParseDuration L (IntervalStr (KProxy (KeepaliveTracker c)))
    = Some (Interval (KProxy (KeepaliveTracker c))) ∧
  ParseDuration L (IntervalStr (KTarget (KeepaliveTracker c)))
    = Some (Interval (KTarget (KeepaliveTracker c))).

(** The ports are what their strings parse to, an unset intra-cluster port
    being 0, and no two of the address lists overlap. *)
Definition networkChecked (L : Lib) (c : Config) : Prop :=
  ParsePort L (PortStr (L4 (Net c))) = (Port (L4 (Net c)), true) ∧
  (if String.eqb (PortIntraControlStr (L4 (Net c))) "" then PortIntraControl (L4 (Net c)) = 0
   else ParsePort L (PortIntraControlStr (L4 (Net c)))
        = (PortIntraControl (L4 (Net c)), true)) ∧
  (if String.eqb (PortIntraDataStr (L4 (Net c))) "" then PortIntraData (L4 (Net c)) = 0
   else ParsePort L (PortIntraDataStr (L4 (Net c))) = (PortIntraData (L4 (Net c)), true)) ∧
  (ipv4ListsOverlap L (IPv4 (Net c)) (IPv4IntraControl (Net c))).1 = false ∧
  (ipv4ListsOverlap L (IPv4 (Net c)) (IPv4IntraData (Net c))).1 = false ∧
  (ipv4ListsOverlap L (IPv4IntraControl (Net c)) (IPv4IntraData (Net c))).1 = false.

(** What [setConfig] asks of the watermarks after an update. *)
Definition watermarksChecked (c : Config) : Prop :=
  (0 < LowWM (LRU c) ∧ LowWM (LRU c) ≤ HighWM (LRU c) ∧ HighWM (LRU c) ≤ 100) ∧
  (0 < DiskUtilLowWM (Xaction c) ∧ DiskUtilLowWM (Xaction c) ≤ DiskUtilHighWM (Xaction c) ∧
   DiskUtilHighWM (Xaction c) ≤ 100).

(** The names of the watermarks in [setConfig]. *)
Definition watermarkNames : list string :=
  ["lowwm"; "lru.lowwm"; "highwm"; "lru.highwm";
   "disk_util_low_wm"; "xaction.disk_util_low_wm";
   "disk_util_high_wm"; "xaction.disk_util_high_wm"].

(** The fields that no case of [setConfig] assigns. *)
Definition readonly (c : Config) :=
  (Confdir c, CloudProvider c, Proxy c, Net c,
   (Dir (Log c), MaxSize (Log c), MaxTotal (Log c)),
   (RetrySyncTimeStr (Periodic c), RetrySyncTime (Periodic c)),
   (StartupStr (Timeout c), Startup (Timeout c)),
   (OOS (LRU c), AtimeCacheMax (LRU c)),
   (Copies (Mirror c), OptimizePUT (Mirror c)),
   ValidateClusterMigration (Cksum c),
   (TestFileCount (FSHC c), ErrorLimit (FSHC c)),
   (Name (KProxy (KeepaliveTracker c)), Name (KTarget (KeepaliveTracker c)),
    RetryFactor (KeepaliveTracker c), TimeoutFactor (KeepaliveTracker c))).

(** Every duration string parses. *)
Definition durationsParse (L : Lib) (c : Config) : Prop :=
  is_Some (ParseDuration L (StatsTimeStr (Periodic c))) ∧
  is_Some (ParseDuration L (IostatTimeStr (Periodic c))) ∧
  is_Some (ParseDuration L (RetrySyncTimeStr (Periodic c))) ∧
  is_Some (ParseDuration L (DontEvictTimeStr (LRU c))) ∧
  is_Some (ParseDuration L (CapacityUpdTimeStr (LRU c))) ∧
  is_Some (ParseDuration L (DestRetryTimeStr (Rebalance c))) ∧
  is_Some (ParseDuration L (DefaultStr (Timeout c))) ∧
  is_Some (ParseDuration L (DefaultLongStr (Timeout c))) ∧
  is_Some (ParseDuration L (MaxKeepaliveStr (Timeout c))) ∧
  is_Some (ParseDuration L (ProxyPingStr (Timeout c))) ∧
  is_Some (ParseDuration L (CplaneOperationStr (Timeout c))) ∧
  is_Some (ParseDuration L (SendFileStr (Timeout c))) ∧
  is_Some (ParseDuration L (StartupStr (Timeout c))) ∧
  is_Some (ParseDuration L (IntervalStr (KProxy (KeepaliveTracker c)))) ∧
  is_Some (ParseDuration L (IntervalStr (KTarget (KeepaliveTracker c)))).

(** The port strings parse, the two intra-cluster ones when they are set. *)
Definition portsParse (L : Lib) (c : Config) : Prop :=
  (ParsePort L (PortStr (L4 (Net c)))).2 = true ∧
  (PortIntraControlStr (L4 (Net c)) ≠ "" →
   (ParsePort L (PortIntraControlStr (L4 (Net c)))).2 = true) ∧
  (PortIntraDataStr (L4 (Net c)) ≠ "" →
   (ParsePort L (PortIntraDataStr (L4 (Net c)))).2 = true).

(** No two of the address lists, spaces removed, overlap. *)
Definition addressesDisjoint (L : Lib) (c : Config) : Prop :=
  let pub := RemoveSpaces (IPv4 (Net c)) in
  let ctl := RemoveSpaces (IPv4IntraControl (Net c)) in
  let dat := RemoveSpaces (IPv4IntraData (Net c)) in
  (ipv4ListsOverlap L pub ctl).1 = false ∧
  (ipv4ListsOverlap L pub dat).1 = false ∧
  (ipv4ListsOverlap L ctl dat).1 = false.

End cmn.

(** ** Joining the cluster: [join], [registerToURL], [getPrimaryURLAndSI] *)

Module reg.

(** A registration returns or fails an assertion; no channel is involved. *)
Inductive result (A : Type) :=
| Ok (a : A)
| Fatal (msg : string).
Arguments Ok {A} a.
Arguments Fatal {A} msg.

(** One [h.call] of a registration: the base URL and the path it went to. *)
Record regCall := RegCall {
  reg_base : string;
  reg_path : string;
}.

(** The outside of a joining node: its configuration, its cluster map
    ([nil] before the first one is received), the three path elements of
    package [cmn] that [registerToURL] puts together, and the outcome of
    the [k]-th call. *)
Record JoinEnv := MkJoinEnv {
  proxyConf : cmn.ProxyConf;
  localSmap : option smapX;
  pathCluster : string;
  pathProxy : string;
  pathKeepalive : string;
  reply : nat → regCall → callErr;
}.

(** The calls made so far are the state; a failed assertion is [Fatal]. *)
Definition J (A : Type) : Type := list regCall → result A * list regCall.

(** [getPrimaryURLAndSI]. *)
Definition getPrimaryURLAndSI (je : JoinEnv) : string * option Snode :=
  match localSmap je with
  | None => (cmn.PrimaryURL (proxyConf je), None)
  | Some smap =>
      match ProxySI smap with
      | None => (cmn.PrimaryURL (proxyConf je), None)
      | Some psi =>
          if negb (String.eqb (DaemonID psi) "") then (IntraControlURL psi, Some psi)
          else (cmn.PrimaryURL (proxyConf je), Some psi)
      end
  end.

(** [h.call], as far as a registration goes: the assertion that there is
    a node or a base URL, the default base, and the outcome. *)
Definition callReg (je : JoinEnv) (psi : option Snode) (base pth : string) : J callErr :=
  λ calls,
    match psi, String.eqb base "" with
    | None, true => (Fatal "assertion failed: args.si != nil || args.req.base != ''", calls)
    | _, _ =>
        let base' := match psi, String.eqb base "" with
                     | Some s, true => IntraControlURL s
                     | _, _ => base
                     end in
        let c := RegCall base' pth in
        (Ok (reply je (length calls) c), (calls ++ [c])%list)
    end.

(** [registerToURL]: up to two calls, the second only if the first failed. *)
Definition registerToURL (je : JoinEnv) (url : string) (psi : option Snode)
    (isproxy keepalive : bool) : J callErr :=
  let pth := (pathCluster je ++ (if isproxy then pathProxy je else "")
              ++ (if keepalive then pathKeepalive je else ""))%string in
  λ calls,
    match callReg je psi url pth calls with
    | (Ok NoErr, calls1) => (Ok NoErr, calls1)
    | (Ok _, calls1) => callReg je psi url pth calls1
    | (Fatal m, calls1) => (Fatal m, calls1)
    end.

(** [join]. *)
Definition join (je : JoinEnv) (isproxy : bool) : J callErr :=
  λ calls,
    let '(url, psi) := getPrimaryURLAndSI je in
    let cfg := proxyConf je in
    match registerToURL je url psi isproxy false calls with
    | (Ok NoErr, calls1) => (Ok NoErr, calls1)
    | (Fatal m, calls1) => (Fatal m, calls1)
    | (Ok res, calls1) =>
        let tryOriginal (calls2 : list regCall) :=
          if negb (String.eqb (cmn.OriginalURL cfg) "") &&
             negb (String.eqb (cmn.OriginalURL cfg) url) &&
             negb (String.eqb (cmn.OriginalURL cfg) (cmn.DiscoveryURL cfg))
          then
            match registerToURL je (cmn.OriginalURL cfg) psi isproxy false calls2 with
            | (Ok NoErr, calls3) => (Ok NoErr, calls3)
            | (Ok _, calls3) => (Ok res, calls3)
            | (Fatal m, calls3) => (Fatal m, calls3)
            end
          else (Ok res, calls2) in
        if negb (String.eqb (cmn.DiscoveryURL cfg) "") &&
           negb (String.eqb (cmn.DiscoveryURL cfg) url)
        then
          match registerToURL je (cmn.DiscoveryURL cfg) psi isproxy false calls1 with
          | (Ok NoErr, calls2) => (Ok NoErr, calls2)
          | (Ok _, calls2) => tryOriginal calls2
          | (Fatal m, calls2) => (Fatal m, calls2)
          end
        else tryOriginal calls1
    end.

(** The base URL a call to [url] goes to, and the path of a registration. *)
Definition effBase (psi : option Snode) (url : string) : string :=
  match psi, String.eqb url "" with
  | Some s, true => IntraControlURL s
  | _, _ => url
  end.

Definition regPath (je : JoinEnv) (isproxy keepalive : bool) : string :=
  pathCluster je ++ (if isproxy then pathProxy je else "")
  ++ (if keepalive then pathKeepalive je else "").

(** The URLs [join] goes through: the primary's, then the discovery URL
    and the original URL, each unless it is empty or one of the earlier. *)
Definition joinURLs (je : JoinEnv) : list string :=
  let url := (getPrimaryURLAndSI je).1 in
  let cfg := proxyConf je in
  (url ::
   (if negb (String.eqb (cmn.DiscoveryURL cfg) "") && negb (String.eqb (cmn.DiscoveryURL cfg) url)
    then [cmn.DiscoveryURL cfg] else []) ++
   (if negb (String.eqb (cmn.OriginalURL cfg) "") && negb (String.eqb (cmn.OriginalURL cfg) url) &&
       negb (String.eqb (cmn.OriginalURL cfg) (cmn.DiscoveryURL cfg))
    then [cmn.OriginalURL cfg] else []))%list.

(** Two attempts at each of the URLs. *)
Definition joinPlan (je : JoinEnv) (isproxy : bool) : list regCall :=
  joinURLs je ≫= λ u,
    let c := RegCall (effBase (getPrimaryURLAndSI je).2 u) (regPath je isproxy false) in
    [c; c].

(** What the [k]-th and following calls were answered. *)
Definition repliesTo (je : JoinEnv) (before : nat) (new : list regCall) : list callErr :=
  imap (λ k c, reply je (before + k) c) new.

(** The alternatives of [join], one after the other, as long as they fail. *)
Fixpoint tryRest (je : JoinEnv) (psi : option Snode) (isproxy : bool) (res : callErr)
    (urls : list string) : J callErr :=
  λ calls,
    match urls with
    | [] => (Ok res, calls)
    | u :: us =>
        match registerToURL je u psi isproxy false calls with
        | (Ok NoErr, calls1) => (Ok NoErr, calls1)
        | (Ok _, calls1) => tryRest je psi isproxy res us calls1
        | (Fatal m, calls1) => (Fatal m, calls1)
        end
    end.

Definition planOf (je : JoinEnv) (psi : option Snode) (isproxy : bool)
    (urls : list string) : list regCall :=
  urls ≫= λ u, let c := RegCall (effBase psi u) (regPath je isproxy false) in [c; c].

End reg.

(** ** Sample surroundings: a gateway P0 and targets T1, T2 *)

Definition P0 : Snode := MkSnode "P0" "http://p0:8080".
Definition T1 : Snode := MkSnode "T1" "http://t1:8081".
Definition T2 : Snode := MkSnode "T2" "http://t2:8082".

Definition smap_P0_T1 (v : Z) : smapX :=
  SmapX {["T1" := T1]} {["P0" := P0]} (Some P0) v.

Definition cfg : Config := MkConfig 1000 3000 5000.

Definition allOk : nat → string → callErr := λ _ _, NoErr.

Definition env0 (smaps : nat → smapX) (answers : nat → string → callErr) : Env :=
  MkEnv P0 cfg "regtarget" "/v1/metasync" smaps 1 answers.

Definition w0 : World := MkWorld newmetasyncer [] [] 0 0.

Definition bmd (v : Z) (js : string) : revspair :=
  Revspair (Revs bucketmdtag v (Some js)) (Some (ActionMsgInternal "createlb" "" "" v 1 "")).

Definition P1 : Snode := MkSnode "P1" "http://p1:8080".

(** The target T1 refuses the connection, and by the time of the first
    retry another gateway, P1, is the primary. *)
Definition env_bail : Env :=
  env0 (λ k, match k with
             | O => smap_P0_T1 1
             | S _ => SmapX {["T1" := T1]} {["P0" := P0; "P1" := P1]} (Some P1) 2
             end)
       (λ _ _, ErrRefused).

(** A third node, T2, is in the cluster map from the third reading on, and
    every call to it fails with an error other than a refusal. *)
Definition smap_P0_T1_T2 (v : Z) : smapX :=
  SmapX {["T1" := T1; "T2" := T2]} {["P0" := P0]} (Some P0) v.

Definition env_late_T2 : Env :=
  env0 (λ k, if (k <? 2)%nat then smap_P0_T1 1 else smap_P0_T1_T2 2)
       (λ _ id, if bool_decide (id = "T2") then ErrOther else NoErr).

(** After a first sync in the cluster of P0 and T1, a notification is
    waiting on the work channel. *)
Definition w_notify : World :=
  (notify env_late_T2 true true (Some (ActionMsgInternal "newprimary" "" "" 4 2 ""))
          (doSync env_late_T2 [bmd 4 "bmd-v4"] None w0).2).2.

(** After the notification, a sync of the next bucket metadata is waiting. *)
Definition w_sync5 : World :=
  (sync env_late_T2 false [bmd 5 "bmd-v5"]
        (Run_iter env_late_T2 SelWork w_notify).2).2.

(** After that sync, in which the call to T2 failed, the retry timer is
    armed. *)
Definition w_armed : World := (Run_iter env_late_T2 SelWork w_sync5).2.

(** An update in place of a published object: the registry sees the new
    serialization behind the same entry, the recorded clone stays. *)
Definition mutate_in_place (r : revs) (w : World) : World :=
  MkWorld (set_last (<[tag r := r]> (last (y w))) (y w))
          (trace w) (glog w) (gets w) (bcasts w).

Definition env_steady : Env := env0 (λ _, smap_P0_T1 1) allOk.

Definition w_published : World := (doSync env_steady [bmd 4 "bmd-v4"] None w0).2.

Definition w_mutated : World :=
  mutate_in_place (Revs bucketmdtag 4 (Some "bmd-v4 touched")) w_published.

(** A cluster map artifact of version 2, while the current one has 3. *)
Definition stale_smap : revspair :=
  Revspair (Revs smaptag 2 (Some "smap-v2"))
           (Some (ActionMsgInternal "regtarget" "" "" 1 2 "T1")).

(** A cluster map artifact of version 4, ahead of the current one. *)
Definition newer_smap : revspair :=
  Revspair (Revs smaptag 4 (Some "smap-v4"))
           (Some (ActionMsgInternal "regtarget" "" "" 1 4 "T1")).

Definition env_smap3 : Env := env0 (λ _, smap_P0_T1 3) allOk.


(** *** A sample library and a sample configuration *)

Definition digitVal (a : Ascii.ascii) : option Z :=
  let n := Z.of_nat (Ascii.nat_of_ascii a) in
  if (48 <=? n) && (n <=? 57) then Some (n - 48) else None.

Fixpoint digits (s : string) (acc : Z) : option Z :=
  match s with
  | EmptyString => Some acc
  | String a s' =>
      match digitVal a with
      | Some d => digits s' (10 * acc + d)
      | None => None
      end
  end.

(** Decimal numbers, with a sign. *)
Definition sampleAtoi (s : string) : option Z :=
  match s with
  | EmptyString => None
  | String a s' =>
      if Ascii.eqb a (Ascii.ascii_of_nat 45)
      then (if String.eqb s' "" then None else Z.opp <$> digits s' 0)
      else digits s 0
  end.

Fixpoint durationOf (s : string) (acc : Z) : option Z :=
  if String.eqb s "ms" then Some (acc * 1000000)
  else if String.eqb s "s" then Some (acc * 1000000000)
  else if String.eqb s "m" then Some (acc * 60000000000)
  else match s with
       | EmptyString => None
       | String a s' =>
           match digitVal a with
           | Some d => durationOf s' (10 * acc + d)
           | None => None
           end
       end.

(** Durations as a number and one of the units [ms], [s] and [m]. *)
Definition sampleParseDuration (s : string) : option Z :=
  match s with
  | EmptyString => None
  | String a _ => match digitVal a with Some _ => durationOf s 0 | None => None end
  end.

Definition sampleParseBool (s : string) : option bool :=
  if existsb (String.eqb s) ["1"; "t"; "T"; "TRUE"; "true"; "True"] then Some true
  else if existsb (String.eqb s) ["0"; "f"; "F"; "FALSE"; "false"; "False"] then Some false
  else None.

Fixpoint trimLeft (s : string) : string :=
  match s with
  | EmptyString => EmptyString
  | String a s' => if Ascii.eqb a cmn.space then trimLeft s' else s
  end.

Definition sampleTrimSpace (s : string) : string :=
  String.rev (trimLeft (String.rev (trimLeft s))).

Definition sampleParsePort (s : string) : Z * bool :=
  match digits s 0 with
  | Some p => if (0 <? p) && (p <? 65536) && negb (String.eqb s "") then (p, true)
              else (0, false)
  | None => (0, false)
  end.

Definition sampleLib : cmn.Lib :=
  cmn.MkLib sampleParseDuration sampleAtoi sampleParseBool sampleTrimSpace
            (λ l, bool_decide (is_Some (sampleAtoi l)))
            (Some (λ _, true)) (λ _, true) (λ d, negb (String.eqb d ""))
            sampleParsePort
            "all" "cloud" "local" "none" "xxhash" "none" "persist"
            1073741824 1048576.

Definition sampleKeepalive : cmn.KeepaliveTrackerConf :=
  cmn.MkKeepaliveTrackerConf "10s" 0 "heartbeat" 3.

Definition sampleConfig : cmn.Config :=
  cmn.MkConfig "/etc/ais" "aws"
    (cmn.MkMirrorConf 2 512 20 false false)
    (cmn.MkLogConf "/var/log/ais" "3" 4194304 67108864)
    (cmn.MkPeriodConf "10s" "2s" "2s" 0 0 0)
    (cmn.MkTimeoutConf "30s" 0 "30m" 0 "4s" 0 "100ms" 0 "1s" 0 "5m" 0 "1m" 0)
    (cmn.MkProxyConf false "http://p0:8080" "http://p0:8080" "http://p1:8080")
    (cmn.MkLRUConf 75 90 95 0 "120m" 0 "10m" 0 false true)
    (cmn.MkXactionConf 20 80)
    (cmn.MkRebalanceConf "2m" 0 true)
    (cmn.MkCksumConf "xxhash" false false false false)
    (cmn.MkVersionConf "all" false)
    (cmn.MkNetConf "10.0.0.1, 10.0.0.2" "10.1.0.1" ""
       false false
       (cmn.MkL4Conf "tcp" "8080" 0 "9080" 0 "" 0)
       (cmn.MkHTTPConf "" "" false "server.crt" "server.key" 0 false))
    (cmn.MkFSHCConf true 4 2)
    (cmn.MkKeepaliveConf sampleKeepalive sampleKeepalive 5 3).

(** The sample configuration as [validateConfig] leaves it. *)
Definition sampleValidated : cmn.Config :=
  Eval vm_compute in (cmn.validateConfig sampleLib sampleConfig).2.

(** A command line that overrides the statistics period. *)
Definition sampleCLI : cmn.ConfigCLI := cmn.MkConfigCLI "/etc/ais/ais.json" "" 5000000000 "".
(** * Properties *)

(** ** The monad *)

Lemma bind_Ok {A B} (c : M A) (k : A → M B) w a w1 :
  c w = (Ok a, w1) → bind c k w = k a w1.
Proof. intros H. unfold bind. by rewrite H. Qed.

Lemma bind_Fatal {A B} (c : M A) (k : A → M B) w msg w1 :
  c w = (Fatal msg, w1) → bind c k w = (Fatal msg, w1).
Proof. intros H. unfold bind. by rewrite H. Qed.

Lemma bind_inv_Ok {A B} (c : M A) (k : A → M B) w b w' :
  bind c k w = (Ok b, w') → ∃ a w1, c w = (Ok a, w1) ∧ k a w1 = (Ok b, w').
Proof.
  unfold bind. destruct (c w) as [[a|msg|] w1]; intros H; [eauto | discriminate..].
Qed.


(** ** Network planes *)

(** C9. [LoadConfig] turns the intra-control plane on exactly when its
    address is set, its port is not zero, and address or port differ from
    the public ones; the same holds of the intra-data plane. *)
Theorem LoadConfig_net_planes (n : NetConf) :
  (UseIntraControl (LoadConfig_net n) = true ↔
     IPv4IntraControl n ≠ "" ∧ PortIntraControl n ≠ 0 ∧
     (IPv4 n ≠ IPv4IntraControl n ∨ Port n ≠ PortIntraControl n)) ∧
  (UseIntraData (LoadConfig_net n) = true ↔
     IPv4IntraData n ≠ "" ∧ PortIntraData n ≠ 0 ∧
     (IPv4 n ≠ IPv4IntraData n ∨ Port n ≠ PortIntraData n)).
Proof.
  unfold LoadConfig_net; simpl.
  split.
  - destruct (String.eqb_spec (IPv4IntraControl n) ""),
             (Z.eqb_spec (PortIntraControl n) 0),
             (String.eqb_spec (IPv4 n) (IPv4IntraControl n)),
             (Z.eqb_spec (Port n) (PortIntraControl n)); simpl;
      split; try discriminate; try tauto; try (intros (? & ? & [?|?]); congruence).
  - destruct (String.eqb_spec (IPv4IntraData n) ""),
             (Z.eqb_spec (PortIntraData n) 0),
             (String.eqb_spec (IPv4 n) (IPv4IntraData n)),
             (Z.eqb_spec (Port n) (PortIntraData n)); simpl;
      split; try discriminate; try tauto; try (intros (? & ? & [?|?]); congruence).
Qed.

(** ** The entry points *)

Lemma checkPrimary_primary env w :
  isPrimary (smapAt env (gets w)) (self env) = true →
  checkPrimary env w = (Ok true, MkWorld (y w) (trace w) (glog w) (S (gets w)) (bcasts w)).
Proof. intros H. unfold checkPrimary, bind, smapowner_get. by rewrite H. Qed.

Lemma checkPrimary_nonprimary env w :
  isPrimary (smapAt env (gets w)) (self env) = false →
  checkPrimary env w =
    (Ok false,
     MkWorld (y w) (trace w)
             (glog w ++ ["self is not the primary - failing the 'sync' request"])
             (S (gets w)) (bcasts w)).
Proof. intros H. unfold checkPrimary, bind, smapowner_get. by rewrite H. Qed.

(** C7. On a node that is not the primary of the current cluster map,
    [sync] and [notify] log the request and drop it: they return with the
    metasyncer (its work channel included) as it was and with no event
    added to the trace, so neither [doSync] nor a broadcast follows. *)
Theorem nonprimary_requests_dropped env wait failed msg prs w :
  isPrimary (smapAt env (gets w)) (self env) = false →
  let ws := sync env wait prs w in
  let wn := notify env wait failed msg w in
  (ws.1 = Ok tt ∧ y ws.2 = y w ∧ trace ws.2 = trace w ∧
   ∃ line, glog ws.2 = (glog w ++ [line])%list) ∧
  (wn.1 = Ok tt ∧ y wn.2 = y w ∧ trace wn.2 = trace w ∧
   ∃ line, glog wn.2 = (glog w ++ [line])%list).
Proof.
  intros H. cbn zeta. unfold sync, notify.
  rewrite !(bind_Ok _ _ _ _ _ (checkPrimary_nonprimary env w H)). simpl.
  repeat split; by eexists.
Qed.

Lemma nonprimary_requests_dropped_witness :
  let env := env0 (λ _, SmapX {["T1" := T1]} {["P0" := P0; "P9" := MkSnode "P9" "u"]}
                          (Some (MkSnode "P9" "u")) 4) allOk in
  (sync env true [bmd 1 "bmd-v1"] w0).1 = Ok tt ∧
  y (sync env true [bmd 1 "bmd-v1"] w0).2 = y w0 ∧
  trace (sync env true [bmd 1 "bmd-v1"] w0).2 = trace w0.
Proof.
  intros env.
  pose proof (nonprimary_requests_dropped env true false None [bmd 1 "bmd-v1"] w0
                ltac:(reflexivity)) as [(H1 & H2 & H3 & _) _].
  auto.
Defined.

(** C10, as the code has it. On the primary, [sync] with no pair fails
    its assertion and puts nothing on the work channel; with pairs, the
    one request it puts there carries them and is not the empty one.
    [notify] puts one request there, which is the empty one exactly when
    its message is nil. [becomeNonPrimary] sends the empty request when
    the work channel has room, and never returns when it is full. When
    [Run] takes the empty request it resets the state (what is still in
    the channel stays) and does nothing else. *)
Theorem sync_empty_pairs_fatal env wait w :
  isPrimary (smapAt env (gets w)) (self env) = true →
  (∃ msg, (sync env wait [] w).1 = Fatal msg) ∧
  y (sync env wait [] w).2 = y w ∧
  trace (sync env wait [] w).2 = trace w ∧
  (∀ rp prs, ∃ rq,
     (sync env wait (rp :: prs) w).1 = Ok tt ∧
     workCh (y (sync env wait (rp :: prs) w).2) = (workCh (y w) ++ [rq])%list ∧
     pairs rq = rp :: prs ∧ isNil rq = false) ∧
  (∀ failed msg, ∃ rq,
     (notify env wait failed msg w).1 = Ok tt ∧
     workCh (y (notify env wait failed msg w).2) = (workCh (y w) ++ [rq])%list ∧
     pairs rq = [] ∧ msgInt rq = msg ∧
     (isNil rq = true ↔ msg = None)) ∧
  ((length (workCh (y w)) < workChCap)%nat →
   ∃ rq,
     (becomeNonPrimary w).1 = Ok tt ∧
     workCh (y (becomeNonPrimary w).2) = (workCh (y w) ++ [rq])%list ∧
     isNil rq = true) ∧
  ((workChCap ≤ length (workCh (y w)))%nat → becomeNonPrimary w = (Blocked, w)) ∧
  (∀ rq queue,
     workCh (y w) = rq :: queue → isNil rq = true →
     ∃ w', Run_iter env SelWork w = (Ok true, w') ∧
           y w' = Metasyncer ∅ ∅ ∅ queue None true ∧
           trace w' = trace w ∧ bcasts w' = bcasts w).
Proof.
  intros H. unfold sync, notify.
  rewrite !(bind_Ok _ _ _ _ _ (checkPrimary_primary env w H)). simpl.
  split; [by eexists |]. do 2 (split; [done |]). split; [| split; [| split; [| split]]].
  - intros rp prs. eexists. rewrite (bind_Ok _ _ _ _ _ (checkPrimary_primary env w H)).
    simpl. split; [done |]. split; [reflexivity |]. done.
  - intros failed msg. exists (RevsReq [] wait msg failed).
    rewrite (bind_Ok _ _ _ _ _ (checkPrimary_primary env w H)). simpl.
    do 4 (split; [done |]). unfold isNil. simpl. destruct msg; split; intros; done.
  - intros Hroom. unfold becomeNonPrimary, bind, getY. simpl.
    rewrite bool_decide_eq_true_2 by done.
    eexists. split; [done |]. split; [reflexivity |]. done.
  - intros Hfull. unfold becomeNonPrimary, bind, getY. simpl.
    rewrite bool_decide_eq_false_2 by lia. unfold block. by destruct w.
  - intros rq queue Hq Hnil. unfold Run_iter, bind, getY. simpl. rewrite Hq.
    unfold setY at 1. rewrite Hnil. eexists. split; [reflexivity |]. done.
Qed.

Lemma sync_empty_pairs_fatal_witness :
  ∃ msg, (sync (env0 (λ _, smap_P0_T1 1) allOk) false [] w0).1 = Fatal msg.
Proof.
  exact (proj1 (sync_empty_pairs_fatal (env0 (λ _, smap_P0_T1 1) allOk) false w0
                  ltac:(reflexivity))).
Defined.

(** C10, as stated, fails for [notify]: called without a message on the
    primary it puts the empty request on the work channel, the one that
    makes [Run] reset the state. *)
Lemma notify_nil_sends_empty_request :
  ¬ callers_never_send_nil env_steady w_published.
Proof.
  intros H.
  specialize (H false false None [] (RevsReq [] false None false)
                ltac:(left; vm_compute; reflexivity)).
  discriminate H.
Qed.

(** ** The copy-on-write audit *)

Lemma cowCheck_world s kv w :
  cowCheck s kv w = (Ok tt, w) ∨ ∃ msg, cowCheck s kv w = (Fatal msg, w).
Proof.
  unfold cowCheck. destruct (marshal kv.2) as [js|]; [| right; by eexists].
  destruct (lastclone s !! kv.1) as [c|]; [| by left].
  unfold Assert. case_bool_decide; [by left | right; by eexists].
Qed.

Lemma cowAudit_world s l w :
  forM_ (cowCheck s) l w = (Ok tt, w) ∨ ∃ msg, forM_ (cowCheck s) l w = (Fatal msg, w).
Proof.
  induction l as [|kv l IH]; simpl; [by left |].
  destruct (cowCheck_world s kv w) as [E | [msg E]].
  - by rewrite (bind_Ok _ _ _ _ _ E).
  - right. exists msg. by rewrite (bind_Fatal _ _ _ _ _ E).
Qed.

Lemma cowCheck_violation s kv w cowcopy :
  lastclone s !! kv.1 = Some cowcopy → marshal kv.2 ≠ Some cowcopy →
  ∃ msg, cowCheck s kv w = (Fatal msg, w).
Proof.
  intros Hc Hm. unfold cowCheck. destruct (marshal kv.2) as [js|]; [| by eexists].
  rewrite Hc. unfold Assert. case_bool_decide; [congruence | by eexists].
Qed.

Lemma cowAudit_violation s l w kv cowcopy :
  kv ∈ l → lastclone s !! kv.1 = Some cowcopy → marshal kv.2 ≠ Some cowcopy →
  ∃ msg, forM_ (cowCheck s) l w = (Fatal msg, w).
Proof.
  intros Hin Hc Hm. induction l as [|kv' l IH]; [by apply elem_of_nil in Hin |].
  simpl. destruct (cowCheck_world s kv' w) as [E | [msg E]].
  - rewrite (bind_Ok _ _ _ _ _ E). apply elem_of_cons in Hin as [-> | Hin].
    + destruct (cowCheck_violation s kv' w cowcopy Hc Hm) as [msg E']. congruence.
    + by apply IH.
  - exists msg. by rewrite (bind_Fatal _ _ _ _ _ E).
Qed.

(** C4. When some published tag no longer serializes to its recorded
    clone, [doSync] fails a fatal assertion, whatever it was asked to
    send, and it does so before any broadcast: the trace and the
    metasyncer are as they were and no peer call was counted. *)
Theorem doSync_cow_violation_fatal env prs msg w t r cowcopy :
  last (y w) !! t = Some r →
  lastclone (y w) !! t = Some cowcopy →
  marshal r ≠ Some cowcopy →
  ∃ m,
    (doSync env prs msg w).1 = Fatal m ∧
    trace (doSync env prs msg w).2 = trace w ∧
    bcasts (doSync env prs msg w).2 = bcasts w ∧
    y (doSync env prs msg w).2 = y w.
Proof.
  intros Hl Hc Hm.
  set (w1 := MkWorld (y w) (trace w) (glog w) (S (gets w)) (bcasts w)).
  destruct (cowAudit_violation (y w) (map_to_list (last (y w))) w1 (t, r) cowcopy)
    as [m E]; [by apply elem_of_map_to_list | done | done |].
  exists m. unfold doSync, bind, smapowner_get, getY, cowAudit. simpl y.
  fold w1. rewrite E. done.
Qed.

Lemma doSync_cow_violation_fatal_witness :
  ∃ m, (doSync env_steady [bmd 5 "bmd-v5"] None w_mutated).1 = Fatal m ∧
       trace (doSync env_steady [bmd 5 "bmd-v5"] None w_mutated).2 = trace w_mutated.
Proof.
  destruct (doSync_cow_violation_fatal env_steady [bmd 5 "bmd-v5"] None w_mutated
              bucketmdtag (Revs bucketmdtag 4 (Some "bmd-v4 touched")) "bmd-v4")
    as (m & H1 & H2 & _).
  - vm_compute. reflexivity.
  - vm_compute. reflexivity.
  - simpl. discriminate.
  - exists m. split; assumption.
Defined.

(** ** The filter step at work *)

(** C3, on the code: with the current cluster map at version 3, a sync of
    the cluster-map artifact of version 4 is fatal before anything is
    sent, as claimed; a sync of the artifact of version 2 is not fatal, and
    the stale artifact is what is published, put on the wire and recorded
    as delivered: the current cluster map is not put in its place. *)
Theorem doSync_stale_smap_broadcast :
  let r := doSync env_smap3 [stale_smap] None w0 in
  Version (smapAt env_smap3 0) = 3 ∧
  doSync env_smap3 [newer_smap] None w0
    = (Fatal "FATAL: revs is newer than the current Smap",
       MkWorld newmetasyncer [] [] 1 0) ∧
  r.1 = Ok 0%nat ∧
  (λ p : gmap string wireVal, p !! smaptag) <$> payloadsOf (trace r.2)
    = [Some (WRevs "smap-v2")] ∧
  lversion (y r.2) smaptag = 2 ∧
  delivered r.2 "T1" smaptag = Some 2.
Proof. vm_compute. repeat split; reflexivity. Qed.

(** C8, on the code: in the cluster of the primary P0 and the target T1,
    with every call answered, a second sync of the same pair is not
    dropped: the primary has no entry of its own in [revsmap], counts
    itself as a new member, and broadcasts again. *)
Theorem doSync_duplicate_rebroadcast :
  let first := doSync env_steady [bmd 1 "bmd-v1"] None w0 in
  let second := doSync env_steady [bmd 1 "bmd-v1"] None first.2 in
  first.1 = Ok 0%nat ∧ second.1 = Ok 0%nat ∧
  delivered first.2 "T1" bucketmdtag = Some 1 ∧
  countNewMembers (y first.2) (smapAt env_steady 2) = 1%nat ∧
  revsmap (y first.2) !! "P0" = None ∧
  snd <$> bcastsOf (trace first.2) = [["T1"]] ∧
  snd <$> bcastsOf (trace second.2) = [["T1"]; ["T1"]].
Proof. vm_compute. repeat split; reflexivity. Qed.

(** ** The refused-retry loop *)

Lemma nodeCount_single (rf : gmap string Snode) : nodeCount [rf] = size rf.
Proof. unfold nodeCount. simpl. lia. Qed.

Lemma refusedOne_fold prs res : ∀ rm (rf : gmap string Snode),
  let out := foldl (refusedOne prs) (rm, rf) res in
  out.2 ⊆ rf ∧
  ∀ id, (∃ r, r ∈ res ∧ err r = NoErr ∧ DaemonID (si r) = id) → out.2 !! id = None.
Proof.
  induction res as [|r res IH]; intros rm rf; simpl.
  - split; [done |]. intros id (r & Hr & _). by apply elem_of_nil in Hr.
  - destruct (err r) eqn:Er.
    + replace (refusedOne prs (rm, rf) r)
        with (syncDone (DaemonID (si r)) prs rm, delete (DaemonID (si r)) rf)
        by (unfold refusedOne; by rewrite Er).
      destruct (IH (syncDone (DaemonID (si r)) prs rm) (delete (DaemonID (si r)) rf))
        as [Hsub Hdel].
      split; [etrans; [exact Hsub | apply delete_subseteq] |].
      intros id (r' & Hin & Herr & Hid). apply elem_of_cons in Hin as [-> | Hin].
      * subst id. eapply lookup_weaken_None; [| exact Hsub]. apply lookup_delete_eq.
      * apply Hdel. eauto.
    + replace (refusedOne prs (rm, rf) r) with (rm, rf)
        by (unfold refusedOne; by rewrite Er).
      destruct (IH rm rf) as [Hsub Hdel]. split; [done |].
      intros id (r' & Hin & Herr & Hid). apply elem_of_cons in Hin as [-> | Hin];
        [congruence | apply Hdel; eauto].
    + replace (refusedOne prs (rm, rf) r) with (rm, rf)
        by (unfold refusedOne; by rewrite Er).
      destruct (IH rm rf) as [Hsub Hdel]. split; [done |].
      intros id (r' & Hin & Herr & Hid). apply elem_of_cons in Hin as [-> | Hin];
        [congruence | apply Hdel; eauto].
Qed.

Lemma handleRefused_run env mth url bdy (rf : gmap string Snode) prs w :
  size rf ≠ 0%nat →
  let peers := bcastPeers env [rf] in
  let res := callsOf env (bcasts w) peers in
  let out := foldl (refusedOne prs) (revsmap (y w), rf) res in
  handleRefused env mth url bdy rf prs w =
    (Ok out.2,
     MkWorld (set_revsmap out.1 (y w))
             (trace w ++ [EvBcast (refusedArgs env mth url bdy rf) (DaemonID <$> peers)])
             (glog w) (gets w) (S (bcasts w))).
Proof.
  intros Hne. cbn zeta. unfold handleRefused, bind, broadcast.
  simpl nodes. rewrite nodeCount_single. rewrite bool_decide_eq_false_2 by done.
  reflexivity.
Qed.

Lemma refusedLoop_S env mth url bdy prs n (refused : gmap string Snode) w :
  size refused ≠ 0%nat →
  let w1 := MkWorld (y w) (trace w ++ [EvSleep (CplaneOperation (config env))])
                    (glog w) (S (gets w)) (bcasts w) in
  refusedLoop env (S n) mth url bdy refused prs w =
    if isPrimary (smapAt env (gets w)) (self env) then
      bind (handleRefused env mth url bdy refused prs)
           (λ refused', refusedLoop env n mth url bdy refused' prs) w1
    else bind becomeNonPrimary (λ _, ret None) w1.
Proof.
  intros Hne. simpl. rewrite bool_decide_eq_false_2 by done.
  unfold bind at 1. unfold emit. unfold bind at 1. unfold smapowner_get. simpl.
  by destruct (isPrimary (smapAt env (gets w)) (self env)).
Qed.

Lemma becomeNonPrimary_run w :
  becomeNonPrimary w =
    if bool_decide (length (workCh (y w)) < workChCap)%nat
    then (Ok tt,
          MkWorld (set_workCh (workCh (y w) ++ [RevsReq [] false None false]) (y w))
                  (trace w) (glog w ++ ["becoming non-primary"]) (gets w) (bcasts w))
    else (Blocked, w).
Proof.
  unfold becomeNonPrimary, bind, getY, setY, logLine, block. simpl.
  case_bool_decide; [done | by destruct w].
Qed.

(** What is left of [rf0] after the results of the calls to the nodes [l]. *)
Lemma refusedOne_fold_lookup prs env k l : ∀ rm (rf0 : gmap string Snode) id node,
  (foldl (refusedOne prs) (rm, rf0) (callsOf env k l)).2 !! id = Some node ↔
  rf0 !! id = Some node ∧
  ∀ di, di ∈ l → DaemonID di = id → netCall env k (DaemonID di) ≠ NoErr.
Proof.
  induction l as [|d l IH]; intros rm rf0 id node; simpl.
  - split; [intros H; split; [done | by intros di ?%elem_of_nil] | by intros [? _]].
  - unfold refusedOne at 2. simpl.
    destruct (netCall env k (DaemonID d)) eqn:Ed; simpl.
    + rewrite IH. split.
      * intros [Hl Hall]. apply lookup_delete_Some in Hl as [Hne Hl]. split; [done |].
        intros di [-> | Hin]%elem_of_cons Hid; [by destruct Hne | by apply Hall].
      * intros [Hl Hall]. split.
        -- apply lookup_delete_Some. split; [| done]. intros E.
           by apply (Hall d); [left | |].
        -- intros di Hin. apply Hall. by right.
    + rewrite IH. split.
      * intros [Hl Hall]. split; [done |].
        intros di [-> | Hin]%elem_of_cons Hid; [by rewrite Ed | by apply Hall].
      * intros [Hl Hall]. split; [done |]. intros di Hin. apply Hall. by right.
    + rewrite IH. split.
      * intros [Hl Hall]. split; [done |].
        intros di [-> | Hin]%elem_of_cons Hid; [by rewrite Ed | by apply Hall].
      * intros [Hl Hall]. split; [done |]. intros di Hin. apply Hall. by right.
Qed.

Lemma bcastPeers_single env (rf : gmap string Snode) di :
  di ∈ bcastPeers env [rf] ↔ ∃ id, rf !! id = Some di ∧ id ≠ DaemonID (self env).
Proof.
  unfold bcastPeers. simpl. rewrite app_nil_r. rewrite list_elem_of_fmap. split.
  - intros ([id d] & -> & Hin). apply list_elem_of_filter in Hin as [Hne Hin].
    apply elem_of_map_to_list in Hin. by exists id.
  - intros (id & Hl & Hne). exists (id, di). split; [done |].
    apply list_elem_of_filter. split; [done | by apply elem_of_map_to_list].
Qed.

(** One round leaves exactly the nodes whose call did not succeed. *)
Lemma refusedOne_fold_exact prs env k rm (rf : gmap string Snode) :
  keyed rf →
  (foldl (refusedOne prs) (rm, rf) (callsOf env k (bcastPeers env [rf]))).2
    = stillRefused env k rf.
Proof.
  intros Hk. apply map_eq. intros id. apply option_eq. intros node.
  rewrite refusedOne_fold_lookup. unfold stillRefused.
  rewrite map_lookup_filter_Some. simpl. split.
  - intros [Hl Hall]. split; [done |].
    destruct (decide (id = DaemonID (self env))) as [-> | Hne]; [by left | right].
    rewrite <- (Hk id node Hl) at 1. apply (Hall node); [| by apply Hk].
    apply bcastPeers_single. by exists id.
  - intros [Hl Hor]. split; [done |]. intros di Hin Hid.
    apply bcastPeers_single in Hin as (id' & Hl' & Hne).
    assert (id' = id) as -> by (by rewrite <- (Hk id' di Hl')).
    destruct Hor as [-> | Hor]; [done | by rewrite Hid].
Qed.

Lemma stillRefused_keyed env k rf : keyed rf → keyed (stillRefused env k rf).
Proof.
  intros Hk id node Hl. apply map_lookup_filter_Some in Hl as [Hl _]. by apply Hk.
Qed.

Lemma stillRefused_sub env k rf : stillRefused env k rf ⊆ rf.
Proof. apply map_filter_subseteq. Qed.

Lemma refusedAfter_sub env j : ∀ k rf, refusedAfter env k rf j ⊆ rf.
Proof.
  induction j as [|j IH]; intros k rf; simpl; [done |].
  etrans; [apply IH | apply stillRefused_sub].
Qed.

(** The rounds of the refused-retry loop, one by one. *)
Lemma refusedLoop_rounds env mth url bdy prs n : ∀ (refused : gmap string Snode) w,
  keyed refused →
  let r := refusedLoop env n mth url bdy refused prs w in
  ∃ rounds : list (option (gmap string Snode)),
    trace r.2 = (trace w ++ (rounds ≫= roundEvents env mth url bdy))%list ∧
    (length rounds ≤ n)%nat ∧
    gets r.2 = (gets w + length rounds)%nat ∧
    ((0 < n)%nat → size refused ≠ 0%nat → rounds ≠ []) ∧
    (∀ j rf, rounds !! j = Some (Some rf) →
             rf = refusedAfter env (bcasts w) refused j ∧ size rf ≠ 0%nat ∧
             isPrimary (smapAt env (gets w + j)) (self env) = true) ∧
    match r.1 with
    | Ok (Some refused') =>
        Forall is_Some rounds ∧
        refused' = refusedAfter env (bcasts w) refused (length rounds) ∧
        (size refused' ≠ 0%nat → length rounds = n) ∧
        workCh (y r.2) = workCh (y w)
    | Ok None =>
        (∃ before, rounds = (before ++ [None])%list ∧ Forall is_Some before) ∧
        isPrimary (smapAt env (gets w + length rounds - 1)) (self env) = false ∧
        size (refusedAfter env (bcasts w) refused (length rounds - 1)) ≠ 0%nat ∧
        (length (workCh (y w)) < workChCap)%nat ∧
        workCh (y r.2) = (workCh (y w) ++ [RevsReq [] false None false])%list
    | Blocked =>
        (∃ before, rounds = (before ++ [None])%list ∧ Forall is_Some before) ∧
        isPrimary (smapAt env (gets w + length rounds - 1)) (self env) = false ∧
        size (refusedAfter env (bcasts w) refused (length rounds - 1)) ≠ 0%nat ∧
        (workChCap ≤ length (workCh (y w)))%nat ∧
        workCh (y r.2) = workCh (y w)
    | Fatal _ => False
    end.
Proof.
  induction n as [|n IH]; intros refused w Hkeyed; cbn zeta.
  - exists []. simpl. rewrite app_nil_r.
    repeat split; try done; try lia.
  - destruct (decide (size refused = 0%nat)) as [Hz | Hnz].
    + exists []. simpl. rewrite bool_decide_eq_true_2 by done. simpl.
      rewrite app_nil_r.
      repeat split; try done; try lia.
    + rewrite (refusedLoop_S env mth url bdy prs n refused w Hnz). cbn zeta.
      set (w1 := MkWorld (y w) _ (glog w) (S (gets w)) (bcasts w)).
      destruct (isPrimary (smapAt env (gets w)) (self env)) eqn:Hp.
      * rewrite (bind_Ok _ _ _ _ _ (handleRefused_run env mth url bdy refused prs w1 Hnz)).
        set (res := callsOf env (bcasts w1) (bcastPeers env [refused])).
        set (out := foldl (refusedOne prs) (revsmap (y w1), refused) res).
        set (w2 := MkWorld _ _ _ _ _).
        assert (out.2 = stillRefused env (bcasts w) refused) as Hout
          by (subst out res; by apply refusedOne_fold_exact).
        destruct (IH out.2 w2) as (rounds & Htr & Hlen & Hgets & _ & Hround & Hres).
        { rewrite Hout. by apply stillRefused_keyed. }
        exists (Some refused :: rounds).
        split; [| split; [| split; [| split; [| split]]]].
        -- rewrite Htr. subst w2 w1. simpl. rewrite <- !app_assoc. done.
        -- simpl. lia.
        -- rewrite Hgets. subst w2 w1. simpl. lia.
        -- done.
        -- intros [|j] rf Hj; simpl in Hj.
           ++ injection Hj as <-. simpl. by rewrite Nat.add_0_r.
           ++ destruct (Hround j rf Hj) as (-> & Hsz & Hprim). simpl.
              split; [by rewrite Hout |]. split; [done |].
              replace (gets w + S j)%nat with (gets w2 + j)%nat
                by (subst w2 w1; simpl; lia). done.
        -- destruct ((refusedLoop env n mth url bdy out.2 prs w2).1) as [[refused'|]|msg|];
             [| | done |].
           ++ destruct Hres as (Hsome & -> & Hfull & Hwork).
              split; [constructor; [by eexists | done] |].
              split; [simpl; by rewrite Hout |].
              split; [intros Hne; simpl; f_equal; by apply Hfull |].
              rewrite Hwork. by subst w2 w1.
           ++ destruct Hres as ((before & -> & Hbefore) & Hprim & Hsz & Hroom & Hwork).
              split; [exists (Some refused :: before); split;
                        [done | constructor; [by eexists | done]] |].
              assert (0 < length (before ++ [None]))%nat as Hpos
                by (rewrite length_app; simpl; lia).
              set (m := length (before ++ [None])) in *.
              change (length (Some refused :: before ++ [None])) with (S m).
              replace (gets w + S m - 1)%nat with (gets w2 + m - 1)%nat
                by (subst w2 w1; cbn [gets]; lia).
              replace (S m - 1)%nat with (S (m - 1)) by lia.
              split; [exact Hprim |]. split; [| split].
              ** simpl. rewrite <- Hout. exact Hsz.
              ** exact Hroom.
              ** rewrite Hwork. by subst w2 w1.
           ++ destruct Hres as ((before & -> & Hbefore) & Hprim & Hsz & Hroom & Hwork).
              split; [exists (Some refused :: before); split;
                        [done | constructor; [by eexists | done]] |].
              assert (0 < length (before ++ [None]))%nat as Hpos
                by (rewrite length_app; simpl; lia).
              set (m := length (before ++ [None])) in *.
              change (length (Some refused :: before ++ [None])) with (S m).
              replace (gets w + S m - 1)%nat with (gets w2 + m - 1)%nat
                by (subst w2 w1; cbn [gets]; lia).
              replace (S m - 1)%nat with (S (m - 1)) by lia.
              split; [exact Hprim |]. split; [| split].
              ** simpl. rewrite <- Hout. exact Hsz.
              ** exact Hroom.
              ** rewrite Hwork. by subst w2 w1.
      * exists [None]. unfold bind. rewrite becomeNonPrimary_run.
        assert (∀ j rf, [None] !! j = Some (Some rf) →
                  rf = refusedAfter env (bcasts w) refused j ∧ size rf ≠ 0%nat ∧
                  isPrimary (smapAt env (gets w + j)) (self env) = true) as Hnone
          by (intros [|[|j]] rf [=]).
        assert (isPrimary (smapAt env (gets w + 1 - 1)) (self env) = false) as Hp'
          by (by rewrite Nat.add_sub).
        case_bool_decide as Hroom; subst w1; simpl.
        -- split; [done |]. split; [lia |]. split; [lia |]. split; [done |].
           split; [exact Hnone |]. split; [by exists [] |]. split; [exact Hp' |].
           split; [exact Hnz |]. split; [exact Hroom | done].
        -- split; [done |]. split; [lia |]. split; [lia |]. split; [done |].
           split; [exact Hnone |]. split; [by exists [] |]. split; [exact Hp' |].
           split; [exact Hnz |]. split; [simpl in Hroom; lia | done].
Qed.


Lemma keyed_empty : keyed ∅.
Proof. intros id node Hl. by rewrite lookup_empty in Hl. Qed.

(** What [doSync] hands to the refused-retry loop sits under its own
    identifiers. *)
Lemma classify_keyed nt prs res : ∀ rm (rf : gmap string Snode) c,
  keyed rf → keyed (foldl (classifyOne nt prs) (rm, rf, c) res).1.2.
Proof.
  induction res as [|r res IH]; intros rm rf c Hk; cbn [foldl]; [done |].
  destruct (classifyOne nt prs (rm, rf, c) r) as [[rm' rf'] c'] eqn:E.
  apply IH. unfold classifyOne in E.
  assert (keyed (<[DaemonID (si r) := si r]> rf)) as Hins.
  { intros id node [[<- <-] | [_ Hl]]%lookup_insert_Some; [done | by apply Hk]. }
  destruct (err r); simpl in E;
    [| destruct (bool_decide (DaemonID (si r) = nt))..]; by simplify_eq.
Qed.




(** ** Pairs, registry and version maps *)

Lemma foldl_inv {A B} (I : A → Prop) (f : A → B → A) (l : list B) :
  ∀ a, I a → (∀ a b, b ∈ l → I a → I (f a b)) → I (foldl f a l).
Proof.
  induction l as [|b l IH]; intros a Ha Hstep; simpl; [done |].
  apply IH.
  - apply Hstep; [by left | done].
  - intros a' b' Hb'. apply Hstep. by right.
Qed.

Lemma foldl_insert_union (prs : list revspair) : ∀ m : gmap string revs,
  foldl (λ m p, <[tag (p_revs p) := p_revs p]> m) m prs = asMap prs ∪ m.
Proof.
  unfold asMap. induction prs as [|p prs IH]; intros m; simpl.
  - by rewrite (left_id_L ∅ (∪)).
  - rewrite (IH (<[_ := _]> m)), (IH (<[_ := _]> ∅)).
    rewrite <- (assoc_L (∪)). f_equal.
    rewrite insert_union_singleton_l. rewrite (insert_union_singleton_l ∅).
    by rewrite (right_id_L ∅ (∪)).
Qed.

Lemma recordPairs_union (prs : list revspair) : ∀ vm : gmap string Z,
  recordPairs prs vm = (version <$> asMap prs) ∪ vm.
Proof.
  unfold recordPairs, asMap.
  induction prs as [|p prs IH] using rev_ind; intros vm; simpl.
  - by rewrite fmap_empty, (left_id_L ∅ (∪)).
  - rewrite !foldl_app. simpl. rewrite IH. rewrite fmap_insert.
    by rewrite insert_union_l.
Qed.

Lemma asMap_lookup prs t r :
  asMap prs !! t = Some r → tag r = t ∧ ∃ p, p ∈ prs ∧ p_revs p = r.
Proof.
  unfold asMap. induction prs as [|p prs IH] using rev_ind; simpl.
  - by rewrite lookup_empty.
  - rewrite foldl_app. simpl. intros H.
    destruct (decide (tag (p_revs p) = t)) as [<- | Hne].
    + rewrite lookup_insert_eq in H. injection H as <-. split; [done |].
      exists p. split; [| done]. apply elem_of_app. right. by left.
    + rewrite lookup_insert_ne in H by done. destruct (IH H) as (? & p' & ? & ?).
      split; [done |]. exists p'. split; [| done]. apply elem_of_app. by left.
Qed.

Lemma asMap_NoDup prs p :
  NoDup (tag ∘ p_revs <$> prs) → p ∈ prs → asMap prs !! tag (p_revs p) = Some (p_revs p).
Proof.
  unfold asMap. induction prs as [|q prs IH] using rev_ind; intros Hnd Hin.
  - by apply elem_of_nil in Hin.
  - rewrite foldl_app. simpl. rewrite fmap_app in Hnd. simpl in Hnd.
    apply NoDup_app in Hnd as (Hnd & Hdisj & _).
    apply elem_of_app in Hin as [Hin | Hin].
    + rewrite lookup_insert_ne; [by apply IH |].
      intros E. apply (Hdisj (tag (p_revs p))).
      * apply list_elem_of_fmap. by exists p.
      * rewrite <- E. by left.
    + apply list_elem_of_singleton in Hin as ->. by rewrite lookup_insert_eq.
Qed.

Lemma filterPairs_inv s smap newCnt prs : ∀ w l w',
  filterPairs s smap newCnt prs w = (Ok l, w') →
  w' = w ∧ sublist l prs ∧
  Forall (λ p, lversion s (tag (p_revs p)) ≤ version (p_revs p)) l.
Proof.
  induction prs as [|p prs IH]; intros w l w' H; simpl in H.
  - injection H as <- <-. repeat split; [constructor | constructor].
  - destruct (p_msgInt p); [| discriminate].
    apply bind_inv_Ok in H as ([] & w1 & Ha & H).
    unfold Assert in Ha. destruct (negb _); [| discriminate].
    injection Ha as <-.
    assert (∀ l0, bind (filterPairs s smap newCnt prs) (λ more, ret (p :: more)) w
                  = (Ok l0, w') →
            lversion s (tag (p_revs p)) ≤ version (p_revs p) →
            w' = w ∧ sublist l0 (p :: prs) ∧
            Forall (λ p, lversion s (tag (p_revs p)) ≤ version (p_revs p)) l0) as Hkeep.
    { intros l0 H0 Hle. apply bind_inv_Ok in H0 as (more & w2 & Hm & Hr).
      injection Hr as <- <-. destruct (IH _ _ _ Hm) as (-> & Hs & Hf).
      repeat split; [by constructor | by constructor]. }
    assert (filterPairs s smap newCnt prs w = (Ok l, w') →
            w' = w ∧ sublist l (p :: prs) ∧
            Forall (λ p, lversion s (tag (p_revs p)) ≤ version (p_revs p)) l) as Hskip.
    { intros H0. destruct (IH _ _ _ H0) as (-> & Hs & Hf).
      repeat split; [by constructor | done]. }
    repeat case_bool_decide; auto; apply Hkeep; auto; lia.
Qed.

Lemma publish_inv env prs : ∀ acc w built w',
  publish env prs acc w = (Ok built, w') →
  last (y w') = foldl (λ m p, <[tag (p_revs p) := p_revs p]> m) (last (y w)) prs ∧
  revsmap (y w') = revsmap (y w) ∧ workCh (y w') = workCh (y w) ∧
  retryTimer (y w') = retryTimer (y w) ∧ timerStopped (y w') = timerStopped (y w) ∧
  trace w' = trace w ∧ gets w' = gets w ∧ bcasts w' = bcasts w.
Proof.
  induction prs as [|p prs IH]; intros acc w built w' H; simpl in H.
  - by injection H as <- <-.
  - apply bind_inv_Ok in H as (acc' & w1 & Hone & H).
    apply IH in H as (-> & -> & -> & -> & -> & -> & -> & ->).
    unfold publishOne in Hone. destruct (p_msgInt p); [| discriminate].
    unfold bind, getY, setY in Hone. simpl in Hone.
    destruct (marshal (p_revs p)); [| discriminate].
    injection Hone as <- <-. done.
Qed.

(** ** Broadcasts and their results *)

Lemma nodeCount_zero env nds : nodeCount nds = 0%nat → bcastPeers env nds = [].
Proof.
  induction nds as [|m nds IH]; [done |]. simpl. intros H.
  assert (size m = 0%nat) as Hm by lia. apply map_size_empty_inv in Hm as ->.
  rewrite map_to_list_empty. simpl. apply IH. lia.
Qed.

Lemma broadcast_inv env args w :
  ∃ w', broadcast env args w
          = (Ok (callsOf env (bcasts w) (bcastPeers env (nodes args))), w') ∧
        y w' = y w ∧ gets w' = gets w ∧
        ((trace w' = trace w ∧ bcasts w' = bcasts w) ∨
         (trace w' = (trace w ++ [EvBcast args (DaemonID <$> bcastPeers env (nodes args))])%list
          ∧ bcasts w' = S (bcasts w))).
Proof.
  unfold broadcast. case_bool_decide as Hz.
  - eexists. rewrite (nodeCount_zero env _ Hz). split; [reflexivity |]. simpl. auto.
  - eexists. split; [reflexivity |]. simpl. auto.
Qed.

Lemma syncDone_lookup_eq id prs rm :
  syncDone id prs rm !! id = Some (recordPairs prs (default ∅ (rm !! id))).
Proof. unfold syncDone. apply lookup_insert_eq. Qed.

Lemma syncDone_lookup_ne id id' prs rm :
  id ≠ id' → syncDone id prs rm !! id' = rm !! id'.
Proof. intros. unfold syncDone. by apply lookup_insert_ne. Qed.

Lemma hasAll_syncDone_eq id prs rm : hasAll prs (syncDone id prs rm) id.
Proof.
  eexists. split; [apply syncDone_lookup_eq |].
  rewrite recordPairs_union. apply map_union_subseteq_l.
Qed.

Lemma hasAll_syncDone id id' prs rm :
  hasAll prs rm id' → hasAll prs (syncDone id prs rm) id'.
Proof.
  intros H. destruct (decide (id = id')) as [-> | Hne]; [apply hasAll_syncDone_eq |].
  destruct H as (vm & Hvm & Hsub). exists vm. by rewrite syncDone_lookup_ne.
Qed.

Lemma hasAll_lookup prs rm id p :
  hasAll prs rm id → NoDup (tag ∘ p_revs <$> prs) → p ∈ prs →
  rm !! id ≫= (.!! tag (p_revs p)) = Some (version (p_revs p)).
Proof.
  intros (vm & Hvm & Hsub) Hnd Hin. rewrite Hvm. simpl.
  eapply lookup_weaken; [| exact Hsub].
  rewrite lookup_fmap, (asMap_NoDup prs p Hnd Hin). done.
Qed.

(** Step 4 never loses a peer: with no failure counted, every peer that
    answered is recorded or refused. *)
Lemma classify_good nt prs res : (0 < length prs)%nat → ∀ rm rf c,
  let out := foldl (classifyOne nt prs) (rm, rf, c) res in
  (c ≤ out.2)%nat ∧
  (∀ id, is_Some (rf !! id) → is_Some (out.1.2 !! id)) ∧
  (∀ id, hasAll prs rm id → hasAll prs out.1.1 id) ∧
  (out.2 = c → ∀ r, r ∈ res →
     hasAll prs out.1.1 (DaemonID (si r)) ∨ is_Some (out.1.2 !! DaemonID (si r))).
Proof.
  intros Hlen. induction res as [|r res IH]; intros rm rf c.
  - simpl. repeat split; [lia | done | done |]. intros _ r Hr. by apply elem_of_nil in Hr.
  - cbn zeta.
    change (foldl (classifyOne nt prs) (rm, rf, c) (r :: res))
      with (foldl (classifyOne nt prs) (classifyOne nt prs (rm, rf, c) r) res).
    set (a1 := classifyOne nt prs (rm, rf, c) r).
    destruct (IH a1.1.1 a1.1.2 a1.2) as (Hc & Hrf & Hkeep & Hgood).
    replace (a1.1.1, a1.1.2, a1.2) with a1 in * by (by destruct a1 as [[? ?] ?]).
    set (out := foldl (classifyOne nt prs) a1 res) in *.
    assert ((c ≤ a1.2)%nat ∧
            (∀ id, is_Some (rf !! id) → is_Some (a1.1.2 !! id)) ∧
            (∀ id, hasAll prs rm id → hasAll prs a1.1.1 id) ∧
            (a1.2 = c → hasAll prs a1.1.1 (DaemonID (si r)) ∨
                        is_Some (a1.1.2 !! DaemonID (si r)))) as (H1 & H2 & H3 & H4).
    { assert (∀ id, is_Some (rf !! id) →
                    is_Some (<[DaemonID (si r) := si r]> rf !! id)) as Hins.
      { intros id Hid. rewrite lookup_insert. case_decide; [by eexists | done]. }
      subst a1. unfold classifyOne.
      destruct (err r); simpl.
      - rewrite bool_decide_eq_true_2 by done. simpl.
        repeat split; [lia | done | |].
        + intros id. apply hasAll_syncDone.
        + intros _. left. apply hasAll_syncDone_eq.
      - repeat split; [lia | exact Hins | done |].
        intros _. right. rewrite lookup_insert_eq. by eexists.
      - case_bool_decide; simpl.
        + repeat split; [lia | exact Hins | done |].
          intros _. right. rewrite lookup_insert_eq. by eexists.
        + repeat split; [lia | done | done | lia]. }
    repeat split.
    + lia.
    + intros id Hid. apply Hrf, H2, Hid.
    + intros id Hid. apply Hkeep, H3, Hid.
    + intros Heq r' Hr'. assert (a1.2 = c) as Ha by lia.
      apply elem_of_cons in Hr' as [-> | Hr'].
      * destruct (H4 Ha) as [Hh | Hx]; [left; by apply Hkeep | right; by apply Hrf].
      * apply Hgood; [lia | done].
Qed.

Lemma bind_ret_l {A B} (a : A) (k : A → M B) w : bind (ret a) k w = k a w.
Proof. reflexivity. Qed.

Lemma filterPairs_indep s smap n prs : ∀ w w0,
  filterPairs s smap n prs w = ((filterPairs s smap n prs w0).1, w).
Proof.
  induction prs as [|p prs IH]; intros w w0; simpl; [done |].
  destruct (p_msgInt p); [| done].
  unfold Assert. destruct (negb _); [| done].
  rewrite !bind_ret_l.
  assert (bind (filterPairs s smap n prs) (λ more, ret (p :: more)) w
          = ((bind (filterPairs s smap n prs) (λ more, ret (p :: more)) w0).1, w)) as Hb.
  { unfold bind. rewrite (IH w w0).
    destruct (filterPairs s smap n prs w0) as [[l|msg|] w2]; done. }
  repeat case_bool_decide; auto.
Qed.

Lemma handleRefused_inv env mth url bdy (rf : gmap string Snode) prs w :
  let out := foldl (refusedOne prs) (revsmap (y w), rf)
                   (callsOf env (bcasts w) (bcastPeers env [rf])) in
  ∃ w', handleRefused env mth url bdy rf prs w = (Ok out.2, w') ∧
        y w' = set_revsmap out.1 (y w) ∧ gets w' = gets w.
Proof.
  cbn zeta. unfold handleRefused.
  destruct (broadcast_inv env (refusedArgs env mth url bdy rf) w)
    as (w1 & Hb & Hy & Hg & _).
  rewrite (bind_Ok _ _ _ _ _ Hb). unfold bind, getY, setY, ret. simpl.
  rewrite Hy. eexists. split; [reflexivity |]. simpl. done.
Qed.

Lemma refusedLoop_inv env mth url bdy prs
    (I : gmap string (gmap string Z) → gmap string Snode → Prop) :
  (∀ rm rf r, I rm rf → I (refusedOne prs (rm, rf) r).1 (refusedOne prs (rm, rf) r).2) →
  ∀ n (refused : gmap string Snode) w, I (revsmap (y w)) refused →
    let r := refusedLoop env n mth url bdy refused prs w in
    last (y r.2) = last (y w) ∧ lastclone (y r.2) = lastclone (y w) ∧
    retryTimer (y r.2) = retryTimer (y w) ∧ timerStopped (y r.2) = timerStopped (y w) ∧
    match r.1 with
    | Ok (Some rf') => I (revsmap (y r.2)) rf'
    | Ok None => ∃ rf', I (revsmap (y r.2)) rf'
    | Fatal _ => False
    | Blocked => True
    end.
Proof.
  intros Hstep. induction n as [|n IH]; intros refused w HI; cbn zeta.
  - simpl. done.
  - destruct (decide (size refused = 0%nat)) as [Hz | Hnz].
    + simpl. rewrite bool_decide_eq_true_2 by done. simpl. done.
    + rewrite (refusedLoop_S env mth url bdy prs n refused w Hnz). cbn zeta.
      set (w1 := MkWorld (y w) _ (glog w) (S (gets w)) (bcasts w)).
      destruct (isPrimary (smapAt env (gets w)) (self env)).
      * destruct (handleRefused_inv env mth url bdy refused prs w1) as (w2 & Hh & Hy & _).
        rewrite (bind_Ok _ _ _ _ _ Hh).
        set (out := foldl (refusedOne prs) (revsmap (y w1), refused) _) in *.
        assert (I out.1 out.2) as Hout.
        { subst out. apply (foldl_inv (λ a, I a.1 a.2)); [done |].
          intros [rm rf] r _ Ha. by apply Hstep. }
        destruct (IH out.2 w2) as (Hl & Hc & Ht & Hs & Hres).
        { by rewrite Hy. }
        rewrite Hl, Hc, Ht, Hs, Hy. done.
      * unfold bind. rewrite becomeNonPrimary_run.
        case_bool_decide; simpl; repeat split; try done. by exists refused.
Qed.

Lemma bcastPeers_elem env (nds : list (gmap string Snode)) m k node :
  m ∈ nds → m !! k = Some node → k ≠ DaemonID (self env) →
  node ∈ bcastPeers env nds.
Proof.
  intros Hm Hk Hne. unfold bcastPeers. apply list_elem_of_bind. exists m.
  split; [| done]. apply list_elem_of_fmap. exists (k, node). split; [done |].
  apply list_elem_of_filter. split; [done |]. by apply elem_of_map_to_list.
Qed.

Lemma firstBcast_inv env mth bdy prs nt smap w :
  let out := foldl (classifyOne nt prs) (revsmap (y w), ∅, 0%nat)
                   (callsOf env (bcasts w) (bcastPeers env [Pmap smap; Tmap smap])) in
  ∃ w', firstBcast env mth bdy prs nt smap w = (Ok (out.1.2, out.2), w') ∧
        y w' = set_revsmap out.1.1 (y w) ∧ gets w' = gets w.
Proof.
  cbn zeta. unfold firstBcast, broadcastTo.
  destruct (broadcast_inv env
              (BcastCallArgs (ReqArgs mth (metasyncPath env) bdy) NetworkIntraControl
                 (wrap64 (CplaneOperation (config env) * 2)) [Pmap smap; Tmap smap]) w)
    as (w1 & Hb & Hy & Hg & _).
  rewrite (bind_Ok _ _ _ _ _ Hb). unfold bind, getY, setY, ret. simpl.
  rewrite Hy. eexists. split; [reflexivity |]. simpl. done.
Qed.

Lemma housekeep_run env w :
  housekeep env w =
    (Ok tt,
     MkWorld (set_revsmap
                (filter (λ kv : string * gmap string Z,
                           containsID (smapAt env (gets w)) kv.1 = true)
                        (revsmap (y w))) (y w))
             (trace w) (glog w) (S (gets w)) (bcasts w)).
Proof. reflexivity. Qed.

Lemma app_singleton_neq {A} (l : list A) x : (l ++ [x])%list ≠ l.
Proof.
  intros E. apply (f_equal length) in E. rewrite length_app in E. simpl in E. lia.
Qed.

(** What a [doSync] that has pairs and returns goes through. *)
Lemma doSync_inv env rp prs msg w cnt w' :
  doSync env (rp :: prs) msg w = (Ok cnt, w') →
  let smap := smapAt env (gets w) in
  let w1 := MkWorld (y w) (trace w) (glog w) (S (gets w)) (bcasts w) in
  let pts := pairsToSend env (rp :: prs) w in
  (pts = [] ∧ cnt = 0%nat ∧ w' = w1) ∨
  (pts ≠ [] ∧ ∃ built w2,
     publish env pts (∅, "") w1 = (Ok built, w2) ∧
     bcastSteps env MethodPut (BodyPayload built.1) pts built.2 smap w2 = (Ok cnt, w')).
Proof.
  intros H. cbn zeta. unfold doSync in H.
  apply bind_inv_Ok in H as (smap & w1 & Hget & H).
  unfold smapowner_get in Hget. injection Hget as <- <-.
  apply bind_inv_Ok in H as (s & w1' & HgetY & H).
  unfold getY in HgetY. simpl in HgetY. injection HgetY as <- <-.
  apply bind_inv_Ok in H as ([] & w2 & Hcow & H).
  unfold cowAudit in Hcow.
  destruct (cowAudit_world (y w) (map_to_list (last (y w)))
              (MkWorld (y w) (trace w) (glog w) (S (gets w)) (bcasts w)))
    as [E | [m E]]; rewrite E in Hcow; [| discriminate].
  injection Hcow as <-.
  apply bind_inv_Ok in H as ([] & w5 & Ha & H).
  destruct msg; [discriminate |]. simpl in Ha. injection Ha as <-.
  apply bind_inv_Ok in H as (pts & w3 & Hf & H).
  rewrite (filterPairs_indep _ _ _ _ _ w) in Hf.
  unfold pairsToSend.
  destruct (filterPairs (y w) (smapAt env (gets w))
              (countNewMembers (y w) (smapAt env (gets w))) (rp :: prs) w)
    as [[l|m|] w4]; simpl in Hf; [| discriminate..].
  injection Hf as <- <-.
  destruct l as [|p l].
  - left. by injection H as <- <-.
  - right. split; [done |].
    apply bind_inv_Ok in H as (built & w2 & Hp & H). eauto.
Qed.

(** What a [bcastSteps] that returns goes through. *)
Lemma bcastSteps_inv env mth bdy prs nt smap w cnt w' :
  bcastSteps env mth bdy prs nt smap w = (Ok cnt, w') →
  ∃ acc w1 rest w2,
    firstBcast env mth bdy prs nt smap w = (Ok acc, w1) ∧
    refusedLoop env retryRounds mth (metasyncPath env) bdy acc.1 prs w1 = (Ok rest, w2) ∧
    match rest with
    | None => cnt = acc.2 ∧ w' = w2
    | Some refused => cnt = (acc.2 + size refused)%nat ∧ housekeep env w2 = (Ok tt, w')
    end.
Proof.
  intros H. unfold bcastSteps in H.
  apply bind_inv_Ok in H as (acc & w1 & Hf & H).
  apply bind_inv_Ok in H as (rest & w2 & Hl & H).
  exists acc, w1, rest, w2. split; [done |]. split; [done |].
  destruct rest as [refused|].
  - apply bind_inv_Ok in H as ([] & w3 & Hh & H). injection H as <- <-. done.
  - by injection H as <- <-.
Qed.

Lemma good_refusedOne prs id rm (rf : gmap string Snode) r :
  hasAll prs rm id ∨ is_Some (rf !! id) →
  hasAll prs (refusedOne prs (rm, rf) r).1 id ∨
  is_Some ((refusedOne prs (rm, rf) r).2 !! id).
Proof.
  intros H. unfold refusedOne. destruct (err r); simpl; [| done | done].
  destruct (decide (DaemonID (si r) = id)) as [-> | Hne].
  - left. apply hasAll_syncDone_eq.
  - destruct H as [H | H]; [left; by apply hasAll_syncDone |].
    right. by rewrite lookup_delete_ne.
Qed.

(** ** Zero failures *)

(** C1, as the code has it. When [doSync], given pairs, returns 0 without
    having put anything on the work channel (so not through
    [becomeNonPrimary]), and the pairs it sent carry distinct tags, then
    every node of the cluster map it started from, other than the primary
    itself, that is in the cluster map read at the housekeeping step, is
    recorded with the version of every pair sent. *)
Theorem doSync_zero_failures_delivered env prs w w' :
  doSync env prs None w = (Ok 0%nat, w') →
  prs ≠ [] →
  workCh (y w') = workCh (y w) →
  NoDup (tag ∘ p_revs <$> pairsToSend env prs w) →
  ∀ k node p,
    Pmap (smapAt env (gets w)) !! k = Some node ∨
    Tmap (smapAt env (gets w)) !! k = Some node →
    k ≠ DaemonID (self env) →
    containsID (smapAt env (pred (gets w'))) (DaemonID node) = true →
    p ∈ pairsToSend env prs w →
    delivered w' (DaemonID node) (tag (p_revs p)) = Some (version (p_revs p)).
Proof.
  intros H Hprs Hwork Hnd k node p Hk Hself Hin Hp.
  destruct prs as [|rp prs]; [done |].
  apply doSync_inv in H. cbn zeta in H.
  set (pts := pairsToSend env (rp :: prs) w) in *.
  set (smap := smapAt env (gets w)) in *.
  destruct H as [(Hnil & _) | (Hne & built & w2 & Hpub & H)].
  { rewrite Hnil in Hp. by apply elem_of_nil in Hp. }
  apply publish_inv in Hpub as (_ & Hrm2 & Hwk2 & _).
  apply bcastSteps_inv in H as (acc & w3 & rest & w4 & Hfirst & Hloop & Hrest).
  destruct (firstBcast_inv env MethodPut (BodyPayload built.1) pts built.2 smap w2)
    as (w3' & Hfirst' & Hy3 & Hg3).
  rewrite Hfirst' in Hfirst. injection Hfirst as <- <-.
  set (out := foldl (classifyOne built.2 pts) (revsmap (y w2), ∅, 0%nat) _) in *.
  pose proof (refusedLoop_rounds env MethodPut (metasyncPath env) (BodyPayload built.1)
                pts retryRounds out.1.2 w3'
                ltac:(apply classify_keyed, keyed_empty))
    as (rounds & _ & _ & _ & _ & _ & Hround).
  assert (0 < length pts)%nat as Hlen by (destruct pts; [done | simpl; lia]).
  destruct (classify_good built.2 pts
              (callsOf env (bcasts w2) (bcastPeers env [Pmap smap; Tmap smap]))
              Hlen (revsmap (y w2)) ∅ 0%nat) as (_ & _ & _ & Hgood).
  fold out in Hgood.
  pose proof (refusedLoop_inv env MethodPut (metasyncPath env) (BodyPayload built.1) pts
                (λ rm rf, hasAll pts rm (DaemonID node) ∨ is_Some (rf !! DaemonID node))
                (λ rm rf r, good_refusedOne pts (DaemonID node) rm rf r)
                retryRounds out.1.2 w3') as Hinv.
  cbn [fst snd] in Hloop, Hrest.
  rewrite Hloop in Hround, Hinv. cbn [fst snd] in Hround, Hinv.
  destruct rest as [refused|].
  - destruct Hrest as [Hcnt Hhk]. rewrite housekeep_run in Hhk. injection Hhk as <-.
    assert (out.2 = 0%nat ∧ size refused = 0%nat) as [Hc0 Hr0] by (simpl in Hcnt; lia).
    apply map_size_empty_inv in Hr0 as ->.
    destruct Hinv as (_ & _ & _ & _ & [Hall | [x Hx]]).
    + rewrite Hy3. simpl. apply Hgood with (r := CallResult node
                 (netCall env (bcasts w2) (DaemonID node))); [done |].
      apply list_elem_of_fmap. exists node. split; [done |].
      destruct Hk as [Hk | Hk].
      * apply (bcastPeers_elem env _ (Pmap smap) k); [by left | done | done].
      * apply (bcastPeers_elem env _ (Tmap smap) k); [right; by left | done | done].
    + simpl in Hin. destruct Hall as (vm & Hvm & Hsub).
      unfold delivered. simpl.
      apply (hasAll_lookup pts); [| done | done].
      exists vm. split; [| done].
      apply map_lookup_filter_Some. split; [done |]. done.
    + by rewrite lookup_empty in Hx.
  - destruct Hrest as [_ ->]. destruct Hround as (_ & _ & _ & _ & Hw).
    rewrite Hw, Hy3 in Hwork. simpl in Hwork. rewrite Hwk2 in Hwork. simpl in Hwork.
    by apply app_singleton_neq in Hwork.
Qed.

Lemma doSync_zero_failures_delivered_witness :
  delivered (doSync env_steady [bmd 1 "bmd-v1"] None w0).2 "T1" bucketmdtag = Some 1.
Proof.
  apply (doSync_zero_failures_delivered env_steady [bmd 1 "bmd-v1"] w0
           (doSync env_steady [bmd 1 "bmd-v1"] None w0).2 ltac:(vm_compute; reflexivity)
           ltac:(discriminate) ltac:(vm_compute; reflexivity)
           ltac:(vm_compute; apply NoDup_singleton)
           "T1" T1 (bmd 1 "bmd-v1")).
  - right. vm_compute. reflexivity.
  - discriminate.
  - vm_compute. reflexivity.
  - vm_compute. constructor.
Defined.

(** C1, as stated, fails when the primary is lost during the retries:
    [doSync] returns the failures counted so far, 0, while the refused
    target T1, still in the cluster map, was never delivered to. *)
Lemma doSync_zero_failures_after_bail :
  ¬ delivers_on_zero env_bail [bmd 1 "bmd-v1"] w0.
Proof.
  intros H.
  destruct (H (doSync env_bail [bmd 1 "bmd-v1"] None w0).2 ltac:(vm_compute; reflexivity)
              "T1" (bmd 1 "bmd-v1") ltac:(vm_compute; reflexivity) ltac:(discriminate)
              ltac:(vm_compute; constructor)) as (v & Hv & _).
  vm_compute in Hv. discriminate.
Qed.

(** ** What is recorded never goes down *)

Lemma delivered_Some w id t v :
  delivered w id t = Some v ↔ ∃ vm, revsmap (y w) !! id = Some vm ∧ vm !! t = Some v.
Proof.
  unfold delivered. destruct (revsmap (y w) !! id) as [vm|]; simpl.
  - split; [intros H; by exists vm | intros (vm' & [= <-] & H); done].
  - split; [done | intros (vm' & [=] & _)].
Qed.

Lemma tops_refl lst rm : tops lst rm rm.
Proof. intros id vm t v H1 H2. left. by rewrite H1. Qed.

Lemma within_last_within s : within_last s ↔ within (last s) (revsmap s).
Proof. done. Qed.

(** The step all recording goes through. *)
Lemma syncDone_tops lst prs rm0 rm id :
  asMap prs ⊆ lst → within lst rm → tops lst rm0 rm →
  within lst (syncDone id prs rm) ∧ tops lst rm0 (syncDone id prs rm).
Proof.
  intros Hsub Hw Hg.
  assert (∀ t a, (version <$> asMap prs) !! t = Some a → a = versionIn lst t) as HA.
  { intros t a Ha. rewrite lookup_fmap in Ha.
    destruct (asMap prs !! t) as [r|] eqn:Er; [| done]. injection Ha as <-.
    unfold versionIn. by rewrite (lookup_weaken _ _ _ _ Er Hsub). }
  assert (∀ t v, recordPairs prs (default ∅ (rm !! id)) !! t = Some v →
                 v = versionIn lst t ∨
                 ∃ vm, rm !! id = Some vm ∧ vm !! t = Some v) as Hnew.
  { intros t v Hv. rewrite recordPairs_union in Hv.
    apply lookup_union_Some_raw in Hv as [Hv | [_ Hv]]; [left; by apply HA |].
    right. destruct (rm !! id) as [vm|]; simpl in Hv;
      [by exists vm | by rewrite lookup_empty in Hv]. }
  split.
  - intros id' vm t v Hid Hv. destruct (decide (id = id')) as [<- | Hne].
    + rewrite syncDone_lookup_eq in Hid. injection Hid as <-.
      destruct (Hnew t v Hv) as [-> | (vm & Hvm & Hv')]; [lia | by eapply Hw].
    + rewrite syncDone_lookup_ne in Hid by done. by eapply Hw.
  - intros id' vm t v Hid Hv. destruct (decide (id = id')) as [<- | Hne].
    + rewrite syncDone_lookup_eq in Hid. injection Hid as <-.
      destruct (Hnew t v Hv) as [-> | (vm & Hvm & Hv')]; [by right | by eapply Hg].
    + rewrite syncDone_lookup_ne in Hid by done. by eapply Hg.
Qed.

Lemma classify_tops lst nt prs res rm0 : ∀ rm rf c,
  asMap prs ⊆ lst → within lst rm → tops lst rm0 rm →
  let out := foldl (classifyOne nt prs) (rm, rf, c) res in
  within lst out.1.1 ∧ tops lst rm0 out.1.1.
Proof.
  intros rm rf c Hsub Hw Hg. cbn zeta.
  apply (foldl_inv (λ a, within lst a.1.1 ∧ tops lst rm0 a.1.1)); [done |].
  intros [[rm' rf'] c'] r _ [Hw' Hg']. unfold classifyOne.
  destruct (err r); simpl.
  - case_bool_decide; [by apply syncDone_tops | done].
  - done.
  - by case_bool_decide.
Qed.

Lemma refusedOne_tops lst prs rm0 rm (rf : gmap string Snode) r :
  asMap prs ⊆ lst →
  within lst rm ∧ tops lst rm0 rm →
  within lst (refusedOne prs (rm, rf) r).1 ∧ tops lst rm0 (refusedOne prs (rm, rf) r).1.
Proof.
  intros Hsub [Hw Hg]. unfold refusedOne. destruct (err r); simpl; [| done | done].
  by apply syncDone_tops.
Qed.

Lemma tops_filter lst (P : string * gmap string Z → Prop) `{!∀ x, Decision (P x)} rm0 rm :
  tops lst rm0 rm → tops lst rm0 (filter P rm).
Proof.
  intros Hg id vm t v Hid Hv. apply map_lookup_filter_Some in Hid as [Hid _].
  by eapply Hg.
Qed.

Lemma within_filter lst (P : string * gmap string Z → Prop) `{!∀ x, Decision (P x)} rm :
  within lst rm → within lst (filter P rm).
Proof.
  intros Hw id vm t v Hid Hv. apply map_lookup_filter_Some in Hid as [Hid _].
  by eapply Hw.
Qed.

(** Steps 3 to 6 keep the registry and the bound; what they record is the
    registry's version. *)
Lemma bcastSteps_tops env mth bdy prs nt smap w cnt w' :
  bcastSteps env mth bdy prs nt smap w = (Ok cnt, w') →
  asMap prs ⊆ last (y w) → within (last (y w)) (revsmap (y w)) →
  last (y w') = last (y w) ∧ within (last (y w')) (revsmap (y w')) ∧
  tops (last (y w)) (revsmap (y w)) (revsmap (y w')).
Proof.
  intros H Hsub Hw.
  apply bcastSteps_inv in H as (acc & w1 & rest & w2 & Hfirst & Hloop & Hrest).
  destruct (firstBcast_inv env mth bdy prs nt smap w) as (w1' & Hfirst' & Hy1 & _).
  rewrite Hfirst' in Hfirst. injection Hfirst as <- <-.
  set (out := foldl (classifyOne nt prs) (revsmap (y w), ∅, 0%nat) _) in *.
  destruct (classify_tops (last (y w)) nt prs
              (callsOf env (bcasts w) (bcastPeers env [Pmap smap; Tmap smap]))
              (revsmap (y w)) (revsmap (y w)) ∅ 0%nat Hsub Hw (tops_refl _ _))
    as [Hw1 Hg1].
  fold out in Hw1, Hg1.
  pose proof (refusedLoop_inv env mth (metasyncPath env) bdy prs
                (λ rm _, within (last (y w)) rm ∧ tops (last (y w)) (revsmap (y w)) rm)
                (λ rm rf r, refusedOne_tops (last (y w)) prs (revsmap (y w)) rm rf r Hsub)
                retryRounds out.1.2 w1') as Hinv.
  cbn [fst snd] in Hloop, Hrest. rewrite Hloop in Hinv. cbn [fst snd] in Hinv.
  destruct Hinv as (Hl2 & _ & _ & _ & Hres); [by rewrite Hy1 |].
  rewrite Hy1 in Hl2. simpl in Hl2.
  destruct rest as [refused|].
  - destruct Hrest as [_ Hhk]. rewrite housekeep_run in Hhk. injection Hhk as <-.
    destruct Hres as [Hw2 Hg2]. simpl. rewrite Hl2.
    split; [done |]. split; [by apply within_filter | by apply tops_filter].
  - destruct Hrest as [_ ->]. destruct Hres as (rf' & Hw2 & Hg2). by rewrite Hl2.
Qed.

Lemma pairsToSend_Forall env prs w :
  Forall (λ p, lversion (y w) (tag (p_revs p)) ≤ version (p_revs p))
         (pairsToSend env prs w).
Proof.
  unfold pairsToSend.
  destruct (filterPairs (y w) (smapAt env (gets w))
              (countNewMembers (y w) (smapAt env (gets w))) prs w) as [[l|m|] w1] eqn:E;
    [| constructor..].
  by apply filterPairs_inv in E as (_ & _ & Hf).
Qed.

Lemma versionIn_union_mono lst pts :
  Forall (λ p, versionIn lst (tag (p_revs p)) ≤ version (p_revs p)) pts →
  ∀ t, versionIn lst t ≤ versionIn (asMap pts ∪ lst) t.
Proof.
  intros Hf t. unfold versionIn at 2.
  destruct (asMap pts !! t) as [r|] eqn:Er.
  - rewrite (lookup_union_Some_l _ _ _ _ Er).
    apply asMap_lookup in Er as (<- & p & Hp & <-).
    rewrite Forall_forall in Hf. by apply Hf.
  - rewrite lookup_union_r by done. done.
Qed.

Lemma doSync_inv_notify env msg w cnt w' :
  doSync env [] msg w = (Ok cnt, w') →
  bcastSteps env MethodPost (BodyMsg msg) [] "" (smapAt env (gets w))
             (MkWorld (y w) (trace w) (glog w) (S (gets w)) (bcasts w)) = (Ok cnt, w').
Proof.
  intros H. unfold doSync in H.
  apply bind_inv_Ok in H as (smap & w1 & Hget & H).
  unfold smapowner_get in Hget. injection Hget as <- <-.
  apply bind_inv_Ok in H as (s & w1' & HgetY & H).
  unfold getY in HgetY. simpl in HgetY. injection HgetY as <- <-.
  apply bind_inv_Ok in H as ([] & w2 & Hcow & H).
  unfold cowAudit in Hcow.
  destruct (cowAudit_world (y w) (map_to_list (last (y w)))
              (MkWorld (y w) (trace w) (glog w) (S (gets w)) (bcasts w)))
    as [E | [m E]]; rewrite E in Hcow; [| discriminate].
  by injection Hcow as <-.
Qed.

Lemma advances_same w w' :
  revsmap (y w') = revsmap (y w) → last (y w') = last (y w) → advances w w'.
Proof.
  intros Hr Hl. split.
  - intros t. unfold lversion. rewrite Hl. lia.
  - rewrite Hr. apply tops_refl.
Qed.

(** [doSync] keeps the metasyncer consistent, and advances. *)
Lemma doSync_advances env prs msg w cnt w' :
  doSync env prs msg w = (Ok cnt, w') → consistent (y w) →
  consistent (y w') ∧ advances w w'.
Proof.
  intros H [Hk Hw]. destruct prs as [|rp prs].
  - apply doSync_inv_notify in H.
    apply bcastSteps_tops in H as (Hl & Hw' & Htop);
      [| apply map_empty_subseteq | done].
    simpl in Hl, Htop. split; [split | split].
    + intros t r Hr. apply Hk. by rewrite <- Hl.
    + done.
    + intros t. unfold lversion. rewrite Hl. lia.
    + by rewrite Hl.
  - apply doSync_inv in H. cbn zeta in H.
    pose proof (pairsToSend_Forall env (rp :: prs) w) as Hf.
    set (pts := pairsToSend env (rp :: prs) w) in *.
    destruct H as [(_ & _ & ->) | (_ & built & w2 & Hpub & H)].
    { split; [done | by apply advances_same]. }
    apply publish_inv in Hpub as (Hl2 & Hrm2 & _). simpl in Hl2, Hrm2.
    rewrite foldl_insert_union in Hl2.
    pose proof (versionIn_union_mono (last (y w)) pts Hf) as Hmono.
    apply bcastSteps_tops in H as (Hl & Hw' & Htop).
    + split; [split | split].
      * intros t r Hr. rewrite Hl, Hl2 in Hr.
        apply lookup_union_Some_raw in Hr as [Hr | [_ Hr]]; [| by apply Hk].
        by apply asMap_lookup in Hr as [? _].
      * done.
      * intros t. unfold lversion. rewrite Hl, Hl2. apply Hmono.
      * by rewrite Hl, <- Hrm2.
    + rewrite Hl2. apply map_union_subseteq_l.
    + rewrite Hl2, Hrm2. intros id vm t v Hid Hv.
      pose proof (Hw id vm t v Hid Hv) as Hle. specialize (Hmono t).
      unfold lversion in Hle. unfold versionIn in Hmono at 1. lia.
Qed.

(** ** The pending set *)

Lemma inSyncCheck_inv lst (vm : gmap string Z) : ∀ w b w',
  inSyncCheck lst vm w = (Ok b, w') →
  w' = w ∧
  (b = false → ∃ t r, (t, r) ∈ lst ∧ vm !! t ≠ Some (version r)) ∧
  (b = true → ∀ t r, (t, r) ∈ lst → vm !! t = Some (version r)).
Proof.
  induction lst as [|[t r] lst IH]; intros w b w' H; simpl in H.
  - injection H as <- <-. repeat split; [done |]. intros _ t r Hin.
    by apply elem_of_nil in Hin.
  - destruct (vm !! t) as [v|] eqn:Ev.
    + case_bool_decide as Hv.
      * destruct (IH _ _ _ H) as (-> & Hf & Ht). repeat split.
        -- intros Hb. destruct (Hf Hb) as (t' & r' & Hin & Hne).
           exists t', r'. split; [by right | done].
        -- intros Hb t' r' Hin. apply elem_of_cons in Hin as [[= -> ->] | Hin];
             [by rewrite Ev, Hv | by apply Ht].
      * apply bind_inv_Ok in H as ([] & w1 & Ha & H). injection H as <- <-.
        unfold Assert in Ha. case_bool_decide; [| discriminate]. injection Ha as <-.
        repeat split; [| done]. intros _. exists t, r. split; [by left |].
        rewrite Ev. congruence.
    + injection H as <- <-. repeat split; [| done]. intros _. exists t, r.
      split; [by left |]. by rewrite Ev.
Qed.

Lemma padded_refl rm : padded rm rm.
Proof. intros id. by left. Qed.

Lemma padded_insert rm rm' id :
  padded rm rm' → rm' !! id = None → padded rm (<[id := ∅]> rm').
Proof.
  intros Hp Hn id'. destruct (decide (id = id')) as [<- | Hne].
  - right. rewrite lookup_insert_eq. split; [| done].
    destruct (Hp id) as [E | [E _]]; [by rewrite <- E | done].
  - rewrite lookup_insert_ne by done. apply Hp.
Qed.

(** One entry of a node map in [pending], when the map is asked for. *)
Lemma pendingOne_inv s0 acc kv w acc' w' :
  pendingOne true acc kv w = (Ok acc', w') →
  padded (revsmap s0) (revsmap (y w)) → last (y w) = last s0 →
  (∃ rm', w' = MkWorld (set_revsmap rm' (y w)) (trace w) (glog w) (gets w) (bcasts w) ∧
          padded (revsmap s0) rm') ∧
  ((acc' = acc) ∨
   (acc' = (S acc.1, <[kv.1 := kv.2]> acc.2) ∧ notInSync s0 kv.1)).
Proof.
  intros H Hp Hl. unfold pendingOne in H.
  apply bind_inv_Ok in H as (s & w1 & Hs & H). unfold getY in Hs. injection Hs as <- <-.
  destruct (revsmap (y w) !! kv.1) as [rvd|] eqn:Erm.
  - apply bind_inv_Ok in H as (b & w2 & Hc & H). injection H as <- <-.
    apply inSyncCheck_inv in Hc as (-> & Hf & _).
    split.
    + exists (revsmap (y w)). split; [by destruct w as [[]] | done].
    + destruct b; simpl; [left; by destruct acc |]. right. split; [done |].
      destruct (Hf eq_refl) as (t & r & Hin & Hne).
      apply elem_of_map_to_list in Hin. rewrite Hl in Hin.
      destruct (Hp kv.1) as [E | [E1 E2]].
      * right. exists rvd, t, r. by rewrite <- E.
      * by left.
  - apply bind_inv_Ok in H as ([] & w2 & Hset & H). injection H as <- <-.
    unfold setY in Hset. injection Hset as <-.
    split.
    + eexists. split; [reflexivity |]. by apply padded_insert.
    + right. split; [done |]. left.
      destruct (Hp kv.1) as [E | [E _]]; [by rewrite <- E | done].
Qed.

Lemma foldM_pendingOne_inv s0 l : ∀ acc w acc' w',
  foldM (pendingOne true) l acc w = (Ok acc', w') →
  padded (revsmap s0) (revsmap (y w)) → last (y w) = last s0 →
  (acc.1 = 0%nat ∨ size acc.2 ≠ 0%nat) →
  (∃ rm', w' = MkWorld (set_revsmap rm' (y w)) (trace w) (glog w) (gets w) (bcasts w) ∧
          padded (revsmap s0) rm') ∧
  (acc'.1 = 0%nat ∨ size acc'.2 ≠ 0%nat) ∧
  (∀ id node, acc'.2 !! id = Some node →
              acc.2 !! id = Some node ∨ ((id, node) ∈ l ∧ notInSync s0 id)).
Proof.
  induction l as [|kv l IH]; intros acc w acc' w' H Hp Hl Hc; simpl in H.
  - injection H as <- <-. split; [| split; [done | by left]].
    exists (revsmap (y w)). split; [by destruct w as [[]] | done].
  - apply bind_inv_Ok in H as (acc1 & w1 & Hone & H).
    destruct (pendingOne_inv s0 acc kv w acc1 w1 Hone Hp Hl) as ((rm1 & -> & Hp1) & Hacc).
    apply IH in H as ((rm' & -> & Hp') & Hc' & Hin); [| done | done |].
    + split; [by exists rm' |]. split; [done |].
      intros id node Hid. destruct (Hin id node Hid) as [H1 | [H1 H2]].
      * destruct Hacc as [-> | [-> Hn]]; [by left |]. simpl in H1.
        destruct (decide (kv.1 = id)) as [<- | Hne].
        -- rewrite lookup_insert_eq in H1. injection H1 as <-. right.
           split; [| done]. destruct kv. by left.
        -- rewrite lookup_insert_ne in H1 by done. by left.
      * right. split; [by right | done].
    + destruct Hacc as [-> | [-> _]]; [done |]. right. simpl.
      intros E. apply map_size_empty_inv in E. by apply insert_non_empty in E.
Qed.

Lemma pending_inv env w count pend smap w' :
  pending env true w = (Ok (count, pend, smap), w') →
  smap = smapAt env (gets w) ∧
  (∃ rm' queue,
     w' = MkWorld (set_workCh queue (set_revsmap rm' (y w))) (trace w) (glog w')
                  (S (gets w)) (bcasts w) ∧
     padded (revsmap (y w)) rm') ∧
  (count = 0%nat ∨ size pend ≠ 0%nat) ∧
  (∀ id node, pend !! id = Some node →
     (Tmap smap !! id = Some node ∨ Pmap smap !! id = Some node) ∧ notInSync (y w) id).
Proof.
  intros H. unfold pending in H.
  apply bind_inv_Ok in H as (smap' & w1 & Hget & H).
  unfold smapowner_get in Hget. injection Hget as <- <-.
  destruct (isPrimary (smapAt env (gets w)) (self env)); simpl in H.
  - apply bind_inv_Ok in H as (acc & w2 & Hfold & H). injection H as <- <- <- <-.
    apply (foldM_pendingOne_inv (y w)) in Hfold as ((rm' & -> & Hp) & Hc & Hin);
      [| apply padded_refl | done | by left].
    split; [done |]. split; [| split; [done |]].
    + exists rm', (workCh (y w)). split; [| done]. simpl. by destruct (y w).
    + intros id node Hid. destruct (Hin id node Hid) as [H1 | [H1 H2]];
        [simpl in H1; by rewrite lookup_empty in H1 |].
      split; [| done]. apply elem_of_app in H1 as [H1 | H1];
        apply elem_of_map_to_list in H1; auto.
  - unfold bind in H. rewrite becomeNonPrimary_run in H. simpl in H.
    case_bool_decide; [| discriminate]. unfold ret in H.
    injection H as <- <- <- <-. split; [done |]. split; [| split; [by left |]].
    + exists (revsmap (y w)), (workCh (y w) ++ [RevsReq [] false None false])%list.
      split; [| apply padded_refl]. simpl. by destruct (y w).
    + intros id node Hid. by rewrite lookup_empty in Hid.
Qed.

Lemma pendingPayload_inv m lst : ∀ acc w built w',
  pendingPayload m lst acc w = (Ok built, w') →
  w' = w ∧ built.2 = (acc.2 ++ pairsOfLast m lst)%list.
Proof.
  induction lst as [|[t r] lst IH]; intros acc w built w' H; simpl in H.
  - injection H as <- <-. by rewrite app_nil_r.
  - destruct (marshal r); [| discriminate].
    apply IH in H as (-> & ->). simpl. by rewrite <- app_assoc.
Qed.

Lemma handlePending_bcastArgs_nonempty (pend : gmap string Snode) :
  size pend ≠ 0%nat → bool_decide (nodeCount [pend] = 0%nat) = false.
Proof. intros H. apply bool_decide_eq_false_2. rewrite nodeCount_single. done. Qed.

(** What a [handlePending] that returns goes through. *)
Lemma handlePending_inv env w cnt w' :
  handlePending env w = (Ok cnt, w') →
  ∃ count pend wp,
    pending env true w = (Ok (count, pend, smapAt env (gets w)), wp) ∧
    ((count = 0%nat ∧ cnt = 0%nat ∧ w' = wp) ∨
     (count ≠ 0%nat ∧ ∃ payload,
        let m := newActionMsgInternalStr env "metasync: handle-pending"
                                         (smapAt env (gets w)) in
        let prs := pairsOfLast m (map_to_list (last (y wp))) in
        let out := foldl (pendingResult prs) (revsmap (y wp), 0%nat)
                         (callsOf env (bcasts wp) (bcastPeers env [pend])) in
        pendingPayload m (map_to_list (last (y wp))) (∅, []) wp = (Ok (payload, prs), wp) ∧
        cnt = out.2 ∧
        w' = MkWorld (set_revsmap out.1 (y wp))
               (trace wp ++
                [EvBcast (BcastCallArgs
                            (ReqArgs MethodPut (metasyncPath env) (BodyPayload payload))
                            NetworkIntraControl (CplaneOperation (config env)) [pend])
                         (DaemonID <$> bcastPeers env [pend])])
               (glog wp) (gets wp) (S (bcasts wp)))).
Proof.
  intros H. unfold handlePending in H.
  apply bind_inv_Ok in H as ([[count pend] smap] & wp & Hpend & H).
  pose proof (pending_inv env w count pend smap wp Hpend) as (-> & _ & Hc & _).
  exists count, pend, wp. split; [done |].
  case_bool_decide as Hz.
  - left. by injection H as <- <-.
  - right. split; [done |].
    apply bind_inv_Ok in H as (s & w1 & Hs & H). unfold getY in Hs. injection Hs as <- <-.
    apply bind_inv_Ok in H as ([payload prs] & w2 & Hpay & H).
    pose proof (pendingPayload_inv _ _ _ _ _ _ Hpay) as (-> & Hprs). simpl in Hprs.
    subst prs. exists payload. cbn zeta. split; [done |].
    unfold bind, broadcast in H. cbn [nodes] in H.
    rewrite handlePending_bcastArgs_nonempty in H by (destruct Hc; done).
    unfold getY, setY, ret in H. simpl in H. injection H as <- <-. done.
Qed.

Lemma asMap_pairsOfLast_sub m s :
  last_keyed s → asMap (pairsOfLast m (map_to_list (last s))) ⊆ last s.
Proof.
  intros Hk. apply map_subseteq_spec. intros t r Hr.
  apply asMap_lookup in Hr as (Ht & p & Hp & Hr).
  apply list_elem_of_fmap in Hp as ([k r'] & -> & Hin). simpl in Hr. subst r'.
  apply elem_of_map_to_list in Hin. pose proof (Hk k r Hin). by subst.
Qed.

Lemma padded_within lst rm rm' : padded rm rm' → within lst rm → within lst rm'.
Proof.
  intros Hp Hw id vm t v Hid Hv. destruct (Hp id) as [E | [_ E]].
  - rewrite E in Hid. by eapply Hw.
  - rewrite E in Hid. injection Hid as <-. by rewrite lookup_empty in Hv.
Qed.

Lemma padded_tops lst rm rm' : padded rm rm' → tops lst rm rm'.
Proof.
  intros Hp id vm t v Hid Hv. destruct (Hp id) as [E | [_ E]].
  - left. by rewrite <- E, Hid.
  - rewrite E in Hid. injection Hid as <-. by rewrite lookup_empty in Hv.
Qed.

(** [handlePending] keeps the metasyncer consistent, and advances. *)
Lemma handlePending_advances env w cnt w' :
  handlePending env w = (Ok cnt, w') → consistent (y w) →
  consistent (y w') ∧ advances w w'.
Proof.
  intros H [Hk Hw].
  apply handlePending_inv in H as (count & pend & wp & Hpend & H).
  apply pending_inv in Hpend as (_ & (rm' & queue & Hwp & Hp) & _ & _).
  assert (last (y wp) = last (y w) ∧ revsmap (y wp) = rm') as [Hl Hrm].
  { rewrite Hwp. done. }
  destruct H as [(_ & _ & ->) | (_ & payload & H)].
  - split; [split | split].
    + intros t r. rewrite Hl. apply Hk.
    + apply within_last_within. rewrite Hl, Hrm. by apply (padded_within _ _ _ Hp).
    + intros t. unfold lversion. rewrite Hl. lia.
    + rewrite Hrm. by apply padded_tops.
  - cbn zeta in H. destruct H as (_ & _ & ->). simpl.
    set (m := newActionMsgInternalStr env _ _).
    set (prs := pairsOfLast m (map_to_list (last (y wp)))).
    assert (within (last (y w)) (foldl (pendingResult prs) (revsmap (y wp), 0%nat)
                      (callsOf env (bcasts wp) (bcastPeers env [pend]))).1 ∧
            tops (last (y w)) (revsmap (y w))
                 (foldl (pendingResult prs) (revsmap (y wp), 0%nat)
                      (callsOf env (bcasts wp) (bcastPeers env [pend]))).1) as [Hw' Hg'].
    { apply (foldl_inv (λ a, within (last (y w)) a.1 ∧
                             tops (last (y w)) (revsmap (y w)) a.1)).
      - simpl. rewrite Hrm. split; [by apply (padded_within _ _ _ Hp) | by apply padded_tops].
      - intros [rm c] r _ [Hw1 Hg1]. unfold pendingResult. destruct (err r); simpl; try done.
        apply syncDone_tops; [| done | done].
        subst prs. rewrite Hl. by apply asMap_pairsOfLast_sub. }
    split; [split | split].
    + intros t r. simpl. rewrite Hl. apply Hk.
    + apply within_last_within. simpl. by rewrite Hl.
    + intros t. unfold lversion. simpl. rewrite Hl. lia.
    + simpl. by rewrite Hl.
Qed.

Lemma consistent_empty s : revsmap s = ∅ → last s = ∅ → consistent s.
Proof.
  intros Hr Hl. split.
  - intros t r. by rewrite Hl, lookup_empty.
  - intros id vm t v. by rewrite Hr, lookup_empty.
Qed.

Lemma consistent_same s s' :
  revsmap s' = revsmap s → last s' = last s → consistent s → consistent s'.
Proof.
  intros Hr Hl [Hk Hw]. split.
  - intros t r. rewrite Hl. apply Hk.
  - intros id vm t v. unfold lversion. rewrite Hr, Hl. apply Hw.
Qed.

Lemma sync_consistent env wait prs w w' :
  sync env wait prs w = (Ok tt, w') → consistent (y w) → consistent (y w').
Proof.
  intros H Hc. unfold sync in H.
  apply bind_inv_Ok in H as (b & w1 & Hb & H).
  assert (y w1 = y w) as Hy.
  { unfold checkPrimary, bind, smapowner_get in Hb.
    destruct (isPrimary _ _); injection Hb as <- <-; done. }
  destruct b; simpl in H.
  - apply bind_inv_Ok in H as ([] & w2 & Ha & H). unfold Assert in Ha.
    case_bool_decide; [| discriminate]. injection Ha as <-.
    unfold bind, getY, setY in H. injection H as <-. simpl. rewrite Hy.
    by apply (consistent_same (y w)).
  - injection H as <-. by rewrite Hy.
Qed.

Lemma notify_consistent env wait failed msg w w' :
  notify env wait failed msg w = (Ok tt, w') → consistent (y w) → consistent (y w').
Proof.
  intros H Hc. unfold notify in H.
  apply bind_inv_Ok in H as (b & w1 & Hb & H).
  assert (y w1 = y w) as Hy.
  { unfold checkPrimary, bind, smapowner_get in Hb.
    destruct (isPrimary _ _); injection Hb as <- <-; done. }
  destruct b; simpl in H.
  - unfold bind, getY, setY in H. injection H as <-. simpl. rewrite Hy.
    by apply (consistent_same (y w)).
  - injection H as <-. by rewrite Hy.
Qed.

Lemma Run_iter_consistent env sel w go w' :
  Run_iter env sel w = (Ok go, w') → consistent (y w) → consistent (y w').
Proof.
  intros H Hc. destruct sel; simpl in H.
  - apply bind_inv_Ok in H as (s & w1 & Hs & H). unfold getY in Hs. injection Hs as <- <-.
    destruct (workCh (y w)) as [|rq queue]; [by injection H as <- <- |].
    apply bind_inv_Ok in H as ([] & w1 & Hs & H). unfold setY in Hs. injection Hs as <-.
    destruct (isNil rq).
    + unfold bind, setY, ret in H. injection H as <- <-. by apply consistent_empty.
    + apply bind_inv_Ok in H as (cnt & w2 & Hd & H).
      apply doSync_advances in Hd as [Hc2 _]; [| by apply (consistent_same (y w))].
      apply bind_inv_Ok in H as ([] & w3 & Hwg & H).
      assert (y w3 = y w2) as Hy3.
      { destruct (wg rq); [| by injection Hwg as <-].
        destruct (failedCnt rq); unfold bind, emit, ret in Hwg; by injection Hwg as <-. }
      apply bind_inv_Ok in H as (s & w4 & Hs & H). unfold getY in Hs. injection Hs as <- <-.
      apply bind_inv_Ok in H as ([] & w5 & Ht & H). injection H as <- <-.
      destruct (_ && _); unfold setY, ret in Ht; injection Ht as <-; simpl;
        rewrite ?Hy3; [by apply (consistent_same (y w2)) | done].
  - apply bind_inv_Ok in H as (s & w1 & Hs & H). unfold getY in Hs. injection Hs as <- <-.
    destruct (retryTimer (y w)); [| by injection H as <- <-].
    apply bind_inv_Ok in H as ([] & w1 & Hs & H). unfold setY in Hs. injection Hs as <-.
    apply bind_inv_Ok in H as (cnt & w2 & Hh & H).
    apply handlePending_advances in Hh as [Hc2 _]; [| by apply (consistent_same (y w))].
    apply bind_inv_Ok in H as (s & w4 & Hs & H). unfold getY in Hs. injection Hs as <- <-.
    apply bind_inv_Ok in H as ([] & w5 & Ht & H). injection H as <- <-.
    case_bool_decide; unfold setY in Ht; injection Ht as <-;
      by apply (consistent_same (y w2)).
  - unfold bind, getY, setY, ret in H. injection H as <- <-.
    by apply (consistent_same (y w)).
Qed.

Lemma reachable_consistent env w : reachable env w → consistent (y w).
Proof.
  induction 1 as [w Hr Hl | w wait prs w' _ IH H | w wait failed msg w' _ IH H
                  | w sel go w' _ IH H | w prs msg cnt w' _ IH H | w cnt w' _ IH H].
  - by apply consistent_empty.
  - by apply (sync_consistent env wait prs w).
  - by apply (notify_consistent env wait failed msg w).
  - by apply (Run_iter_consistent env sel w go).
  - by apply (doSync_advances env prs msg w cnt w').
  - by apply (handlePending_advances env w cnt w').
Qed.

Lemma handleRefused_advances env mth url bdy (refused : gmap string Snode) prs w rest w' :
  handleRefused env mth url bdy refused prs w = (Ok rest, w') →
  asMap prs ⊆ last (y w) → consistent (y w) →
  consistent (y w') ∧ advances w w'.
Proof.
  intros H Hsub [Hk Hw].
  destruct (handleRefused_inv env mth url bdy refused prs w) as (w1 & H1 & Hy & _).
  rewrite H1 in H. injection H as <- <-.
  set (out := foldl (refusedOne prs) (revsmap (y w), refused) _) in *.
  assert (within (last (y w)) out.1 ∧ tops (last (y w)) (revsmap (y w)) out.1)
    as [Hw' Hg'].
  { subst out.
    apply (foldl_inv (λ a, within (last (y w)) a.1 ∧
                           tops (last (y w)) (revsmap (y w)) a.1)).
    - split; [done | apply tops_refl].
    - intros [rm rf] r _ Ha. by apply refusedOne_tops. }
  split; [split | split].
  - by rewrite Hy.
  - by rewrite Hy.
  - intros t. rewrite Hy. reflexivity.
  - by rewrite Hy.
Qed.

Lemma metasync_op_advances env w w' :
  metasync_op env w w' → consistent (y w) → consistent (y w') ∧ advances w w'.
Proof.
  intros [(prs & msg & cnt & H) | [(cnt & H) |
          (mth & url & bdy & rf & prs & rest & Hsub & H)]] Hc.
  - by apply (doSync_advances env prs msg w cnt w').
  - by apply (handlePending_advances env w cnt w').
  - by apply (handleRefused_advances env mth url bdy rf prs w rest w').
Qed.

(** Over any number of calls: the registry's versions do not go down and
    whatever is recorded at the end is not below what was recorded at the
    start, also for an entry that was dropped and made again in between. *)
Lemma metasync_ops_never_lower env w w' :
  rtc (metasync_op env) w w' → consistent (y w) →
  consistent (y w') ∧ (∀ t, lversion (y w) t ≤ lversion (y w') t) ∧ never_lower w w'.
Proof.
  intros Hsteps Hc. revert w' Hsteps.
  apply (rtc_ind_r (λ w', consistent (y w') ∧
                          (∀ t, lversion (y w) t ≤ lversion (y w') t) ∧ never_lower w w') w);
    [| intros wm w' Hsteps Hop IH].
  - split; [done |]. split; [intros t; lia |].
    intros id t v v' Hv Hv'. assert (v = v') by congruence. lia.
  - destruct IH as (Hcm & Hlm & Hnl).
    destruct (metasync_op_advances env wm w' Hop Hcm) as (Hc' & Hl' & Htop).
    split; [done |]. split; [intros t; specialize (Hlm t); specialize (Hl' t); lia |].
    intros id t v v' Hv Hv'.
    pose proof Hv' as Hv2. apply delivered_Some in Hv2 as (vm' & Hid' & Hvm').
    destruct (Htop id vm' t v' Hid' Hvm') as [Hsame | ->].
    + by apply (Hnl id t v v').
    + apply delivered_Some in Hv as (vm & Hid & Hvm).
      destruct Hc as [_ Hw]. pose proof (Hw id vm t v Hid Hvm) as Hle.
      specialize (Hlm t). specialize (Hl' t). unfold lversion in *. unfold versionIn. lia.
Qed.

(** ** The retry timer *)

Lemma pendingResult_count env k prs peers : ∀ rm c,
  (foldl (pendingResult prs) (rm, c) (callsOf env k peers)).2 =
  (c + length (filter (λ node, netCall env k (DaemonID node) ≠ NoErr) peers))%nat.
Proof.
  induction peers as [|node peers IH]; intros rm c; simpl; [lia |].
  unfold pendingResult at 2. simpl.
  destruct (netCall env k (DaemonID node)) eqn:E; simpl.
  - rewrite IH. rewrite filter_cons_False by (rewrite E; intros H; by apply H). done.
  - rewrite IH. rewrite filter_cons_True by (by rewrite E). simpl. lia.
  - rewrite IH. rewrite filter_cons_True by (by rewrite E). simpl. lia.
Qed.

Lemma pendingResult_hasAll env k prs peers : ∀ rm c,
  let out := foldl (pendingResult prs) (rm, c) (callsOf env k peers) in
  (∀ id, hasAll prs rm id → hasAll prs out.1 id) ∧
  (∀ node, node ∈ peers → netCall env k (DaemonID node) = NoErr →
           hasAll prs out.1 (DaemonID node)).
Proof.
  induction peers as [|node peers IH]; intros rm c.
  - simpl. split; [done |]. intros node Hin. by apply elem_of_nil in Hin.
  - cbn zeta.
    change (foldl (pendingResult prs) (rm, c) (callsOf env k (node :: peers)))
      with (foldl (pendingResult prs)
              (pendingResult prs (rm, c)
                 (CallResult node (netCall env k (DaemonID node))))
              (callsOf env k peers)).
    set (a1 := pendingResult prs (rm, c) _).
    destruct (IH a1.1 a1.2) as [Hkeep Hok].
    replace (a1.1, a1.2) with a1 in * by (by destruct a1).
    assert ((∀ id, hasAll prs rm id → hasAll prs a1.1 id) ∧
            (netCall env k (DaemonID node) = NoErr → hasAll prs a1.1 (DaemonID node)))
      as [H1 H2].
    { subst a1. unfold pendingResult. simpl.
      destruct (netCall env k (DaemonID node)); simpl.
      - split; [intros id; apply hasAll_syncDone | intros _; apply hasAll_syncDone_eq].
      - split; [done | discriminate].
      - split; [done | discriminate]. }
    split.
    + intros id Hid. by apply Hkeep, H1.
    + intros node' Hin Hnet. apply elem_of_cons in Hin as [-> | Hin];
        [by apply Hkeep, H2 | by apply Hok].
Qed.

Lemma last_tags_NoDup m s :
  last_keyed s → NoDup (tag ∘ p_revs <$> pairsOfLast m (map_to_list (last s))).
Proof.
  intros Hk. unfold pairsOfLast. rewrite <- list_fmap_compose.
  replace ((tag ∘ p_revs ∘ (λ kv : string * revs, Revspair kv.2 (Some m)))
             <$> map_to_list (last s)) with ((map_to_list (last s)).*1).
  - apply NoDup_fst_map_to_list.
  - apply Forall_fmap_ext_1, Forall_forall. intros [t r0] Hin. simpl.
    apply elem_of_map_to_list in Hin. by rewrite (Hk t r0 Hin).
Qed.

Lemma hasAll_last m s rm id t r0 :
  last_keyed s → hasAll (pairsOfLast m (map_to_list (last s))) rm id →
  last s !! t = Some r0 → rm !! id ≫= (.!! t) = Some (version r0).
Proof.
  intros Hk Hall Hl.
  pose proof (hasAll_lookup _ rm id (Revspair r0 (Some m)) Hall (last_tags_NoDup m s Hk))
    as H. simpl in H. rewrite (Hk t r0 Hl) in H. apply H.
  apply list_elem_of_fmap. exists (t, r0). split; [done |]. by apply elem_of_map_to_list.
Qed.

Lemma pendingPayload_lookup m lst : NoDup lst.*1 → ∀ acc w built w',
  pendingPayload m lst acc w = (Ok built, w') →
  (∀ t, t ∉ lst.*1 → (∀ t', t' ∈ lst.*1 → t ≠ t' ++ actiontag) →
        built.1 !! t = acc.1 !! t) ∧
  (∀ t r0, (t, r0) ∈ lst → (∀ t', t' ∈ lst.*1 → t ≠ t' ++ actiontag) →
           ∃ js, marshal r0 = Some js ∧ built.1 !! t = Some (WRevs js)).
Proof.
  induction lst as [|[t0 r0] lst IH]; intros Hnd acc w built w' H; simpl in H.
  - injection H as <- <-. split; [done |]. intros t r1 Hin. by apply elem_of_nil in Hin.
  - simpl in Hnd. apply NoDup_cons in Hnd as [Hnotin Hnd].
    destruct (marshal r0) as [js0|] eqn:Em; [| discriminate].
    apply (IH Hnd) in H as [Hout Hin']. simpl in Hout.
    split.
    + intros t Ht Hcol. simpl in Ht. apply not_elem_of_cons in Ht as [Hne Ht].
      rewrite Hout; [| done | intros t' Ht'; apply Hcol; by right].
      rewrite lookup_insert_ne by (intros E; apply (Hcol t0); [by left | done]).
      by rewrite lookup_insert_ne.
    + intros t r1 Hin Hcol. apply elem_of_cons in Hin as [[= -> ->] | Hin].
      * exists js0. split; [done |].
        rewrite Hout; [| done | intros t' Ht'; apply Hcol; by right].
        rewrite lookup_insert_ne by (intros E; apply (Hcol t0); [by left | done]).
        by rewrite lookup_insert_eq.
      * apply Hin'; [done |]. intros t' Ht'. apply Hcol. by right.
Qed.

(** What [handlePending] does when it returns. *)
Lemma handlePending_spec env w cnt w' :
  handlePending env w = (Ok cnt, w') → last_keyed (y w) →
  retryTimer (y w') = retryTimer (y w) ∧
  ((cnt = 0%nat ∧ trace w' = trace w) ∨
   ∃ pend payload,
     trace w' =
       (trace w ++
        [EvBcast (BcastCallArgs
                    (ReqArgs MethodPut (metasyncPath env) (BodyPayload payload))
                    NetworkIntraControl (CplaneOperation (config env)) [pend])
                 (DaemonID <$> bcastPeers env [pend])])%list ∧
     (∀ id node, pend !! id = Some node →
        (Tmap (smapAt env (gets w)) !! id = Some node ∨
         Pmap (smapAt env (gets w)) !! id = Some node) ∧ notInSync (y w) id) ∧
     (∀ t r0, last (y w) !! t = Some r0 →
        (∀ t', is_Some (last (y w) !! t') → t ≠ t' ++ actiontag) →
        ∃ js, marshal r0 = Some js ∧ payload !! t = Some (WRevs js)) ∧
     cnt = length (filter (λ node, netCall env (bcasts w) (DaemonID node) ≠ NoErr)
                          (bcastPeers env [pend])) ∧
     (∀ node, node ∈ bcastPeers env [pend] →
        netCall env (bcasts w) (DaemonID node) = NoErr →
        ∀ t r0, last (y w) !! t = Some r0 →
                delivered w' (DaemonID node) t = Some (version r0))).
Proof.
  intros H Hk.
  apply handlePending_inv in H as (count & pend & wp & Hpend & H).
  apply pending_inv in Hpend as (_ & (rm' & queue & Hwp & Hp) & _ & Hsound).
  assert (last (y wp) = last (y w) ∧ retryTimer (y wp) = retryTimer (y w) ∧
          trace wp = trace w ∧ bcasts wp = bcasts w) as (Hl & Ht & Htr & Hb).
  { rewrite Hwp. done. }
  destruct H as [(_ & -> & ->) | (_ & payload & H)].
  - split; [done |]. left. done.
  - cbn zeta in H. destruct H as (Hpay & -> & ->). simpl. split; [done |]. right.
    exists pend, payload. rewrite Htr, Hb, Hl.
    set (m := newActionMsgInternalStr env _ _) in *.
    split; [done |]. split; [done |]. split; [| split].
    + intros t r0 Hr0 Hcol. rewrite Hl in Hpay.
      destruct (pendingPayload_lookup m (map_to_list (last (y w)))
                  (NoDup_fst_map_to_list _) _ _ _ _ Hpay) as [_ Hin].
      apply (Hin t r0); [by apply elem_of_map_to_list |].
      intros t' Ht'. apply Hcol.
      apply list_elem_of_fmap in Ht' as ([k r1] & -> & Hin').
      apply elem_of_map_to_list in Hin'. by eexists.
    + by rewrite pendingResult_count.
    + intros node Hin Hnet t r0 Hr0. unfold delivered. simpl.
      apply (hasAll_last m (y w)); [done | | done].
      by apply pendingResult_hasAll.
Qed.

(** The iteration of [Run] that takes a request which is not the empty one. *)
Lemma Run_iter_work env w rq queue cnt w1 :
  workCh (y w) = rq :: queue → isNil rq = false →
  doSync env (pairs rq) (msgInt rq)
         (MkWorld (set_workCh queue (y w)) (trace w) (glog w) (gets w) (bcasts w))
    = (Ok cnt, w1) →
  ∃ w', Run_iter env SelWork w = (Ok true, w') ∧
        (retryTimer (y w'), timerStopped (y w')) =
          (if bool_decide (0 < cnt)%nat && timerStopped (y w1) &&
              bool_decide (0 < length (pairs rq))%nat
           then (Some (RetrySyncTime (config env)), false)
           else (retryTimer (y w1), timerStopped (y w1))) ∧
        revsmap (y w') = revsmap (y w1) ∧ last (y w') = last (y w1).
Proof.
  intros Hq Hnil Hd. unfold Run_iter, bind, getY. simpl. rewrite Hq.
  unfold setY at 1. rewrite Hnil. rewrite Hd.
  destruct (wg rq), (failedCnt rq); unfold emit, ret, setY; simpl;
    destruct (bool_decide (0 < cnt)%nat && timerStopped (y w1) &&
              bool_decide (0 < length (pairs rq))%nat);
    simpl; eexists; split; try reflexivity; done.
Qed.

(** The iteration of [Run] that takes the tick of the armed timer. *)
Lemma Run_iter_timer env w d cnt w1 :
  retryTimer (y w) = Some d →
  handlePending env
    (MkWorld (set_timer None (timerStopped (y w)) (y w)) (trace w) (glog w) (gets w)
             (bcasts w)) = (Ok cnt, w1) →
  ∃ w', Run_iter env SelTimer w = (Ok true, w') ∧
        (retryTimer (y w'), timerStopped (y w')) =
          (if bool_decide (0 < cnt)%nat
           then (Some (RetrySyncTime (config env)), false)
           else (retryTimer (y w1), true)) ∧
        revsmap (y w') = revsmap (y w1) ∧ last (y w') = last (y w1).
Proof.
  intros Ht Hh. unfold Run_iter, bind, getY. simpl. rewrite Ht.
  unfold setY at 1. rewrite Hh.
  case_bool_decide; unfold setY, ret; simpl; eexists; split; try reflexivity; done.
Qed.

Lemma handlePending_timer env w cnt w' :
  handlePending env w = (Ok cnt, w') →
  retryTimer (y w') = retryTimer (y w) ∧ timerStopped (y w') = timerStopped (y w).
Proof.
  intros H.
  apply handlePending_inv in H as (count & pend & wp & Hpend & H).
  apply pending_inv in Hpend as (_ & (rm' & queue & Hwp & _) & _ & _).
  assert (retryTimer (y wp) = retryTimer (y w) ∧ timerStopped (y wp) = timerStopped (y w))
    as [Ht Hs] by (by rewrite Hwp).
  destruct H as [(_ & _ & ->) | (_ & payload & H)]; [done |].
  cbn zeta in H. by destruct H as (_ & _ & ->).
Qed.
Lemma filter_all {A} (P : A → Prop) `{!∀ x, Decision (P x)} (l : list A) :
  (∀ x, x ∈ l → P x) → filter P l = l.
Proof.
  induction l as [|a l IH]; intros Hall; [done |].
  rewrite filter_cons_True by (apply Hall; left).
  f_equal. apply IH. intros x Hx. apply Hall. by right.
Qed.

Lemma filter_not_key_delete {A} (m : gmap string A) (k : string) :
  filter (λ kv : string * A, kv.1 ≠ k) (map_to_list m) ≡ₚ map_to_list (delete k m).
Proof.
  destruct (m !! k) as [x|] eqn:E.
  - rewrite <- (map_to_list_delete m k x E).
    rewrite filter_cons_False by (simpl; intros H; by apply H).
    rewrite filter_all; [done |].
    intros [k' x'] [Hne _]%elem_of_map_to_list%lookup_delete_Some. simpl. congruence.
  - rewrite delete_id by done.
    rewrite filter_all; [done |].
    intros [k' x'] H%elem_of_map_to_list. simpl. congruence.
Qed.

Lemma bcastPeers_length env nds :
  length (bcastPeers env nds) = nodeCount (delete (DaemonID (self env)) <$> nds).
Proof.
  induction nds as [|m nds IH]; [done |].
  change (bcastPeers env (m :: nds))
    with ((filter (λ kv : string * Snode, kv.1 ≠ DaemonID (self env)) (map_to_list m)).*2
          ++ bcastPeers env nds)%list.
  change (nodeCount (delete (DaemonID (self env)) <$> m :: nds))
    with (size (delete (DaemonID (self env)) m)
          + nodeCount (delete (DaemonID (self env)) <$> nds))%nat.
  rewrite length_app, length_fmap, IH.
  f_equal. rewrite filter_not_key_delete. by rewrite length_map_to_list.
Qed.

Lemma bcastPeers_inv env nds node :
  node ∈ bcastPeers env nds →
  ∃ m k, m ∈ nds ∧ m !! k = Some node ∧ k ≠ DaemonID (self env).
Proof.
  unfold bcastPeers. intros (m & Hin & Hm)%list_elem_of_bind.
  apply list_elem_of_fmap in Hin as ([k x] & -> & Hf).
  apply list_elem_of_filter in Hf as [Hne Hl%elem_of_map_to_list].
  exists m, k. done.
Qed.

(** X1: [broadcast] calls every node of the given maps except the caller
    itself, once per map entry: there are as many results as there are
    entries under another id, a node is among the results exactly when some
    map has it under an id that is not the caller's, and every result
    carries what the call to its node returned. The metasyncer's own state
    is not touched, and the trace grows by this one broadcast, or by
    nothing when the maps hold no node at all. *)
Theorem broadcast_calls_every_other_node env args w :
  ∃ res,
    (broadcast env args w).1 = Ok res ∧
    y (broadcast env args w).2 = y w ∧
    length res = nodeCount (delete (DaemonID (self env)) <$> nodes args) ∧
    (∀ node, node ∈ si <$> res ↔
       ∃ m k, m ∈ nodes args ∧ m !! k = Some node ∧ k ≠ DaemonID (self env)) ∧
    (∀ r, r ∈ res → err r = netCall env (bcasts w) (DaemonID (si r))) ∧
    bcastsOf (trace (broadcast env args w).2) =
      (bcastsOf (trace w) ++
       if bool_decide (nodeCount (nodes args) = 0%nat) then []
       else [(args, DaemonID ∘ si <$> res)])%list.
Proof.
  exists (callsOf env (bcasts w) (bcastPeers env (nodes args))).
  assert (si <$> callsOf env (bcasts w) (bcastPeers env (nodes args))
          = bcastPeers env (nodes args)) as Hsi.
  { unfold callsOf. rewrite <- list_fmap_compose. apply list_fmap_id. }
  unfold broadcast. case_bool_decide as Hn.
  - rewrite (nodeCount_zero env _ Hn). simpl.
    assert (nodeCount (delete (DaemonID (self env)) <$> nodes args) = 0%nat) as Hz.
    { rewrite <- bcastPeers_length, (nodeCount_zero env _ Hn). done. }
    split; [done |]. split; [done |]. split; [by rewrite Hz |].
    split.
    + intros node. split; [by intros ?%elem_of_nil |].
      intros (m & k & Hm & Hk & Hne).
      pose proof (bcastPeers_elem env _ m k node Hm Hk Hne) as Hin.
      rewrite (nodeCount_zero env _ Hn) in Hin. by apply elem_of_nil in Hin.
    + split; [by intros r ?%elem_of_nil |]. by rewrite app_nil_r.
  - simpl. split; [done |]. split; [done |].
    split; [unfold callsOf; by rewrite length_fmap, bcastPeers_length |].
    split.
    + intros node. rewrite Hsi. split; [apply bcastPeers_inv |].
      intros (m & k & Hm & Hk & Hne). eapply bcastPeers_elem; eauto.
    + split.
      * unfold callsOf. intros r (node & -> & _)%list_elem_of_fmap. done.
      * unfold bcastsOf. rewrite omap_app. simpl.
        rewrite list_fmap_compose, Hsi. done.
Qed.

Lemma firstBcast_run env mth bdy prs nt smap w :
  let out := foldl (classifyOne nt prs) (revsmap (y w), ∅, 0%nat)
                   (callsOf env (bcasts w) (bcastPeers env [Pmap smap; Tmap smap])) in
  ∃ w', firstBcast env mth bdy prs nt smap w = (Ok (out.1.2, out.2), w') ∧
        y w' = set_revsmap out.1.1 (y w) ∧ gets w' = gets w ∧
        ((trace w' = trace w ∧ bcasts w' = bcasts w ∧
          nodeCount [Pmap smap; Tmap smap] = 0%nat) ∨
         (trace w' = (trace w ++
                      [EvBcast (firstArgs env mth bdy smap)
                               (DaemonID <$> bcastPeers env [Pmap smap; Tmap smap])])%list
          ∧ bcasts w' = S (bcasts w))).
Proof.
  cbn zeta. unfold firstBcast, broadcastTo, broadcast, firstArgs.
  cbn [nodes]. case_bool_decide as Hn.
  - unfold bind, getY, setY, ret. cbn [fst snd y trace glog gets bcasts].
    rewrite (nodeCount_zero env _ Hn).
    eexists. split; [reflexivity |]. cbn. split; [done |]. split; [done |]. left. done.
  - unfold bind, getY, setY, ret. cbn [fst snd y trace glog gets bcasts].
    eexists. split; [reflexivity |]. cbn. split; [done |]. split; [done |]. right. done.
Qed.

Lemma bcastSteps_run env mth bdy prs nt smap w cnt w' :
  bcastSteps env mth bdy prs nt smap w = (Ok cnt, w') →
  let out := foldl (classifyOne nt prs) (revsmap (y w), ∅, 0%nat)
                   (callsOf env (bcasts w) (bcastPeers env [Pmap smap; Tmap smap])) in
  ∃ w1 rest w2 (rounds : list (option (gmap string Snode))),
    firstBcast env mth bdy prs nt smap w = (Ok (out.1.2, out.2), w1) ∧
    y w1 = set_revsmap out.1.1 (y w) ∧ gets w1 = gets w ∧
    (trace w1 = trace w ∨
     trace w1 = (trace w ++
                 [EvBcast (firstArgs env mth bdy smap)
                          (DaemonID <$> bcastPeers env [Pmap smap; Tmap smap])])%list) ∧
    refusedLoop env retryRounds mth (metasyncPath env) bdy out.1.2 prs w1 = (Ok rest, w2) ∧
    trace w2 = (trace w1 ++ (rounds ≫= roundEvents env mth (metasyncPath env) bdy))%list ∧
    gets w2 = (gets w + length rounds)%nat ∧
    last (y w2) = last (y w) ∧ lastclone (y w2) = lastclone (y w) ∧
    retryTimer (y w2) = retryTimer (y w) ∧ timerStopped (y w2) = timerStopped (y w) ∧
    match rest with
    | None => cnt = out.2 ∧ w' = w2 ∧
              workCh (y w2) = (workCh (y w) ++ [RevsReq [] false None false])%list
    | Some refused =>
        cnt = (out.2 + size refused)%nat ∧ refused ⊆ out.1.2 ∧
        workCh (y w2) = workCh (y w) ∧
        w' = MkWorld (set_revsmap
                        (filter (λ kv : string * gmap string Z,
                                   containsID (smapAt env (gets w2)) kv.1 = true)
                                (revsmap (y w2))) (y w2))
                     (trace w2) (glog w2) (S (gets w2)) (bcasts w2)
    end.
Proof.
  intros H. cbn zeta.
  apply bcastSteps_inv in H as (acc & w1 & rest & w2 & Hfirst & Hloop & Hrest).
  destruct (firstBcast_run env mth bdy prs nt smap w) as (w1' & Hfirst' & Hy1 & Hg1 & Htr1).
  rewrite Hfirst' in Hfirst. injection Hfirst as <- <-.
  set (out := foldl (classifyOne nt prs) (revsmap (y w), ∅, 0%nat) _) in *.
  cbn [fst snd] in Hloop, Hrest.
  pose proof (refusedLoop_rounds env mth (metasyncPath env) bdy prs retryRounds
                out.1.2 w1' ltac:(apply classify_keyed, keyed_empty))
    as (rounds & Htr & _ & Hgets & _ & _ & Hround).
  pose proof (refusedLoop_inv env mth (metasyncPath env) bdy prs (λ _ _, True)
                (λ _ _ _ _, I) retryRounds out.1.2 w1' I)
    as (Hl & Hlc & Hrt & Hts & _).
  rewrite Hloop in Htr, Hgets, Hround, Hl, Hlc, Hrt, Hts.
  cbn [fst snd] in Htr, Hgets, Hround, Hl, Hlc, Hrt, Hts.
  exists w1', rest, w2, rounds.
  split; [done |]. split; [done |]. split; [done |].
  split; [destruct Htr1 as [(? & _) | (? & _)]; [by left | by right] |].
  split; [done |]. split; [done |]. split; [by rewrite Hgets, Hg1 |].
  rewrite Hl, Hlc, Hrt, Hts, Hy1. cbn.
  split; [done |]. split; [done |]. split; [done |]. split; [done |].
  destruct rest as [refused|].
  - destruct Hrest as [-> Hhk]. destruct Hround as (_ & Hsub & _ & Hw).
    apply (f_equal (λ m, m ⊆ out.1.2)) in Hsub. cbn beta in Hsub.
    assert (refused ⊆ out.1.2) as Hsub' by (rewrite Hsub; apply refusedAfter_sub).
    rewrite housekeep_run in Hhk. injection Hhk as <-.
    rewrite Hw, Hy1. done.
  - destruct Hrest as [-> ->]. destruct Hround as (_ & _ & _ & _ & Hw).
    rewrite Hw, Hy1. done.
Qed.

(** ** A notification leaves the registry alone *)

Lemma classify_nil nt res : ∀ rm (rf : gmap string Snode) c,
  (foldl (classifyOne nt []) (rm, rf, c) res).1.1 = rm.
Proof.
  induction res as [|r res IH]; intros rm rf c; [done |].
  change (foldl (classifyOne nt []) (rm, rf, c) (r :: res))
    with (foldl (classifyOne nt []) (classifyOne nt [] (rm, rf, c) r) res).
  unfold classifyOne at 2. destruct (err r); cbn [length];
    rewrite ?bool_decide_eq_false_2 by lia.
  - apply IH.
  - destruct (_ || _); apply IH.
  - destruct (_ || _); apply IH.
Qed.

Lemma refusedOne_nil_nothing_new rm0 rm (rf : gmap string Snode) r :
  records_nothing_new rm0 rm → records_nothing_new rm0 (refusedOne [] (rm, rf) r).1.
Proof.
  intros H. unfold refusedOne. destruct (err r); cbn [fst]; [| done | done].
  intros id t v. unfold syncDone, recordPairs. cbn [foldl].
  destruct (decide (DaemonID (si r) = id)) as [-> | Hne].
  - rewrite lookup_insert_eq. cbn. destruct (rm !! id) as [vm|] eqn:E.
    + intros Hv. apply H. by rewrite E.
    + cbn. by rewrite lookup_empty.
  - rewrite lookup_insert_ne by done. apply H.
Qed.

Lemma bcastsOf_app tr1 tr2 : bcastsOf (tr1 ++ tr2) = (bcastsOf tr1 ++ bcastsOf tr2)%list.
Proof. unfold bcastsOf. apply omap_app. Qed.

Lemma roundEvents_reqs env mth url bdy (rounds : list (option (gmap string Snode))) ac :
  ac ∈ bcastsOf (rounds ≫= roundEvents env mth url bdy) →
  req ac.1 = ReqArgs mth url bdy ∧ net ac.1 = NetworkIntraControl ∧
  timeout ac.1 = MaxKeepalive (config env).
Proof.
  induction rounds as [|o rounds IH]; [by intros ?%elem_of_nil |].
  change ((o :: rounds) ≫= roundEvents env mth url bdy)
    with (roundEvents env mth url bdy o ++ (rounds ≫= roundEvents env mth url bdy))%list.
  rewrite bcastsOf_app. intros [H | H]%elem_of_app; [| by apply IH].
  destruct o as [rf|]; cbn in H.
  - apply list_elem_of_singleton in H as ->. done.
  - by apply elem_of_nil in H.
Qed.

(** X2: a [doSync] without pairs (a notification) that returns leaves
    [last] and [lastclone] as they were, records no version for any node
    and tag that was not recorded before, and every request it broadcasts
    is a POST to the metasync path with the message as its body. *)
Theorem doSync_notify_keeps_registry env msg w cnt w' :
  doSync env [] msg w = (Ok cnt, w') →
  last (y w') = last (y w) ∧ lastclone (y w') = lastclone (y w) ∧
  (∀ id t v, delivered w' id t = Some v → delivered w id t = Some v) ∧
  ∃ evs, trace w' = (trace w ++ evs)%list ∧
         ∀ ac, ac ∈ bcastsOf evs →
               req ac.1 = ReqArgs MethodPost (metasyncPath env) (BodyMsg msg).
Proof.
  intros H. apply doSync_inv_notify in H.
  set (w0 := MkWorld (y w) (trace w) (glog w) (S (gets w)) (bcasts w)) in *.
  apply bcastSteps_run in H. cbn zeta in H.
  set (out := foldl (classifyOne "" []) (revsmap (y w0), ∅, 0%nat) _) in *.
  destruct H as (w1 & rest & w2 & rounds & _ & Hy1 & _ & Htr1 & Hloop & Htr2 & _ &
                 Hl & Hlc & _ & _ & Hrest).
  unfold out in Hy1. rewrite classify_nil in Hy1.
  pose proof (refusedLoop_inv env MethodPost (metasyncPath env) (BodyMsg msg) []
                (λ rm _, records_nothing_new (revsmap (y w)) rm)
                (λ rm rf r, refusedOne_nil_nothing_new (revsmap (y w)) rm rf r)
                retryRounds out.1.2 w1) as Hinv.
  rewrite Hloop in Hinv. cbn [fst snd] in Hinv.
  destruct Hinv as (_ & _ & _ & _ & Hinv); [rewrite Hy1; by intros ??? |].
  assert (records_nothing_new (revsmap (y w)) (revsmap (y w2))) as Hnew
    by (destruct rest; [done | by destruct Hinv]).
  assert (∃ evs, trace w2 = (trace w ++ evs)%list ∧
            ∀ ac, ac ∈ bcastsOf evs →
                  req ac.1 = ReqArgs MethodPost (metasyncPath env) (BodyMsg msg))
    as Htrace.
  { destruct Htr1 as [Htr1 | Htr1]; rewrite Htr1 in Htr2; cbn [trace w0] in Htr2.
    - eexists. split; [exact Htr2 |]. intros ac Hac.
      by apply roundEvents_reqs in Hac as [? _].
    - rewrite <- (assoc_L (++)) in Htr2. eexists. split; [exact Htr2 |].
      intros ac Hac. rewrite bcastsOf_app in Hac.
      apply elem_of_app in Hac as [Hac | Hac].
      + cbn in Hac. by apply list_elem_of_singleton in Hac as ->.
      + by apply roundEvents_reqs in Hac as [? _]. }
  destruct rest as [refused|].
  - destruct Hrest as (_ & _ & _ & ->). cbn.
    split; [done |]. split; [done |]. split; [| done].
    intros id t v. unfold delivered. cbn. intros Hv. apply Hnew.
    destruct (filter _ (revsmap (y w2)) !! id) as [vm|] eqn:E; [| done].
    apply map_lookup_filter_Some in E as [E _]. by rewrite E.
  - destruct Hrest as (_ & -> & _).
    split; [done |]. split; [done |]. split; [| done].
    intros id t v. apply Hnew.
Qed.

Lemma doSync_notify_keeps_registry_witness :
  last (y (doSync env_steady [] None w_published).2) = last (y w_published).
Proof.
  apply (doSync_notify_keeps_registry env_steady None w_published 0%nat
           (doSync env_steady [] None w_published).2 ltac:(vm_compute; reflexivity)).
Defined.

(** What a [doSync] that returns goes through, whatever the request. *)
Lemma doSync_run env prs msg w cnt w' :
  doSync env prs msg w = (Ok cnt, w') →
  let smap := smapAt env (gets w) in
  let w1 := MkWorld (y w) (trace w) (glog w) (S (gets w)) (bcasts w) in
  let pts := pairsToSend env prs w in
  (prs ≠ [] ∧ pts = [] ∧ cnt = 0%nat ∧ w' = w1) ∨
  (∃ mth bdy nt w2,
     (prs = [] ∨ pts ≠ []) ∧
     revsmap (y w2) = revsmap (y w) ∧ workCh (y w2) = workCh (y w) ∧
     retryTimer (y w2) = retryTimer (y w) ∧ timerStopped (y w2) = timerStopped (y w) ∧
     trace w2 = trace w ∧ gets w2 = S (gets w) ∧ bcasts w2 = bcasts w ∧
     last (y w2) = foldl (λ m p, <[tag (p_revs p) := p_revs p]> m) (last (y w)) pts ∧
     bcastSteps env mth bdy pts nt smap w2 = (Ok cnt, w')).
Proof.
  intros H. cbn zeta. destruct prs as [|rp prs].
  - right. apply doSync_inv_notify in H.
    exists MethodPost, (BodyMsg msg), "",
           (MkWorld (y w) (trace w) (glog w) (S (gets w)) (bcasts w)).
    split; [by left |]. cbn. repeat (split; [reflexivity |]). exact H.
  - apply doSync_inv in H. cbn zeta in H.
    destruct H as [(Hnil & -> & ->) | (Hne & built & w2 & Hpub & H)]; [by left |].
    right. apply publish_inv in Hpub as (Hl & Hrm & Hwk & Hrt & Hts & Htr & Hg & Hb).
    exists MethodPut, (BodyPayload built.1), built.2, w2.
    split; [by right |]. done.
Qed.

(** X3: when [doSync] returns after it got to broadcast (a notification,
    or a sync with a pair left to send) and without queueing a request
    (it did not find itself non-primary), every node that still has an
    entry in [revsmap] is in the cluster map that was read last: the
    housekeeping dropped the others. *)
Theorem doSync_housekeeping env prs msg w cnt w' :
  doSync env prs msg w = (Ok cnt, w') →
  workCh (y w') = workCh (y w) →
  prs = [] ∨ pairsToSend env prs w ≠ [] →
  ∀ id, is_Some (revsmap (y w') !! id) →
        containsID (smapAt env (pred (gets w'))) id = true.
Proof.
  intros H Hwork Hsent id [vm Hid].
  apply doSync_run in H. cbn zeta in H.
  destruct H as [(Hne & Hnil & _) | (mth & bdy & nt & w2 & _ & _ & Hwk2 & _ & _ & _ & _ & _ & _ & H)].
  { by destruct Hsent. }
  apply bcastSteps_run in H. cbn zeta in H.
  destruct H as (w3 & rest & w4 & rounds & _ & _ & _ & _ & _ & _ & _ & _ & _ & _ & _ & Hrest).
  destruct rest as [refused|].
  - destruct Hrest as (_ & _ & _ & ->). cbn in Hid |- *.
    by apply map_lookup_filter_Some in Hid as [_ Hc].
  - destruct Hrest as (_ & -> & Hw). rewrite Hw, Hwk2 in Hwork.
    by apply app_singleton_neq in Hwork.
Qed.

Lemma doSync_housekeeping_witness :
  containsID (smapAt env_late_T2
                (pred (gets (doSync env_late_T2 [bmd 4 "bmd-v4"] None w0).2))) "T1" = true.
Proof.
  apply (doSync_housekeeping env_late_T2 [bmd 4 "bmd-v4"] None w0 _ _
           ltac:(vm_compute; reflexivity) ltac:(vm_compute; reflexivity)
           ltac:(right; vm_compute; discriminate) "T1").
  vm_compute. eexists. reflexivity.
Defined.

(** ** What is not sent *)

Lemma filterPairs_all_dropped s smap n prs : ∀ w l w',
  Forall (λ p, version (p_revs p) < lversion s (tag (p_revs p)) ∨
               (version (p_revs p) = lversion s (tag (p_revs p)) ∧ n = 0%nat)) prs →
  filterPairs s smap n prs w = (Ok l, w') → l = [].
Proof.
  induction prs as [|rp prs IH]; intros w l w' Hall H.
  - by injection H as <- <-.
  - apply Forall_cons in Hall as [Hrp Hall]. cbn [filterPairs] in H.
    destruct (p_msgInt rp); [| discriminate].
    apply bind_inv_Ok in H as ([] & w1 & _ & H).
    destruct Hrp as [Hlt | [Heq ->]].
    + rewrite bool_decide_eq_false_2 in H by lia.
      rewrite bool_decide_eq_true_2 in H by lia. by eapply IH.
    + rewrite bool_decide_eq_true_2 in H by lia.
      rewrite bool_decide_eq_true_2 in H by done. by eapply IH.
Qed.

(** X4: a sync all of whose pairs are older than what was last synced under
    their tag, or of the same version while the cluster map has no new
    member, does nothing: the count is 0, and the metasyncer's state, the
    trace and the calls made are unchanged. *)
Theorem doSync_drops_stale_and_duplicates env prs w cnt w' :
  doSync env prs None w = (Ok cnt, w') →
  prs ≠ [] →
  Forall (λ p, version (p_revs p) < lversion (y w) (tag (p_revs p)) ∨
               (version (p_revs p) = lversion (y w) (tag (p_revs p)) ∧
                countNewMembers (y w) (smapAt env (gets w)) = 0%nat)) prs →
  cnt = 0%nat ∧ y w' = y w ∧ trace w' = trace w ∧ bcasts w' = bcasts w.
Proof.
  intros H Hne Hall.
  assert (pairsToSend env prs w = []) as Hnil.
  { unfold pairsToSend.
    destruct (filterPairs _ _ _ prs w) as [[l|m|] w1] eqn:E; [| done..].
    by eapply filterPairs_all_dropped. }
  apply doSync_run in H. cbn zeta in H.
  destruct H as [(_ & _ & -> & ->) | (mth & bdy & nt & w2 & [Hn | Hn] & _)]; done.
Qed.

Lemma doSync_drops_stale_and_duplicates_witness :
  trace (doSync env_steady [bmd 3 "bmd-v3"] None w_published).2 = trace w_published.
Proof.
  apply (doSync_drops_stale_and_duplicates env_steady [bmd 3 "bmd-v3"] w_published 0%nat
           (doSync env_steady [bmd 3 "bmd-v3"] None w_published).2
           ltac:(vm_compute; reflexivity) ltac:(discriminate)).
  constructor; [| constructor]. left. vm_compute. reflexivity.
Defined.

Lemma filterPairs_world s smap n prs w : (filterPairs s smap n prs w).2 = w.
Proof. by rewrite (filterPairs_indep s smap n prs w w). Qed.

Lemma filterPairs_newer_fatal s smap n prs p : ∀ w,
  p ∈ prs → tag (p_revs p) = smaptag → version (p_revs p) > Version smap →
  ∃ m, filterPairs s smap n prs w = (Fatal m, w).
Proof.
  induction prs as [|rp prs IH]; intros w Hin Ht Hv; [by apply elem_of_nil in Hin |].
  cbn [filterPairs].
  destruct (p_msgInt rp) as [mi|] eqn:Emi; [| by eexists].
  apply elem_of_cons in Hin as [-> | Hin].
  - unfold Assert. rewrite Ht.
    rewrite (bool_decide_eq_true_2 (smaptag = smaptag)) by done.
    rewrite bool_decide_eq_true_2 by done. cbn. eexists. reflexivity.
  - destruct (IH w Hin Ht Hv) as [m Hm].
    unfold Assert. destruct (negb _); [| by eexists].
    rewrite bind_ret_l.
    repeat case_bool_decide; try (by exists m);
      rewrite (bind_Fatal _ _ _ _ _ Hm); by exists m.
Qed.

(** X5: a pair under the Smap tag whose version is above the version of
    the current cluster map makes [doSync] fail its assertion, before
    anything is recorded or sent: the state, the trace and the calls made
    are those before the call. *)
Theorem doSync_newer_smap_fatal env prs msg w p :
  p ∈ prs → tag (p_revs p) = smaptag →
  version (p_revs p) > Version (smapAt env (gets w)) →
  ∃ m, (doSync env prs msg w).1 = Fatal m ∧
       y (doSync env prs msg w).2 = y w ∧
       trace (doSync env prs msg w).2 = trace w ∧
       bcasts (doSync env prs msg w).2 = bcasts w.
Proof.
  intros Hin Ht Hv.
  set (w1 := MkWorld (y w) (trace w) (glog w) (S (gets w)) (bcasts w)).
  assert (∃ m, doSync env prs msg w = (Fatal m, w1)) as [m ->];
    [| exists m; subst w1; cbn; repeat split].
  unfold doSync.
  assert (smapowner_get env w = (Ok (smapAt env (gets w)), w1)) as Hget by done.
  rewrite (bind_Ok _ _ _ _ _ Hget).
  assert (getY w1 = (Ok (y w), w1)) as HgetY by done.
  rewrite (bind_Ok _ _ _ _ _ HgetY).
  destruct (cowAudit_world (y w) (map_to_list (last (y w))) w1) as [E | [m E]].
  - unfold cowAudit. rewrite (bind_Ok _ _ _ _ _ E).
    destruct prs as [|rp prs]; [by apply elem_of_nil in Hin |].
    destruct msg as [mi|].
    + cbn. eexists. done.
    + unfold Assert at 1. rewrite bind_ret_l.
      destruct (filterPairs_newer_fatal (y w) (smapAt env (gets w))
                  (countNewMembers (y w) (smapAt env (gets w))) (rp :: prs) p w1
                  Hin Ht Hv) as [m Hm].
      rewrite (bind_Fatal _ _ _ _ _ Hm). by exists m.
  - unfold cowAudit. rewrite (bind_Fatal _ _ _ _ _ E). by exists m.
Qed.

Lemma doSync_newer_smap_fatal_witness :
  ∃ m, (doSync env_smap3 [bmd 1 "bmd-v1"; newer_smap] None w0).1 = Fatal m ∧
       y (doSync env_smap3 [bmd 1 "bmd-v1"; newer_smap] None w0).2 = y w0 ∧
       trace (doSync env_smap3 [bmd 1 "bmd-v1"; newer_smap] None w0).2 = trace w0 ∧
       bcasts (doSync env_smap3 [bmd 1 "bmd-v1"; newer_smap] None w0).2 = bcasts w0.
Proof.
  apply (doSync_newer_smap_fatal env_smap3 [bmd 1 "bmd-v1"; newer_smap] None w0 newer_smap).
  - right. left.
  - reflexivity.
  - vm_compute. reflexivity.
Defined.

(** ** The count of failures *)

Lemma classify_count nt prs res : ∀ rm (rf : gmap string Snode) c,
  let out := foldl (classifyOne nt prs) (rm, rf, c) res in
  (out.2 + size out.1.2 ≤ c + size rf + length res)%nat.
Proof.
  induction res as [|r res IH]; intros rm rf c; cbn zeta; [cbn; lia |].
  change (foldl (classifyOne nt prs) (rm, rf, c) (r :: res))
    with (foldl (classifyOne nt prs) (classifyOne nt prs (rm, rf, c) r) res).
  cbn [length].
  assert (size (<[DaemonID (si r) := si r]> rf) ≤ S (size rf))%nat as Hins.
  { rewrite map_size_insert. destruct (rf !! DaemonID (si r)); cbn; lia. }
  assert (∃ rm' rf' c', classifyOne nt prs (rm, rf, c) r = (rm', rf', c') ∧
            (c' + size rf' ≤ S (c + size rf))%nat) as (rm' & rf' & c' & -> & Hstep).
  { unfold classifyOne. destruct (err r).
    - eexists _, _, _. split; [reflexivity | lia].
    - destruct (_ || _); eexists _, _, _; (split; [reflexivity | lia]).
    - destruct (_ || _); eexists _, _, _; (split; [reflexivity | lia]). }
  specialize (IH rm' rf' c'). cbn zeta in IH. lia.
Qed.

(** X6: the number of failed nodes that [doSync] returns is at most the
    number of the nodes other than the caller in the cluster map it
    started with. *)
Theorem doSync_failures_bounded env prs msg w cnt w' :
  doSync env prs msg w = (Ok cnt, w') →
  (cnt ≤ size (delete (DaemonID (self env)) (Pmap (smapAt env (gets w)))) +
         size (delete (DaemonID (self env)) (Tmap (smapAt env (gets w)))))%nat.
Proof.
  intros H. apply doSync_run in H. cbn zeta in H.
  destruct H as [(_ & _ & -> & _) | (mth & bdy & nt & w2 & _ & _ & _ & _ & _ & _ & Hg & Hb & _ & H)];
    [lia |].
  apply bcastSteps_run in H. cbn zeta in H.
  set (smap := smapAt env (gets w)) in *.
  set (res := callsOf env (bcasts w2) (bcastPeers env [Pmap smap; Tmap smap])) in *.
  pose proof (classify_count nt (pairsToSend env prs w) res (revsmap (y w2)) ∅ 0%nat) as Hc.
  cbn zeta in Hc. rewrite map_size_empty in Hc.
  set (out := foldl _ _ res) in *.
  assert (length res = (size (delete (DaemonID (self env)) (Pmap smap)) +
                        size (delete (DaemonID (self env)) (Tmap smap)))%nat) as Hlen.
  { unfold res, callsOf. rewrite length_fmap, bcastPeers_length. cbn. lia. }
  destruct H as (w3 & rest & w4 & rounds & _ & _ & _ & _ & _ & _ & _ & _ & _ & _ & _ & Hrest).
  destruct rest as [refused|].
  - destruct Hrest as (-> & Hsub & _). apply map_subseteq_size in Hsub. lia.
  - destruct Hrest as (-> & _). lia.
Qed.

Lemma doSync_failures_bounded_witness :
  (1 ≤ size (delete (DaemonID (self env_late_T2)) (Pmap (smapAt env_late_T2 (gets w_sync5)))) +
       size (delete (DaemonID (self env_late_T2)) (Tmap (smapAt env_late_T2 (gets w_sync5)))))%nat.
Proof.
  apply (doSync_failures_bounded env_late_T2 [bmd 5 "bmd-v5"] None w_sync5 1%nat
           (doSync env_late_T2 [bmd 5 "bmd-v5"] None w_sync5).2).
  vm_compute. reflexivity.
Defined.

(** ** [pending] finds every node that is not in sync *)

Lemma pendingOne_complete s0 acc kv w acc' w' :
  pendingOne true acc kv w = (Ok acc', w') →
  padded (revsmap s0) (revsmap (y w)) → last (y w) = last s0 →
  (∀ id, revsmap s0 !! id = None → is_Some (revsmap (y w) !! id) → is_Some (acc.2 !! id)) →
  (∀ id, revsmap s0 !! id = None → is_Some (revsmap (y w') !! id) →
         is_Some (acc'.2 !! id)) ∧
  (∀ id, is_Some (revsmap (y w) !! id) → is_Some (revsmap (y w') !! id)) ∧
  (∀ id, is_Some (acc.2 !! id) → is_Some (acc'.2 !! id)) ∧
  is_Some (revsmap (y w') !! kv.1) ∧
  (notInSync s0 kv.1 → is_Some (acc'.2 !! kv.1)) ∧
  (acc'.1 = 0%nat → acc.1 = 0%nat ∧ acc'.2 = acc.2).
Proof.
  intros H Hp Hl HJ. unfold pendingOne in H.
  apply bind_inv_Ok in H as (s & w1 & Hs & H). unfold getY in Hs. injection Hs as <- <-.
  destruct (revsmap (y w) !! kv.1) as [rvd|] eqn:Erm.
  - apply bind_inv_Ok in H as (b & w2 & Hc & H). injection H as <- <-.
    apply inSyncCheck_inv in Hc as (-> & _ & Ht).
    assert (∀ id, is_Some (acc.2 !! id) →
              is_Some ((if negb true || b then acc.2 else <[kv.1 := kv.2]> acc.2) !! id))
      as Hmono.
    { intros id Hid. destruct b; [done |]. cbn.
      destruct (decide (kv.1 = id)) as [<- | Hne];
        [by rewrite lookup_insert_eq | by rewrite lookup_insert_ne]. }
    cbn [fst snd].
    split; [intros id H0 Hid; apply Hmono; by apply HJ |].
    split; [done |]. split; [done |]. split; [by rewrite Erm |].
    split.
    + intros [Hnone | (vm & t & r & Hvm & Hlast & Hne)].
      * apply Hmono, HJ; [done | by rewrite Erm].
      * destruct b; [| cbn; by rewrite lookup_insert_eq].
        exfalso. apply Hne. destruct (Hp kv.1) as [E | [E _]]; [| congruence].
        rewrite Erm, Hvm in E. injection E as ->.
        apply (Ht eq_refl). apply elem_of_map_to_list. by rewrite Hl.
    + destruct b; [by destruct acc | discriminate].
  - apply bind_inv_Ok in H as ([] & w2 & Hset & H). injection H as <- <-.
    unfold setY in Hset. injection Hset as <-. cbn.
    split.
    { intros id H0 Hid. destruct (decide (kv.1 = id)) as [<- | Hne].
      - by rewrite lookup_insert_eq.
      - rewrite lookup_insert_ne in Hid by done. rewrite lookup_insert_ne by done.
        by apply HJ. }
    split.
    { intros id Hid. destruct (decide (kv.1 = id)) as [<- | Hne];
        [by rewrite lookup_insert_eq | by rewrite lookup_insert_ne]. }
    split.
    { intros id Hid. destruct (decide (kv.1 = id)) as [<- | Hne];
        [by rewrite lookup_insert_eq | by rewrite lookup_insert_ne]. }
    split; [by rewrite lookup_insert_eq |].
    split; [by rewrite lookup_insert_eq | discriminate].
Qed.

Lemma foldM_pendingOne_complete s0 l : ∀ acc w acc' w',
  foldM (pendingOne true) l acc w = (Ok acc', w') →
  padded (revsmap s0) (revsmap (y w)) → last (y w) = last s0 →
  (∀ id, revsmap s0 !! id = None → is_Some (revsmap (y w) !! id) → is_Some (acc.2 !! id)) →
  (∀ id, is_Some (revsmap (y w) !! id) → is_Some (revsmap (y w') !! id)) ∧
  (∀ id, is_Some (acc.2 !! id) → is_Some (acc'.2 !! id)) ∧
  (∀ id node, (id, node) ∈ l →
     is_Some (revsmap (y w') !! id) ∧ (notInSync s0 id → is_Some (acc'.2 !! id))) ∧
  (acc'.1 = 0%nat → acc.1 = 0%nat ∧ acc'.2 = acc.2).
Proof.
  induction l as [|kv l IH]; intros acc w acc' w' H Hp Hl HJ; simpl in H.
  - injection H as <- <-. split; [done |]. split; [done |].
    split; [by intros ?? ?%elem_of_nil | done].
  - apply bind_inv_Ok in H as (acc1 & w1 & Hone & H).
    destruct (pendingOne_inv s0 acc kv w acc1 w1 Hone Hp Hl) as ((rm1 & Hw1 & Hp1) & _).
    destruct (pendingOne_complete s0 acc kv w acc1 w1 Hone Hp Hl HJ)
      as (HJ1 & Hrm1 & Hacc1 & Hkv & Hns & Hz1).
    assert (padded (revsmap s0) (revsmap (y w1))) as Hp1' by (by rewrite Hw1).
    assert (last (y w1) = last s0) as Hl1 by (by rewrite Hw1).
    destruct (IH acc1 w1 acc' w' H Hp1' Hl1 HJ1) as (Hrm & Hacc & Hin & Hz).
    split; [intros id Hid; by apply Hrm, Hrm1 |].
    split; [intros id Hid; by apply Hacc, Hacc1 |].
    split.
    + intros id node [Heq | Hin']%elem_of_cons.
      * subst kv. cbn in Hkv, Hns. split; [by apply Hrm |].
        intros Hn. by apply Hacc, Hns.
      * by apply (Hin id node).
    + intros H0. destruct (Hz H0) as [H1 ->]. by apply Hz1.
Qed.

Lemma countNew_zero rm (serverMap : gmap string Snode) :
  (∀ id, is_Some (serverMap !! id) → is_Some (rm !! id)) → countNew rm serverMap = 0%nat.
Proof.
  intros H. unfold countNew.
  destruct (filter _ (map_to_list serverMap)) as [|[k x] l] eqn:E; [done |].
  assert ((k, x) ∈ filter (λ kv : string * Snode, rm !! kv.1 = None)
                          (map_to_list serverMap)) as Hin by (rewrite E; left).
  apply list_elem_of_filter in Hin as [Hnone Hin%elem_of_map_to_list].
  destruct (H k) as [? Hk]; [by eexists |]. cbn in Hnone. congruence.
Qed.

(** X7: on the primary, [pending] finds every node of the cluster map that
    is not in sync with [last]; the count it returns is 0 exactly when the
    map of pending nodes is empty; and after it no node of the cluster map
    counts as a new member. *)
Theorem pending_finds_all env w count pend smap w' :
  pending env true w = (Ok (count, pend, smap), w') →
  isPrimary (smapAt env (gets w)) (self env) = true →
  (∀ id node, Tmap smap !! id = Some node ∨ Pmap smap !! id = Some node →
              notInSync (y w) id → is_Some (pend !! id)) ∧
  (count = 0%nat ↔ pend = ∅) ∧
  countNewMembers (y w') smap = 0%nat.
Proof.
  intros H Hprim.
  pose proof (pending_inv env w count pend smap w' H) as (_ & _ & Hc & _).
  unfold pending in H.
  apply bind_inv_Ok in H as (smap' & w1 & Hget & H).
  unfold smapowner_get in Hget. injection Hget as <- <-.
  rewrite Hprim in H. cbn [negb] in H.
  apply bind_inv_Ok in H as (acc & w2 & Hfold & H). injection H as <- <- <- <-.
  apply (foldM_pendingOne_complete (y w)) in Hfold as (_ & _ & Hin & Hz);
    [| apply padded_refl | done | ].
  2: { cbn. intros id E [x Hx]. congruence. }
  split; [| split].
  - intros id node Hid Hn.
    apply (Hin id node); [| done].
    apply elem_of_app. destruct Hid as [Hid | Hid]; [left | right];
      by apply elem_of_map_to_list.
  - split.
    + intros H0. by destruct (Hz H0) as [_ ->].
    + intros E. destruct Hc as [? | Hne]; [done |]. rewrite E in Hne.
      by rewrite map_size_empty in Hne.
  - unfold countNewMembers.
    rewrite !countNew_zero; [done | |].
    + intros id [node Hid]. apply (Hin id node). apply elem_of_app. right.
      by apply elem_of_map_to_list.
    + intros id [node Hid]. apply (Hin id node). apply elem_of_app. left.
      by apply elem_of_map_to_list.
Qed.

Lemma pending_finds_all_witness :
  countNewMembers (y (pending env_late_T2 true w_sync5).2) (smap_P0_T1_T2 2) = 0%nat.
Proof.
  assert (pending env_late_T2 true w_sync5 =
            (Ok (2%nat, ({["T2" := T2; "P0" := P0]} : gmap string Snode), smap_P0_T1_T2 2),
             (pending env_late_T2 true w_sync5).2)) as H
    by (vm_compute; reflexivity).
  apply (pending_finds_all env_late_T2 w_sync5 _ _ _ _ H).
  vm_compute. reflexivity.
Defined.

(** ** The copy-on-write audit on the metasyncer's own updates *)

Lemma cowAudit_clean s w : cow_clean s → cowAudit s w = (Ok tt, w).
Proof.
  intros Hc. unfold cowAudit.
  assert (∀ kv, kv ∈ map_to_list (last s) →
                ∃ js, marshal kv.2 = Some js ∧ lastclone s !! kv.1 = Some js) as Hall.
  { intros [t r] Hin%elem_of_map_to_list. by apply Hc. }
  induction (map_to_list (last s)) as [|kv l IH]; [done |].
  cbn [forM_]. destruct (Hall kv) as (js & Hm & Hl); [left |].
  assert (cowCheck s kv w = (Ok tt, w)) as Hk.
  { unfold cowCheck. rewrite Hm, Hl. unfold Assert.
    by rewrite bool_decide_eq_true_2. }
  rewrite (bind_Ok _ _ _ _ _ Hk). apply IH. intros kv' Hin. apply Hall. by right.
Qed.

Lemma cow_clean_same s s' :
  last s' = last s → lastclone s' = lastclone s → cow_clean s → cow_clean s'.
Proof. intros Hl Hc H t r. rewrite Hl, Hc. apply H. Qed.

Lemma publish_cow_clean env prs : ∀ acc w built w',
  publish env prs acc w = (Ok built, w') → cow_clean (y w) → cow_clean (y w').
Proof.
  induction prs as [|p prs IH]; intros acc w built w' H Hc; simpl in H.
  - by injection H as <- <-.
  - apply bind_inv_Ok in H as (acc' & w1 & Hone & H).
    apply IH in H; [done |].
    unfold publishOne in Hone. destruct (p_msgInt p); [| discriminate].
    unfold bind, getY, setY in Hone. simpl in Hone.
    destruct (marshal (p_revs p)) as [js|] eqn:Em; [| discriminate].
    injection Hone as <- <-. intros t r. cbn.
    destruct (decide (tag (p_revs p) = t)) as [<- | Hne].
    + rewrite !lookup_insert_eq. intros [= <-]. by exists js.
    + rewrite !lookup_insert_ne by done. apply Hc.
Qed.

Lemma doSync_registry env prs msg w cnt w' :
  doSync env prs msg w = (Ok cnt, w') →
  (last (y w') = last (y w) ∧ lastclone (y w') = lastclone (y w)) ∨
  ∃ pts acc built w1 w2,
    y w1 = y w ∧ publish env pts acc w1 = (Ok built, w2) ∧
    last (y w') = last (y w2) ∧ lastclone (y w') = lastclone (y w2).
Proof.
  intros H. destruct prs as [|rp prs].
  - left. apply doSync_inv_notify, bcastSteps_run in H. cbn zeta in H.
    destruct H as (w3 & rest & w4 & rounds & _ & _ & _ & _ & _ & _ & _ & Hl & Hlc & _ & _ & Hrest).
    destruct rest as [refused|].
    + by destruct Hrest as (_ & _ & _ & ->).
    + by destruct Hrest as (_ & -> & _).
  - apply doSync_inv in H. cbn zeta in H.
    destruct H as [(_ & _ & ->) | (_ & built & w2 & Hpub & H)]; [by left |].
    right. eexists _, _, built, _, w2. split; [| split; [exact Hpub |]]; [done |].
    apply bcastSteps_run in H. cbn zeta in H.
    destruct H as (w3 & rest & w4 & rounds & _ & _ & _ & _ & _ & _ & _ & Hl & Hlc & _ & _ & Hrest).
    destruct rest as [refused|].
    + by destruct Hrest as (_ & _ & _ & ->).
    + by destruct Hrest as (_ & -> & _).
Qed.

Lemma doSync_cow_clean env prs msg w cnt w' :
  doSync env prs msg w = (Ok cnt, w') → cow_clean (y w) → cow_clean (y w').
Proof.
  intros H Hc.
  destruct (doSync_registry env prs msg w cnt w' H)
    as [[Hl Hlc] | (pts & acc & built & w1 & w2 & Hy1 & Hpub & Hl & Hlc)].
  - by apply (cow_clean_same (y w)).
  - apply (cow_clean_same (y w2)); [done | done |].
    apply (publish_cow_clean env pts acc w1 built w2 Hpub). by rewrite Hy1.
Qed.

Lemma handlePending_registry env w cnt w' :
  handlePending env w = (Ok cnt, w') →
  last (y w') = last (y w) ∧ lastclone (y w') = lastclone (y w).
Proof.
  intros H.
  apply handlePending_inv in H as (count & pend & wp & Hpend & H).
  apply pending_inv in Hpend as (_ & (rm' & queue & Hwp & _) & _ & _).
  assert (last (y wp) = last (y w) ∧ lastclone (y wp) = lastclone (y w))
    as [Ht Hs] by (by rewrite Hwp).
  destruct H as [(_ & _ & ->) | (_ & payload & H)]; [done |].
  cbn zeta in H. by destruct H as (_ & _ & ->).
Qed.

(** What one iteration of [Run] that returns went through. *)
Lemma Run_iter_inv env sel w go w' :
  Run_iter env sel w = (Ok go, w') →
  (go = true ∧ w' = w) ∨
  (go = true ∧ ∃ rq queue,
     workCh (y w) = rq :: queue ∧ isNil rq = true ∧
     w' = MkWorld (Metasyncer ∅ ∅ ∅ queue None true) (trace w) (glog w) (gets w) (bcasts w)) ∨
  (go = true ∧ ∃ rq queue cnt w1,
     workCh (y w) = rq :: queue ∧ isNil rq = false ∧
     doSync env (pairs rq) (msgInt rq)
            (MkWorld (set_workCh queue (y w)) (trace w) (glog w) (gets w) (bcasts w))
       = (Ok cnt, w1) ∧
     y w' = (if bool_decide (0 < cnt)%nat && timerStopped (y w1) &&
                bool_decide (0 < length (pairs rq))%nat
             then set_timer (Some (RetrySyncTime (config env))) false (y w1)
             else y w1)) ∨
  (go = true ∧ ∃ d cnt w1,
     retryTimer (y w) = Some d ∧
     handlePending env
       (MkWorld (set_timer None (timerStopped (y w)) (y w)) (trace w) (glog w) (gets w)
                (bcasts w)) = (Ok cnt, w1) ∧
     y w' = (if bool_decide (0 < cnt)%nat
             then set_timer (Some (RetrySyncTime (config env))) false (y w1)
             else set_timer (retryTimer (y w1)) true (y w1))) ∨
  (go = false ∧ sel = SelStop ∧
   w' = MkWorld (set_timer None (timerStopped (y w)) (y w)) (trace w) (glog w) (gets w)
                (bcasts w)).
Proof.
  intros H. destruct sel; simpl in H.
  - apply bind_inv_Ok in H as (s & w1 & Hs & H). unfold getY in Hs. injection Hs as <- <-.
    destruct (workCh (y w)) as [|rq queue] eqn:Ew; [left; by injection H as <- <- |].
    apply bind_inv_Ok in H as ([] & w1 & Hs & H). unfold setY in Hs. injection Hs as <-.
    destruct (isNil rq) eqn:En.
    + right. left. unfold bind, setY, ret in H. injection H as <- <-.
      split; [done |]. by exists rq, queue.
    + right. right. left.
      apply bind_inv_Ok in H as (cnt & w2 & Hd & H).
      apply bind_inv_Ok in H as ([] & w3 & Hwg & H).
      assert (y w3 = y w2) as Hy3.
      { destruct (wg rq); [| by injection Hwg as <-].
        destruct (failedCnt rq); unfold bind, emit, ret in Hwg; by injection Hwg as <-. }
      apply bind_inv_Ok in H as (s & w4 & Hs & H). unfold getY in Hs. injection Hs as <- <-.
      apply bind_inv_Ok in H as ([] & w5 & Ht & H). injection H as <- <-.
      split; [done |]. exists rq, queue, cnt, w2.
      split; [done |]. split; [done |]. split; [done |].
      rewrite Hy3 in Ht.
      destruct (_ && _); unfold setY, ret in Ht; injection Ht as <-; by rewrite ?Hy3.
  - apply bind_inv_Ok in H as (s & w1 & Hs & H). unfold getY in Hs. injection Hs as <- <-.
    destruct (retryTimer (y w)) as [d|] eqn:Et; [| left; by injection H as <- <-].
    right. right. right. left.
    apply bind_inv_Ok in H as ([] & w1 & Hs & H). unfold setY in Hs. injection Hs as <-.
    apply bind_inv_Ok in H as (cnt & w2 & Hh & H).
    apply bind_inv_Ok in H as (s & w4 & Hs & H). unfold getY in Hs. injection Hs as <- <-.
    apply bind_inv_Ok in H as ([] & w5 & Ht & H). injection H as <- <-.
    split; [done |]. exists d, cnt, w2. split; [done |]. split; [done |].
    case_bool_decide; unfold setY in Ht; by injection Ht as <-.
  - unfold bind, getY, setY, ret in H. injection H as <- <-.
    right. right. right. right. done.
Qed.

Lemma Run_iter_cow_clean env sel w go w' :
  Run_iter env sel w = (Ok go, w') → cow_clean (y w) → cow_clean (y w').
Proof.
  intros H Hc. apply Run_iter_inv in H.
  destruct H as [(_ & ->) | [(_ & rq & queue & _ & _ & ->) |
                 [(_ & rq & queue & cnt & w1 & _ & _ & Hd & Hy) |
                  [(_ & d & cnt & w1 & _ & Hh & Hy) | (_ & _ & ->)]]]].
  - done.
  - intros t r. cbn. by rewrite lookup_empty.
  - apply doSync_cow_clean in Hd; [| done]. rewrite Hy.
    destruct (_ && _); [by apply (cow_clean_same (y w1)) | done].
  - apply handlePending_registry in Hh as [Hl Hlc]. rewrite Hy.
    case_bool_decide; by apply (cow_clean_same (y w)).
  - done.
Qed.

Lemma entry_keeps_registry env w w' :
  (∃ wait prs, sync env wait prs w = (Ok tt, w')) ∨
  (∃ wait failed msg, notify env wait failed msg w = (Ok tt, w')) →
  revsmap (y w') = revsmap (y w) ∧ last (y w') = last (y w) ∧
  lastclone (y w') = lastclone (y w) ∧
  retryTimer (y w') = retryTimer (y w) ∧ timerStopped (y w') = timerStopped (y w) ∧
  trace w' = trace w.
Proof.
  assert (∀ b w1, checkPrimary env w = (Ok b, w1) → y w1 = y w ∧ trace w1 = trace w)
    as Hcheck.
  { intros b w1 Hb. unfold checkPrimary, bind, smapowner_get in Hb.
    destruct (isPrimary _ _); injection Hb as <- <-; done. }
  intros [(wait & prs & H) | (wait & failed & msg & H)].
  - unfold sync in H. apply bind_inv_Ok in H as (b & w1 & Hb & H).
    apply Hcheck in Hb as [Hy Htr]. destruct b; simpl in H.
    + apply bind_inv_Ok in H as ([] & w2 & Ha & H). unfold Assert in Ha.
      case_bool_decide; [| discriminate]. injection Ha as <-.
      unfold bind, getY, setY in H. injection H as <-. simpl. by rewrite Hy, Htr.
    + injection H as <-. by rewrite Hy, Htr.
  - unfold notify in H. apply bind_inv_Ok in H as (b & w1 & Hb & H).
    apply Hcheck in Hb as [Hy Htr]. destruct b; simpl in H.
    + unfold bind, getY, setY in H. injection H as <-. simpl. by rewrite Hy, Htr.
    + injection H as <-. by rewrite Hy, Htr.
Qed.

(** X8: in every state that the metasyncer reaches by its own steps,
    [lastclone] holds under every tag of [last] what the object there
    marshals to, and the copy-on-write audit of [doSync] passes and changes
    nothing. *)
Theorem reachable_cow_audit_passes env w :
  reachable env w → cow_clean (y w) ∧ cowAudit (y w) w = (Ok tt, w).
Proof.
  intros Hr. assert (cow_clean (y w)) as Hc; [| split; [done | by apply cowAudit_clean]].
  induction Hr as [w Hr Hl | w wait prs w' _ IH H | w wait failed msg w' _ IH H
                  | w sel go w' _ IH H | w prs msg cnt w' _ IH H | w cnt w' _ IH H].
  - intros t r. by rewrite Hl, lookup_empty.
  - destruct (entry_keeps_registry env w w') as (_ & Hl & Hlc & _); [left; eauto |].
    by apply (cow_clean_same (y w)).
  - destruct (entry_keeps_registry env w w') as (_ & Hl & Hlc & _); [right; eauto |].
    by apply (cow_clean_same (y w)).
  - by apply (Run_iter_cow_clean env sel w go).
  - by apply (doSync_cow_clean env prs msg w cnt).
  - apply handlePending_registry in H as [Hl Hlc]. by apply (cow_clean_same (y w)).
Qed.

Lemma reachable_cow_audit_passes_witness :
  cowAudit (y w_published) w_published = (Ok tt, w_published).
Proof.
  apply (reachable_cow_audit_passes env_steady w_published).
  apply (reach_doSync env_steady w0 [bmd 4 "bmd-v4"] None 0%nat).
  - apply reach_new; reflexivity.
  - vm_compute. reflexivity.
Defined.

(** ** The retry timer and its flag *)

Lemma doSync_timer env prs msg w cnt w' :
  doSync env prs msg w = (Ok cnt, w') →
  retryTimer (y w') = retryTimer (y w) ∧ timerStopped (y w') = timerStopped (y w).
Proof.
  intros H. apply doSync_run in H. cbn zeta in H.
  destruct H as [(_ & _ & _ & ->) | (mth & bdy & nt & w2 & _ & _ & _ & Hrt & Hts & _ & _ & _ & _ & H)];
    [done |].
  apply bcastSteps_run in H. cbn zeta in H.
  destruct H as (w3 & rest & w4 & rounds & _ & _ & _ & _ & _ & _ & _ & _ & _ & Hrt4 & Hts4 & Hrest).
  destruct rest as [refused|].
  - destruct Hrest as (_ & _ & _ & ->). cbn. by rewrite Hrt4, Hts4.
  - destruct Hrest as (_ & -> & _). by rewrite Hrt4, Hts4.
Qed.

(** X9: a turn of the [Run] loop that goes on keeps the flag and the timer
    in step: [timerStopped] is set exactly when the retry timer is not
    armed. *)
Theorem Run_keeps_timer_flag env sel w w' :
  Run_iter env sel w = (Ok true, w') →
  timer_flag_ok (y w) → timer_flag_ok (y w').
Proof.
  intros H [Hto Hfrom]. apply Run_iter_inv in H.
  destruct H as [(_ & ->) | [(_ & rq & queue & _ & _ & ->) |
                 [(_ & rq & queue & cnt & w1 & _ & _ & Hd & Hy) |
                  [(_ & d & cnt & w1 & Hd & Hh & Hy) | (? & _)]]]].
  - done.
  - done.
  - apply doSync_timer in Hd as [Hrt Hts]. cbn in Hrt, Hts. rewrite Hy.
    destruct (_ && _); [done |]. unfold timer_flag_ok. by rewrite Hrt, Hts.
  - apply handlePending_timer in Hh as [Hrt Hts]. cbn in Hrt, Hts. rewrite Hy.
    case_bool_decide; [done |]. unfold timer_flag_ok. cbn. by rewrite Hrt.
  - done.
Qed.

Lemma Run_keeps_timer_flag_witness :
  timer_flag_ok (y (Run_iter env_late_T2 SelWork w_sync5).2).
Proof.
  apply (Run_keeps_timer_flag env_late_T2 SelWork w_sync5
           (Run_iter env_late_T2 SelWork w_sync5).2 ltac:(vm_compute; reflexivity)).
  vm_compute. split; reflexivity.
Defined.

(** X10: when the retry timer fires on a gateway that is no longer the
    primary, nothing is sent. If the work channel has room, the timer is
    left unarmed with the flag set, [revsmap] and [last] stay, and the
    empty request of [becomeNonPrimary] is queued behind what is waiting;
    with nothing else waiting, the next turn takes that request and resets
    the metasyncer to its initial state, again without sending anything.
    If the work channel is full, the turn never ends: [Run] waits in the
    send of [becomeNonPrimary], with the timer fired and the channel as it
    was. *)
Theorem timer_fires_on_nonprimary env w d :
  retryTimer (y w) = Some d →
  isPrimary (smapAt env (gets w)) (self env) = false →
  ((length (workCh (y w)) < workChCap)%nat →
   ∃ w1 w2,
     Run_iter env SelTimer w = (Ok true, w1) ∧
     trace w1 = trace w ∧ bcasts w1 = bcasts w ∧
     retryTimer (y w1) = None ∧ timerStopped (y w1) = true ∧
     revsmap (y w1) = revsmap (y w) ∧ last (y w1) = last (y w) ∧
     workCh (y w1) = (workCh (y w) ++ [RevsReq [] false None false])%list ∧
     (workCh (y w) = [] →
      Run_iter env SelWork w1 = (Ok true, w2) ∧ y w2 = newmetasyncer ∧
      trace w2 = trace w)) ∧
  ((workChCap ≤ length (workCh (y w)))%nat →
   ∃ w1,
     Run_iter env SelTimer w = (Blocked, w1) ∧
     trace w1 = trace w ∧ bcasts w1 = bcasts w ∧
     retryTimer (y w1) = None ∧ workCh (y w1) = workCh (y w) ∧
     revsmap (y w1) = revsmap (y w) ∧ last (y w1) = last (y w)).
Proof.
  intros Ht Hp.
  assert (∀ b : bool,
            bool_decide (length (workCh (y w)) < workChCap)%nat = b →
            Run_iter env SelTimer w =
              if b then
                (Ok true,
                 MkWorld (Metasyncer (revsmap (y w)) (last (y w)) (lastclone (y w))
                                     (workCh (y w) ++ [RevsReq [] false None false])
                                     None true)
                         (trace w) (glog w ++ ["becoming non-primary"])
                         (S (gets w)) (bcasts w))
              else
                (Blocked,
                 MkWorld (set_timer None (timerStopped (y w)) (y w))
                         (trace w) (glog w) (S (gets w)) (bcasts w))) as Hrun.
  { intros b Hb. unfold Run_iter.
    unfold bind at 1. unfold getY at 1. cbn [y]. rewrite Ht.
    unfold bind at 1. unfold setY at 1.
    unfold handlePending, pending. unfold bind at 1 2 3. unfold smapowner_get. cbn [gets].
    rewrite Hp. cbn [negb]. unfold bind at 1. rewrite becomeNonPrimary_run.
    cbn [y workCh set_timer]. rewrite Hb. by destruct b. }
  split.
  - intros Hroom. rewrite (Hrun true) by (by apply bool_decide_eq_true_2).
    eexists _, _. split; [reflexivity |]. cbn.
    repeat (split; [reflexivity |]).
    intros ->. cbn. split; [reflexivity |]. done.
  - intros Hfull. rewrite (Hrun false) by (apply bool_decide_eq_false_2; lia).
    eexists. split; [reflexivity |]. done.
Qed.

Lemma timer_fires_on_nonprimary_witness :
  ∃ w1 w2,
    Run_iter env_bail SelTimer
      (MkWorld (Metasyncer ∅ ∅ ∅ [] (Some 5000) false) [] [] 1 0) = (Ok true, w1) ∧
    retryTimer (y w1) = None ∧ timerStopped (y w1) = true ∧
    Run_iter env_bail SelWork w1 = (Ok true, w2) ∧ y w2 = newmetasyncer.
Proof.
  destruct (proj1 (timer_fires_on_nonprimary env_bail
              (MkWorld (Metasyncer ∅ ∅ ∅ [] (Some 5000) false) [] [] 1 0) 5000
              ltac:(reflexivity) ltac:(vm_compute; reflexivity))
              ltac:(vm_compute; lia))
    as (w1 & w2 & Hrun & _ & _ & Hrt & Hts & _ & _ & _ & Hnext).
  destruct (Hnext ltac:(reflexivity)) as (Hrun2 & Hy2 & _).
  exists w1, w2. done.
Defined.

(** ** The order in which the results of a broadcast arrive *)

Lemma foldl_comm_perm {A B} (f : A → B → A) (l l' : list B) :
  l ≡ₚ l' →
  (∀ a x x', x ∈ l → x' ∈ l → f (f a x) x' = f (f a x') x) →
  ∀ a, foldl f a l = foldl f a l'.
Proof.
  induction 1 as [|x l l' Hp IH|x x' l|l l' l'' Hp1 IH1 Hp2 IH2]; intros Hc a.
  - done.
  - cbn. apply IH. intros a' z z' Hz Hz'. apply Hc; by right.
  - cbn. f_equal. apply Hc; [left | right; left].
  - rewrite IH1 by done. apply IH2.
    intros a' z z' Hz Hz'. apply Hc; by rewrite Hp1.
Qed.

Lemma syncDone_comm id id' prs rm :
  syncDone id prs (syncDone id' prs rm) = syncDone id' prs (syncDone id prs rm).
Proof.
  destruct (decide (id = id')) as [-> | Hne]; [done |].
  unfold syncDone. rewrite !lookup_insert_ne by done. by apply insert_insert_ne.
Qed.

Lemma classifyOne_comm nt prs acc r r' :
  (DaemonID (si r) = DaemonID (si r') → si r = si r') →
  classifyOne nt prs (classifyOne nt prs acc r) r'
  = classifyOne nt prs (classifyOne nt prs acc r') r.
Proof.
  intros Hsame. destruct acc as [[rm rf] c]. unfold classifyOne.
  assert (<[DaemonID (si r') := si r']> (<[DaemonID (si r) := si r]> rf)
          = <[DaemonID (si r) := si r]> (<[DaemonID (si r') := si r']> rf)) as Hins.
  { destruct (decide (DaemonID (si r) = DaemonID (si r'))) as [E | Hne].
    - by rewrite (Hsame E).
    - by apply insert_insert_ne. }
  destruct (err r), (err r'); cbn;
    repeat (case_bool_decide; cbn); rewrite ?Hins, ?(syncDone_comm (DaemonID (si r'))); done.
Qed.

Lemma refusedOne_comm prs acc r r' :
  refusedOne prs (refusedOne prs acc r) r' = refusedOne prs (refusedOne prs acc r') r.
Proof.
  destruct acc as [rm rf]. unfold refusedOne.
  destruct (err r), (err r'); cbn; try done.
  by rewrite (syncDone_comm (DaemonID (si r'))), delete_delete.
Qed.

Lemma pendingResult_comm prs acc r r' :
  pendingResult prs (pendingResult prs acc r) r'
  = pendingResult prs (pendingResult prs acc r') r.
Proof.
  destruct acc as [rm c]. unfold pendingResult.
  destruct (err r), (err r'); cbn; try done.
  by rewrite (syncDone_comm (DaemonID (si r'))).
Qed.

(** X11: what the metasyncer computes from the results of a broadcast does
    not depend on the order in which the results arrive: the three folds
    over the results (of [doSync], [handleRefused] and [handlePending])
    give the same on every permutation, provided that results under the
    same node id carry the same node. *)
Theorem results_order_irrelevant nt prs (res res' : list callResult) :
  res ≡ₚ res' →
  (∀ r r', r ∈ res → r' ∈ res → DaemonID (si r) = DaemonID (si r') → si r = si r') →
  (∀ acc, foldl (classifyOne nt prs) acc res = foldl (classifyOne nt prs) acc res') ∧
  (∀ acc, foldl (refusedOne prs) acc res = foldl (refusedOne prs) acc res') ∧
  (∀ acc, foldl (pendingResult prs) acc res = foldl (pendingResult prs) acc res').
Proof.
  intros Hp Hsame. split; [| split].
  - apply foldl_comm_perm; [done |]. intros acc r r' Hr Hr'.
    apply classifyOne_comm. by apply Hsame.
  - apply foldl_comm_perm; [done |]. intros acc r r' _ _. apply refusedOne_comm.
  - apply foldl_comm_perm; [done |]. intros acc r r' _ _. apply pendingResult_comm.
Qed.

Lemma results_order_irrelevant_witness :
  foldl (classifyOne "" [bmd 1 "bmd-v1"]) (∅, ∅, 0%nat)
        [CallResult T1 NoErr; CallResult T2 ErrRefused]
  = foldl (classifyOne "" [bmd 1 "bmd-v1"]) (∅, ∅, 0%nat)
          [CallResult T2 ErrRefused; CallResult T1 NoErr].
Proof.
  apply (results_order_irrelevant "" [bmd 1 "bmd-v1"]
           [CallResult T1 NoErr; CallResult T2 ErrRefused]
           [CallResult T2 ErrRefused; CallResult T1 NoErr]).
  - apply perm_swap.
  - intros r r' Hr Hr'.
    apply elem_of_cons in Hr as [-> | Hr%list_elem_of_singleton];
      apply elem_of_cons in Hr' as [-> | Hr'%list_elem_of_singleton];
      subst; cbn; (done || discriminate).
Defined.

(** ** What a sync puts on the wire *)

Lemma string_app_length (s1 s2 : string) :
  String.length (s1 +:+ s2) = (String.length s1 + String.length s2)%nat.
Proof. induction s1 as [|a s1 IH]; [done |]. simpl. by rewrite IH. Qed.

Lemma string_app_inv_tail (s1 s2 s : string) : s1 +:+ s = s2 +:+ s → s1 = s2.
Proof.
  revert s2. induction s1 as [|a s1 IH]; intros [|b s2] H; simpl in H.
  - done.
  - apply (f_equal String.length) in H. rewrite ?string_app_length in H. simpl in H.
    rewrite ?string_app_length in H. lia.
  - apply (f_equal String.length) in H. rewrite ?string_app_length in H. simpl in H.
    rewrite ?string_app_length in H. lia.
  - injection H as -> H. f_equal. by apply IH.
Qed.

Lemma publishOne_inv env p acc w acc' w' :
  publishOne env p acc w = (Ok acc', w') →
  ∃ m js,
    p_msgInt p = Some m ∧ marshal (p_revs p) = Some js ∧
    acc'.1 = <[tag (p_revs p) ++ actiontag := WAction m]>
               (<[tag (p_revs p) := WRevs js]> acc.1) ∧
    lastclone (y w') = <[tag (p_revs p) := js]> (lastclone (y w)).
Proof.
  intros H. unfold publishOne in H. destruct (p_msgInt p) as [m|]; [| discriminate].
  unfold bind, getY, setY in H. simpl in H.
  destruct (marshal (p_revs p)) as [js|]; [| discriminate].
  injection H as <- <-. by exists m, js.
Qed.

Lemma publish_payload env prs : ∀ acc w built w',
  publish env prs acc w = (Ok built, w') →
  NoDup (tag ∘ p_revs <$> prs) →
  (∀ p p', p ∈ prs → p' ∈ prs → tag (p_revs p) ≠ tag (p_revs p') ++ actiontag) →
  (∀ p, p ∈ prs →
     ∃ js m, marshal (p_revs p) = Some js ∧ p_msgInt p = Some m ∧
             built.1 !! tag (p_revs p) = Some (WRevs js) ∧
             built.1 !! (tag (p_revs p) ++ actiontag) = Some (WAction m) ∧
             lastclone (y w') !! tag (p_revs p) = Some js) ∧
  (∀ k, (∀ p, p ∈ prs → k ≠ tag (p_revs p) ∧ k ≠ tag (p_revs p) ++ actiontag) →
        built.1 !! k = acc.1 !! k) ∧
  (∀ t, (∀ p, p ∈ prs → t ≠ tag (p_revs p)) →
        lastclone (y w') !! t = lastclone (y w) !! t).
Proof.
  induction prs as [|p prs IH]; intros acc w built w' H Hnd Hcol; simpl in H.
  - injection H as <- <-. split; [by intros p ?%elem_of_nil |]. done.
  - apply bind_inv_Ok in H as (acc1 & w1 & Hone & H).
    apply publishOne_inv in Hone as (m & js & Hm & Hjs & Hacc1 & Hlc1).
    rewrite fmap_cons in Hnd. apply NoDup_cons in Hnd as [Hnotin Hnd].
    assert (∀ p', p' ∈ prs → tag (p_revs p) ≠ tag (p_revs p')) as Hfresh.
    { intros p' Hp' E. apply Hnotin. apply list_elem_of_fmap. exists p'. split; [exact E | done]. }
    destruct (IH acc1 w1 built w' H Hnd) as (Hin & Hframe & Hlcframe).
    { intros q q' Hq Hq'. apply Hcol; by right. }
    split; [| split].
    + intros q [-> | Hq]%elem_of_cons; [| by apply Hin].
      exists js, m. split; [done |]. split; [done |].
      assert (built.1 !! tag (p_revs p) = acc1.1 !! tag (p_revs p)) as E1.
      { apply Hframe. intros p' Hp'. split; [by apply Hfresh |].
        apply Hcol; [by left | by right]. }
      assert (built.1 !! (tag (p_revs p) ++ actiontag)
              = acc1.1 !! (tag (p_revs p) ++ actiontag)) as E2.
      { apply Hframe. intros p' Hp'. split.
        - intros E. apply (Hcol p' p); [by right | by left | done].
        - intros E%string_app_inv_tail. by apply (Hfresh p'). }
      assert (lastclone (y w') !! tag (p_revs p) = lastclone (y w1) !! tag (p_revs p)) as E3.
      { apply Hlcframe. intros p' Hp'. by apply Hfresh. }
      rewrite E1, E2, E3, Hacc1, Hlc1.
      rewrite lookup_insert_ne, !lookup_insert_eq; [done |].
      intros E. apply (Hcol p p); [by left | by left | done].
    + intros k Hk. rewrite Hframe by (intros p' Hp'; apply Hk; by right).
      rewrite Hacc1. destruct (Hk p) as [Hk1 Hk2]; [by left |].
      by rewrite !lookup_insert_ne.
    + intros t Ht. rewrite Hlcframe by (intros p' Hp'; apply Ht; by right).
      rewrite Hlc1. rewrite lookup_insert_ne; [done |]. intros E. apply (Ht p); [by left | done].
Qed.

Lemma publish_keys env prs : ∀ acc w built w',
  publish env prs acc w = (Ok built, w') →
  ∀ k, is_Some (built.1 !! k) →
       is_Some (acc.1 !! k) ∨
       ∃ p, p ∈ prs ∧ (k = tag (p_revs p) ∨ k = tag (p_revs p) ++ actiontag).
Proof.
  induction prs as [|p prs IH]; intros acc w built w' H k Hk; simpl in H.
  - injection H as <- <-. by left.
  - apply bind_inv_Ok in H as (acc1 & w1 & Hone & H).
    apply publishOne_inv in Hone as (m & js & _ & _ & Hacc1 & _).
    destruct (IH acc1 w1 built w' H k Hk) as [H1 | (q & Hq & Hkq)].
    + rewrite Hacc1 in H1.
      destruct (decide (k = tag (p_revs p) ++ actiontag)) as [-> | Hn1];
        [right; exists p; split; [left | by right] |].
      destruct (decide (k = tag (p_revs p))) as [-> | Hn2];
        [right; exists p; split; [left | by left] |].
      left. by rewrite !lookup_insert_ne in H1.
    + right. exists q. split; [by right | done].
Qed.

(** X12: the first thing a sync with a pair left to send does to the
    outside is one PUT to the metasync path, over the intra-control
    network, to the gateways and the targets of the cluster map, with
    twice the control-plane timeout. Its payload holds, for every pair
    sent, the marshalled object under the tag and the message under the
    tag with the action suffix, and nothing else; the same marshalled
    objects are in [lastclone] afterwards, and [last] is updated with the
    pairs sent. (The tags of the pairs are distinct and none is another
    one's action key; the cluster map is not empty.) *)
Theorem doSync_first_broadcast env prs w cnt w' :
  doSync env prs None w = (Ok cnt, w') →
  pairsToSend env prs w ≠ [] →
  NoDup (tag ∘ p_revs <$> pairsToSend env prs w) →
  (∀ p p', p ∈ pairsToSend env prs w → p' ∈ pairsToSend env prs w →
           tag (p_revs p) ≠ tag (p_revs p') ++ actiontag) →
  nodeCount [Pmap (smapAt env (gets w)); Tmap (smapAt env (gets w))] ≠ 0%nat →
  ∃ payload rest,
    trace w' =
      (trace w ++
       EvBcast (BcastCallArgs (ReqArgs MethodPut (metasyncPath env) (BodyPayload payload))
                              NetworkIntraControl
                              (wrap64 (CplaneOperation (config env) * 2))
                              [Pmap (smapAt env (gets w)); Tmap (smapAt env (gets w))])
               (DaemonID <$> bcastPeers env [Pmap (smapAt env (gets w));
                                             Tmap (smapAt env (gets w))]) :: rest)%list ∧
    last (y w') = asMap (pairsToSend env prs w) ∪ last (y w) ∧
    (∀ p, p ∈ pairsToSend env prs w →
       ∃ js m, marshal (p_revs p) = Some js ∧ p_msgInt p = Some m ∧
               payload !! tag (p_revs p) = Some (WRevs js) ∧
               payload !! (tag (p_revs p) ++ actiontag) = Some (WAction m) ∧
               lastclone (y w') !! tag (p_revs p) = Some js) ∧
    (∀ k, is_Some (payload !! k) →
          ∃ p, p ∈ pairsToSend env prs w ∧
               (k = tag (p_revs p) ∨ k = tag (p_revs p) ++ actiontag)).
Proof.
  intros H Hne Hnd Hcol Hnodes.
  destruct prs as [|rp prs]; [done |].
  apply doSync_inv in H. cbn zeta in H.
  set (pts := pairsToSend env (rp :: prs) w) in *.
  set (smap := smapAt env (gets w)) in *.
  destruct H as [(Hnil & _) | (_ & built & w2 & Hpub & H)]; [done |].
  pose proof (publish_inv env pts _ _ _ _ Hpub) as (Hl2 & _ & _ & _ & _ & Htr2 & _ & _).
  pose proof (publish_payload env pts _ _ _ _ Hpub Hnd Hcol) as (Hin & Hframe & _).
  destruct (firstBcast_run env MethodPut (BodyPayload built.1) pts built.2 smap w2)
    as (w3' & Hf' & _ & _ & Htr3').
  apply bcastSteps_run in H. cbn zeta in H.
  destruct H as (w3 & rest & w4 & rounds & Hf & _ & _ & _ & _ & Htr4 & _ & Hl4 & Hlc4 & _ & _ & Hrest).
  rewrite Hf' in Hf. injection Hf as <-.
  destruct Htr3' as [(_ & _ & Hz) | [Htr3 _]]; [done |].
  assert (trace w' = trace w4 ∧ last (y w') = last (y w4) ∧
          lastclone (y w') = lastclone (y w4)) as (Htr' & Hl' & Hlc').
  { destruct rest as [refused|].
    - by destruct Hrest as (_ & _ & _ & ->).
    - by destruct Hrest as (_ & -> & _). }
  exists built.1, (rounds ≫= roundEvents env MethodPut (metasyncPath env) (BodyPayload built.1)).
  split; [| split; [| split]].
  - rewrite Htr', Htr4, Htr3, Htr2. cbn. by rewrite <- (assoc_L (++)).
  - rewrite Hl', Hl4, Hl2. cbn. apply foldl_insert_union.
  - intros p Hp. destruct (Hin p Hp) as (js & m & ? & ? & ? & ? & ?).
    exists js, m. by rewrite Hlc', Hlc4.
  - intros k Hk.
    destruct (publish_keys env pts _ _ _ _ Hpub k Hk) as [[x Hx] | Hex]; [| done].
    cbn in Hx. by rewrite lookup_empty in Hx.
Qed.

Lemma doSync_first_broadcast_witness :
  ∃ payload rest,
    trace (doSync env_steady [bmd 1 "bmd-v1"] None w0).2 =
      (trace w0 ++
       EvBcast (BcastCallArgs
                  (ReqArgs MethodPut (metasyncPath env_steady) (BodyPayload payload))
                  NetworkIntraControl 2000 [Pmap (smap_P0_T1 1); Tmap (smap_P0_T1 1)])
               ["T1"] :: rest)%list ∧
    payload !! bucketmdtag = Some (WRevs "bmd-v1").
Proof.
  destruct (doSync_first_broadcast env_steady [bmd 1 "bmd-v1"] w0 0%nat
              (doSync env_steady [bmd 1 "bmd-v1"] None w0).2
              ltac:(vm_compute; reflexivity) ltac:(vm_compute; discriminate)
              ltac:(vm_compute; apply NoDup_singleton))
    as (payload & rest & Htr & _ & Hin & _).
  - intros p p' Hp Hp'. vm_compute in Hp, Hp'.
    apply list_elem_of_singleton in Hp as ->. apply list_elem_of_singleton in Hp' as ->.
    vm_compute. discriminate.
  - vm_compute. discriminate.
  - exists payload, rest. split; [exact Htr |].
    destruct (Hin (bmd 1 "bmd-v1") ltac:(vm_compute; left)) as (js & m & Hjs & _ & Hp & _).
    cbn in Hjs. injection Hjs as <-. exact Hp.
Defined.

(** ** The values written to the delivery state *)

Lemma sameRecords_refl rm : sameRecords rm rm.
Proof. done. Qed.

Lemma sameRecords_trans rm1 rm2 rm3 :
  sameRecords rm1 rm2 → sameRecords rm2 rm3 → sameRecords rm1 rm3.
Proof. intros H1 H2 id t. by rewrite H1. Qed.

Lemma writeVer_lookup rm wr id t :
  writeVer rm wr !! id ≫= (.!! t) =
    if bool_decide (wr.1 = (id, t)) then Some wr.2 else rm !! id ≫= (.!! t).
Proof.
  destruct wr as [[sid t0] v]. unfold writeVer. cbn [fst snd].
  destruct (decide (sid = id)) as [-> | Hne].
  - rewrite lookup_insert_eq. cbn.
    destruct (decide (t0 = t)) as [-> | Hnt].
    + rewrite lookup_insert_eq. by rewrite bool_decide_eq_true_2.
    + rewrite lookup_insert_ne by done.
      rewrite bool_decide_eq_false_2 by congruence.
      by destruct (rm !! id).
  - rewrite lookup_insert_ne by done.
    by rewrite bool_decide_eq_false_2 by congruence.
Qed.

Lemma writeVer_same rm rm' wr :
  sameRecords rm rm' → sameRecords (writeVer rm wr) (writeVer rm' wr).
Proof. intros H id t. rewrite !writeVer_lookup. by rewrite H. Qed.

Lemma foldl_writeVer_same ws : ∀ rm rm',
  sameRecords rm rm' → sameRecords (foldl writeVer rm ws) (foldl writeVer rm' ws).
Proof.
  induction ws as [|wr ws IH]; intros rm rm' H; [done |].
  cbn [foldl]. by apply IH, writeVer_same.
Qed.

Lemma syncDone_nil sid rm : sameRecords (syncDone sid [] rm) rm.
Proof.
  intros id t. unfold syncDone, recordPairs. cbn.
  destruct (decide (sid = id)) as [-> | Hne].
  - rewrite lookup_insert_eq. cbn. by destruct (rm !! id).
  - by rewrite lookup_insert_ne.
Qed.

Lemma syncDone_cons sid p prs rm :
  syncDone sid (p :: prs) rm
  = syncDone sid prs (writeVer rm (sid, tag (p_revs p), version (p_revs p))).
Proof.
  unfold syncDone, writeVer, recordPairs. cbn [foldl fst snd].
  rewrite lookup_insert_eq. cbn [default]. by rewrite insert_insert_eq.
Qed.

(** [syncDone] is its assignments, one after the other. *)
Lemma syncDone_replay sid prs : ∀ rm rm',
  sameRecords rm rm' →
  sameRecords (syncDone sid prs rm) (foldl writeVer rm' (syncDoneWrites sid prs)).
Proof.
  induction prs as [|p prs IH]; intros rm rm' H.
  - cbn. eapply sameRecords_trans; [apply syncDone_nil | done].
  - rewrite syncDone_cons.
    change (syncDoneWrites sid (p :: prs))
      with ((sid, tag (p_revs p), version (p_revs p)) :: syncDoneWrites sid prs).
    cbn [foldl]. by apply IH, writeVer_same.
Qed.

Lemma loopWrites_cons prs r res :
  loopWrites prs (r :: res)
  = (match err r with
     | NoErr => syncDoneWrites (DaemonID (si r)) prs
     | _ => []
     end ++ loopWrites prs res)%list.
Proof. done. Qed.

(** The three loops over the results leave what their assignments, one
    after the other, leave. *)
Lemma classify_replay nt prs res : ∀ rm rm' (rf : gmap string Snode) c,
  sameRecords rm rm' →
  sameRecords (foldl (classifyOne nt prs) (rm, rf, c) res).1.1
              (foldl writeVer rm' (loopWrites prs res)).
Proof.
  induction res as [|r res IH]; intros rm rm' rf c H; [done |].
  rewrite loopWrites_cons, foldl_app. cbn [foldl].
  destruct (classifyOne nt prs (rm, rf, c) r) as [[rm1 rf1] c1] eqn:E.
  apply IH. unfold classifyOne in E.
  destruct (err r); cbn in E.
  - case_bool_decide as Hlen; simplify_eq.
    + by apply syncDone_replay.
    + destruct prs; [done | cbn in Hlen; lia].
  - by simplify_eq.
  - case_bool_decide; by simplify_eq.
Qed.

Lemma refused_replay prs res : ∀ rm rm' (rf : gmap string Snode),
  sameRecords rm rm' →
  sameRecords (foldl (refusedOne prs) (rm, rf) res).1
              (foldl writeVer rm' (loopWrites prs res)).
Proof.
  induction res as [|r res IH]; intros rm rm' rf H; [done |].
  rewrite loopWrites_cons, foldl_app. cbn [foldl].
  unfold refusedOne at 2. destruct (err r); cbn [fst snd]; apply IH; try done.
  by apply syncDone_replay.
Qed.

Lemma pending_replay prs res : ∀ rm rm' c,
  sameRecords rm rm' →
  sameRecords (foldl (pendingResult prs) (rm, c) res).1
              (foldl writeVer rm' (loopWrites prs res)).
Proof.
  induction res as [|r res IH]; intros rm rm' c H; [done |].
  rewrite loopWrites_cons, foldl_app. cbn [foldl].
  unfold pendingResult at 2. destruct (err r); cbn [fst snd]; apply IH; try done.
  by apply syncDone_replay.
Qed.

(** Every value written is the version of one of the pairs. *)
Lemma writtenTo_loopWrites id t prs res v :
  v ∈ writtenTo id t (loopWrites prs res) →
  ∃ p, p ∈ prs ∧ tag (p_revs p) = t ∧ version (p_revs p) = v.
Proof.
  unfold writtenTo. intros ([[sid t0] v0] & Hin & Hv)%list_elem_of_omap.
  cbn in Hv. case_bool_decide as E; [| done]. injection Hv as ->. injection E as -> ->.
  unfold loopWrites in Hin. apply list_elem_of_bind in Hin as (r & Hin & _).
  destruct (err r); [| by apply elem_of_nil in Hin..].
  unfold syncDoneWrites in Hin. apply list_elem_of_fmap in Hin as (p & E & Hp).
  injection E as _ -> ->. by exists p.
Qed.

Lemma nondecreasing_const (old : option Z) (ws : list Z) (V : Z) :
  (∀ v, old = Some v → v ≤ V) → (∀ v, v ∈ ws → v = V) →
  nondecreasing (option_list old ++ ws).
Proof.
  intros Hold Hws.
  assert (∀ k v, (option_list old ++ ws)%list !! k = Some v →
                 (k = 0%nat ∧ old = Some v) ∨ v = V) as Hcase.
  { intros k v Hk. apply lookup_app_Some in Hk as [Hk | [_ Hk]].
    - destruct old as [o|]; [| done]. left.
      destruct k; cbn in Hk; [by injection Hk as -> | done].
    - right. apply Hws. by eapply list_elem_of_lookup_2. }
  intros i j v v' Hij Hi Hj.
  destruct (Hcase i v Hi) as [[-> Ho] | ->], (Hcase j v' Hj) as [[-> Ho'] | ->].
  - assert (v = v') by congruence. lia.
  - by apply Hold.
  - assert (i = 0%nat) as -> by lia. assert (V = v') by congruence. lia.
  - lia.
Qed.

(** With pairs of distinct tags that are in the registry, no assignment of
    a loop lowers what is recorded. *)
Lemma loopWrites_nondecreasing lst rm prs res id t :
  within lst rm → asMap prs ⊆ lst → NoDup (tag ∘ p_revs <$> prs) →
  nondecreasing (option_list (rm !! id ≫= (.!! t)) ++
                 writtenTo id t (loopWrites prs res)).
Proof.
  intros Hw Hsub Hnd. apply (nondecreasing_const _ _ (versionIn lst t)).
  - intros v Hv. destruct (rm !! id) as [vm|] eqn:Eid; [| done]. cbn in Hv.
    by apply (Hw id vm t v).
  - intros v Hv. apply writtenTo_loopWrites in Hv as (p & Hp & <- & <-).
    unfold versionIn.
    by rewrite (lookup_weaken _ _ _ _ (asMap_NoDup prs p Hnd Hp) Hsub).
Qed.

(** C2, as the code has it. (1) The metasyncer is consistent in every world
    it can reach (every entry of [last] sits under its tag, no peer is
    recorded beyond [last]). (2) From a consistent metasyncer, after any
    number of calls of [doSync], [handlePending] and [handleRefused] (with
    pairs that are in [last], as [doSync] calls it), in any order, the
    metasyncer is consistent and no peer has, for any tag, a lower version
    recorded than it had at the start, also when the peer's entry was
    dropped and made again in between. (3) What each of the three loops
    over the results of a broadcast leaves recorded is what its
    assignments leave, made one after the other: for every call that
    succeeded, the version of each pair in the order of the pairs.
    (4) When the pairs are in the registry and carry distinct tags, the
    version recorded before and then the values such a loop writes for a
    peer and a tag never go down. (5) This is so for step 4 of [doSync]
    whenever the pairs it sends carry distinct tags, and (6) for the pairs
    that [handlePending] makes of the registry. *)
Theorem delivered_versions_never_decrease env :
  (∀ w, reachable env w → consistent (y w)) ∧
  (∀ w w', consistent (y w) → rtc (metasync_op env) w w' →
     consistent (y w') ∧
     ∀ id t v v', delivered w id t = Some v → delivered w' id t = Some v' → v ≤ v') ∧
  (∀ nt prs res rm (rf : gmap string Snode) c,
     sameRecords (foldl (classifyOne nt prs) (rm, rf, c) res).1.1
                 (foldl writeVer rm (loopWrites prs res)) ∧
     sameRecords (foldl (refusedOne prs) (rm, rf) res).1
                 (foldl writeVer rm (loopWrites prs res)) ∧
     sameRecords (foldl (pendingResult prs) (rm, c) res).1
                 (foldl writeVer rm (loopWrites prs res))) ∧
  (∀ lst rm prs res id t,
     within lst rm → asMap prs ⊆ lst → NoDup (tag ∘ p_revs <$> prs) →
     nondecreasing (option_list (rm !! id ≫= (.!! t)) ++
                    writtenTo id t (loopWrites prs res))) ∧
  (∀ prs w,
     consistent (y w) → NoDup (tag ∘ p_revs <$> pairsToSend env prs w) →
     writes_never_decrease env prs w) ∧
  (∀ w m res id t,
     consistent (y w) →
     nondecreasing (option_list (delivered w id t) ++
                    writtenTo id t
                      (loopWrites (pairsOfLast m (map_to_list (last (y w)))) res))).
Proof.
  split; [apply reachable_consistent |]. split; [| split; [| split; [| split]]].
  - intros w w' Hc Hsteps.
    destruct (metasync_ops_never_lower env w w' Hsteps Hc) as (Hc' & _ & Hnl). done.
  - intros nt prs res rm rf c.
    split; [by apply classify_replay |].
    split; [by apply refused_replay | by apply pending_replay].
  - intros lst rm prs res id t. apply loopWrites_nondecreasing.
  - intros prs w [Hk Hw] Hnd id t.
    apply (loopWrites_nondecreasing (asMap (pairsToSend env prs w) ∪ last (y w)));
      [| apply map_union_subseteq_l | done].
    apply within_last_within in Hw.
    intros id' vm t' v Hid Hv. specialize (Hw id' vm t' v Hid Hv).
    pose proof (versionIn_union_mono (last (y w)) (pairsToSend env prs w)
                  (pairsToSend_Forall env prs w) t') as Hmono.
    unfold versionIn, lversion in *. lia.
  - intros w m res id t [Hk Hw].
    apply (loopWrites_nondecreasing (last (y w)));
      [by apply within_last_within | by apply asMap_pairsOfLast_sub
      | by apply last_tags_NoDup].
Qed.

Lemma delivered_versions_never_decrease_witness :
  delivered w_published "T1" bucketmdtag = Some 4 ∧
  delivered (doSync env_steady [bmd 5 "bmd-v5"] None w_published).2 "T1" bucketmdtag = Some 5 ∧
  writtenTo "T1" bucketmdtag
    (loopWrites (pairsToSend env_steady [bmd 5 "bmd-v5"] w_published)
                (firstResults env_steady w_published)) = [5] ∧
  4 ≤ 5.
Proof.
  assert (delivered w_published "T1" bucketmdtag = Some 4) as H4
    by (vm_compute; reflexivity).
  assert (delivered (doSync env_steady [bmd 5 "bmd-v5"] None w_published).2
                    "T1" bucketmdtag = Some 5) as H5
    by (vm_compute; reflexivity).
  assert (writtenTo "T1" bucketmdtag
            (loopWrites (pairsToSend env_steady [bmd 5 "bmd-v5"] w_published)
                        (firstResults env_steady w_published)) = [5]) as Hw
    by (vm_compute; reflexivity).
  split; [exact H4 |]. split; [exact H5 |]. split; [exact Hw |].
  destruct (delivered_versions_never_decrease env_steady)
    as (Hreach & _ & _ & _ & Hstep4 & _).
  assert (reachable env_steady w_published) as Hr.
  { apply (reach_doSync env_steady w0 [bmd 4 "bmd-v4"] None 0%nat).
    - apply reach_new; reflexivity.
    - vm_compute. reflexivity. }
  assert (pairsToSend env_steady [bmd 5 "bmd-v5"] w_published = [bmd 5 "bmd-v5"]) as Hpts
    by (vm_compute; reflexivity).
  pose proof (Hstep4 [bmd 5 "bmd-v5"] w_published (Hreach _ Hr)
                ltac:(rewrite Hpts; apply NoDup_singleton) "T1" bucketmdtag) as Hnd.
  rewrite H4, Hw in Hnd.
  exact (Hnd 0%nat 1%nat 4 5 ltac:(lia) eq_refl eq_refl).
Defined.

(** C2, as stated, fails when the pairs repeat a tag: given the bucket
    metadata of version 7 and then of version 6, with version 4
    synchronized, both pass the filter of [doSync], and for the target T1,
    whose call succeeds, [syncDone] writes 7 and then 6. *)
Lemma repeated_tag_writes_decrease :
  ¬ writes_never_decrease env_steady [bmd 7 "bmd-v7"; bmd 6 "bmd-v6"] w_published.
Proof.
  intros H.
  specialize (H "T1" bucketmdtag 1%nat 2%nat 7 6 ltac:(lia)
                ltac:(vm_compute; reflexivity) ltac:(vm_compute; reflexivity)).
  lia.
Qed.

(** ** [handlePending] on the primary *)

Lemma inSyncCheck_total lst (vm : gmap string Z) w :
  (∀ t r v, (t, r) ∈ lst → vm !! t = Some v → v ≤ version r) →
  ∃ b, inSyncCheck lst vm w = (Ok b, w).
Proof.
  induction lst as [|[t r] lst IH]; intros Hle; simpl; [by eexists |].
  destruct (vm !! t) as [v|] eqn:Ev; [| by eexists].
  case_bool_decide as Hv.
  - apply IH. intros t' r' v' Hin. apply Hle. by right.
  - unfold bind, Assert. rewrite bool_decide_eq_true_2; [by eexists |].
    specialize (Hle t r v ltac:(left) Ev). lia.
Qed.

Lemma pendingOne_total needMap acc kv w :
  within_last (y w) →
  ∃ acc' w', pendingOne needMap acc kv w = (Ok acc', w') ∧
             last (y w') = last (y w) ∧ within_last (y w').
Proof.
  intros Hw. unfold pendingOne, bind, getY.
  destruct (revsmap (y w) !! kv.1) as [rvd|] eqn:Erm.
  - destruct (inSyncCheck_total (map_to_list (last (y w))) rvd w) as [b ->].
    + intros t r v Hin Hv. apply elem_of_map_to_list in Hin.
      specialize (Hw kv.1 rvd t v Erm Hv). unfold lversion in Hw. by rewrite Hin in Hw.
    + by eexists _, _.
  - unfold setY, ret. eexists _, _. split; [reflexivity |]. split; [done |].
    intros id vm t v Hid Hv. cbn in Hid.
    apply lookup_insert_Some in Hid as [[_ <-] | [_ Hid]]; [done |].
    by apply (Hw id vm).
Qed.

Lemma foldM_pendingOne_total needMap l : ∀ acc w,
  within_last (y w) →
  ∃ acc' w', foldM (pendingOne needMap) l acc w = (Ok acc', w') ∧
             last (y w') = last (y w).
Proof.
  induction l as [|kv l IH]; intros acc w Hw; simpl; [by eexists _, _ |].
  destruct (pendingOne_total needMap acc kv w Hw) as (acc1 & w1 & H1 & Hl1 & Hw1).
  rewrite (bind_Ok _ _ _ _ _ H1).
  destruct (IH acc1 w1 Hw1) as (acc' & w' & H & Hl). exists acc', w'.
  split; [done | congruence].
Qed.

Lemma pending_total env w :
  isPrimary (smapAt env (gets w)) (self env) = true → within_last (y w) →
  ∃ count pend wp,
    pending env true w = (Ok (count, pend, smapAt env (gets w)), wp) ∧
    last (y wp) = last (y w).
Proof.
  intros Hp Hw. unfold pending, bind at 1, smapowner_get. rewrite Hp. cbn [negb].
  destruct (foldM_pendingOne_total true
              (map_to_list (Tmap (smapAt env (gets w))) ++
               map_to_list (Pmap (smapAt env (gets w))))%list (0%nat, ∅)
              (MkWorld (y w) (trace w) (glog w) (S (gets w)) (bcasts w)) Hw)
    as ([count pend] & wp & H & Hl).
  rewrite (bind_Ok _ _ _ _ _ H). by eexists _, _, _.
Qed.

Lemma pendingPayload_total m lst : ∀ acc w,
  (∀ t r, (t, r) ∈ lst → is_Some (marshal r)) →
  ∃ built, pendingPayload m lst acc w = (Ok built, w).
Proof.
  induction lst as [|[t r] lst IH]; intros acc w Hm; simpl; [by eexists |].
  destruct (Hm t r ltac:(left)) as [js ->].
  apply IH. intros t' r' Hin. apply (Hm t'). by right.
Qed.

(** On the primary, with nothing recorded beyond the registry and every
    object of the registry serializable, [handlePending] returns. *)
Lemma handlePending_total env w :
  isPrimary (smapAt env (gets w)) (self env) = true →
  within_last (y w) → cow_clean (y w) →
  ∃ cnt w', handlePending env w = (Ok cnt, w').
Proof.
  intros Hp Hw Hc. unfold handlePending.
  destruct (pending_total env w Hp Hw) as (count & pend & wp & H & Hl).
  rewrite (bind_Ok _ _ _ _ _ H). case_bool_decide; [by eexists _, _ |].
  unfold bind at 1. unfold getY at 1.
  destruct (pendingPayload_total
              (newActionMsgInternalStr env "metasync: handle-pending" (smapAt env (gets w)))
              (map_to_list (last (y wp))) (∅, []) wp) as [built Hb].
  { intros t r Hin. apply elem_of_map_to_list in Hin. rewrite Hl in Hin.
    destruct (Hc t r Hin) as (js & -> & _). by eexists. }
  rewrite (bind_Ok _ _ _ _ _ Hb).
  unfold bind, broadcast, getY, setY, ret. case_bool_decide; by eexists _, _.
Qed.

(** [pending] finds the nodes that are not in sync, all of them. *)
Lemma pending_complete env w count pend smap w' :
  pending env true w = (Ok (count, pend, smap), w') →
  isPrimary (smapAt env (gets w)) (self env) = true →
  (∀ id node, Tmap smap !! id = Some node ∨ Pmap smap !! id = Some node →
              notInSync (y w) id → is_Some (pend !! id)) ∧
  (count = 0%nat ↔ pend = ∅).
Proof.
  intros H Hprim.
  pose proof (pending_inv env w count pend smap w' H) as (_ & _ & Hc & _).
  unfold pending in H.
  apply bind_inv_Ok in H as (smap' & w1 & Hget & H).
  unfold smapowner_get in Hget. injection Hget as <- <-.
  rewrite Hprim in H. cbn [negb] in H.
  apply bind_inv_Ok in H as (acc & w2 & Hfold & H). injection H as <- <- <- <-.
  apply (foldM_pendingOne_complete (y w)) in Hfold as (_ & _ & Hin & Hz);
    [| apply padded_refl | done | ].
  2: { cbn. intros id E [x Hx]. congruence. }
  split.
  - intros id node Hid Hn.
    apply (Hin id node); [| done].
    apply elem_of_app. destruct Hid as [Hid | Hid]; [left | right];
      by apply elem_of_map_to_list.
  - split.
    + intros H0. by destruct (Hz H0) as [_ ->].
    + intros E. destruct Hc as [? | Hne]; [done |]. rewrite E in Hne.
      by rewrite map_size_empty in Hne.
Qed.

(** What [handlePending] does on the primary, by the nodes that are not
    in sync. *)
Lemma handlePending_cases env w cnt w' :
  handlePending env w = (Ok cnt, w') → last_keyed (y w) →
  isPrimary (smapAt env (gets w)) (self env) = true →
  ∃ pend,
    (∀ id node, pend !! id = Some node →
       (Tmap (smapAt env (gets w)) !! id = Some node ∨
        Pmap (smapAt env (gets w)) !! id = Some node) ∧ notInSync (y w) id) ∧
    (∀ id node,
       Tmap (smapAt env (gets w)) !! id = Some node ∨
       Pmap (smapAt env (gets w)) !! id = Some node →
       notInSync (y w) id → is_Some (pend !! id)) ∧
    (pend = ∅ → cnt = 0%nat ∧ trace w' = trace w ∧ bcasts w' = bcasts w) ∧
    (pend ≠ ∅ →
     ∃ payload,
       trace w' =
         (trace w ++
          [EvBcast (BcastCallArgs
                      (ReqArgs MethodPut (metasyncPath env) (BodyPayload payload))
                      NetworkIntraControl (CplaneOperation (config env)) [pend])
                   (DaemonID <$> bcastPeers env [pend])])%list ∧
       (∀ t r0, last (y w) !! t = Some r0 →
          (∀ t', is_Some (last (y w) !! t') → t ≠ t' ++ actiontag) →
          ∃ js, marshal r0 = Some js ∧ payload !! t = Some (WRevs js)) ∧
       cnt = length (filter (λ node, netCall env (bcasts w) (DaemonID node) ≠ NoErr)
                            (bcastPeers env [pend])) ∧
       (∀ node, node ∈ bcastPeers env [pend] →
          netCall env (bcasts w) (DaemonID node) = NoErr →
          ∀ t r0, last (y w) !! t = Some r0 →
                  delivered w' (DaemonID node) t = Some (version r0))).
Proof.
  intros H Hk Hprim.
  apply handlePending_inv in H as (count & pend & wp & Hpend & H).
  destruct (pending_complete env w count pend _ wp Hpend Hprim) as [Hcomplete Hiff].
  apply pending_inv in Hpend as (_ & (rm' & queue & Hwp & Hp) & _ & Hsound).
  assert (last (y wp) = last (y w) ∧ retryTimer (y wp) = retryTimer (y w) ∧
          trace wp = trace w ∧ bcasts wp = bcasts w) as (Hl & Ht & Htr & Hb).
  { rewrite Hwp. done. }
  exists pend. split; [done |]. split; [done |]. split.
  - intros ->. destruct H as [(_ & -> & ->) | (Hne & _)]; [done |].
    destruct Hne. by apply Hiff.
  - intros Hne. destruct H as [(Hz & _) | (_ & payload & H)].
    { destruct Hne. by apply Hiff. }
    cbn zeta in H. destruct H as (Hpay & -> & ->). simpl.
    exists payload. rewrite Htr, Hb, Hl.
    set (m := newActionMsgInternalStr env _ _) in *.
    split; [done |]. split; [| split].
    + intros t r0 Hr0 Hcol. rewrite Hl in Hpay.
      destruct (pendingPayload_lookup m (map_to_list (last (y w)))
                  (NoDup_fst_map_to_list _) _ _ _ _ Hpay) as [_ Hin].
      apply (Hin t r0); [by apply elem_of_map_to_list |].
      intros t' Ht'. apply Hcol.
      apply list_elem_of_fmap in Ht' as ([k r1] & -> & Hin').
      apply elem_of_map_to_list in Hin'. by eexists.
    + by rewrite pendingResult_count.
    + intros node Hin Hnet t r0 Hr0. unfold delivered. simpl.
      apply (hasAll_last m (y w)); [done | | done].
      by apply pendingResult_hasAll.
Qed.

Lemma reachable_cow_clean env w : reachable env w → cow_clean (y w).
Proof.
  intros Hr.
  induction Hr as [w Hr Hl | w wait prs w' _ IH H | w wait failed msg w' _ IH H
                  | w sel go w' _ IH H | w prs msg cnt w' _ IH H | w cnt w' _ IH H].
  - intros t r. by rewrite Hl, lookup_empty.
  - destruct (entry_keeps_registry env w w') as (_ & Hl & Hlc & _); [left; eauto |].
    by apply (cow_clean_same (y w)).
  - destruct (entry_keeps_registry env w w') as (_ & Hl & Hlc & _); [right; eauto |].
    by apply (cow_clean_same (y w)).
  - by apply (Run_iter_cow_clean env sel w go).
  - by apply (doSync_cow_clean env prs msg w cnt).
  - apply handlePending_registry in H as [Hl Hlc]. by apply (cow_clean_same (y w)).
Qed.

(** C6, as the code has it. (1) When [Run] takes a request that is not the
    empty one, it arms the retry timer for [RetrySyncTime] exactly when
    [doSync] returned a positive count, the timer was stopped and the
    request had pairs; otherwise the timer is left as it was. (2) When the
    armed timer fires, [Run] calls [handlePending] and arms the timer again
    exactly when [handlePending] returned a positive count; otherwise the
    timer stays off and is marked stopped. (3) On the primary, in a
    consistent state whose published objects serialize, [handlePending]
    returns. The pending nodes are the nodes of the current cluster map
    that have no entry or miss a last synchronized version, all of them.
    If there is none, nothing is sent and the count is 0. Otherwise there
    is one broadcast: method PUT, the metasync path, the intra-control
    network, timeout [CplaneOperation], to the pending nodes only; the
    payload holds the serialization of every tag of [last] (for tags no
    other tag's action key collides with); the count is the number of
    calls that failed, and every peer whose call succeeded is recorded
    with the version of every tag of [last]. *)
Theorem retry_timer env :
  (∀ w rq queue cnt w1,
     workCh (y w) = rq :: queue → isNil rq = false →
     doSync env (pairs rq) (msgInt rq)
            (MkWorld (set_workCh queue (y w)) (trace w) (glog w) (gets w) (bcasts w))
       = (Ok cnt, w1) →
     ∃ w', Run_iter env SelWork w = (Ok true, w') ∧
           (retryTimer (y w'), timerStopped (y w')) =
             (if bool_decide (0 < cnt)%nat && timerStopped (y w1) &&
                 bool_decide (0 < length (pairs rq))%nat
              then (Some (RetrySyncTime (config env)), false)
              else (retryTimer (y w1), timerStopped (y w1))) ∧
           revsmap (y w') = revsmap (y w1) ∧ last (y w') = last (y w1)) ∧
  (∀ w d cnt w1,
     retryTimer (y w) = Some d →
     handlePending env
       (MkWorld (set_timer None (timerStopped (y w)) (y w)) (trace w) (glog w) (gets w)
                (bcasts w)) = (Ok cnt, w1) →
     ∃ w', Run_iter env SelTimer w = (Ok true, w') ∧
           (retryTimer (y w'), timerStopped (y w')) =
             (if bool_decide (0 < cnt)%nat
              then (Some (RetrySyncTime (config env)), false)
              else (None, true)) ∧
           revsmap (y w') = revsmap (y w1) ∧ last (y w') = last (y w1)) ∧
  (∀ w,
     isPrimary (smapAt env (gets w)) (self env) = true →
     consistent (y w) → cow_clean (y w) →
     ∃ cnt w' pend,
       handlePending env w = (Ok cnt, w') ∧
       (∀ id node, pend !! id = Some node →
          (Tmap (smapAt env (gets w)) !! id = Some node ∨
           Pmap (smapAt env (gets w)) !! id = Some node) ∧ notInSync (y w) id) ∧
       (∀ id node,
          Tmap (smapAt env (gets w)) !! id = Some node ∨
          Pmap (smapAt env (gets w)) !! id = Some node →
          notInSync (y w) id → is_Some (pend !! id)) ∧
       (pend = ∅ → cnt = 0%nat ∧ trace w' = trace w ∧ bcasts w' = bcasts w) ∧
       (pend ≠ ∅ →
        ∃ payload,
          trace w' =
            (trace w ++
             [EvBcast (BcastCallArgs
                         (ReqArgs MethodPut (metasyncPath env) (BodyPayload payload))
                         NetworkIntraControl (CplaneOperation (config env)) [pend])
                      (DaemonID <$> bcastPeers env [pend])])%list ∧
          (∀ t r0, last (y w) !! t = Some r0 →
             (∀ t', is_Some (last (y w) !! t') → t ≠ t' ++ actiontag) →
             ∃ js, marshal r0 = Some js ∧ payload !! t = Some (WRevs js)) ∧
          cnt = length (filter (λ node, netCall env (bcasts w) (DaemonID node) ≠ NoErr)
                               (bcastPeers env [pend])) ∧
          (∀ node, node ∈ bcastPeers env [pend] →
             netCall env (bcasts w) (DaemonID node) = NoErr →
             ∀ t r0, last (y w) !! t = Some r0 →
                     delivered w' (DaemonID node) t = Some (version r0)))).
Proof.
  split; [| split].
  - intros w rq queue cnt w1. apply Run_iter_work.
  - intros w d cnt w1 Ht Hh.
    destruct (Run_iter_timer env w d cnt w1 Ht Hh) as (w' & Hrun & Htm & Hrest).
    exists w'. split; [done |]. split; [| done].
    apply handlePending_timer in Hh as [Hh _]. simpl in Hh. by rewrite Hh in Htm.
  - intros w Hprim [Hk Hw] Hc.
    destruct (handlePending_total env w Hprim Hw Hc) as (cnt & w' & H).
    destruct (handlePending_cases env w cnt w' H Hk Hprim) as (pend & Hcases).
    by exists cnt, w', pend.
Qed.

Lemma w_armed_reachable : reachable env_late_T2 w_armed.
Proof.
  eapply (reach_Run env_late_T2 w_sync5 SelWork); [| vm_compute; reflexivity].
  eapply (reach_sync env_late_T2 (Run_iter env_late_T2 SelWork w_notify).2 false
            [bmd 5 "bmd-v5"]); [| vm_compute; reflexivity].
  eapply (reach_Run env_late_T2 w_notify SelWork); [| vm_compute; reflexivity].
  eapply (reach_notify env_late_T2 (doSync env_late_T2 [bmd 4 "bmd-v4"] None w0).2
            true true (Some (ActionMsgInternal "newprimary" "" "" 4 2 "")));
    [| vm_compute; reflexivity].
  eapply (reach_doSync env_late_T2 w0 [bmd 4 "bmd-v4"] None);
    [| vm_compute; reflexivity].
  apply reach_new; reflexivity.
Qed.

Lemma retry_timer_witness :
  (∃ w', Run_iter env_late_T2 SelWork w_sync5 = (Ok true, w') ∧
         (retryTimer (y w'), timerStopped (y w')) = (Some 5000, false)) ∧
  (∃ cnt w' pend,
     handlePending env_late_T2 w_armed = (Ok cnt, w') ∧
     is_Some (pend !! "T2") ∧
     (pend ≠ ∅ →
      ∃ payload,
        trace w' =
          (trace w_armed ++
           [EvBcast (BcastCallArgs
                       (ReqArgs MethodPut "/v1/metasync" (BodyPayload payload))
                       NetworkIntraControl 1000 [pend])
                    (DaemonID <$> bcastPeers env_late_T2 [pend])])%list)).
Proof.
  destruct (retry_timer env_late_T2) as (Hwork & _ & Hpending).
  split.
  - destruct (Hwork w_sync5
                (RevsReq [bmd 5 "bmd-v5"] false None false) [] 1%nat
                (doSync env_late_T2 [bmd 5 "bmd-v5"] None
                   (MkWorld (set_workCh [] (y w_sync5)) (trace w_sync5) (glog w_sync5)
                            (gets w_sync5) (bcasts w_sync5))).2
                ltac:(vm_compute; reflexivity) ltac:(reflexivity)
                ltac:(vm_compute; reflexivity))
      as (w' & Hrun & Htm & _).
    exists w'. split; [exact Hrun |]. rewrite Htm. vm_compute. reflexivity.
  - destruct (Hpending w_armed ltac:(vm_compute; reflexivity)
                (reachable_consistent _ _ w_armed_reachable)
                (reachable_cow_clean _ _ w_armed_reachable))
      as (cnt & w' & pend & Hrun & _ & Hcomplete & _ & Hsend).
    exists cnt, w', pend. split; [exact Hrun |]. split.
    + apply (Hcomplete "T2" T2); [left; vm_compute; reflexivity |].
      left. vm_compute. reflexivity.
    + intros Hne. destruct (Hsend Hne) as (payload & Htr & _). by exists payload.
Defined.

(** C6, as stated, fails for a notification: with the target T2 in the
    cluster map but never synchronized, and the call to it failing,
    [doSync] returns one failure and [Run] leaves the retry timer off,
    because the request has no pairs. *)
Lemma notify_leaves_timer_off :
  ¬ arms_when_not_in_sync env_late_T2 w_notify.
Proof.
  intros H.
  specialize (H (RevsReq [] true (Some (ActionMsgInternal "newprimary" "" "" 4 2 "")) true)
                [] (Run_iter env_late_T2 SelWork w_notify).2
                ltac:(vm_compute; reflexivity) ltac:(reflexivity)
                ltac:(vm_compute; reflexivity)).
  assert (retryTimer (y (Run_iter env_late_T2 SelWork w_notify).2) = None) as Hoff
    by (vm_compute; reflexivity).
  rewrite Hoff in H. discriminate H.
  exists "T2". split; [discriminate |]. split; [vm_compute; reflexivity |].
  left. vm_compute. reflexivity.
Qed.
(** X13: [extractbucketmd] hands out received bucket metadata without an
    error exactly when the payload has it, it and its action message
    decode, and its version is above the local one. The same version gives
    nothing and no error, a lower version nothing and the downgrade error;
    a payload without the tag gives nothing at all. *)
Theorem extractbucketmd_accepts_only_newer unmarshalBMD unmarshalMsg localbmd payload :
  let r := extractbucketmd unmarshalBMD unmarshalMsg localbmd payload in
  (∀ b, (r.1.1 = Some b ∧ r.2 = None) ↔
        ∃ js, payload !! bucketmdtag = Some js ∧ unmarshalBMD js = (b, true) ∧
              actionDecodes unmarshalMsg payload bucketmdtag ∧
              BMD_Version localbmd < BMD_Version b) ∧
  (∀ js b, payload !! bucketmdtag = Some js → unmarshalBMD js = (b, true) →
           actionDecodes unmarshalMsg payload bucketmdtag →
           (BMD_Version b = BMD_Version localbmd → r.1.1 = None ∧ r.2 = None) ∧
           (BMD_Version b < BMD_Version localbmd →
            r.1.1 = None ∧
            r.2 = Some (RxDowngradeBMD (BMD_Version localbmd) (BMD_Version b)))) ∧
  (payload !! bucketmdtag = None → r = (None, None, None)).
Proof.
  cbn zeta. unfold extractbucketmd, actionDecodes.
  destruct (payload !! bucketmdtag) as [js|]; [| split; [| done]].
  2: { intros b. split; [by intros [? _] | by intros (? & ? & _)]. }
  destruct (unmarshalBMD js) as [nb ok] eqn:Eb.
  destruct ok; cbn [negb].
  2: { split; [| split; [| done]].
       - intros b. split; [by intros [_ ?] |]. intros (js' & [= <-] & E & _). congruence.
       - intros js' b [= <-] E. congruence. }
  assert (∀ m,
    let r := checkBMD localbmd nb m in
    (∀ b, r.1.1 = Some b ∧ r.2 = None ↔ b = nb ∧ BMD_Version localbmd < BMD_Version b) ∧
    ((BMD_Version nb = BMD_Version localbmd → r.1.1 = None ∧ r.2 = None) ∧
     (BMD_Version nb < BMD_Version localbmd →
      r.1.1 = None ∧
      r.2 = Some (RxDowngradeBMD (BMD_Version localbmd) (BMD_Version nb))))) as Hcheck.
  { intros m. cbn zeta. unfold checkBMD.
    destruct (Z.leb_spec (BMD_Version nb) (BMD_Version localbmd)) as [Hle | Hgt]; cbn.
    - split.
      + intros b. split; [by intros [? _] |]. intros [-> ?]. lia.
      + destruct (Z.ltb_spec (BMD_Version nb) (BMD_Version localbmd)); split;
          intros; (done || lia).
    - split.
      + intros b. split; [intros [[= <-] _]; done | intros [-> _]; done].
      + split; intros; lia. }
  destruct (payload !! (bucketmdtag ++ actiontag)) as [mv|] eqn:Em.
  - destruct (unmarshalMsg mv) as [m okm] eqn:Emv. destruct okm; cbn [negb].
    + destruct (Hcheck m) as (Hacc & Hrej). cbn zeta in Hacc, Hrej.
      split; [| split; [| done]].
      * intros b. rewrite Hacc. split.
        -- intros [-> Hv]. exists js. split; [done |]. split; [done |]. split; [| done].
           intros mv' [= <-]. by rewrite Emv.
        -- intros (js' & [= <-] & E & _ & Hv). rewrite Eb in E. by injection E as ->.
      * intros js' b [= <-] E _. rewrite Eb in E. injection E as ->. exact Hrej.
    + split; [| split; [| done]].
      * intros b. split; [by intros [_ ?] |].
        intros (js' & _ & _ & Hd & _). specialize (Hd mv eq_refl). by rewrite Emv in Hd.
      * intros js' b _ _ Hd. specialize (Hd mv eq_refl). by rewrite Emv in Hd.
  - destruct (Hcheck emptyMsgInt) as (Hacc & Hrej). cbn zeta in Hacc, Hrej.
    split; [| split; [| done]].
    + intros b. rewrite Hacc. split.
      * intros [-> Hv]. exists js. split; [done |]. split; [done |]. split; [| done].
        by intros mv' ?.
      * intros (js' & [= <-] & E & _ & Hv). rewrite Eb in E. by injection E as ->.
    + intros js' b [= <-] E _. rewrite Eb in E. injection E as ->. exact Hrej.
Qed.

Lemma checkSmap_spec isValid GetTarget hsi localsmap ns m :
  let r := checkSmap isValid GetTarget hsi localsmap ns m in
  (∀ s, r.1.1 = Some s ∧ r.2 = None ↔
        s = ns ∧ Version s ≠ Version localsmap ∧ isValid s = true ∧
        (Version localsmap < Version s ∨
         ∃ me, hsi = Some me ∧ is_Some (GetTarget localsmap (DaemonID me)))) ∧
  (Version ns = Version localsmap → r.1.1 = None ∧ r.2 = None) ∧
  (Version ns < Version localsmap → isValid ns = true →
   (∀ me, hsi = Some me → GetTarget localsmap (DaemonID me) = None) →
   r.2 = Some (RxDowngradeSmap hsi (Version localsmap) (Version ns))).
Proof.
  cbn zeta. unfold checkSmap.
  destruct (Z.eqb_spec (Version ns) (Version localsmap)) as [Heq | Hne]; cbn.
  { split; [| split; [done | intros; lia]].
    intros s. split; [by intros [? _] | intros (-> & ? & _); done]. }
  destruct (isValid ns) eqn:Ev; cbn.
  2: { split; [| split; [done | intros; congruence]].
       intros s. split; [by intros [? _] | intros (-> & _ & ? & _); congruence]. }
  destruct (Z.ltb_spec (Version ns) (Version localsmap)) as [Hlt | Hge].
  - destruct hsi as [me|].
    + destruct (GetTarget localsmap (DaemonID me)) as [t|] eqn:Et.
      * split; [| split; [done |]].
        -- intros s. split; [intros [[= <-] _] | intros (-> & _); done].
           split; [done |]. split; [done |]. split; [done |]. right. exists me.
           split; [done |]. by rewrite Et.
        -- intros _ _ Hn. specialize (Hn me eq_refl). congruence.
      * split; [| split; [done | done]].
        intros s. split; [by intros [? _] |].
        intros (-> & _ & _ & [? | (me' & [= <-] & [? Ht])]); [lia | congruence].
    + split; [| split; [done | done]].
      intros s. split; [by intros [_ ?] |].
      intros (-> & _ & _ & [? | (me' & ? & _)]); [lia | done].
  - split; [| split; [done | intros; lia]].
    intros s. split; [intros [[= <-] _] | intros (-> & _); done].
    split; [done |]. split; [done |]. split; [done |]. left. lia.
Qed.

(** X14: [extractSmap] hands out a received cluster map without an error
    exactly when the payload has it, it and its action message decode, its
    version differs from the local one, it is valid, and either it is
    newer or the receiver is a target of its own local map (which takes an
    older map as well). The same version gives nothing and no error; an
    older valid map gives the downgrade error at a receiver that is not
    such a target; a payload without the tag gives nothing at all. *)
Theorem extractSmap_acceptance unmarshalSmap unmarshalMsg isValid GetTarget
    hsi localsmap payload :
  let r := extractSmap unmarshalSmap unmarshalMsg isValid GetTarget hsi localsmap payload in
  (∀ s, (r.1.1 = Some s ∧ r.2 = None) ↔
        ∃ js, payload !! smaptag = Some js ∧ unmarshalSmap js = (s, true) ∧
              actionDecodes unmarshalMsg payload smaptag ∧
              Version s ≠ Version localsmap ∧ isValid s = true ∧
              (Version localsmap < Version s ∨
               ∃ me, hsi = Some me ∧ is_Some (GetTarget localsmap (DaemonID me)))) ∧
  (∀ js s, payload !! smaptag = Some js → unmarshalSmap js = (s, true) →
           actionDecodes unmarshalMsg payload smaptag →
           (Version s = Version localsmap → r.1.1 = None ∧ r.2 = None) ∧
           (Version s < Version localsmap → isValid s = true →
            (∀ me, hsi = Some me → GetTarget localsmap (DaemonID me) = None) →
            r.2 = Some (RxDowngradeSmap hsi (Version localsmap) (Version s)))) ∧
  (payload !! smaptag = None → r = (None, None, None)).
Proof.
  cbn zeta. unfold extractSmap, actionDecodes.
  destruct (payload !! smaptag) as [js|]; [| split; [| done]].
  2: { intros b. split; [by intros [? _] | by intros (? & ? & _)]. }
  destruct (unmarshalSmap js) as [ns ok] eqn:Eb.
  destruct ok; cbn [negb].
  2: { split; [| split; [| done]].
       - intros b. split; [by intros [_ ?] |]. intros (js' & [= <-] & E & _). congruence.
       - intros js' b [= <-] E. congruence. }
  destruct (payload !! (smaptag ++ actiontag)) as [mv|] eqn:Em.
  - destruct (unmarshalMsg mv) as [m okm] eqn:Emv. destruct okm; cbn [negb].
    + destruct (checkSmap_spec isValid GetTarget hsi localsmap ns m) as (Hacc & Hrej).
      cbn zeta in Hacc, Hrej.
      split; [| split; [| done]].
      * intros b. rewrite Hacc. split.
        -- intros (-> & Hv). exists js. split; [done |]. split; [done |]. split; [| done].
           intros mv' [= <-]. by rewrite Emv.
        -- intros (js' & [= <-] & E & _ & Hv). rewrite Eb in E. by injection E as ->.
      * intros js' b [= <-] E _. rewrite Eb in E. injection E as ->. exact Hrej.
    + split; [| split; [| done]].
      * intros b. split; [by intros [_ ?] |].
        intros (js' & _ & _ & Hd & _). specialize (Hd mv eq_refl). by rewrite Emv in Hd.
      * intros js' b _ _ Hd. specialize (Hd mv eq_refl). by rewrite Emv in Hd.
  - destruct (checkSmap_spec isValid GetTarget hsi localsmap ns emptyMsgInt) as (Hacc & Hrej).
    cbn zeta in Hacc, Hrej.
    split; [| split; [| done]].
    + intros b. rewrite Hacc. split.
      * intros (-> & Hv). exists js. split; [done |]. split; [done |]. split; [| done].
        by intros mv' ?.
      * intros (js' & [= <-] & E & _ & Hv). rewrite Eb in E. by injection E as ->.
    + intros js' b [= <-] E _. rewrite Eb in E. injection E as ->. exact Hrej.
Qed.

(** ** Joining the cluster *)

Section reg_facts.
Import reg.

Lemma registerToURL_run je url psi isproxy ka calls :
  let c := RegCall (effBase psi url) (regPath je isproxy ka) in
  registerToURL je url psi isproxy ka calls =
    match psi, String.eqb url "" with
    | None, true =>
        (Fatal "assertion failed: args.si != nil || args.req.base != ''", calls)
    | _, _ =>
        match reply je (length calls) c with
        | NoErr => (Ok NoErr, (calls ++ [c])%list)
        | _ => (Ok (reply je (S (length calls)) c), (calls ++ [c; c])%list)
        end
    end.
Proof.
  cbn zeta. unfold registerToURL, callReg, effBase, regPath.
  destruct psi as [s|], (String.eqb url "") eqn:E; try done;
    destruct (reply je (length calls) _) eqn:Er; try done;
    rewrite ?length_app; cbn [length]; rewrite ?Nat.add_1_r;
    by rewrite <- ?(assoc_L (++)).
Qed.

Lemma join_tryRest je isproxy calls :
  join je isproxy calls =
    match registerToURL je (getPrimaryURLAndSI je).1 (getPrimaryURLAndSI je).2
                        isproxy false calls with
    | (Ok NoErr, calls1) => (Ok NoErr, calls1)
    | (Ok res, calls1) =>
        tryRest je (getPrimaryURLAndSI je).2 isproxy res (tail (joinURLs je)) calls1
    | (Fatal m, calls1) => (Fatal m, calls1)
    end.
Proof.
  unfold join, joinURLs. destruct (getPrimaryURLAndSI je) as [url psi]. cbn [fst snd tail].
  destruct (registerToURL je url psi isproxy false calls) as [[[]|m] calls1]; try done.
  - destruct (negb _ && negb _); destruct (negb _ && negb _ && negb _); cbn; try done;
      repeat (destruct (registerToURL _ _ _ _ _ _) as [[[]|?] ?]; try done).
  - destruct (negb _ && negb _); destruct (negb _ && negb _ && negb _); cbn; try done;
      repeat (destruct (registerToURL _ _ _ _ _ _) as [[[]|?] ?]; try done).
Qed.

Lemma registerToURL_nonempty je url psi isproxy ka calls :
  url ≠ "" →
  let c := RegCall (effBase psi url) (regPath je isproxy ka) in
  registerToURL je url psi isproxy ka calls =
    match reply je (length calls) c with
    | NoErr => (Ok NoErr, (calls ++ [c])%list)
    | _ => (Ok (reply je (S (length calls)) c), (calls ++ [c; c])%list)
    end.
Proof.
  intros Hne. cbn zeta. rewrite registerToURL_run. cbn zeta.
  apply String.eqb_neq in Hne. rewrite Hne. by destruct psi.
Qed.

Lemma repliesTo_app je n l1 l2 :
  repliesTo je n (l1 ++ l2) = (repliesTo je n l1 ++ repliesTo je (n + length l1) l2)%list.
Proof.
  unfold repliesTo. rewrite imap_app. f_equal. apply imap_ext.
  intros k c _. cbn. f_equal. lia.
Qed.

Lemma tryRest_spec je psi isproxy res : ∀ urls calls,
  Forall (λ u, u ≠ "") urls → res ≠ NoErr →
  ∃ e new,
    tryRest je psi isproxy res urls calls = (Ok e, (calls ++ new)%list) ∧
    new `prefix_of` planOf je psi isproxy urls ∧
    match e with
    | NoErr => ∃ failed, repliesTo je (length calls) new = (failed ++ [NoErr])%list ∧
                         Forall (λ r, r ≠ NoErr) failed
    | _ => e = res ∧ new = planOf je psi isproxy urls ∧
           Forall (λ r, r ≠ NoErr) (repliesTo je (length calls) new)
    end.
Proof.
  induction urls as [|u us IH]; intros calls Hne Hres.
  - exists res, []. cbn. rewrite app_nil_r. split; [done |]. split; [done |].
    destruct res; done.
  - apply Forall_cons in Hne as [Hu Hus]. cbn [tryRest].
    rewrite (registerToURL_nonempty je u psi isproxy false calls Hu). cbn zeta.
    set (c := RegCall (effBase psi u) (regPath je isproxy false)).
    assert (planOf je psi isproxy (u :: us) = c :: c :: planOf je psi isproxy us) as Hplan
      by done.
    destruct (decide (reply je (length calls) c = NoErr)) as [E1 | E1].
    { exists NoErr, [c]. rewrite E1. split; [done |]. rewrite Hplan.
      split; [by exists (c :: planOf je psi isproxy us) |].
      exists []. cbn. rewrite Nat.add_0_r, E1. done. }
    destruct (decide (reply je (S (length calls)) c = NoErr)) as [E2 | E2].
    { exists NoErr, [c; c]. rewrite E2. split; [by destruct (reply je (length calls) c) |].
      rewrite Hplan. split; [by exists (planOf je psi isproxy us) |].
      exists [reply je (length calls) c]. cbn. rewrite Nat.add_0_r, Nat.add_1_r, E2.
      split; [done |]. by constructor. }
    destruct (IH (calls ++ [c; c])%list Hus Hres) as (e & new & Hrun & Hpre & He).
    exists e, (c :: c :: new). rewrite <- (assoc_L (++)) in Hrun.
    split.
    { destruct (reply je (length calls) c); [done | |];
        destruct (reply je (S (length calls)) c); done. }
    rewrite Hplan. split; [by do 2 apply prefix_cons |].
    change (c :: c :: new) with ([c; c] ++ new)%list. rewrite repliesTo_app.
    rewrite length_app in He. cbn [length] in He. change (length [c; c]) with 2%nat.
    assert (Forall (λ r, r ≠ NoErr) (repliesTo je (length calls) [c; c])) as Hcc.
    { cbn. rewrite Nat.add_0_r, Nat.add_1_r. by repeat constructor. }
    destruct e.
    + destruct He as (failed & Hf & Hall).
      exists (repliesTo je (length calls) [c; c] ++ failed)%list.
      rewrite Hf. rewrite (assoc_L (++)). split; [done |]. by apply Forall_app.
    + destruct He as (-> & -> & Hall). split; [done |]. split; [done |].
      by apply Forall_app.
    + destruct He as (-> & -> & Hall). split; [done |]. split; [done |].
      by apply Forall_app.
Qed.

Lemma joinURLs_alternatives je :
  NoDup (joinURLs je) ∧ Forall (λ u, u ≠ "") (tail (joinURLs je)) ∧
  (length (joinURLs je) ≤ 3)%nat.
Proof.
  unfold joinURLs. cbn zeta. set (url := (getPrimaryURLAndSI je).1).
  set (d := cmn.DiscoveryURL (proxyConf je)). set (o := cmn.OriginalURL (proxyConf je)).
  destruct (String.eqb_spec d "") as [Hd0 | Hd0], (String.eqb_spec d url) as [Hdu | Hdu],
    (String.eqb_spec o "") as [Ho0 | Ho0], (String.eqb_spec o url) as [Hou | Hou],
    (String.eqb_spec o d) as [Hod | Hod]; cbn;
    (split; [| split; [| lia]]);
    repeat (first [apply NoDup_nil_2 | apply Forall_nil_2
                  | apply Forall_cons_2; [done |]
                  | apply NoDup_cons_2;
                    [rewrite ?not_elem_of_cons; repeat split;
                     first [apply not_elem_of_nil | congruence] |]]).
Qed.

Lemma planOf_length je psi isproxy urls :
  length (planOf je psi isproxy urls) = (2 * length urls)%nat.
Proof.
  induction urls as [|u us IH]; [done |].
  change (planOf je psi isproxy (u :: us))
    with (RegCall (effBase psi u) (regPath je isproxy false) ::
          RegCall (effBase psi u) (regPath je isproxy false) :: planOf je psi isproxy us).
  cbn [length]. lia.
Qed.

Lemma registerToURL_ok je url psi isproxy ka calls :
  url ≠ "" ∨ is_Some psi →
  let c := RegCall (effBase psi url) (regPath je isproxy ka) in
  registerToURL je url psi isproxy ka calls =
    match reply je (length calls) c with
    | NoErr => (Ok NoErr, (calls ++ [c])%list)
    | _ => (Ok (reply je (S (length calls)) c), (calls ++ [c; c])%list)
    end.
Proof.
  intros H. cbn zeta. rewrite registerToURL_run. cbn zeta.
  destruct psi as [s|], (String.eqb_spec url "") as [Hu | Hu]; try done.
  destruct H as [? | [? ?]]; done.
Qed.

Lemma join_ok_case je isproxy calls url psi rest :
  url ≠ "" ∨ is_Some psi →
  Forall (λ u, u ≠ "") rest →
  ∃ e new,
    match registerToURL je url psi isproxy false calls with
    | (Ok NoErr, calls1) => (Ok NoErr, calls1)
    | (Ok res, calls1) => tryRest je psi isproxy res rest calls1
    | (Fatal m, calls1) => (Fatal m, calls1)
    end = (Ok e, (calls ++ new)%list) ∧
    new `prefix_of` planOf je psi isproxy (url :: rest) ∧
    match e with
    | NoErr => ∃ failed, repliesTo je (length calls) new = (failed ++ [NoErr])%list ∧
                         Forall (λ r, r ≠ NoErr) failed
    | _ => new = planOf je psi isproxy (url :: rest) ∧
           Forall (λ r, r ≠ NoErr) (repliesTo je (length calls) new) ∧
           repliesTo je (length calls) new !! 1%nat = Some e
    end.
Proof.
  intros Hok Hne. rewrite (registerToURL_ok je url psi isproxy false calls Hok). cbn zeta.
  set (c := RegCall (effBase psi url) (regPath je isproxy false)).
  assert (planOf je psi isproxy (url :: rest) = c :: c :: planOf je psi isproxy rest) as Hplan
    by done.
  destruct (decide (reply je (length calls) c = NoErr)) as [E1 | E1].
  { exists NoErr, [c]. rewrite E1. split; [done |]. rewrite Hplan.
    split; [by exists (c :: planOf je psi isproxy rest) |].
    exists []. cbn. by rewrite Nat.add_0_r, E1. }
  destruct (decide (reply je (S (length calls)) c = NoErr)) as [E2 | E2].
  { exists NoErr, [c; c]. rewrite E2. split; [by destruct (reply je (length calls) c) |].
    rewrite Hplan. split; [by exists (planOf je psi isproxy rest) |].
    exists [reply je (length calls) c]. cbn. rewrite Nat.add_0_r, Nat.add_1_r, E2.
    split; [done |]. by constructor. }
  destruct (tryRest_spec je psi isproxy (reply je (S (length calls)) c) rest
              (calls ++ [c; c])%list Hne E2) as (e & new & Hrun & Hpre & He).
  exists e, ([c; c] ++ new)%list. rewrite <- (assoc_L (++)) in Hrun.
  split.
  { rewrite <- Hrun. destruct (reply je (length calls) c); [done | |];
      destruct (reply je (S (length calls)) c); done. }
  rewrite Hplan. split; [by do 2 apply prefix_cons |].
  rewrite repliesTo_app. change (length [c; c]) with 2%nat.
  rewrite length_app in He. cbn [length] in He.
  assert (Forall (λ r, r ≠ NoErr) (repliesTo je (length calls) [c; c])) as Hcc
    by (cbn; rewrite Nat.add_0_r, Nat.add_1_r; by repeat constructor).
  destruct e.
  - destruct He as (failed & Hf & Hall).
    exists (repliesTo je (length calls) [c; c] ++ failed)%list.
    rewrite Hf, (assoc_L (++)). split; [done |]. by apply Forall_app.
  - destruct He as (Hres & -> & Hall). split; [done |]. split; [by apply Forall_app |].
    cbn. by rewrite Nat.add_1_r, Hres.
  - destruct He as (Hres & -> & Hall). split; [done |]. split; [by apply Forall_app |].
    cbn. by rewrite Nat.add_1_r, Hres.
Qed.

(** X15: [join] goes through at most three different URLs in a fixed
    order, with two attempts at each, so at most six calls in all. It
    fails its assertion exactly when
    there is neither a primary URL nor a primary node, without a call
    made. Otherwise the calls it makes are a prefix of the plan; when it
    succeeds the last call made is the one that was answered and all
    before it failed; when it fails every call of the plan was made and
    failed, and the result is that of the second call. *)
Theorem join_follows_plan je isproxy calls :
  NoDup (joinURLs je) ∧ (length (joinPlan je isproxy) ≤ 6)%nat ∧
  match join je isproxy calls with
  | (Fatal _, calls') => getPrimaryURLAndSI je = ("", None) ∧ calls' = calls
  | (Ok e, calls') =>
      getPrimaryURLAndSI je ≠ ("", None) ∧
      ∃ new, calls' = (calls ++ new)%list ∧ new `prefix_of` joinPlan je isproxy ∧
        match e with
        | NoErr => ∃ failed, repliesTo je (length calls) new = (failed ++ [NoErr])%list ∧
                             Forall (λ r, r ≠ NoErr) failed
        | _ => new = joinPlan je isproxy ∧
               Forall (λ r, r ≠ NoErr) (repliesTo je (length calls) new) ∧
               repliesTo je (length calls) new !! 1%nat = Some e
        end
  end.
Proof.
  destruct (joinURLs_alternatives je) as (Hnd & Hne & Hlen).
  split; [done |]. split.
  { unfold joinPlan. fold (planOf je (getPrimaryURLAndSI je).2 isproxy (joinURLs je)).
    rewrite planOf_length. lia. }
  rewrite join_tryRest.
  assert (joinPlan je isproxy
          = planOf je (getPrimaryURLAndSI je).2 isproxy (joinURLs je)) as Hplan by done.
  set (rest := tail (joinURLs je)) in *.
  assert (joinURLs je = (getPrimaryURLAndSI je).1 :: rest) as Hurls by done.
  rewrite Hplan, Hurls. clear Hplan Hurls Hnd Hlen. clearbody rest.
  destruct (getPrimaryURLAndSI je) as [url psi]. cbn [fst snd].
  destruct (String.eqb_spec url "") as [Hu | Hu], psi as [s|].
  - destruct (join_ok_case je isproxy calls url (Some s) rest) as (e & new & -> & Hpre & He);
      [right; by eexists | done |].
    split; [done |]. by exists new.
  - subst url. rewrite registerToURL_run. cbn. done.
  - destruct (join_ok_case je isproxy calls url (Some s) rest) as (e & new & -> & Hpre & He);
      [by left | done |].
    split; [done |]. by exists new.
  - destruct (join_ok_case je isproxy calls url None rest) as (e & new & -> & Hpre & He);
      [by left | done |].
    split; [intros E; by injection E |]. by exists new.
Qed.

End reg_facts.

(** ** The configuration *)

Section cmn_facts.
Import cmn.

Lemma parseDur_ok L str set mkerr k c c' :
  parseDur L str set mkerr k c = (None, c') →
  ∃ v, ParseDuration L (str c) = Some v ∧ k (set v c) = (None, c').
Proof.
  unfold parseDur. destruct (ParseDuration L (str c)) as [v|]; [| done].
  intros H. by exists v.
Qed.

Lemma check_ok bad e k c c' :
  check bad e k c = (None, c') → bad c = false ∧ k c = (None, c').
Proof. unfold check. by destruct (bad c). Qed.

Lemma parsePort_ok L str set optional e k c c' :
  parsePort L str set optional e k c = (None, c') →
  (optional = true ∧ str c = "" ∧ k (set 0 c) = (None, c')) ∨
  (∃ p, (optional = false ∨ str c ≠ "") ∧ ParsePort L (str c) = (p, true) ∧
        k (set p (if optional then set 0 c else c)) = (None, c')).
Proof.
  unfold parsePort. destruct optional; cbn [andb].
  - destruct (String.eqb_spec (str c) "") as [E | E]; [by left |].
    destruct (ParsePort L (str c)) as [p []]; [| done]. right. exists p. auto.
  - destruct (ParsePort L (str c)) as [p []]; [| done]. right. exists p. auto.
Qed.

Lemma noOverlap_ok L alist blist which k c c' :
  noOverlap L alist blist which k c = (None, c') →
  (ipv4ListsOverlap L (alist c) (blist c)).1 = false ∧ k c = (None, c').
Proof.
  unfold noOverlap. destruct (ipv4ListsOverlap L (alist c) (blist c)) as [[] addr]; done.
Qed.

Ltac zbools :=
  repeat match goal with
         | H : (_ || _) = false |- _ => apply orb_false_iff in H as [? ?]
         | H : (_ && _) = false |- _ => apply andb_false_iff in H
         | H : negb _ = false |- _ => apply negb_false_iff in H
         | H : (_ <=? _) = false |- _ => apply Z.leb_gt in H
         | H : (_ <? _) = false |- _ => apply Z.ltb_ge in H
         | H : (_ >? _) = false |- _ => rewrite Z.gtb_ltb in H
         | H : (_ =? _) = true |- _ => apply Z.eqb_eq in H
         | H : String.eqb _ _ = true |- _ => apply String.eqb_eq in H
         end.

Lemma ValidateVersion_ok L v :
  ValidateVersion L v = None →
  v ∈ [VersionAll L; VersionCloud L; VersionLocal L; VersionNone L].
Proof.
  unfold ValidateVersion. destruct (existsb _ _) eqn:E; [| done]. intros _.
  apply existsb_exists in E as (x & Hin & Hx). apply String.eqb_eq in Hx as ->.
  by apply list_elem_of_In.
Qed.

Lemma validKeepaliveType_ok t :
  validKeepaliveType t = true → t ∈ ["heartbeat"; "average"].
Proof.
  unfold validKeepaliveType. intros [H | H]%orb_true_iff; apply String.eqb_eq in H as ->.
  - left.
  - right. left.
Qed.

Ltac inv_dur H c0 :=
  match type of H with
  | parseDur ?L ?s ?st ?e ?k ?c = (None, ?c') =>
      let v := fresh "v" in
      let Hv := fresh "Hv" in
      let c1 := fresh "c" in
      apply (parseDur_ok L s st e k c c') in H; destruct H as (v & Hv & H);
      change (ParseDuration L (s c0) = Some v) in Hv; cbv beta in Hv;
      set (c1 := st v c) in H
  end.

Ltac inv_check H c0 :=
  match type of H with
  | check ?b ?e ?k ?c = (None, ?c') =>
      let Hb := fresh "Hb" in
      apply (check_ok b e k c c') in H; destruct H as (Hb & H);
      change (b c0 = false) in Hb; cbv beta zeta in Hb
  end.

Ltac inv_overlap H :=
  match type of H with
  | noOverlap ?L ?a ?b ?w ?k ?c = (None, ?c') =>
      let Ho := fresh "Ho" in
      apply (noOverlap_ok L a b w k c c') in H; destruct H as (Ho & H); cbv beta in Ho
  end.

Ltac inv_port H c0 :=
  match type of H with
  | parsePort ?L ?s ?st ?o ?e ?k ?c = (None, ?c') =>
      let p := fresh "p" in
      let Hs := fresh "Hs" in
      let Hp := fresh "Hp" in
      let Ho := fresh "Ho" in
      let c1 := fresh "c" in
      apply (parsePort_ok L s st o e k c c') in H;
      destruct H as [(Ho & Hs & H) | (p & Hs & Hp & H)];
      [change (s c0 = "") in Hs; cbv beta in Hs; set (c1 := st 0 c) in H
      | change (o = false ∨ s c0 ≠ "") in Hs;
        change (ParsePort L (s c0) = (p, true)) in Hp; cbv beta in Hs, Hp;
        set (c1 := st p (if o then st 0 c else c)) in H]
  end.

Lemma not_both_false (a b : string) (x : string) :
  negb (String.eqb x a) && negb (String.eqb x b) = false → x = a ∨ x = b.
Proof.
  destruct (String.eqb_spec x a), (String.eqb_spec x b); cbn; auto; discriminate.
Qed.

Lemma RevProxy_ok (x : string) :
  negb (String.eqb x "") && negb (String.eqb x RevProxyCloud) &&
  negb (String.eqb x RevProxyTarget) = false →
  x ∈ [""; "cloud"; "target"].
Proof.
  destruct (String.eqb_spec x ""), (String.eqb_spec x RevProxyCloud),
    (String.eqb_spec x RevProxyTarget); cbn; try discriminate; intros _; subst;
    repeat first [left | right].
Qed.

Lemma Mirror_ok (enabled : bool) (copies : Z) :
  enabled && negb (copies =? 2) = false → enabled = true → copies = 2.
Proof. intros H ->. cbn in H. apply negb_false_iff in H. by apply Z.eqb_eq. Qed.

Lemma Version_ok L v :
  match ValidateVersion L v with Some _ => true | None => false end = false →
  v ∈ [VersionAll L; VersionCloud L; VersionLocal L; VersionNone L].
Proof.
  intros H. apply ValidateVersion_ok. by destruct (ValidateVersion L v).
Qed.

Lemma Keepalive_ok t :
  negb (validKeepaliveType t) = false → t ∈ ["heartbeat"; "average"].
Proof. intros H%negb_false_iff. by apply validKeepaliveType_ok. Qed.

Lemma optPort_ok L (str : string) (port : Z) :
  (str = "" ∧ port = 0) ∨ (str ≠ "" ∧ ParsePort L str = (port, true)) →
  if String.eqb str "" then port = 0 else ParsePort L str = (port, true).
Proof.
  intros [[-> ->] | [Hne Hp]]; [done |]. by apply String.eqb_neq in Hne as ->.
Qed.

Ltac solve_port :=
  apply optPort_ok;
  first [ left; split; [assumption | reflexivity]
        | right; split;
          [ match goal with
            | Hd : _ ∨ _ |- _ => destruct Hd as [? | ?]; [discriminate | assumption]
            end
          | assumption ] ].

Ltac solve_parses :=
  intros;
  first [ match goal with
          | Hp : ParsePort ?L ?s = (_, true) |- (ParsePort ?L ?s).2 = true => by rewrite Hp
          end
        | match goal with
          | Hs : ?s = "", Hn : ?s ≠ "" |- _ => by destruct Hn
          end ].

Lemma validateConfig_inv_full L c c' :
  validateConfig L c = (None, c') →
  (validNumbers L c ∧ durationsParse L c ∧ portsParse L c ∧ addressesDisjoint L c) ∧
  validNumbers L c' ∧ durationsParsed L c' ∧ networkChecked L c'.
Proof.
  intros H. unfold validateConfig in H.
  do 6 (inv_dur H c). do 6 (inv_check H c). do 9 (inv_dur H c). do 2 (inv_check H c).
  inv_port H c; [discriminate |].
  inv_port H c; inv_port H c.
  all: cbv beta in H;
    match type of H with
    | noOverlap _ _ _ _ _ ?c = _ => set (cn := c) in H
    end;
    do 3 (inv_overlap H); inv_check H c; injection H as <-.
  all: assert (validNumbers L c) as Hnum;
    [ unfold validNumbers;
      split; [zbools; lia |];
      split; [zbools; lia |];
      split; [by eapply Mirror_ok |];
      split; [zbools; lia |];
      split; [by eapply not_both_false |];
      split; [by eapply Version_ok |];
      split; [by eapply Keepalive_ok |];
      split; [by eapply Keepalive_ok |];
      by eapply RevProxy_ok
    | ].
  all: assert (durationsParse L c) as Hdp;
    [unfold durationsParse; repeat split; eexists; eassumption |].
  all: assert (portsParse L c) as Hpp;
    [unfold portsParse; split; [solve_parses |]; split; solve_parses |].
  all: assert (addressesDisjoint L c) as Had;
    [unfold addressesDisjoint; cbv zeta; repeat split; assumption |].
  all: split; [done |].
  all: split; [exact Hnum |].
  all: split; [unfold durationsParsed; repeat split; assumption |].
  all: unfold networkChecked.
  all: split; [assumption |].
  all: split; [solve_port |].
  all: split; [solve_port |].
  all: repeat split; assumption.
Qed.

Lemma validateConfig_inv L c c' :
  validateConfig L c = (None, c') →
  validNumbers L c ∧ validNumbers L c' ∧ durationsParsed L c' ∧ networkChecked L c'.
Proof. intros H. by apply validateConfig_inv_full in H as ((? & _) & ? & ? & ?). Qed.

(** X16: the configuration that [validateConfig] leaves when it reports no
    error has its numbers and names within their bounds, every duration
    equal to what its string parses to, every port equal to what its string
    parses to (0 for an intra-cluster port that is not set), and address
    lists of which no two overlap. *)
Theorem validateConfig_accepted L c c' :
  validateConfig L c = (None, c') →
  validNumbers L c' ∧ durationsParsed L c' ∧ networkChecked L c'.
Proof. intros H. by apply validateConfig_inv in H as (_ & ? & ? & ?). Qed.

(** *** What the validation accepts *)

Lemma parseDur_fwd L str set mkerr k c v :
  ParseDuration L (str c) = Some v → parseDur L str set mkerr k c = k (set v c).
Proof. unfold parseDur. by intros ->. Qed.

Lemma check_fwd bad e k c : bad c = false → check bad e k c = k c.
Proof. unfold check. by intros ->. Qed.

Lemma noOverlap_fwd L alist blist which k c :
  (ipv4ListsOverlap L (alist c) (blist c)).1 = false →
  noOverlap L alist blist which k c = k c.
Proof.
  unfold noOverlap. destruct (ipv4ListsOverlap L (alist c) (blist c)) as [[] addr]; done.
Qed.

Lemma parsePort_req L str set e k c p :
  ParsePort L (str c) = (p, true) → parsePort L str set false e k c = k (set p c).
Proof. unfold parsePort. cbn [andb]. by intros ->. Qed.

Lemma parsePort_unset L str set e k c :
  str c = "" → parsePort L str set true e k c = k (set 0 c).
Proof. unfold parsePort. cbn [andb]. by intros ->. Qed.

Lemma parsePort_opt L str set e k c p :
  str c ≠ "" → ParsePort L (str c) = (p, true) →
  parsePort L str set true e k c = k (set p (set 0 c)).
Proof.
  unfold parsePort. cbn [andb]. intros Hne ->. by apply String.eqb_neq in Hne as ->.
Qed.

Lemma ValidateVersion_complete L v :
  v ∈ [VersionAll L; VersionCloud L; VersionLocal L; VersionNone L] →
  ValidateVersion L v = None.
Proof.
  intros Hin. unfold ValidateVersion.
  replace (existsb _ _) with true; [done |]. symmetry. apply existsb_exists.
  exists v. split; [by apply list_elem_of_In | apply String.eqb_refl].
Qed.

Lemma validKeepaliveType_complete t :
  t ∈ ["heartbeat"; "average"] → negb (validKeepaliveType t) = false.
Proof.
  intros Hin. apply negb_false_iff. unfold validKeepaliveType.
  repeat (apply elem_of_cons in Hin as [-> | Hin]); [done | done |].
  by apply elem_of_nil in Hin.
Qed.

Lemma RevProxy_complete (x : string) :
  x ∈ [""; "cloud"; "target"] →
  negb (String.eqb x "") && negb (String.eqb x RevProxyCloud) &&
  negb (String.eqb x RevProxyTarget) = false.
Proof.
  intros Hin. repeat (apply elem_of_cons in Hin as [-> | Hin]); [done | done | done |].
  by apply elem_of_nil in Hin.
Qed.

Ltac fwd_dur D :=
  match goal with
  | |- ∃ c', parseDur ?L ?s ?st ?e ?k ?c = _ =>
      let v := fresh "v" in
      let c1 := fresh "c" in
      destruct D as [v D];
      rewrite (parseDur_fwd L s st e k c v D);
      set (c1 := st v c)
  end.

Ltac fwd_check c0 :=
  match goal with
  | |- ∃ c', check ?b ?e ?k ?c = _ =>
      let Hb := fresh "Hb" in
      assert (b c0 = false) as Hb;
      [cbv beta zeta | rewrite (check_fwd b e k c Hb)]
  end.

Ltac orbs_false :=
  rewrite ?Z.gtb_ltb;
  repeat (apply orb_false_iff; split);
  first [apply Z.leb_gt | apply Z.ltb_ge]; lia.

Lemma validateConfig_complete L config :
  validNumbers L config → durationsParse L config → portsParse L config →
  addressesDisjoint L config →
  ∃ config', validateConfig L config = (None, config').
Proof.
  intros ((? & ? & ? & ?) & ((? & ?) & ?) & Hmir & (? & ? & ?) & Hck & Hver & Hkp & Hkt & Hrp)
         (D1 & D2 & D3 & D4 & D5 & D6 & D7 & D8 & D9 & D10 & D11 & D12 & D13 & D14 & D15)
         (P1 & P2 & P3) (O1 & O2 & O3).
  unfold validateConfig.
  fwd_dur D1. fwd_dur D2. fwd_dur D3. fwd_dur D4. fwd_dur D5. fwd_dur D6.
  fwd_check config; [orbs_false |].
  fwd_check config; [orbs_false |].
  fwd_check config.
  { destruct (Mirror_Enabled (Mirror config)); [| done]. cbn.
    apply negb_false_iff, Z.eqb_eq. auto. }
  fwd_check config; [orbs_false |].
  fwd_check config.
  { destruct Hck as [-> | ->]; rewrite String.eqb_refl; cbn; [done | apply andb_false_r]. }
  fwd_check config; [by rewrite ValidateVersion_complete |].
  fwd_dur D7. fwd_dur D8. fwd_dur D9. fwd_dur D10. fwd_dur D11. fwd_dur D12.
  fwd_dur D13. fwd_dur D14. fwd_dur D15.
  fwd_check config; [by apply validKeepaliveType_complete |].
  fwd_check config; [by apply validKeepaliveType_complete |].
  destruct (ParsePort L (PortStr (L4 (Net config)))) as [p1 b1] eqn:E1.
  cbn [snd] in P1. subst b1.
  match goal with
  | |- ∃ c', parsePort ?L ?s ?st _ ?e ?k ?c = _ =>
      rewrite (parsePort_req L s st e k c p1 E1); set (cp1 := st p1 c)
  end.
  destruct (ParsePort L (PortIntraControlStr (L4 (Net config)))) as [p2 b2] eqn:E2.
  destruct (ParsePort L (PortIntraDataStr (L4 (Net config)))) as [p3 b3] eqn:E3.
  cbn [snd] in P2, P3.
  destruct (decide (PortIntraControlStr (L4 (Net config)) = "")) as [S2 | S2];
    [| specialize (P2 S2); subst b2];
    (destruct (decide (PortIntraDataStr (L4 (Net config)) = "")) as [S3 | S3];
     [| specialize (P3 S3); subst b3]).
  all: match goal with
       | |- ∃ c', parsePort ?L ?s ?st _ ?e ?k ?c = _ =>
           first [ rewrite (parsePort_unset L s st e k c S2); set (cp2 := st 0 c)
                 | rewrite (parsePort_opt L s st e k c p2 S2 E2); set (cp2 := st p2 (st 0 c)) ]
       end.
  all: match goal with
       | |- ∃ c', parsePort ?L ?s ?st _ ?e ?k ?c = _ =>
           first [ rewrite (parsePort_unset L s st e k c S3); set (cp3 := st 0 c)
                 | rewrite (parsePort_opt L s st e k c p3 S3 E3); set (cp3 := st p3 (st 0 c)) ]
       end.
  all: cbv beta;
    match goal with
    | |- ∃ c', noOverlap _ _ _ _ _ ?c = _ => set (cn := c)
    end.
  all: match goal with
       | |- ∃ c', noOverlap ?L ?a ?b ?w ?k ?c = _ => rewrite (noOverlap_fwd L a b w k c O1)
       end.
  all: match goal with
       | |- ∃ c', noOverlap ?L ?a ?b ?w ?k ?c = _ => rewrite (noOverlap_fwd L a b w k c O2)
       end.
  all: match goal with
       | |- ∃ c', noOverlap ?L ?a ?b ?w ?k ?c = _ => rewrite (noOverlap_fwd L a b w k c O3)
       end.
  all: fwd_check config; [by apply RevProxy_complete |].
  all: by eexists.
Qed.

(** X17: [validateConfig] reports no error exactly on the configurations
    whose numbers and names are within their bounds, whose duration strings
    all parse, whose port strings parse (the intra-cluster ones when they
    are set), and whose address lists, spaces removed, do not overlap. *)
Theorem validateConfig_accepts_exactly L config :
  (∃ config', validateConfig L config = (None, config')) ↔
  validNumbers L config ∧ durationsParse L config ∧ portsParse L config ∧
  addressesDisjoint L config.
Proof.
  split.
  - intros [config' H]. by apply validateConfig_inv_full in H as (? & _).
  - intros (? & ? & ? & ?). by apply validateConfig_complete.
Qed.

(** *** Address lists *)

Lemma prefix_app a : ∀ s, String.prefix a s = true ↔ ∃ post, s = a +:+ post.
Proof.
  induction a as [|x a IH]; intros s.
  - split; [intros _; by exists s | by destruct s].
  - destruct s as [|y s]; cbn.
    + split; [done | by intros [post ?]].
    + destruct (Ascii.ascii_dec x y) as [-> | Hne].
      * rewrite IH. split; intros [post E]; exists post; [by rewrite E | by injection E].
      * split; [done | intros [post E]; by injection E].
Qed.

Lemma Contains_spec sub : ∀ s,
  Contains s sub = true ↔ ∃ pre post, s = pre +:+ sub +:+ post.
Proof.
  induction s as [|y s IH]; cbn [Contains].
  - rewrite orb_false_r, prefix_app. split.
    + intros [post E]. by exists "", post.
    + intros (pre & post & E). destruct pre; [by exists post |]. done.
  - rewrite orb_true_iff, prefix_app, IH. split.
    + intros [[post E] | (pre & post & E)].
      * by exists "", post.
      * exists (String y pre), post. by rewrite E.
    + intros (pre & post & E). destruct pre as [|z pre].
      * left. by exists post.
      * right. injection E as -> E. by exists pre, post.
Qed.

Lemma SplitComma_nonempty s : SplitComma s ≠ [].
Proof.
  destruct s as [|a s]; [done |]. cbn. destruct (Ascii.eqb a comma); [done |].
  by destruct (SplitComma s).
Qed.

Lemma SplitComma_head s :
  ∃ y ys post, SplitComma s = y :: ys ∧ s = y +:+ post.
Proof.
  induction s as [|a s (y & ys & post & E & Hs)]; cbn [SplitComma].
  - by exists "", [], "".
  - destruct (Ascii.eqb a comma).
    + by exists "", (SplitComma s), (String a s).
    + rewrite E. exists (String a y), ys, post. by rewrite Hs at 1.
Qed.

Lemma SplitComma_elem x : ∀ s, x ∈ SplitComma s → ∃ pre post, s = pre +:+ x +:+ post.
Proof.
  induction s as [|a s IH]; cbn [SplitComma].
  - intros ->%list_elem_of_singleton. by exists "", "".
  - destruct (Ascii.eqb a comma) eqn:Ea.
    + intros [-> | Hin]%elem_of_cons.
      * by exists "", (String a s).
      * destruct (IH Hin) as (pre & post & ->). by exists (String a pre), post.
    + destruct (SplitComma_head s) as (y & ys & post & E & Hs). rewrite E in IH |- *.
      intros [-> | Hin]%elem_of_cons.
      * exists "", post. by rewrite Hs at 1.
      * destruct (IH ltac:(by right)) as (pre & post' & ->). by exists (String a pre), post'.
Qed.

Lemma firstOverlap_spec L blist : ∀ addrs,
  let r := firstOverlap L addrs blist in
  (r.1 = true ↔
     ∃ a, a ∈ addrs ∧ TrimSpace L a ≠ "" ∧ Contains blist (TrimSpace L a) = true) ∧
  (r.1 = true →
     ∃ a, a ∈ addrs ∧ r.2 = TrimSpace L a ∧ r.2 ≠ "" ∧ Contains blist r.2 = true) ∧
  (r.1 = false → r.2 = "").
Proof.
  induction addrs as [|a rest IH]; cbn zeta; cbn [firstOverlap].
  - split; [| done]. split; [done | by intros (a & ?%elem_of_nil & _)].
  - cbn zeta in IH. destruct IH as (IH1 & IH2 & IH3).
    destruct (String.eqb_spec (TrimSpace L a) "") as [E | E].
    + split; [| split; [| done]].
      * rewrite IH1. split.
        -- intros (x & Hx & ?). exists x. split; [by right | done].
        -- intros (x & [-> | Hx]%elem_of_cons & Hne & Hc); [done |]. by exists x.
      * intros H. destruct (IH2 H) as (x & Hx & ?). exists x. split; [by right | done].
    + destruct (Contains blist (TrimSpace L a)) eqn:Ec.
      * split; [| split; [| done]].
        -- split; [| done]. intros _. exists a. split; [by left | done].
        -- intros _. exists a. split; [by left | done].
      * split; [| split; [| done]].
        -- rewrite IH1. split.
           ++ intros (x & Hx & ?). exists x. split; [by right | done].
           ++ intros (x & [-> | Hx]%elem_of_cons & Hne & Hc); [congruence |]. by exists x.
        -- intros H. destruct (IH2 H) as (x & Hx & ?). exists x. split; [by right | done].
Qed.

Lemma string_app_assoc (a b c : string) : (a +:+ b) +:+ c = a +:+ (b +:+ c).
Proof.
  induction a as [|x a IH]; [done |].
  change (String x ((a +:+ b) +:+ c) = String x (a +:+ (b +:+ c))). by f_equal.
Qed.

Lemma Contains_trans s t u :
  Contains s t = true → Contains t u = true → Contains s u = true.
Proof.
  rewrite !Contains_spec. intros (p1 & q1 & ->) (p2 & q2 & ->).
  exists (p1 +:+ p2)%string, (q2 +:+ q1)%string.
  by rewrite !string_app_assoc.
Qed.

Lemma Contains_empty t : Contains "" t = true → t = "".
Proof. cbn. rewrite orb_false_r. by destruct t. Qed.

(** X18: [ipv4ListsOverlap] reports an overlap exactly when both lists are
    non-empty and some comma-separated address of the first, trimmed and
    not empty, occurs as a substring of the second; the address it returns
    is such an address, and it is empty when there is no overlap. With a
    [TrimSpace] that returns a part of its argument, an address that both
    lists have as an element is never missed. *)
Theorem ipv4ListsOverlap_spec L alist blist :
  let r := ipv4ListsOverlap L alist blist in
  (r.1 = true ↔
     alist ≠ "" ∧ blist ≠ "" ∧
     ∃ a, a ∈ SplitComma alist ∧ TrimSpace L a ≠ "" ∧
          ∃ pre post, blist = pre +:+ TrimSpace L a +:+ post) ∧
  (r.1 = true →
     ∃ a, a ∈ SplitComma alist ∧ r.2 = TrimSpace L a ∧ r.2 ≠ "" ∧
          Contains blist r.2 = true) ∧
  (r.1 = false → r.2 = "") ∧
  ((∀ s, Contains s (TrimSpace L s) = true) →
   ∀ a, a ∈ SplitComma alist → a ∈ SplitComma blist → TrimSpace L a ≠ "" → r.1 = true).
Proof.
  cbn zeta. unfold ipv4ListsOverlap.
  assert (∀ a s, (∀ s, Contains s (TrimSpace L s) = true) →
                 a ∈ SplitComma s → TrimSpace L a ≠ "" → s ≠ "") as Hnonempty.
  { intros a s HT Ha Hne ->. cbn in Ha. apply list_elem_of_singleton in Ha as ->.
    by apply Hne, Contains_empty. }
  destruct (String.eqb_spec alist "") as [Ea | Ea]; cbn [orb].
  { split; [| split; [done | split; [done |]]].
    - split; [done | by intros (? & _)].
    - intros HT a Ha _ Hne. by destruct (Hnonempty a alist). }
  destruct (String.eqb_spec blist "") as [Eb | Eb].
  { split; [| split; [done | split; [done |]]].
    - split; [done | by intros (_ & ? & _)].
    - intros HT a _ Hb Hne. by destruct (Hnonempty a blist). }
  destruct (firstOverlap_spec L blist (SplitComma alist)) as (H1 & H2 & H3).
  split; [| split; [done | split; [done |]]].
  - rewrite H1. split.
    + intros (a & Ha & Hne & Hc). do 2 (split; [done |]). exists a.
      by rewrite <- Contains_spec.
    + intros (_ & _ & a & Ha & Hne & Hc). exists a. by rewrite Contains_spec.
  - intros HT a Ha Hb Hne. apply H1. exists a. do 2 (split; [done |]).
    apply (Contains_trans _ a); [| done].
    apply Contains_spec. by apply SplitComma_elem.
Qed.

(** *** Updates *)

Ltac knob_cases :=
  unfold setKnob, setDur, setInt, setBool, SetLogLevel;
  repeat match goal with
         | |- context [if isOneOf ?n ?l then _ else _] => destruct (isOneOf n l)
         end.

Lemma setKnob_error L c name value e :
  (setKnob L c name value).1 = Some e → (setKnob L c name value).2 = c.
Proof.
  knob_cases; repeat (case_match; simplify_eq); cbn [fst snd]; done.
Qed.

Lemma setKnob_readonly L c name value :
  readonly (setKnob L c name value).2 = readonly c.
Proof.
  knob_cases; repeat (case_match; simplify_eq); reflexivity.
Qed.

Lemma setKnob_durations L c name value :
  durationsParsed L c → durationsParsed L (setKnob L c name value).2.
Proof.
  intros H.
  knob_cases; repeat (case_match; simplify_eq); cbn [snd];
    first [exact H | unfold durationsParsed in *; cbn; intuition].
Qed.

Lemma isOneOf_sub name l l' :
  forallb (λ x, isOneOf x l') l = true → isOneOf name l = true → isOneOf name l' = true.
Proof.
  intros Hsub (x & Hin & Hx)%existsb_exists. apply String.eqb_eq in Hx as ->.
  by apply (proj1 (forallb_forall _ _) Hsub).
Qed.

Lemma setKnob_watermarks L c name value :
  isOneOf name watermarkNames = false →
  let c' := (setKnob L c name value).2 in
  LowWM (LRU c') = LowWM (LRU c) ∧ HighWM (LRU c') = HighWM (LRU c) ∧
  DiskUtilLowWM (Xaction c') = DiskUtilLowWM (Xaction c) ∧
  DiskUtilHighWM (Xaction c') = DiskUtilHighWM (Xaction c).
Proof.
  intros Hn. cbn zeta.
  assert (∀ l, forallb (λ x, isOneOf x watermarkNames) l = true →
               isOneOf name l = false) as Hl.
  { intros l Hsub. destruct (isOneOf name l) eqn:E; [| done].
    by rewrite (isOneOf_sub name l watermarkNames Hsub E) in Hn. }
  assert (isOneOf name ["lowwm"; "lru.lowwm"] = false) as E1 by by apply Hl.
  assert (isOneOf name ["highwm"; "lru.highwm"] = false) as E2 by by apply Hl.
  assert (isOneOf name ["disk_util_low_wm"; "xaction.disk_util_low_wm"] = false) as E3
    by by apply Hl.
  assert (isOneOf name ["disk_util_high_wm"; "xaction.disk_util_high_wm"] = false) as E4
    by by apply Hl.
  clear Hn Hl. unfold setKnob. rewrite E1, E2, E3, E4. clear E1 E2 E3 E4.
  unfold setDur, setInt, setBool, SetLogLevel.
  repeat match goal with
         | |- context [if isOneOf ?n ?l then _ else _] => destruct (isOneOf n l)
         end; repeat (case_match; simplify_eq); done.
Qed.

Lemma setConfig_knob L c name value :
  (setConfig L c name value).2 = (setKnob L c name value).2.
Proof. unfold setConfig. by repeat case_match. Qed.

Lemma setConfig_ok L c name value :
  (setConfig L c name value).1 = None → watermarksChecked (setConfig L c name value).2.
Proof.
  unfold setConfig. destruct (setKnob L c name value) as [[e|] c']; [done |].
  cbn [fst snd]. unfold watermarksChecked.
  repeat case_match; try done. intros _. zbools. lia.
Qed.

Lemma setConfig_error L c name value e :
  (setConfig L c name value).1 = Some e →
  (setConfig L c name value).2 = c ∨
  ∃ hwm lwm, e = ErrInvalidLRUWM hwm lwm ∨ e = ErrInvalidXactionWM hwm lwm.
Proof.
  unfold setConfig. destruct (setKnob L c name value) as [[e'|] c'] eqn:E.
  - intros _. left. cbn. by rewrite <- (setKnob_error L c name value e'); rewrite E.
  - cbn [fst snd]. repeat case_match; intros; simplify_eq; right; eauto.
Qed.

(** X19: [setConfig] reports no error only if afterwards both pairs of
    watermarks satisfy 0 < low <= high <= 100. An error other than the two
    watermark errors leaves the configuration as it was. On a configuration
    whose watermarks are not within these bounds every update of something
    else is refused. The fields outside its cases are never changed, and
    durations that agree with their strings still do afterwards. *)
Theorem setConfig_checks_watermarks L config name value :
  let r := setConfig L config name value in
  (r.1 = None → watermarksChecked r.2) ∧
  (∀ e, r.1 = Some e →
        r.2 = config ∨ ∃ hwm lwm, e = ErrInvalidLRUWM hwm lwm ∨ e = ErrInvalidXactionWM hwm lwm) ∧
  (¬ watermarksChecked config → isOneOf name watermarkNames = false → r.1 ≠ None) ∧
  readonly r.2 = readonly config ∧
  (durationsParsed L config → durationsParsed L r.2).
Proof.
  cbn zeta. split; [apply setConfig_ok |]. split; [apply setConfig_error |].
  split; [| split].
  - intros Hbad Hname Hok. apply Hbad. apply setConfig_ok in Hok.
    rewrite setConfig_knob in Hok.
    destruct (setKnob_watermarks L config name value Hname) as (E1 & E2 & E3 & E4).
    unfold watermarksChecked in *. by rewrite E1, E2, E3, E4 in Hok.
  - rewrite setConfig_knob. apply setKnob_readonly.
  - rewrite setConfig_knob. apply setKnob_durations.
Qed.

(** *** Updates by a map *)




(** *** The two validations *)

Lemma wm_check_passes lwm hwm :
  0 < lwm → lwm ≤ hwm → hwm ≤ 100 →
  (hwm <=? 0) || (lwm <=? 0) || (hwm <? lwm) || (lwm >? 100) || (hwm >? 100) = false.
Proof.
  intros. rewrite !Z.gtb_ltb.
  repeat (apply orb_false_iff; split); first [apply Z.leb_gt | apply Z.ltb_ge]; lia.
Qed.

Lemma setInt_watermarks_ok L c name value v set :
  setKnob L c name value = setInt L name value set c →
  Atoi L value = Some v →
  watermarksChecked (set v c) →
  setConfig L c name value = (None, set v c).
Proof.
  intros Hk Ha ((? & ? & ?) & (? & ? & ?)). unfold setConfig. rewrite Hk. unfold setInt.
  rewrite Ha. cbn zeta. by rewrite !wm_check_passes.
Qed.

Lemma validateConfig_rejects L c :
  ¬ validNumbers L c → ∀ c', validateConfig L c ≠ (None, c').
Proof. intros Hbad c' H. by apply validateConfig_inv in H as (? & _). Qed.

(** X21: [setConfig] accepts updates that [validateConfig] would refuse.
    On a configuration with valid numbers it takes a disk utilization high
    watermark equal to the low one, an LRU high watermark above the
    out-of-space mark, and a negative mirror burst; the configuration it
    leaves is then one that [validateConfig] reports an error for. *)
Theorem setConfig_weaker_than_validateConfig L config value v :
  validNumbers L config →
  Atoi L value = Some v →
  let accepted_then_rejected name :=
    (setConfig L config name value).1 = None ∧
    ∀ c', validateConfig L (setConfig L config name value).2 ≠ (None, c') in
  (v = DiskUtilLowWM (Xaction config) → accepted_then_rejected "disk_util_high_wm") ∧
  (OOS (LRU config) < v ≤ 100 → accepted_then_rejected "highwm") ∧
  (v < 0 → accepted_then_rejected "mirror_burst_buffer").
Proof.
  intros Hv Ha. cbn zeta.
  destruct Hv as ((? & ? & ? & ?) & (? & ?) & _ & (? & ? & ?) & _).
  split; [| split].
  - intros ->.
    erewrite (setInt_watermarks_ok L config "disk_util_high_wm" value); [| reflexivity | done |].
    + split; [done |]. apply validateConfig_rejects. unfold validNumbers. cbn. lia.
    + unfold watermarksChecked. cbn. lia.
  - intros Hoos.
    erewrite (setInt_watermarks_ok L config "highwm" value); [| reflexivity | done |].
    + split; [done |]. apply validateConfig_rejects. unfold validNumbers. cbn. lia.
    + unfold watermarksChecked. cbn. lia.
  - intros Hneg.
    erewrite (setInt_watermarks_ok L config "mirror_burst_buffer" value); [| reflexivity | done |].
    + split; [done |]. apply validateConfig_rejects. unfold validNumbers. cbn. lia.
    + unfold watermarksChecked. cbn. lia.
Qed.

End cmn_facts.

(** *** Loading *)

Lemma plane_used (ip ipx : string) (port portx : Z) :
  negb (String.eqb ipx "") && negb (portx =? 0) &&
    (negb (String.eqb ip ipx) || negb (port =? portx)) = true ↔
  ipx ≠ "" ∧ portx ≠ 0 ∧ (ip ≠ ipx ∨ port ≠ portx).
Proof.
  rewrite !andb_true_iff, orb_true_iff, !negb_true_iff.
  rewrite !String.eqb_neq, !Z.eqb_neq. tauto.
Qed.

(** X22: when [LoadConfig] returns, the configuration was loaded, the log
    directory was set and created, and the validation passed. The
    configuration it commits is still valid; its protocol is https exactly
    when HTTPS is to be used; an intra-cluster network is in use exactly
    when its address and port are set and differ from the public ones in
    address or port; every override of the command line is in it, and
    [changed] is returned exactly when there was one; the log level in it
    is one the logger took; the maximal log size is that of the
    configuration, or 1MB when that is above 1GB. Without an override of
    the statistics period the durations agree with their strings. *)
Theorem LoadConfig_loaded L clivars loaded changed config maxSize :
  cmn.LoadConfig L clivars loaded = Some (changed, config, maxSize) →
  (∃ c0 c1, loaded = Some c0 ∧ cmn.validateConfig L c0 = (None, c1) ∧
            cmn.flagSetLogDir L (cmn.Dir (cmn.Log c0)) = true ∧
            cmn.CreateDir L (cmn.Dir (cmn.Log c0)) = true) ∧
  cmn.validNumbers L config ∧ cmn.networkChecked L config ∧
  (cmn.CLI_StatsTime clivars = 0 → cmn.durationsParsed L config) ∧
  cmn.HTTP_Proto (cmn.HTTP (cmn.Net config))
    = (if cmn.UseHTTPS (cmn.HTTP (cmn.Net config)) then "https" else "http") ∧
  (cmn.UseIntraControl (cmn.Net config) = true ↔
     cmn.IPv4IntraControl (cmn.Net config) ≠ "" ∧
     cmn.PortIntraControl (cmn.L4 (cmn.Net config)) ≠ 0 ∧
     (cmn.IPv4 (cmn.Net config) ≠ cmn.IPv4IntraControl (cmn.Net config) ∨
      cmn.Port (cmn.L4 (cmn.Net config)) ≠ cmn.PortIntraControl (cmn.L4 (cmn.Net config)))) ∧
  (cmn.UseIntraData (cmn.Net config) = true ↔
     cmn.IPv4IntraData (cmn.Net config) ≠ "" ∧
     cmn.PortIntraData (cmn.L4 (cmn.Net config)) ≠ 0 ∧
     (cmn.IPv4 (cmn.Net config) ≠ cmn.IPv4IntraData (cmn.Net config) ∨
      cmn.Port (cmn.L4 (cmn.Net config)) ≠ cmn.PortIntraData (cmn.L4 (cmn.Net config)))) ∧
  (changed = true ↔
     cmn.CLI_StatsTime clivars ≠ 0 ∨ cmn.ProxyURL clivars ≠ "" ∨ cmn.LogLevel clivars ≠ "") ∧
  (cmn.CLI_StatsTime clivars ≠ 0 →
     cmn.StatsTime (cmn.Periodic config) = cmn.CLI_StatsTime clivars) ∧
  (cmn.ProxyURL clivars ≠ "" →
     cmn.PrimaryURL (cmn.Proxy config) = cmn.ProxyURL clivars) ∧
  (cmn.LogLevel clivars ≠ "" → cmn.Level (cmn.Log config) = cmn.LogLevel clivars) ∧
  cmn.flagSetV L (cmn.Level (cmn.Log config)) = true ∧
  (maxSize = cmn.MaxSize (cmn.Log config) ∧ maxSize ≤ cmn.GiB L ∨
   maxSize = cmn.MiB L ∧ cmn.GiB L < cmn.MaxSize (cmn.Log config)).
Proof.
  unfold cmn.LoadConfig. destruct loaded as [c0|]; [| done].
  destruct (cmn.flagSetLogDir L _) eqn:Hdir; [| done].
  destruct (cmn.CreateDir L _) eqn:Hmk; [| done]. cbn [negb].
  destruct (cmn.validateConfig L c0) as [[e|] c1] eqn:Hval; [done |].
  apply validateConfig_inv in Hval as Hinv. destruct Hinv as (_ & Hnum & Hdur & Hnet).
  cbv zeta.
  destruct (Z.eqb_spec (cmn.CLI_StatsTime clivars) 0) as [Est | Est];
    destruct (String.eqb_spec (cmn.ProxyURL clivars) "") as [Epu | Epu];
    destruct (String.eqb_spec (cmn.LogLevel clivars) "") as [Ell | Ell];
    cbn [negb]; unfold cmn.SetLogLevel.
  all: match goal with
       | |- context [cmn.flagSetV ?L' ?l] => destruct (cmn.flagSetV L' l) eqn:Hv; [| done]
       end.
  all: match goal with
       | |- Some (_, ?cf, _) = _ → _ => set (cfg := cf)
       end.
  all: intros [= <- <- <-].
  all: split; [by exists c0, c1 |].
  all: split; [exact Hnum |].
  all: split; [exact Hnet |].
  all: split; [first [intros _; exact Hdur | done] |].
  all: split; [reflexivity |].
  all: split; [apply plane_used |].
  all: split; [apply plane_used |].
  all: split; [split; [first [done | intros _; tauto] | first [done | intros [?|[?|?]]; done]] |].
  all: split; [done |].
  all: split; [done |].
  all: split; [done |].
  all: split; [exact Hv |].
  all: cbn; destruct (Z.gtb_spec (cmn.MaxSize (cmn.Log c1)) (cmn.GiB L)); [right | left]; lia.
Qed.

(** *** The sample configuration *)

Lemma validateConfig_accepted_witness :
  cmn.validNumbers sampleLib sampleValidated ∧
  cmn.durationsParsed sampleLib sampleValidated ∧
  cmn.networkChecked sampleLib sampleValidated.
Proof.
  apply (validateConfig_accepted sampleLib sampleConfig sampleValidated).
  vm_compute. reflexivity.
Defined.

Lemma setConfig_weaker_than_validateConfig_witness :
  (cmn.setConfig sampleLib sampleValidated "disk_util_high_wm" "20").1 = None ∧
  ∀ c', cmn.validateConfig sampleLib
          (cmn.setConfig sampleLib sampleValidated "disk_util_high_wm" "20").2 ≠ (None, c').
Proof.
  assert (cmn.validateConfig sampleLib sampleConfig = (None, sampleValidated)) as Hv
    by (vm_compute; reflexivity).
  apply validateConfig_inv in Hv as (_ & Hnum & _).
  assert (cmn.Atoi sampleLib "20" = Some 20) as Ha by (vm_compute; reflexivity).
  assert (20 = cmn.DiskUtilLowWM (cmn.Xaction sampleValidated)) as Hl by reflexivity.
  exact (proj1 (setConfig_weaker_than_validateConfig sampleLib sampleValidated "20" 20 Hnum Ha)
               Hl).
Defined.

Lemma LoadConfig_loaded_witness :
  ∃ config maxSize,
    cmn.LoadConfig sampleLib sampleCLI (Some sampleConfig) = Some (true, config, maxSize) ∧
    cmn.validNumbers sampleLib config ∧
    cmn.StatsTime (cmn.Periodic config) = 5000000000.
Proof.
  destruct (cmn.LoadConfig sampleLib sampleCLI (Some sampleConfig))
    as [[[changed config] maxSize]|] eqn:E; [| by vm_compute in E].
  assert (changed = true) as -> by (vm_compute in E; congruence).
  exists config, maxSize. split; [done |].
  destruct (LoadConfig_loaded sampleLib sampleCLI (Some sampleConfig) true config maxSize E)
    as (_ & Hnum & _ & _ & _ & _ & _ & _ & Hst & _).
  split; [exact Hnum |]. by apply Hst.
Defined.
